(** * FLE: the Factorio server control plane

    A shallow embedding of [fle/factorio_server/rcon.py],
    [fle/factorio_server/world.py] and
    [fle/factorio_server/factorio_server.py], and the properties the
    design document states about them (C1 to C10); then of the belt
    placement problem built on them
    ([fle/environments/logistics_belt_placement_problem/encoding.py],
    [problems.py] and [evaluator.py]), with further properties of all
    six files read off the code (X1 to X30).

    Conventions.
    - Python [int] is [Z]; a byte is a [Z] in [[0, 256)]; [bytes] is
      [list Z].
    - On the wire, where UTF-8 matters, a [str] is the list of its code
      points; in the bridge and the supervisor, where text is only
      built, compared and searched, it is a [string].
    - What the outside world does (the server's bytes, the engine's
      replies, its log, the clock, the failures of the operating
      system) is an argument of the function that meets it.
    - A coroutine that may raise returns [res A]: [Ok a] or [Raise e].
    - [dict] is stdpp's [gmap]; objects shared by reference (asyncio
      futures, the table of expected responses) live in explicit stores. *)

From Stdlib Require Import ZArith Lia List Ascii String QArith Qround.
From stdpp Require Import base option list gmap strings pretty.

Local Open Scope Z_scope.

(** ** Exceptions and results *)

Inductive exn : Type :=
| StructError            (* struct.error *)
| UnicodeEncodeError
| UnicodeDecodeError
| ValueError
| IncompleteReadError    (* asyncio.IncompleteReadError *)
| AssertionError
| InvalidStateError      (* asyncio.InvalidStateError *)
| KeyError
| RCONAuthFailure
| TimeoutError
| ConnectionRefusedError
| NotImplementedError
| RpcException (message : string)
| FileNotFoundError
| ProcessLookupError
| JSONDecodeError
| StructureError         (* any error of cattrs' structure *)
| SameFileError          (* shutil.SameFileError *)
| PlainException (message : string).  (* raise Exception("...") *)

Inductive res (A : Type) : Type :=
| Ok (a : A)
| Raise (e : exn).
Arguments Ok {A} a.
Arguments Raise {A} e.

Definition rbind {A B} (r : res A) (k : A -> res B) : res B :=
  match r with
  | Ok a => k a
  | Raise e => Raise e
  end.

Notation "x <- r ;;; k" := (rbind r (fun x => k))
  (at level 100, r at next level, right associativity).

Definition is_ok {A} (r : res A) : bool :=
  match r with Ok _ => true | Raise _ => false end.

(** ** The wire format ([rcon.py], [_write_packet] and [_read_packet]) *)

Module Wire.

(** *** [struct.pack("<i", v)] and [struct.unpack("<i", b)] *)

Definition is_int32 (v : Z) : bool := (-2147483648 <=? v) && (v <=? 2147483647).

Definition is_byte (b : Z) : bool := (0 <=? b) && (b <? 256).

Definition le_bytes4 (u : Z) : list Z :=
  [u mod 256; (u / 256) mod 256; (u / 65536) mod 256; (u / 16777216) mod 256].

Definition pack_i (v : Z) : res (list Z) :=
  if is_int32 v then Ok (le_bytes4 (v mod 4294967296)) else Raise StructError.

Definition unsigned_le4 (b0 b1 b2 b3 : Z) : Z :=
  b0 + 256 * b1 + 65536 * b2 + 16777216 * b3.

Definition to_signed32 (u : Z) : Z :=
  if u <? 2147483648 then u else u - 4294967296.

Definition unpack_i (b0 b1 b2 b3 : Z) : Z := to_signed32 (unsigned_le4 b0 b1 b2 b3).

(** *** [str.encode("utf8")] and [bytes.decode("utf-8")] (strict) *)

Definition is_surrogate (c : Z) : bool := (55296 <=? c) && (c <=? 57343).

Definition utf8_encode_char (c : Z) : option (list Z) :=
  if c <? 0 then None
  else if c <? 128 then Some [c]
  else if c <? 2048 then Some [192 + c / 64; 128 + c mod 64]
  else if c <? 65536 then
    if is_surrogate c then None
    else Some [224 + c / 4096; 128 + (c / 64) mod 64; 128 + c mod 64]
  else if c <=? 1114111 then
    Some [240 + c / 262144; 128 + (c / 4096) mod 64;
          128 + (c / 64) mod 64; 128 + c mod 64]
  else None.

Fixpoint utf8_encode (s : list Z) : res (list Z) :=
  match s with
  | [] => Ok []
  | c :: s' =>
      match utf8_encode_char c with
      | None => Raise UnicodeEncodeError
      | Some bs => t <- utf8_encode s' ;;; Ok (bs ++ t)
      end
  end.

Definition is_cont (b : Z) : bool := (128 <=? b) && (b <=? 191).

Definition cp2 (b0 b1 : Z) : Z := (b0 - 192) * 64 + (b1 - 128).
Definition cp3 (b0 b1 b2 : Z) : Z :=
  (b0 - 224) * 4096 + (b1 - 128) * 64 + (b2 - 128).
Definition cp4 (b0 b1 b2 b3 : Z) : Z :=
  (b0 - 240) * 262144 + (b1 - 128) * 4096 + (b2 - 128) * 64 + (b3 - 128).

Definition ok2 (b0 b1 : Z) : bool :=
  (194 <=? b0) && (b0 <=? 223) && is_cont b1.
Definition ok3 (b0 b1 b2 : Z) : bool :=
  (224 <=? b0) && (b0 <=? 239) && is_cont b1 && is_cont b2
  && (2048 <=? cp3 b0 b1 b2) && negb (is_surrogate (cp3 b0 b1 b2)).
Definition ok4 (b0 b1 b2 b3 : Z) : bool :=
  (240 <=? b0) && (b0 <=? 244) && is_cont b1 && is_cont b2 && is_cont b3
  && (65536 <=? cp4 b0 b1 b2 b3) && (cp4 b0 b1 b2 b3 <=? 1114111).

Definition ocons (c : Z) (r : option (list Z)) : option (list Z) :=
  match r with Some s => Some (c :: s) | None => None end.

(** The strict decoder: shortest form only, no surrogates, nothing above
    U+10FFFF.  [None] stands for [UnicodeDecodeError]. *)
Fixpoint utf8_decode_opt (l : list Z) : option (list Z) :=
  match l with
  | [] => Some []
  | b0 :: t0 =>
      if (0 <=? b0) && (b0 <? 128) then ocons b0 (utf8_decode_opt t0)
      else
        match t0 with
        | [] => None
        | b1 :: t1 =>
            if b0 <? 224 then
              if ok2 b0 b1 then ocons (cp2 b0 b1) (utf8_decode_opt t1) else None
            else
              match t1 with
              | [] => None
              | b2 :: t2 =>
                  if b0 <? 240 then
                    if ok3 b0 b1 b2
                    then ocons (cp3 b0 b1 b2) (utf8_decode_opt t2) else None
                  else
                    match t2 with
                    | [] => None
                    | b3 :: t3 =>
                        if ok4 b0 b1 b2 b3
                        then ocons (cp4 b0 b1 b2 b3) (utf8_decode_opt t3)
                        else None
                    end
              end
        end
  end.

Definition utf8_decode (l : list Z) : res (list Z) :=
  match utf8_decode_opt l with
  | Some s => Ok s
  | None => Raise UnicodeDecodeError
  end.

(** *** Packets *)

Record _Packet : Type := mk_Packet {
  pkt_id : Z;
  type : Z;
  body : list Z   (* str *)
}.

Definition _SERVERDATA_AUTH : Z := 3.
Definition _SERVERDATA_AUTH_RESPONSE : Z := 2.
Definition _SERVERDATA_EXECCOMMAND : Z := 2.
Definition _SERVERDATA_RESPONSE_VALUE : Z := 0.

(** [_write_packet]: the bytes handed to [writer.write]. *)
Definition _write_packet (pkt : _Packet) : res (list Z) :=
  i <- pack_i (pkt_id pkt) ;;;
  t <- pack_i (type pkt) ;;;
  b <- utf8_encode (body pkt) ;;;
  let packet_bytes := (i ++ t) ++ b ++ [0; 0] in
  sz <- pack_i (Z.of_nat (length packet_bytes)) ;;;
  Ok (sz ++ packet_bytes).

(** [reader.readexactly(n)] on the bytes that arrive before end of file. *)
Definition readexactly (n : Z) (stream : list Z) : res (list Z * list Z) :=
  if n <? 0 then Raise ValueError
  else if Z.of_nat (length stream) <? n then Raise IncompleteReadError
  else Ok (take (Z.to_nat n) stream, drop (Z.to_nat n) stream).

(** [b[:-2]] *)
Definition drop_last2 (l : list Z) : list Z := take (length l - 2)%nat l.

Definition _read_packet (stream : list Z) : res (_Packet * list Z) :=
  hr <- readexactly (3 * 4) stream ;;;
  match hr with
  | ([s0; s1; s2; s3; i0; i1; i2; i3; t0; t1; t2; t3], stream1) =>
      let pkt_size := unpack_i s0 s1 s2 s3 in
      let pkt_id := unpack_i i0 i1 i2 i3 in
      let pkt_type := unpack_i t0 t1 t2 t3 in
      let bytes_already_read_for_id_and_type := 2 * 4 in
      let len_to_read := pkt_size - bytes_already_read_for_id_and_type in
      rr <- readexactly len_to_read stream1 ;;;
      let body_bytes := drop_last2 (fst rr) in
      s <- utf8_decode body_bytes ;;;
      Ok (mk_Packet pkt_id pkt_type s, snd rr)
  | _ => Raise StructError
  end.

(** A frame as the design document describes it: a little-endian int32
    length that counts everything after itself, an int32 id, an int32
    type, the body (text, so valid UTF-8) and two null bytes. *)
Definition well_formed_frame (b : list Z) : bool :=
  forallb is_byte b &&
  match b with
  | s0 :: s1 :: s2 :: s3 :: _ :: _ :: _ :: _ :: _ :: _ :: _ :: _ :: rest =>
      (unpack_i s0 s1 s2 s3 =? Z.of_nat (length rest) + 8)
      && bool_decide (drop (length rest - 2) rest = [0; 0])
      && bool_decide (is_Some (utf8_decode_opt (drop_last2 rest)))
  | _ => false
  end.

(** The packets [_write_packet] can put on the wire. *)
Definition encodable (pkt : _Packet) : bool :=
  is_int32 (pkt_id pkt) && is_int32 (type pkt) &&
  match utf8_encode (body pkt) with
  | Ok b => Z.of_nat (length b) + 10 <=? 2147483647
  | Raise _ => false
  end.

(** Sample data: a command packet whose body is not ASCII, and the frame
    the server sends to refuse a login. *)
Definition sample_packet : _Packet := mk_Packet 7 _SERVERDATA_EXECCOMMAND [104; 233; 8364].
Definition sample_frame : list Z :=
  [10; 0; 0; 0; 255; 255; 255; 255; 2; 0; 0; 0; 0; 0].

End Wire.

(** ** The protocol client ([rcon.py]) *)

Module RCON.
Import Wire.

Definition _MAX_32_BIT_SIGNED_INT : Z := 2 ^ 31 - 1.

(** An [asyncio] future: a single-assignment result slot. *)
Inductive fstate : Type :=
| Pending
| Done (p : _Packet)       (* set_result *)
| Failed (e : exn)         (* set_exception *)
| Cancelled.

Record _ExpectedResponse : Type := mk_ExpectedResponse {
  is_auth : bool;
  response_future : nat     (* address of the future *)
}.

(** One TCP stream: what [asyncio.open_connection] returns, with the
    reader task that [connect] starts on it. *)
Record connection : Type := mk_connection {
  inbox : list Z;             (* received, not yet consumed by the reader *)
  outbox : list Z;            (* written by the client *)
  closed : bool;              (* [writer.close()] was called *)
  reader_task : option nat    (* running [_consume_reader], and its dict *)
}.

(** The objects that the client, its reader tasks and its suspended
    senders share by reference, each addressed by its index. *)
Record event_loop : Type := mk_event_loop {
  futures : list fstate;
  dicts : list (gmap Z _ExpectedResponse);
  connections : list connection
}.

Definition set_futures (fs : list fstate) (h : event_loop) : event_loop :=
  mk_event_loop fs (dicts h) (connections h).
Definition set_dicts (ds : list (gmap Z _ExpectedResponse)) (h : event_loop) : event_loop :=
  mk_event_loop (futures h) ds (connections h).
Definition set_connections (cs : list connection) (h : event_loop) : event_loop :=
  mk_event_loop (futures h) (dicts h) cs.

Definition set_result (f : nat) (p : _Packet) (fs : list fstate) : res (list fstate) :=
  match fs !! f with
  | Some Pending => Ok (<[f := Done p]> fs)
  | _ => Raise InvalidStateError
  end.

Definition set_exception (f : nat) (e : exn) (fs : list fstate) : res (list fstate) :=
  match fs !! f with
  | Some Pending => Ok (<[f := Failed e]> fs)
  | _ => Raise InvalidStateError
  end.

Definition cancel (f : nat) (fs : list fstate) : list fstate :=
  match fs !! f with
  | Some Pending => <[f := Cancelled]> fs
  | _ => fs
  end.

Definition dict_values (tbl : gmap Z _ExpectedResponse) : list _ExpectedResponse :=
  map snd (map_to_list tbl).

(** [[r for r in expected_responses_by_request_id.values() if r.is_auth]] *)
Definition auth_responses (tbl : gmap Z _ExpectedResponse) : list _ExpectedResponse :=
  List.filter is_auth (dict_values tbl).

(** The body of the [while True] loop of [_consume_reader], once
    [_read_packet] has returned [pkt].  The reader only reads the dict
    and writes futures. *)
Definition dispatch (pkt : _Packet) (tbl : gmap Z _ExpectedResponse)
    (fs : list fstate) : res (list fstate) :=
  if (type pkt =? _SERVERDATA_AUTH_RESPONSE) && (pkt_id pkt =? -1) then
    let auth_responses := auth_responses tbl in
    if negb (length auth_responses =? 1)%nat then Raise AssertionError
    else
      match auth_responses with
      | r :: _ => set_exception (response_future r) RCONAuthFailure fs
      | [] => Raise AssertionError
      end
  else
    match tbl !! pkt_id pkt with
    | None => Ok fs     (* LOG.error, continue *)
    | Some expected_response =>
        if (type pkt =? _SERVERDATA_RESPONSE_VALUE) && is_auth expected_response
        then Ok fs      (* the empty packet Factorio sends before the auth response *)
        else set_result (response_future expected_response) pkt fs
    end.

Inductive reader_status : Type :=
| Waiting                (* suspended in [readexactly] *)
| Finished               (* IncompleteReadError: logged, the task returns *)
| Crashed (e : exn).     (* logged and re-raised: the task dies *)

Fixpoint consume (fuel : nat) (eof : bool) (stream : list Z)
    (tbl : gmap Z _ExpectedResponse) (fs : list fstate)
    : list Z * list fstate * reader_status :=
  match fuel with
  | O => (stream, fs, Waiting)
  | S fuel' =>
      match _read_packet stream with
      | Raise IncompleteReadError =>
          (stream, fs, if eof then Finished else Waiting)
      | Raise e => (stream, fs, Crashed e)
      | Ok (pkt, stream') =>
          match dispatch pkt tbl fs with
          | Ok fs' => consume fuel' eof stream' tbl fs'
          | Raise e => (stream', fs, Crashed e)
          end
      end
  end.

(** [_consume_reader] on the bytes received so far; every packet takes
    at least twelve bytes, so [length stream] rounds are enough. *)
Definition _consume_reader (eof : bool) (stream : list Z)
    (tbl : gmap Z _ExpectedResponse) (fs : list fstate) :=
  consume (S (length stream)) eof stream tbl fs.

(** Let the reader task of connection [w] run until it suspends or ends. *)
Definition run_reader (w : nat) (h : event_loop) : event_loop :=
  match connections h !! w with
  | Some cn =>
      match reader_task cn with
      | Some d =>
          let tbl := default ∅ (dicts h !! d) in
          let '(rest, fs, st) := _consume_reader (closed cn) (inbox cn) tbl (futures h) in
          let task := match st with Waiting => Some d | _ => None end in
          set_connections
            (<[w := mk_connection rest (outbox cn) (closed cn) task]> (connections h))
            (set_futures fs h)
      | None => h
      end
  | None => h
  end.

(** Bytes from the server arrive on connection [w]. *)
Definition deliver (w : nat) (bytes : list Z) (h : event_loop) : event_loop :=
  match connections h !! w with
  | Some cn =>
      if closed cn then h
      else run_reader w
             (set_connections
                (<[w := mk_connection (inbox cn ++ bytes) (outbox cn) (closed cn)
                                      (reader_task cn)]> (connections h)) h)
  | None => h
  end.

(** [writer.write(bytes)] *)
Definition write (w : nat) (bytes : list Z) (h : event_loop) : event_loop :=
  match connections h !! w with
  | Some cn =>
      set_connections
        (<[w := mk_connection (inbox cn) (outbox cn ++ bytes) (closed cn)
                              (reader_task cn)]> (connections h)) h
  | None => h
  end.

(** [writer.close(); await writer.wait_closed()]: the stream reaches end
    of file, and the reader task runs into it. *)
Definition close_writer (w : nat) (h : event_loop) : event_loop :=
  match connections h !! w with
  | Some cn =>
      run_reader w
        (set_connections
           (<[w := mk_connection (inbox cn) (outbox cn) true (reader_task cn)]>
              (connections h)) h)
  | None => h
  end.

Record RCONClient : Type := mk_RCONClient {
  hostname : string;
  port : Z;
  password : list Z;
  _next_id : Z;
  _reader : option nat;
  _writer : option nat;
  _expected_responses_by_request_id : nat    (* address of the dict *)
}.

Definition new_dict (h : event_loop) : nat * event_loop :=
  (length (dicts h), set_dicts (dicts h ++ [∅]) h).

Definition RCONClient_init (hostname : string) (port : Z) (password : list Z)
    (h : event_loop) : RCONClient * event_loop :=
  let '(d, h) := new_dict h in
  (mk_RCONClient hostname port password 0 None None d, h).

Definition aclose (c : RCONClient) (h : event_loop) : RCONClient * event_loop :=
  let h := match _writer c with
           | Some w => close_writer w h
           | None => h
           end in
  let '(d, h) := new_dict h in
  (mk_RCONClient (hostname c) (port c) (password c) 0 None None d, h).

Definition _get_next_id (c : RCONClient) : Z * RCONClient :=
  let pkt_id := _next_id c in
  let next := _next_id c + 1 in
  let next := if _MAX_32_BIT_SIGNED_INT <? next then 0 else next in
  (pkt_id, mk_RCONClient (hostname c) (port c) (password c) next
             (_reader c) (_writer c) (_expected_responses_by_request_id c)).

(** [inner_send] up to its [try]: a fresh future, registered under the
    packet id in the dict the client holds now. *)
Definition register (c : RCONClient) (pkt : _Packet) (h : event_loop)
    : nat * event_loop :=
  let f := length (futures h) in
  let expected_response :=
    mk_ExpectedResponse (type pkt =? _SERVERDATA_AUTH) f in
  let d := _expected_responses_by_request_id c in
  (f, set_dicts (alter (insert (pkt_id pkt) expected_response) d (dicts h))
        (set_futures (futures h ++ [Pending]) h)).

(** The [finally] of [inner_send]: [del d[pkt_id]] on the dict taken at
    registration. *)
Definition deregister (d : nat) (pkt : _Packet) (h : event_loop) : res event_loop :=
  match dicts h !! d with
  | Some tbl =>
      match tbl !! pkt_id pkt with
      | Some _ => Ok (set_dicts (<[d := delete (pkt_id pkt) tbl]> (dicts h)) h)
      | None => Raise KeyError
      end
  | None => Raise KeyError
  end.

(** The [try] block of [inner_send] under [asyncio.wait_for].  [incoming]
    is what the server sends on the client's connection before the
    deadline of the request; a future still pending then is cancelled
    and the caller gets [TimeoutError]. *)
Definition try_send (c : RCONClient) (pkt : _Packet) (incoming : list Z)
    (f : nat) (h : event_loop) : res _Packet * event_loop :=
  match _writer c with
  | None => (Raise AssertionError, h)
  | Some w =>
      match _write_packet pkt with
      | Raise e => (Raise e, h)
      | Ok bytes =>
          let h := deliver w incoming (write w bytes h) in
          match futures h !! f with
          | Some (Done p) => (Ok p, h)
          | Some (Failed e) => (Raise e, h)
          | _ => (Raise TimeoutError, set_futures (cancel f (futures h)) h)
          end
      end
  end.

Definition _send_packet (c : RCONClient) (pkt : _Packet) (incoming : list Z)
    (h : event_loop) : res _Packet * event_loop :=
  let d := _expected_responses_by_request_id c in
  let '(f, h) := register c pkt h in
  let '(r, h) := try_send c pkt incoming f h in
  match deregister d pkt h with
  | Ok h' => (r, h')
  | Raise e => (Raise e, h)
  end.

Definition send_command (c : RCONClient) (command : list Z) (incoming : list Z)
    (h : event_loop) : res (list Z) * RCONClient * event_loop :=
  let '(id, c) := _get_next_id c in
  let pkt := mk_Packet id _SERVERDATA_EXECCOMMAND command in
  let '(r, h) := _send_packet c pkt incoming h in
  (p <- r ;;; Ok (body p), c, h).

(** [connect].  [refused] is the outcome of [asyncio.open_connection]. *)
Definition connect (c : RCONClient) (refused : option exn) (incoming : list Z)
    (h : event_loop) : res unit * RCONClient * event_loop :=
  let '(c, h) := aclose c h in
  match refused with
  | Some e => (Raise e, c, h)
  | None =>
      let w := length (connections h) in
      let d := _expected_responses_by_request_id c in
      (* create_task(_consume_reader(self._reader, dict)) *)
      let h := set_connections
                 (connections h ++ [mk_connection [] [] false (Some d)]) h in
      let c := mk_RCONClient (hostname c) (port c) (password c) (_next_id c)
                 (Some w) (Some w) d in
      let '(id, c) := _get_next_id c in
      let login_pkt := mk_Packet id _SERVERDATA_AUTH (password c) in
      let '(r, h) := _send_packet c login_pkt incoming h in
      match r with
      | Raise e => (Raise e, c, h)
      | Ok response =>
          if pkt_id login_pkt =? pkt_id response then (Ok tt, c, h)
          else (Raise AssertionError, c, h)
      end
  end.

Definition empty_loop : event_loop := mk_event_loop [] [] [].

(** What "fully closed" means for a client: no stream, and no request
    registered in its dict. *)
Definition is_closed (c : RCONClient) (h : event_loop) : Prop :=
  _reader c = None /\ _writer c = None /\
  dicts h !! _expected_responses_by_request_id c = Some ∅.

(** [k] successive calls of [_get_next_id], and the ids they return. *)
Fixpoint allocate (k : nat) (c : RCONClient) : list Z * RCONClient :=
  match k with
  | O => ([], c)
  | S k' =>
      let '(id, c1) := _get_next_id c in
      let '(ids, c2) := allocate k' c1 in
      (id :: ids, c2)
  end.

(** The states a connected client goes through while requests start and
    end: a request starts by taking an id and registering
    ([send_command] up to the write), and ends in the [finally] of
    [inner_send], whether it was answered, failed or timed out. *)
Inductive reachable : RCONClient -> event_loop -> Prop :=
| reachable_connected c0 h0 incoming c h :
    connect c0 None incoming h0 = (Ok tt, c, h) ->
    reachable c h
| reachable_start c h command :
    reachable c h ->
    reachable (snd (_get_next_id c))
      (snd (register (snd (_get_next_id c))
              (mk_Packet (fst (_get_next_id c)) _SERVERDATA_EXECCOMMAND command) h))
| reachable_end c h id h' :
    reachable c h ->
    deregister (_expected_responses_by_request_id c)
               (mk_Packet id _SERVERDATA_EXECCOMMAND []) h = Ok h' ->
    reachable c h'.

(** The requests of client [c] that are in flight. *)
Definition in_flight (c : RCONClient) (h : event_loop) : gmap Z _ExpectedResponse :=
  default ∅ (dicts h !! _expected_responses_by_request_id c).

(** The counter stays in the range of non-negative 32 bit signed ints. *)
Definition valid_next_id (c : RCONClient) : Prop :=
  0 <= _next_id c <= _MAX_32_BIT_SIGNED_INT.

(** The design document's uniqueness invariant: the id handed out next
    is borne by no request in flight. *)
Definition fresh_ids_not_in_flight : Prop :=
  forall c h, reachable c h -> in_flight c h !! fst (_get_next_id c) = None.

(** The first command of a connected client, with id 1, stays in flight
    while the counter goes round. *)
Definition lingering (n : Z) : Prop :=
  exists c h er,
    reachable c h /\ _next_id c = n /\
    _expected_responses_by_request_id c = 1%nat /\
    dicts h = [ ∅; {[ 1 := er ]} ] /\
    futures h !! response_future er = Some Pending.

(** The design document's reading of [close()]: every request pending
    when [close()] is called has a resolved completion slot after it. *)
Definition close_resolves_pending : Prop :=
  forall c h k er,
    in_flight c h !! k = Some er ->
    futures h !! response_future er = Some Pending ->
    futures (snd (aclose c h)) !! response_future er <> Some Pending.

(** The client and the event loop as [connect] leaves them once the
    stream is open and the login has been sent, whatever the answer. *)
Definition connected_client (c : RCONClient) (h : event_loop) : RCONClient :=
  mk_RCONClient (hostname c) (port c) (password c) 1
    (Some (length (connections h))) (Some (length (connections h)))
    (length (dicts h)).

Definition login_pkt (c : RCONClient) : _Packet :=
  mk_Packet 0 _SERVERDATA_AUTH (password c).

Definition opened_loop (c : RCONClient) (h : event_loop) : event_loop :=
  set_connections
    (connections (snd (aclose c h))
       ++ [mk_connection [] [] false (Some (length (dicts h)))])
    (snd (aclose c h)).

(** The design document's reading of a failed [connect]. *)
Definition failed_connect_leaves_closed : Prop :=
  forall c refused incoming h e c' h',
    connect c refused incoming h = (Raise e, c', h') -> is_closed c' h'.

(** Sample states: a fresh client, the answers of the server to a login,
    a connected client, and a connected client with one command sent and
    not yet answered. *)
Definition sample_client : RCONClient * event_loop :=
  RCONClient_init "127.0.0.1" 27015 [112; 119] empty_loop.

Definition auth_ok_frame : list Z := [10; 0; 0; 0; 0; 0; 0; 0; 2; 0; 0; 0; 0; 0].
Definition auth_failed_frame : list Z := sample_frame.

Definition sample_connected : RCONClient * event_loop :=
  let '(_, c, h) := connect (fst sample_client) None auth_ok_frame (snd sample_client) in
  (c, h).

Definition sample_awaiting : RCONClient * event_loop :=
  let '(c, h) := sample_connected in
  let '(id, c) := _get_next_id c in
  let pkt := mk_Packet id _SERVERDATA_EXECCOMMAND [47; 104] in
  let '(_, h) := register c pkt h in
  (c, match _writer c, _write_packet pkt with
      | Some w, Ok bytes => write w bytes h
      | _, _ => h
      end).

Definition sample_table : gmap Z _ExpectedResponse :=
  {[ 0 := mk_ExpectedResponse true 0; 5 := mk_ExpectedResponse false 1 ]}.

End RCON.

(** ** Text: the pieces of [str], [int] and [json] the bridge uses *)

Module Text.

Local Open Scope string_scope.

(** [needle in hay] on strings. *)
Fixpoint str_in (needle hay : string) : bool :=
  String.prefix needle hay ||
  match hay with
  | EmptyString => false
  | String _ hay' => str_in needle hay'
  end.

(** [s.endswith(suffix)] *)
Definition endswith (s suffix : string) : bool :=
  (String.length suffix <=? String.length s)%nat &&
  String.eqb (substring (String.length s - String.length suffix)
                        (String.length suffix) s) suffix.

Definition is_space (a : ascii) : bool :=
  let n := nat_of_ascii a in
  ((9 <=? n) && (n <=? 13))%nat || (n =? 32)%nat.

Definition is_digit (a : ascii) : bool :=
  let n := nat_of_ascii a in ((48 <=? n) && (n <=? 57))%nat.

Fixpoint lstrip (l : list ascii) : list ascii :=
  match l with
  | a :: l' => if is_space a then lstrip l' else l
  | [] => []
  end.

Definition strip (l : list ascii) : list ascii := rev (lstrip (rev (lstrip l))).

Fixpoint digits_value (acc : Z) (l : list ascii) : option Z :=
  match l with
  | [] => Some acc
  | a :: l' =>
      if is_digit a
      then digits_value (10 * acc + Z.of_nat (nat_of_ascii a - 48)) l'
      else None
  end.

Definition nonempty_digits (l : list ascii) : option Z :=
  match l with
  | [] => None
  | _ => digits_value 0 l
  end.

(** [int(s)] for decimal text: surrounding white space, an optional
    sign, digits ([ValueError] otherwise; digit separators are left out). *)
Definition int (s : string) : res Z :=
  let opt :=
    match strip (list_ascii_of_string s) with
    | "-"%char :: ds => Z.opp <$> nonempty_digits ds
    | "+"%char :: ds => nonempty_digits ds
    | ds => nonempty_digits ds
    end in
  match opt with
  | Some z => Ok z
  | None => Raise ValueError
  end.

(** JSON values; a number with a fraction is left out of the embedding. *)
#[warnings="-register-all"]
Inductive json : Type :=
| JNull
| JBool (b : bool)
| JInt (z : Z)
| JStr (s : string)
| JList (l : list json)
| JObj (fields : list (string * json)).

Definition dq : string := String (ascii_of_nat 34) EmptyString.

Definition hex_digit (n : nat) : ascii :=
  if (n <? 10)%nat then ascii_of_nat (48 + n) else ascii_of_nat (87 + n).

(** [json.dumps] escapes, with [ensure_ascii]; the single quote is not
    among them. *)
Definition escape_char (a : ascii) : string :=
  let n := nat_of_ascii a in
  if (n =? 34)%nat then String (ascii_of_nat 92) dq
  else if (n =? 92)%nat then "\\"
  else if (n =? 10)%nat then "\n"
  else if (n =? 13)%nat then "\r"
  else if (n =? 9)%nat then "\t"
  else if (n =? 8)%nat then "\b"
  else if (n =? 12)%nat then "\f"
  else if ((n <? 32) || (126 <? n))%nat then
    "\u00" +:+ String (hex_digit (n / 16)) (String (hex_digit (n mod 16)) EmptyString)
  else String a EmptyString.

Fixpoint escape (s : string) : string :=
  match s with
  | EmptyString => EmptyString
  | String a s' => escape_char a +:+ escape s'
  end.

Definition json_string (s : string) : string := dq +:+ escape s +:+ dq.

(** [json.dumps] with its default separators. *)
Fixpoint json_dumps (j : json) : string :=
  match j with
  | JNull => "null"
  | JBool true => "true"
  | JBool false => "false"
  | JInt z => pretty z
  | JStr s => json_string s
  | JList l =>
      "[" +:+
      (fix items (l : list json) : string :=
         match l with
         | [] => EmptyString
         | [x] => json_dumps x
         | x :: l' => json_dumps x +:+ ", " +:+ items l'
         end) l +:+ "]"
  | JObj fields =>
      "{" +:+
      (fix items (l : list (string * json)) : string :=
         match l with
         | [] => EmptyString
         | [(k, v)] => json_string k +:+ ": " +:+ json_dumps v
         | (k, v) :: l' => json_string k +:+ ": " +:+ json_dumps v +:+ ", " +:+ items l'
         end) fields +:+ "}"
  end.

(** [d.get(key)] on the pairs of a JSON object. *)
Fixpoint get (key : string) (fields : list (string * json)) : option json :=
  match fields with
  | [] => None
  | (k, v) :: fields' => if String.eqb k key then Some v else get key fields'
  end.

(** [json.loads] on the integer subset: a recursive-descent reader. *)
Fixpoint strip_prefix (p l : list ascii) : option (list ascii) :=
  match p, l with
  | [], _ => Some l
  | a :: p', b :: l' => if Ascii.eqb a b then strip_prefix p' l' else None
  | _ :: _, [] => None
  end.

Definition hex_value (a : ascii) : option nat :=
  let n := nat_of_ascii a in
  if is_digit a then Some (n - 48)%nat
  else if ((97 <=? n) && (n <=? 102))%nat then Some (n - 87)%nat
  else if ((65 <=? n) && (n <=? 70))%nat then Some (n - 55)%nat
  else None.

Definition unescape (b : ascii) : option ascii :=
  let n := nat_of_ascii b in
  if (n =? 110)%nat then Some (ascii_of_nat 10)
  else if (n =? 114)%nat then Some (ascii_of_nat 13)
  else if (n =? 116)%nat then Some (ascii_of_nat 9)
  else if (n =? 98)%nat then Some (ascii_of_nat 8)
  else if (n =? 102)%nat then Some (ascii_of_nat 12)
  else if ((n =? 34) || (n =? 92) || (n =? 47))%nat then Some b
  else None.

Fixpoint parse_string_body (acc l : list ascii) : option (string * list ascii) :=
  match l with
  | [] => None
  | a :: l1 =>
      if (nat_of_ascii a =? 34)%nat then Some (string_of_list_ascii (rev acc), l1)
      else if (nat_of_ascii a =? 92)%nat then
        match l1 with
        | b :: l2 =>
            if (nat_of_ascii b =? 117)%nat then
              match l2 with
              | h1 :: h2 :: h3 :: h4 :: l3 =>
                  match hex_value h1, hex_value h2, hex_value h3, hex_value h4 with
                  | Some 0%nat, Some 0%nat, Some x, Some y =>
                      parse_string_body (ascii_of_nat (16 * x + y) :: acc) l3
                  | _, _, _, _ => None
                  end
              | _ => None
              end
            else
              match unescape b with
              | Some c => parse_string_body (c :: acc) l2
              | None => None
              end
        | [] => None
        end
      else parse_string_body (a :: acc) l1
  end.

Fixpoint span_digits (l : list ascii) : list ascii * list ascii :=
  match l with
  | a :: l1 =>
      if is_digit a then let '(ds, r) := span_digits l1 in (a :: ds, r) else ([], l)
  | [] => ([], [])
  end.

Definition parse_number (l : list ascii) : option (json * list ascii) :=
  let '(neg, l1) :=
    match l with
    | a :: l1 => if (nat_of_ascii a =? 45)%nat then (true, l1) else (false, l)
    | [] => (false, l)
    end in
  let '(ds, r) := span_digits l1 in
  match nonempty_digits ds with
  | Some z =>
      match r with
      | a :: _ =>
          let n := nat_of_ascii a in
          if ((n =? 46) || (n =? 101) || (n =? 69))%nat then None
          else Some (JInt (if neg then - z else z), r)
      | [] => Some (JInt (if neg then - z else z), r)
      end
  | None => None
  end.

Definition chars (s : string) : list ascii := list_ascii_of_string s.

Fixpoint parse_value (fuel : nat) (l : list ascii) : option (json * list ascii) :=
  match fuel with
  | O => None
  | S fuel =>
      match lstrip l with
      | [] => None
      | a :: r =>
          let n := nat_of_ascii a in
          if (n =? 34)%nat then
            match parse_string_body [] r with
            | Some (s, r1) => Some (JStr s, r1)
            | None => None
            end
          else if (n =? 91)%nat then
            match strip_prefix (chars "]") (lstrip r) with
            | Some r1 => Some (JList [], r1)
            | None =>
                match parse_items fuel r with
                | Some (xs, r1) => Some (JList xs, r1)
                | None => None
                end
            end
          else if (n =? 123)%nat then
            match strip_prefix (chars "}") (lstrip r) with
            | Some r1 => Some (JObj [], r1)
            | None =>
                match parse_members fuel r with
                | Some (xs, r1) => Some (JObj xs, r1)
                | None => None
                end
            end
          else
            match strip_prefix (chars "null") (a :: r),
                  strip_prefix (chars "true") (a :: r),
                  strip_prefix (chars "false") (a :: r) with
            | Some r1, _, _ => Some (JNull, r1)
            | _, Some r1, _ => Some (JBool true, r1)
            | _, _, Some r1 => Some (JBool false, r1)
            | None, None, None => parse_number (a :: r)
            end
      end
  end
with parse_items (fuel : nat) (l : list ascii) : option (list json * list ascii) :=
  match fuel with
  | O => None
  | S fuel =>
      match parse_value fuel l with
      | Some (x, r) =>
          match lstrip r with
          | a :: r1 =>
              if (nat_of_ascii a =? 44)%nat then
                match parse_items fuel r1 with
                | Some (xs, r2) => Some (x :: xs, r2)
                | None => None
                end
              else if (nat_of_ascii a =? 93)%nat then Some ([x], r1)
              else None
          | [] => None
          end
      | None => None
      end
  end
with parse_members (fuel : nat) (l : list ascii)
    : option (list (string * json) * list ascii) :=
  match fuel with
  | O => None
  | S fuel =>
      match lstrip l with
      | q :: r0 =>
          if negb (nat_of_ascii q =? 34)%nat then None
          else
            match parse_string_body [] r0 with
            | Some (k, r1) =>
                match strip_prefix (chars ":") (lstrip r1) with
                | Some r2 =>
                    match parse_value fuel r2 with
                    | Some (v, r) =>
                        match lstrip r with
                        | a :: r3 =>
                            if (nat_of_ascii a =? 44)%nat then
                              match parse_members fuel r3 with
                              | Some (xs, r4) => Some ((k, v) :: xs, r4)
                              | None => None
                              end
                            else if (nat_of_ascii a =? 125)%nat then Some ([(k, v)], r3)
                            else None
                        | [] => None
                        end
                    | None => None
                    end
                | None => None
                end
            | None => None
            end
      | [] => None
      end
  end.

Definition json_loads (s : string) : res json :=
  match parse_value (S (String.length s)) (chars s) with
  | Some (j, r) =>
      match lstrip r with
      | [] => Ok j
      | _ => Raise JSONDecodeError
      end
  | None => Raise JSONDecodeError
  end.

(** The strings inside a JSON value: its string values and the keys of
    its objects. *)
Fixpoint json_strings (j : json) : list string :=
  match j with
  | JStr s => [s]
  | JList l =>
      (fix items (l : list json) : list string :=
         match l with
         | [] => []
         | x :: l' => (json_strings x ++ items l')%list
         end) l
  | JObj fields =>
      (fix items (l : list (string * json)) : list string :=
         match l with
         | [] => []
         | (k, v) :: l' => (k :: json_strings v ++ items l')%list
         end) fields
  | _ => []
  end.

End Text.

(** ** The RPC bridge ([world.py]) *)

Module World.
Import Text.

Local Open Scope string_scope.
Local Open Scope Z_scope.

(** What the bridge borrows: the protocol client, seen through
    [send_command] (the reply or the exception, and the client after
    the call), and [json.loads]. *)
Class Rcon (S : Type) : Type := send_command : string -> S -> res string * S.
Class JsonLib : Type := loads : string -> res json.

Record Position : Type := mk_Position { x : Z; y : Z }.

Inductive direction : Type :=
| north | northeast | east | southeast | south | southwest | west | northwest.

Definition direction_value (d : direction) : string :=
  match d with
  | north => "north" | northeast => "northeast" | east => "east"
  | southeast => "southeast" | south => "south" | southwest => "southwest"
  | west => "west" | northwest => "northwest"
  end.

Definition get_direction_vector (d : direction) : Position :=
  match d with
  | north => mk_Position 0 (-1)
  | northeast => mk_Position 1 (-1)
  | east => mk_Position 1 0
  | southeast => mk_Position 1 1
  | south => mk_Position 0 1
  | southwest => mk_Position (-1) 1
  | west => mk_Position (-1) 0
  | northwest => mk_Position (-1) (-1)
  end.

Definition get_opposite_direction (d : direction) : direction :=
  match d with
  | north => south | northeast => southwest | east => west
  | southeast => northwest | south => north | southwest => northeast
  | west => east | northwest => southeast
  end.

Record CreateEntityParams : Type := mk_CreateEntityParams {
  name : string;
  position : option Position;
  direction_ : option direction;
  force : option string;
  surface : string
}.

Record RpcRequest : Type := mk_RpcRequest {
  method : string;
  params : list json
}.

Record RpcError : Type := mk_RpcError {
  code : Z;
  message : string;
  data : option json
}.

Record RpcResponse : Type := mk_RpcResponse {
  result : option json;
  error : option RpcError
}.

(** The [return_type] argument of [call_mod]: the three tests the code
    makes on it, and how cattrs structures a result of that type. *)
Record ReturnType : Type := mk_ReturnType {
  is_None : bool;          (* return_type is None *)
  is_NoneType : bool;      (* return_type is type(None) *)
  _is_optional : bool;     (* cattrs' is_optional(return_type) *)
  structure : json -> res json
}.

Definition opt_json {A} (f : A -> json) (o : option A) : json :=
  match o with Some a => f a | None => JNull end.

Definition unstructure_Position (p : Position) : json :=
  JObj [("x", JInt (x p)); ("y", JInt (y p))].

Definition unstructure_CreateEntityParams (e : CreateEntityParams) : json :=
  JObj [("name", JStr (name e));
        ("position", opt_json unstructure_Position (position e));
        ("direction", opt_json (fun d => JStr (direction_value d)) (direction_ e));
        ("force", opt_json JStr (force e));
        ("surface", JStr (surface e))].

Definition unstructure_RpcRequest (req : RpcRequest) : json :=
  JObj [("method", JStr (method req)); ("params", JList (params req))].

Definition structure_RpcError (j : json) : res RpcError :=
  match j with
  | JObj fields =>
      match get "code" fields, get "message" fields with
      | Some (JInt c), Some (JStr m) =>
          Ok (mk_RpcError c m
                match get "data" fields with
                | Some JNull | None => None
                | Some d => Some d
                end)
      | _, _ => Raise StructureError
      end
  | _ => Raise StructureError
  end.

(** [converter.structure(json_response, RpcResponse[return_type])]: an
    absent field takes its default, [None]. *)
Definition structure_RpcResponse (return_type : ReturnType) (j : json) : res RpcResponse :=
  match j with
  | JObj fields =>
      r <- match get "result" fields with
           | Some JNull | None => Ok None
           | Some v => v' <- structure return_type v ;;; Ok (Some v')
           end ;;;
      e <- match get "error" fields with
           | Some JNull | None => Ok None
           | Some v => v' <- structure_RpcError v ;;; Ok (Some v')
           end ;;;
      Ok (mk_RpcResponse r e)
  | _ => Raise StructureError
  end.

(** Return types the bridge uses. *)
Definition Returns_None : ReturnType :=
  mk_ReturnType true false false (fun _ => Raise StructureError).

Definition Returns_int : ReturnType :=
  mk_ReturnType false false false
    (fun j => match j with JInt _ => Ok j | _ => Raise StructureError end).

Definition structure_EntityDescription (j : json) : res json :=
  match j with
  | JObj fields =>
      match get "surface" fields, get "name" fields, get "position" fields,
            get "direction" fields, get "force" fields with
      | Some (JStr _), Some (JStr _), Some (JObj _), Some (JStr _), Some (JStr _) => Ok j
      | _, _, _, _, _ => Raise StructureError
      end
  | _ => Raise StructureError
  end.

Definition Returns_Optional_EntityDescription : ReturnType :=
  mk_ReturnType false false true structure_EntityDescription.

Record World : Type := mk_World {
  _initial_tick : Z;
  _cur_tick : Z;
  _cur_target_tick : Z
}.

(** [World(rcon, initial_tick)], with [__attrs_post_init__]. *)
Definition World_init (initial_tick : Z) : World :=
  mk_World initial_tick initial_tick initial_tick.

Definition get_current_tick (w : World) : Z := _cur_tick w - _initial_tick w.

Definition set_cur_tick (t : Z) (w : World) : World :=
  mk_World (_initial_tick w) t (_cur_target_tick w).
Definition set_cur_target_tick (t : Z) (w : World) : World :=
  mk_World (_initial_tick w) (_cur_tick w) t.

(** How a call of [step] ends: it returns, it raises, or it is still
    polling when the observation stops. *)
Inductive outcome : Type :=
| Returned
| Raised (e : exn)
| Polling.

Section Bridge.
Context {S : Type} {rcon : Rcon S} {json_lib : JsonLib}.

(** The console command that carries a serialized request. *)
Definition rpc_command (serialized_request : string) : string :=
  "/silent-command rcon.print(remote.call('fle', 'call', '"
  +:+ serialized_request +:+ "'))".

(** What [call_mod] makes of the reply. *)
Definition read_response (return_type : ReturnType) (serialized_response : string)
    : res (option json) :=
  json_response <- loads serialized_response ;;;
  response <- structure_RpcResponse return_type json_response ;;;
  match error response with
  | Some _ => Raise (RpcException "Received error")
  | None =>
      match result response with
      | None =>
          if negb (is_None return_type) && negb (is_NoneType return_type)
             && negb (_is_optional return_type)
          then Raise (RpcException "Unexpected None result")
          else Ok None
      | Some v => Ok (Some v)
      end
  end.

Definition serialize_request (method : string) (params : option (list json)) : string :=
  let params := match params with None => [] | Some p => p end in
  let req := mk_RpcRequest method params in
  let unstructured_req := unstructure_RpcRequest req in
  json_dumps unstructured_req.

Definition call_mod (return_type : ReturnType) (method : string)
    (params : option (list json)) (s : S) : res (option json) * S :=
  let serialized_request := serialize_request method params in
  if str_in "'" serialized_request then (Raise NotImplementedError, s)
  else
    let command := rpc_command serialized_request in
    let '(r, s) := send_command command s in
    (serialized_response <- r ;;; read_response return_type serialized_response, s).

(** A run of [step]: the world and the client when it ends, the states
    the world went through (one per assignment, in order), and how it
    ended. *)
Record run : Type := mk_run {
  final : World;
  client : S;
  history : list World;
  ending : outcome
}.

(** The [while] loop of [step] and the assertion after it.  [fuel]
    bounds the number of polls observed. *)
Fixpoint poll (fuel : nat) (w : World) (s : S) (hist : list World) : run :=
  if _cur_tick w <? _cur_target_tick w then
    match fuel with
    | O => mk_run w s hist Polling
    | Datatypes.S fuel' =>
        (* await asyncio.sleep(0.05) *)
        let '(r, s) := send_command "/silent-command rcon.print(game.tick)" s in
        match (cur_tick_str <- r ;;; int cur_tick_str) with
        | Raise e => mk_run w s hist (Raised e)
        | Ok t => poll fuel' (set_cur_tick t w) s (hist ++ [set_cur_tick t w])
        end
    end
  else if _cur_tick w =? _cur_target_tick w then mk_run w s hist Returned
  else mk_run w s hist (Raised AssertionError).

Definition step (fuel : nat) (num_ticks : Z) (w : World) (s : S) : run :=
  let w := set_cur_target_tick (_cur_target_tick w + num_ticks) w in
  let '(r, s) := call_mod Returns_None "step" (Some [JInt num_ticks]) s in
  match r with
  | Raise e => mk_run w s [w] (Raised e)
  | Ok _ => poll fuel w s [w]
  end.

(** [asyncio.gather] with [return_exceptions=True]: one entry per
    call, in the order of the calls, a value or the exception raised. *)
Fixpoint gather {A} (calls : list (S -> res A * S)) (s : S) : list (res A) * S :=
  match calls with
  | [] => ([], s)
  | call :: calls' =>
      let '(r, s) := call s in
      let '(rs, s) := gather calls' s in
      (r :: rs, s)
  end.

(** The [for r in rpc_results] loop of [create_entities]. *)
Fixpoint sort_results {A} (rpc_results : list (res A)) (results : list A)
    (errors : list exn) : list A * list exn :=
  match rpc_results with
  | [] => (results, errors)
  | Raise e :: rest => sort_results rest results (errors ++ [e])
  | Ok r :: rest => sort_results rest (results ++ [r]) errors
  end.

(** The calls [create_entities] hands to [asyncio.gather]. *)
Definition create_entity_calls (entities : list CreateEntityParams)
    : list (S -> res (option json) * S) :=
  map (fun e => call_mod Returns_Optional_EntityDescription "create_entity"
                  (Some [unstructure_CreateEntityParams e])) entities.

Definition create_entities (entities : list CreateEntityParams) (s : S)
    : res (list (option json)) * S :=
  let '(rpc_results, s) := gather (create_entity_calls entities) s in
  let '(results, errors) := sort_results rpc_results [] [] in
  match errors with
  | [] => (Ok results, s)
  | _ :: _ =>
      (Raise (PlainException "Errors encountered during create_entities, see logs"), s)
  end.

(** A sequence of calls of [step], each observed for [fuel] polls, as
    long as they return. *)
Fixpoint steps (fuel : nat) (ns : list Z) (w : World) (s : S) : run :=
  match ns with
  | [] => mk_run w s [] Returned
  | n :: ns' =>
      let r := step fuel n w s in
      match ending r with
      | Returned =>
          let r' := steps fuel ns' (final r) (client r) in
          mk_run (final r') (client r') (history r ++ history r') (ending r')
      | _ => r
      end
  end.

End Bridge.

(** A scripted protocol client: the replies [send_command] will give,
    in order, and the commands sent so far; a silent server makes the
    request time out. *)
Record script : Type := mk_script {
  replies : list (res string);
  sent : list string
}.

#[export] Instance scripted_rcon : Rcon script := fun command s =>
  match replies s with
  | [] => (Raise TimeoutError, mk_script [] (sent s ++ [command]))
  | r :: rs => (r, mk_script rs (sent s ++ [command]))
  end.

#[export] Instance text_json : JsonLib := json_loads.

(** The reply of the mod to a call without result. *)
Definition null_reply : string :=
  json_dumps (JObj [("result", JNull); ("error", JNull)]).

Definition error_reply : string :=
  json_dumps (JObj [("result", JNull);
                    ("error", JObj [("code", JInt 1); ("message", JStr "boom")])]).

Definition entity_reply : string :=
  json_dumps (JObj [("result",
                     JObj [("surface", JStr "nauvis"); ("name", JStr "wooden-chest");
                           ("position", JObj [("x", JInt 1); ("y", JInt 2)]);
                           ("direction", JStr "north"); ("force", JStr "player");
                           ("unit_number", JInt 7)]);
                    ("error", JNull)]).

(** Sample runs: an engine that reaches tick 700 in two polls, a batch of
    two entities of which the second collides, and a request with a
    single quote in it. *)
Definition sample_step_script : script :=
  mk_script [Ok null_reply; Ok "300"; Ok "700"] [].

Definition sample_entities : list CreateEntityParams :=
  [mk_CreateEntityParams "wooden-chest" (Some (mk_Position 1 2)) (Some north)
     (Some "player") "nauvis";
   mk_CreateEntityParams "wooden-chest" (Some (mk_Position 1 2)) (Some north)
     (Some "player") "nauvis"].

Definition sample_batch_script : script :=
  mk_script [Ok entity_reply; Ok null_reply] [].

Definition sample_failing_script : script :=
  mk_script [Ok entity_reply; Ok error_reply] [].

(** *** Geometry on the tile grid

    The positions of the problem generator have [int] coordinates; on
    them these functions are exact. *)

Definition manhattan_distance (a b : Position) : Z :=
  Z.abs (x b - x a) + Z.abs (y b - y a).

Definition offset_pos (pos : Position) (d : direction) (multiple : Z) : Position :=
  let offset := get_direction_vector d in
  mk_Position (x pos + multiple * x offset) (y pos + multiple * y offset).

#[global] Instance Position_eq_dec : EqDecision Position.
Proof. solve_decision. Defined.

#[global] Instance direction_eq_dec : EqDecision direction.
Proof. solve_decision. Defined.

(** *** The inventory of an entity *)

(** cattrs structures an [int] by calling [int] on the value. *)
Definition structure_int (j : json) : res json :=
  match j with
  | JInt z => Ok (JInt z)
  | JBool b => Ok (JInt (if b then 1 else 0))
  | JStr s =>
      match int s with
      | Ok z => Ok (JInt z)
      | Raise _ => Raise StructureError
      end
  | _ => Raise StructureError
  end.

(** The values of a [Dict[str, int]], structured one by one. *)
Fixpoint structure_items (fields : list (string * json)) : res (list (string * json)) :=
  match fields with
  | [] => Ok []
  | (k, v) :: fields' =>
      v' <- structure_int v ;;;
      rest <- structure_items fields' ;;;
      Ok ((k, v') :: rest)
  end.

Definition structure_Dict_str_int (j : json) : res json :=
  match j with
  | JObj fields => fields' <- structure_items fields ;;; Ok (JObj fields')
  | _ => Raise StructureError
  end.

Definition Returns_Dict_str_int : ReturnType :=
  mk_ReturnType false false false structure_Dict_str_int.

Section Inventory.
Context {S : Type} {rcon : Rcon S} {json_lib : JsonLib}.

(** [get_inventory_contents]; the entity description goes out as cattrs
    unstructures it. *)
Definition get_inventory_contents (entity_description : json) (s : S)
    : res (option json) * S :=
  call_mod Returns_Dict_str_int "get_inventory_contents" (Some [entity_description]) s.

End Inventory.

(** The replies of the mod to an inventory query: a chest with seven
    iron ore, and an empty one. *)
Definition ore_reply : string :=
  json_dumps (JObj [("result", JObj [("iron-ore", JInt 7)]); ("error", JNull)]).

Definition empty_chest_reply : string :=
  json_dumps (JObj [("result", JObj []); ("error", JNull)]).

End World.

(** ** The process supervisor ([factorio_server.py]) *)

Module Server.
Import Text World.

Local Open Scope string_scope.
Local Open Scope Z_scope.
Local Open Scope list_scope.

(** *** Files and effects *)

Record filesystem : Type := mk_filesystem {
  files : gmap string string;   (* path to content *)
  dirs : gset string
}.

Definition path_join (a b : string) : string := a +:+ "/" +:+ b.

(** [p] is [d] or lies below it. *)
Definition under (d p : string) : bool :=
  String.eqb p d || String.prefix (d +:+ "/") p.

Inductive event : Type :=
| Spawned (factorio_cmd : list string) (cwd : string)   (* anyio.open_process *)
| Killed                      (* process.kill() *)
| Waited                      (* process.wait() *)
| LogDumped (tmpdir : string) (* debug_print_server_log *)
| Removed (tmpdir : string).  (* shutil.rmtree *)

Record system : Type := mk_system {
  fs : filesystem;
  events : list event
}.

(** Code that changes the system and may raise; the changes made before
    an exception stay. *)
Definition M (A : Type) : Type := system -> res A * system.

Definition ret {A} (a : A) : M A := fun sys => (Ok a, sys).
Definition raise {A} (e : exn) : M A := fun sys => (Raise e, sys).
Definition mbind {A B} (m : M A) (k : A -> M B) : M B := fun sys =>
  match m sys with
  | (Ok a, sys1) => k a sys1
  | (Raise e, sys1) => (Raise e, sys1)
  end.

Notation "x <~ m ;; k" := (mbind m (fun x => k))
  (at level 100, m at next level, right associativity).
Notation "m ;;> k" := (mbind m (fun _ => k))
  (at level 100, right associativity).

(** [try: body except: handler(e)] with a bare [except]. *)
Definition try_except {A} (body : M A) (handler : exn -> M A) : M A := fun sys =>
  match body sys with
  | (Ok a, sys1) => (Ok a, sys1)
  | (Raise e, sys1) => handler e sys1
  end.

(** [try: body finally: cleanup; raise] inside a handler of [e]: the
    bare [raise] re-raises the exception of [body] when it raised, else
    [e]; an exception of [cleanup] goes out instead. *)
Definition finally_reraise {A B C} (e : exn) (body : M A) (cleanup : M B) : M C := fun sys =>
  let '(r, sys1) := body sys in
  let active := match r with Ok _ => e | Raise e' => e' end in
  match cleanup sys1 with
  | (Ok _, sys2) => (Raise active, sys2)
  | (Raise e'', sys2) => (Raise e'', sys2)
  end.

Definition emit (ev : event) : M unit := fun sys =>
  (Ok tt, mk_system (fs sys) (events sys ++ [ev])).

Definition mkdir (d : string) : M unit := fun sys =>
  (Ok tt, mk_system (mk_filesystem (files (fs sys)) ({[ d ]} ∪ dirs (fs sys))) (events sys)).

Definition write_file (p content : string) : M unit := fun sys =>
  (Ok tt, mk_system (mk_filesystem (<[p := content]> (files (fs sys))) (dirs (fs sys)))
            (events sys)).

Definition read_file (p : string) : M string := fun sys =>
  match files (fs sys) !! p with
  | Some content => (Ok content, sys)
  | None => (Raise FileNotFoundError, sys)
  end.

Definition unlink (p : string) : M unit := fun sys =>
  match files (fs sys) !! p with
  | Some _ =>
      (Ok tt, mk_system (mk_filesystem (delete p (files (fs sys))) (dirs (fs sys)))
                (events sys))
  | None => (Raise FileNotFoundError, sys)
  end.

(** [shutil.rmtree(d)]: [d] and all below it go; it is taken to succeed
    on a directory that exists. *)
Definition rmtree (d : string) : M unit := fun sys =>
  if bool_decide (d ∈ dirs (fs sys)) then
    (Ok tt,
     mk_system
       (mk_filesystem (filter (fun kv => under d kv.1 = false) (files (fs sys)))
                      (filter (fun p => under d p = false) (dirs (fs sys))))
       (events sys ++ [Removed d]))
  else (Raise FileNotFoundError, sys).

Definition get_server_log_path (tmpdir : string) : string :=
  path_join tmpdir "factorio-current.log".

Definition debug_print_server_log (tmpdir : string) : M unit :=
  _ <~ read_file (get_server_log_path tmpdir) ;;
  emit (LogDumped tmpdir).

Definition newline : string := String (ascii_of_nat 10) EmptyString.

Fixpoint dirname_chars (rev_path : list ascii) : list ascii :=
  match rev_path with
  | [] => []
  | a :: l => if (nat_of_ascii a =? 47)%nat then l else dirname_chars l
  end.

Definition parent (p : string) : string :=
  string_of_list_ascii (rev (dirname_chars (rev (list_ascii_of_string p)))).

Fixpoint basename_chars (rev_path : list ascii) : list ascii :=
  match rev_path with
  | [] => []
  | a :: l => if (nat_of_ascii a =? 47)%nat then [] else a :: basename_chars l
  end.

(** [os.path.basename] *)
Definition basename (p : string) : string :=
  string_of_list_ascii (rev (basename_chars (rev (list_ascii_of_string p)))).

(** *** Launching *)

(** The operations of a launch that the outside world can make fail. *)
Inductive operation : Type :=
| MakeTmpdir | MakeSavesDir | WriteSave | WriteConfigIni | WriteServerSettings
| InstallMod | UdpPort | TcpPort | OpenProcess | OpenRcon | QueryTick
| KillProcess | WaitProcess.

(** What the outside world does during one launch attempt. *)
Record launch_env : Type := mk_launch_env {
  mkdtemp : string;                        (* the directory tempfile.mkdtemp() makes *)
  fails : operation -> option exn;         (* the operations that raise, and what *)
  save_file_to_load : string;              (* config.save_file_to_load *)
  factorio_dir : string;                   (* the install folder *)
  SERVER_SETTINGS_JSON : string;           (* the packaged server-settings.json *)
  mod_files : list (string * string);      (* the resources of the mod *)
  udp_port : Z;
  tcp_port : Z;
  engine_log : option string;              (* the log the engine has written, if any *)
  cur_tick_str : string;                   (* the answer to rcon.print(game.tick) *)
  PYTEST_CURRENT_TEST : bool               (* the variable is in os.environ *)
}.

(** An operation of the outside world: it raises when the environment
    says so, else it does [effect]. *)
Definition attempt {A} (env : launch_env) (op : operation) (effect : M A) : M A :=
  match fails env op with
  | Some e => raise e
  | None => effect
  end.

Definition MOD_NAME : string := "factorio-learning-environment-mod".

Fixpoint write_files (d : string) (l : list (string * string)) : M unit :=
  match l with
  | [] => ret tt
  | (filename, contents) :: l' =>
      write_file (path_join d filename) contents ;;> write_files d l'
  end.

Definition install_mod (env : launch_env) (target_mods_dir : string) : M unit :=
  let mod_dir := path_join target_mods_dir MOD_NAME in
  attempt env InstallMod
    (mkdir target_mods_dir ;;> mkdir mod_dir ;;> write_files mod_dir (mod_files env)).

Record FactorioServer : Type := mk_FactorioServer {
  tmpdir : string;
  port : Z;
  rcon_port : Z;
  world : World.World;
  delete_tmpdir : bool
}.

Definition lift_res {A} (r : res A) : M A := fun sys => (r, sys).

(** The body of the outer [try] of [_try_create_server]. *)
Definition launch (env : launch_env) (tmpdir : string) : M FactorioServer :=
  (* write save file *)
  let savefile_dir := path_join tmpdir "saves" in
  attempt env MakeSavesDir (mkdir savefile_dir) ;;>
  let savefile_path := path_join savefile_dir "save.zip" in
  attempt env WriteSave (write_file savefile_path (save_file_to_load env)) ;;>
  (* write config ini, currently just to modify write-data dir *)
  let config_ini_path := path_join tmpdir "config.ini" in
  attempt env WriteConfigIni
    (write_file config_ini_path
       ("[path]" +:+ newline +:+ "read-data=__PATH__executable__/../../data" +:+ newline
        +:+ "write-data=" +:+ tmpdir +:+ newline)) ;;>
  (* write server-settings.json *)
  let server_settings_json_path := path_join tmpdir "server-settings.json" in
  attempt env WriteServerSettings
    (write_file server_settings_json_path (SERVER_SETTINGS_JSON env)) ;;>
  let mod_dir := path_join tmpdir "mods" in
  install_mod env mod_dir ;;>
  (* Use the tmpdir name as the rconpw *)
  let rconpw := basename tmpdir in
  let factorio_bin := path_join (path_join (path_join (factorio_dir env) "bin") "x64")
                        "factorio" in
  port <~ attempt env UdpPort (ret (udp_port env)) ;;
  rcon_port <~ attempt env TcpPort (ret (tcp_port env)) ;;
  let factorio_cmd :=
    [factorio_bin; "--config"; config_ini_path; "--mod-directory"; mod_dir;
     "--bind"; "127.0.0.1"; "--port"; pretty port;
     "--rcon-bind"; "127.0.0.1:" +:+ pretty rcon_port;
     "--rcon-password"; rconpw;
     "--server-settings"; server_settings_json_path;
     "--start-server"; savefile_path] in
  attempt env OpenProcess
    (emit (Spawned factorio_cmd tmpdir) ;;>
     match engine_log env with
     | Some l => write_file (get_server_log_path tmpdir) l
     | None => ret tt
     end) ;;>
  try_except
    (attempt env OpenRcon (ret tt) ;;>
     cur_tick_str <~ attempt env QueryTick (ret (cur_tick_str env)) ;;
     initial_tick <~ lift_res (int cur_tick_str) ;;
     ret (mk_FactorioServer tmpdir port rcon_port (World_init initial_tick) true))
    (fun e =>
       finally_reraise e
         (try_except
            (attempt env KillProcess (emit Killed) ;;>
             attempt env WaitProcess (emit Waited))
            (fun e' =>
               match e' with
               | ProcessLookupError => ret tt     (* pass *)
               | _ => raise e'
               end))
         (ret tt)).

(** The outer [except] of [_try_create_server]. *)
Definition cleanup (env : launch_env) (tmpdir : string) (e : exn) : M FactorioServer :=
  finally_reraise e
    (if PYTEST_CURRENT_TEST env then debug_print_server_log tmpdir else ret tt)
    (rmtree tmpdir).

Definition _try_create_server (env : launch_env) : M FactorioServer :=
  tmpdir <~ attempt env MakeTmpdir (mkdir (mkdtemp env) ;;> ret (mkdtemp env)) ;;
  try_except (launch env tmpdir) (cleanup env tmpdir).

(** [create_server]: two attempts, the second only after
    [RCONAuthFailure]. *)
Definition create_server (env1 env2 : launch_env) : M FactorioServer :=
  try_except (_try_create_server env1)
    (fun e =>
       match e with
       | RCONAuthFailure =>
           try_except (_try_create_server env2)
             (fun e =>
                match e with
                | RCONAuthFailure =>
                    raise (PlainException
                             "Ran out of server launch attemps, this is bizarrely unlikely")
                | _ => raise e
                end)
       | _ => raise e
       end).

(** Nothing of [d] is left. *)
Definition absent (d : string) (f : filesystem) : Prop :=
  (forall p, p ∈ dirs f -> under d p = false) /\
  (forall p, is_Some (files f !! p) -> under d p = false).


(** *** Saving *)

Fixpoint readline_chars (l : list ascii) : list ascii :=
  match l with
  | [] => []
  | a :: l' => if (nat_of_ascii a =? 10)%nat then [a] else a :: readline_chars l'
  end.

(** [logfile.readline()] at offset [pos] of a file that holds [log]. *)
Definition readline (pos : nat) (log : string) : string :=
  string_of_list_ascii (readline_chars (drop pos (list_ascii_of_string log))).

(** What the outside world shows at one turn of the polling loop: the
    clock, in milliseconds, and what the engine has added to its log
    since the turn before. *)
Record observation : Type := mk_observation {
  now : Z;
  appended : string
}.

Inductive verdict : Type :=
| Found          (* break *)
| TimedOut       (* the else of the while *)
| Unfinished.    (* the observation stops before the loop does *)

(** The [while time.time() < deadline] loop of [save_world]. *)
Fixpoint wait_for_save (obs : list observation) (deadline : Z) (log : string)
    (pos : nat) : verdict :=
  match obs with
  | [] => Unfinished
  | o :: obs' =>
      if now o <? deadline then
        let log := log +:+ appended o in
        let line := readline pos log in
        if (String.length line =? 0)%nat || negb (endswith line newline) then
          (* we reached eof: seek(where), sleep *)
          wait_for_save obs' deadline log pos
        else if str_in "Saving finished" line then Found
        else wait_for_save obs' deadline log (pos + String.length line)
      else TimedOut
  end.

Record save_env : Type := mk_save_env {
  uuid4 : string;
  time : Z;                          (* time.time() when the deadline is set, in ms *)
  observations : list observation;
  artifact : option string           (* what the engine writes as the save, if it does *)
}.

Definition engine_saves (env : save_env) (out_path : string) : M unit :=
  match artifact env with
  | Some content => write_file out_path content
  | None => ret tt
  end.

Definition copy_file_async (src dst : string) : M unit :=
  mkdir (parent dst) ;;>
  content <~ read_file src ;;
  if String.eqb src dst then raise SameFileError else write_file dst content.

Definition expected_out_path (server : FactorioServer) (env : save_env) : string :=
  path_join (path_join (tmpdir server) "saves") (uuid4 env +:+ ".zip").

Definition save_command (env : save_env) : string :=
  "/sc game.server_save('" +:+ (uuid4 env +:+ ".zip") +:+ "')".

Section Saving.
Context {S : Type} {rcon : Rcon S}.

Definition save_world (server : FactorioServer) (target_file : string)
    (env : save_env) (s : S) (sys : system) : outcome * S * system :=
  match files (fs sys) !! get_server_log_path (tmpdir server) with
  | None => (Raised FileNotFoundError, s, sys)
  | Some log =>
      (* await logfile.seek(0, os.SEEK_END) *)
      let pos := String.length log in
      let '(r, s) := send_command (save_command env) s in
      match r with
      | Raise e => (Raised e, s, sys)
      | Ok _ =>
          let sys := snd (engine_saves env (expected_out_path server env) sys) in
          (* Allow 10 seconds for this *)
          let deadline := time env + 10 * 1000 in
          match wait_for_save (observations env) deadline log pos with
          | Unfinished => (Polling, s, sys)
          | TimedOut =>
              (Raised (PlainException
                         ("Timed out waiting for confirmation of saving finished for: "
                          +:+ expected_out_path server env)), s, sys)
          | Found =>
              (* Use copy and delete strat *)
              match (copy_file_async (expected_out_path server env) target_file ;;>
                     unlink (expected_out_path server env)) sys with
              | (Ok _, sys') => (Returned, s, sys')
              | (Raise e, sys') => (Raised e, s, sys')
              end
          end
      end
  end.

End Saving.

(** Sample data: a launch whose login is refused, under pytest, with a
    log to print; a running server; an engine that finishes the save
    after 300 ms, and one that never does. *)
Definition empty_system : system := mk_system (mk_filesystem ∅ ∅) [].

Definition sample_launch : launch_env :=
  mk_launch_env "/tmp/tmpab12"
    (fun op => match op with OpenRcon => Some RCONAuthFailure | _ => None end)
    "PK" "/opt/factorio" "{}" [("control.lua", "-- mod")] 34197 27015 (Some ("0.000 Loading" +:+ newline))
    "0" true.

Definition sample_server : FactorioServer :=
  mk_FactorioServer "/tmp/tmpab12" 34197 27015 (World_init 0) true.

Definition sample_running : system :=
  mk_system
    (mk_filesystem
       {[ get_server_log_path "/tmp/tmpab12" := "1.0 Saving finished" +:+ newline ]}
       {[ "/tmp/tmpab12" ]})
    [].

Definition sample_save : save_env :=
  mk_save_env "5d1f" 1000
    [mk_observation 1000 "2.0 Saving ";
     mk_observation 1100 ("map" +:+ newline +:+ "2.3 Savi");
     mk_observation 1300 ("ng finished" +:+ newline)]
    (Some "PKsave").

Definition sample_silent_save : save_env :=
  mk_save_env "5d1f" 1000
    [mk_observation 1000 EmptyString; mk_observation 6000 ("2.0 Info" +:+ newline);
     mk_observation 11000 ("2.3 Info" +:+ newline)]
    (Some "PKsave").

Definition sample_stuck_save : save_env :=
  mk_save_env "5d1f" 1000
    [mk_observation 1000 EmptyString; mk_observation 6000 ("2.0 Info" +:+ newline);
     mk_observation 11000 ("2.3 Saving finished" +:+ newline)]
    (Some "PKsave").

(** All that the engine adds to its log while [save_world] waits. *)
Definition all_appended (obs : list observation) : string :=
  fold_right (fun o acc => appended o +:+ acc) EmptyString obs.

(** [m] never removes a directory. *)
Definition keeps_dirs {A} (m : M A) : Prop :=
  forall sys, dirs (fs sys) ⊆ dirs (fs (snd (m sys))).

(** The system once [mkdtemp] has made the working directory. *)
Definition made_tmpdir (env : launch_env) (sys : system) : system :=
  mk_system (mk_filesystem (files (fs sys)) ({[ mkdtemp env ]} ∪ dirs (fs sys)))
    (events sys).


(** [m] makes no file or directory outside [d]. *)
Definition confined {A} (d : string) (m : M A) : Prop :=
  forall sys p,
    (p ∈ dirs (fs (snd (m sys))) -> p ∈ dirs (fs sys) \/ under d p = true) /\
    (is_Some (files (fs (snd (m sys))) !! p) ->
     is_Some (files (fs sys) !! p) \/ under d p = true).

(** [sys'] holds no file or directory that [sys] did not hold. *)
Definition nothing_new (sys sys' : system) : Prop :=
  forall p,
    (p ∈ dirs (fs sys') -> p ∈ dirs (fs sys)) /\
    (is_Some (files (fs sys') !! p) -> is_Some (files (fs sys) !! p)).

(** [m] changes no file and no directory outside [d]. *)
Definition untouched_outside {A} (d : string) (m : M A) : Prop :=
  forall sys p, under d p = false ->
    (p ∈ dirs (fs (snd (m sys))) <-> p ∈ dirs (fs sys)) /\
    files (fs (snd (m sys))) !! p = files (fs sys) !! p.

(** *** Shutting down *)

(** [try: body finally: final]: [final] always runs; its exception, if
    it raises, replaces the outcome of [body]. *)
Definition try_finally {A B} (body : M A) (final : M B) : M A := fun sys =>
  let '(r, sys1) := body sys in
  match final sys1 with
  | (Ok _, sys2) => (r, sys2)
  | (Raise e, sys2) => (Raise e, sys2)
  end.

(** What the outside world does while a server is shut down. *)
Record shutdown_env : Type := mk_shutdown_env {
  rcon_aclose_raises : option exn;   (* [self.rcon.aclose()] raises *)
  kill_raises : option exn;          (* [self.process.kill()] raises *)
  wait_raises : option exn;          (* [self.process.wait()] raises *)
  under_pytest : bool                (* PYTEST_CURRENT_TEST is in os.environ *)
}.

Definition raise_if (r : option exn) (effect : M unit) : M unit :=
  match r with
  | Some e => raise e
  | None => effect
  end.

(** [FactorioServer.aclose].  The server object comes back with the
    [delete_tmpdir] it has when [aclose] ends, also when it raises. *)
Definition aclose (env : shutdown_env) (server : FactorioServer)
    : system -> res unit * FactorioServer * system := fun sys =>
  let '(r, sys) :=
    try_finally (raise_if (rcon_aclose_raises env) (ret tt))
                (raise_if (kill_raises env) (emit Killed)) sys in
  let server :=
    match kill_raises env with
    | Some ProcessLookupError =>
        (* self.delete_tmpdir = False; raise *)
        mk_FactorioServer (tmpdir server) (port server) (rcon_port server)
          (world server) false
    | _ => server
    end in
  match r with
  | Raise e => (Raise e, server, sys)
  | Ok _ =>
      let '(r, sys) :=
        (raise_if (wait_raises env) (emit Waited) ;;>
         (if under_pytest env then debug_print_server_log (tmpdir server) else ret tt) ;;>
         (if delete_tmpdir server then rmtree (tmpdir server) else ret tt)) sys in
      (r, server, sys)
  end.

(** *** Opening the protocol client *)

(** One turn of the loop of [_open_rcon]: what [time.time()] returns at
    the test of the loop, in milliseconds, and what the network does if
    [connect] is tried then. *)
Record connect_turn : Type := mk_connect_turn {
  clock : Z;
  refused : option exn;     (* [asyncio.open_connection] raises *)
  answer : list Z           (* what the server sends before the login times out *)
}.

(** The [while time.time() < deadline] loop of [_open_rcon]; [None] when
    the turns end before the loop does. *)
Fixpoint open_rcon_loop (turns : list connect_turn) (deadline : Z)
    (last_exception : option exn) (client : RCON.RCONClient) (h : RCON.event_loop)
    : option (res RCON.RCONClient * RCON.event_loop) :=
  match turns with
  | [] => None
  | t :: turns' =>
      if clock t <? deadline then
        let '(r, client, h) := RCON.connect client (refused t) (answer t) h in
        match r with
        | Ok _ => Some (Ok client, h)     (* last_exception = None; break *)
        | Raise ConnectionRefusedError =>
            open_rcon_loop turns' deadline (Some ConnectionRefusedError) client h
        | Raise TimeoutError =>
            open_rcon_loop turns' deadline (Some TimeoutError) client h
        | Raise e => Some (Raise e, h)
        end
      else
        match last_exception with
        | Some e => Some (Raise e, h)
        | None => Some (Ok client, h)
        end
  end.

(** [_open_rcon]; [now] is [time.time()] at its start, in milliseconds. *)
Definition _open_rcon (address : string) (port : Z) (password : list Z) (now : Z)
    (turns : list connect_turn) (h : RCON.event_loop)
    : option (res RCON.RCONClient * RCON.event_loop) :=
  let '(client, h) := RCON.RCONClient_init address port password h in
  let deadline := now + 20 * 1000 in
  open_rcon_loop turns deadline None client h.

(** Sample data: a server that is shut down after its engine has gone. *)
Definition sample_gone : shutdown_env :=
  mk_shutdown_env None (Some ProcessLookupError) None false.

Definition sample_shutdown : shutdown_env := mk_shutdown_env None None None true.

(** A launch in which nothing fails. *)
Definition sample_good_launch : launch_env :=
  mk_launch_env "/tmp/tmpab12" (fun _ => None)
    "PK" "/opt/factorio" "{}" [("control.lua", "-- mod")] 34197 27015
    (Some ("0.000 Loading" +:+ newline)) "120" false.

(** The engine refuses the stream twice while it starts, then accepts
    the login. *)
Definition sample_turns : list connect_turn :=
  [mk_connect_turn 0 (Some ConnectionRefusedError) [];
   mk_connect_turn 500 (Some ConnectionRefusedError) [];
   mk_connect_turn 1000 None RCON.auth_ok_frame].

(** The command line [_try_create_server] builds, and the events of
    killing the engine after a failure. *)
Definition factorio_cmd (env : launch_env) (tmpdir : string) : list string :=
  let savefile_path := path_join (path_join tmpdir "saves") "save.zip" in
  let config_ini_path := path_join tmpdir "config.ini" in
  let server_settings_json_path := path_join tmpdir "server-settings.json" in
  let mod_dir := path_join tmpdir "mods" in
  let rconpw := basename tmpdir in
  let factorio_bin := path_join (path_join (path_join (factorio_dir env) "bin") "x64")
                        "factorio" in
  [factorio_bin; "--config"; config_ini_path; "--mod-directory"; mod_dir;
   "--bind"; "127.0.0.1"; "--port"; pretty (udp_port env);
   "--rcon-bind"; "127.0.0.1:" +:+ pretty (tcp_port env);
   "--rcon-password"; rconpw;
   "--server-settings"; server_settings_json_path;
   "--start-server"; savefile_path].

Definition kill_events (env : launch_env) : list event :=
  match fails env KillProcess, fails env WaitProcess with
  | Some _, _ => []
  | None, Some _ => [Killed]
  | None, None => [Killed; Waited]
  end.

End Server.

(** ** Python values of the problem code

    What [encoding.py], [problems.py] and [evaluator.py] take from the
    language and its libraries: exceptions with their messages, list
    indexing, [math.floor], [round], a [numpy] matrix and
    [random.Random]. *)

Module Py.

Local Open Scope string_scope.
Local Open Scope Z_scope.

Inductive exception : Type :=
| AssertionError (message : string)
| IndexError
| ValueError
| Exception (message : string).

Inductive result (A : Type) : Type :=
| Return (a : A)
| Raises (e : exception).
Arguments Return {A} a.
Arguments Raises {A} e.

Definition bind {A B} (r : result A) (k : A -> result B) : result B :=
  match r with
  | Return a => k a
  | Raises e => Raises e
  end.

Notation "x <<- r ;; k" := (bind r (fun x => k))
  (at level 100, r at next level, right associativity).

(** [l[i]]: a negative index counts from the end. *)
Definition getitem {A} (l : list A) (i : Z) : result A :=
  let j := if i <? 0 then i + Z.of_nat (length l) else i in
  if j <? 0 then Raises IndexError
  else
    match l !! Z.to_nat j with
    | Some a => Return a
    | None => Raises IndexError
    end.

(** [l.index(v)] *)
Fixpoint index {A} `{EqDecision A} (l : list A) (v : A) : result Z :=
  match l with
  | [] => Raises ValueError
  | a :: l' => if decide (a = v) then Return 0 else i <<- index l' v ;; Return (i + 1)
  end.

(** [v in l] *)
Definition contains {A} `{EqDecision A} (v : A) (l : list A) : bool :=
  bool_decide (v ∈ l).

(** A finite [float] is taken as the rational it denotes; the
    operations the problem code makes on floats are exact on the values
    it meets.  [math.floor]: *)
Definition floor (q : Q) : Z := Qfloor q.

(** [round(q)]: to the nearest integer, a tie to the even one. *)
Definition round (q : Q) : Z :=
  let f := Qfloor q in
  match (q - inject_Z f ?= 1 # 2)%Q with
  | Lt => f
  | Gt => f + 1
  | Eq => if Z.even f then f else f + 1
  end.

(** A two-dimensional [numpy] array of integers, given by its rows. *)
Definition ndarray : Type := list (list Z).

(** [np.zeros((n, m), dtype=np.uint8)] *)
Definition zeros (n m : Z) : result ndarray :=
  if (n <? 0) || (m <? 0) then Raises ValueError
  else Return (replicate (Z.to_nat n) (replicate (Z.to_nat m) 0)).

(** An index into an axis of length [len]. *)
Definition axis_index (len : nat) (i : Z) : result nat :=
  let j := if i <? 0 then i + Z.of_nat len else i in
  if (0 <=? j) && (j <? Z.of_nat len) then Return (Z.to_nat j) else Raises IndexError.

(** [a[x, y]] *)
Definition getitem2 (a : ndarray) (x y : Z) : result Z :=
  i <<- axis_index (length a) x ;;
  match a !! i with
  | Some row =>
      j <<- axis_index (length row) y ;;
      match row !! j with
      | Some v => Return v
      | None => Raises IndexError
      end
  | None => Raises IndexError
  end.

(** [a[x, y] = v], for a [v] that fits the element type. *)
Definition setitem2 (a : ndarray) (x y : Z) (v : Z) : result ndarray :=
  i <<- axis_index (length a) x ;;
  match a !! i with
  | Some row =>
      j <<- axis_index (length row) y ;;
      Return (<[i := <[j := v]> row]> a)
  | None => Raises IndexError
  end.

(** [random.Random]: an arbitrary source.  Each call of [randrange]
    takes the next raw draw and brings it into the range; [None] when
    the draws observed run out. *)
Definition Rand (A : Type) : Type := list Z -> option (result A * list Z).

Definition rand_ret {A} (a : A) : Rand A := fun draws => Some (Return a, draws).

Definition rand_raise {A} (e : exception) : Rand A := fun draws => Some (Raises e, draws).

Definition rand_lift {A} (r : result A) : Rand A := fun draws => Some (r, draws).

Definition rand_bind {A B} (m : Rand A) (k : A -> Rand B) : Rand B := fun draws =>
  match m draws with
  | Some (Return a, draws') => k a draws'
  | Some (Raises e, draws') => Some (Raises e, draws')
  | None => None
  end.

Notation "x <~~ m ;; k" := (rand_bind m (fun x => k))
  (at level 100, m at next level, right associativity).

(** [prng.randrange(n)] *)
Definition randrange (n : Z) : Rand Z := fun draws =>
  if n <=? 0 then Some (Raises ValueError, draws)
  else
    match draws with
    | [] => None
    | d :: draws' => Some (Return (d mod n), draws')
    end.

End Py.

(** ** The belt problem: encoding ([encoding.py]) *)

(** [world.EntityDescription] as the engine reports it: the coordinates
    of [position] are floats, the midpoint of a tile. *)
Module EntityDescription.

Record Position : Type := mk_Position { x : Q; y : Q }.

Record t : Type := mk {
  surface : string;
  name : string;
  position : Position;
  direction : World.direction;
  force : string;
  unit_number : option Z
}.

End EntityDescription.

Module Encoding.
Import Py.

Local Open Scope string_scope.
Local Open Scope Z_scope.
Local Open Scope list_scope.

(** entities we care to encode *)
Definition ENTITY_TYPES : list string :=
  ["fast-transport-belt"; "stone-wall"; "fle-void-fast-inserter"; "steel-chest"].

(** directions we care to encode *)
Definition DIRECTIONS : list World.direction :=
  [World.north; World.east; World.south; World.west].

Record EntityNameAndDirection : Type := mk_EntityNameAndDirection {
  name : string;
  direction : World.direction
}.

Definition encode_entity (e : EntityNameAndDirection) : Py.result Z :=
  if negb (contains (name e) ENTITY_TYPES) then
    Raises (AssertionError "Un-encodable entity")
  else if negb (contains (direction e) DIRECTIONS) then
    Raises (AssertionError "Un-encodable direction")
  else
    (* +1 for the zero which == empty space *)
    t <<- index ENTITY_TYPES (name e) ;;
    d <<- index DIRECTIONS (direction e) ;;
    Return (t * Z.of_nat (length DIRECTIONS) + d + 1).

Definition get_max_encoded_action_value_exclusive : Z := 6.

Definition get_max_encoded_observation_value_exclusive : Py.result Z :=
  n <<- getitem ENTITY_TYPES (-1) ;;
  d <<- getitem DIRECTIONS (-1) ;;
  encode_entity (mk_EntityNameAndDirection n d).

Definition decode_entity (num : Z) : Py.result (option EntityNameAndDirection) :=
  (* -1 for the zero which == empty space *)
  let type_index := (num - 1) / Z.of_nat (length DIRECTIONS) in
  let direction_index := (num - 1) mod Z.of_nat (length DIRECTIONS) in
  if type_index <? Z.of_nat (length ENTITY_TYPES) then
    n <<- getitem ENTITY_TYPES type_index ;;
    d <<- getitem DIRECTIONS direction_index ;;
    Return (Some (mk_EntityNameAndDirection n d))
  else Return None.

(** The [for entity in entities] loop of [encode_observation]. *)
Fixpoint encode_entities (entities : list EntityDescription.t) (result : ndarray)
    : Py.result ndarray :=
  match entities with
  | [] => Return result
  | entity :: entities' =>
      if negb (contains (EntityDescription.name entity) ENTITY_TYPES) then
        (* Disregard entities which we are not encoding *)
        encode_entities entities' result
      else
        let x := floor (EntityDescription.x (EntityDescription.position entity)) in
        let y := floor (EntityDescription.y (EntityDescription.position entity)) in
        (* Offset by 2 for the walls *)
        let x := x + 2 in
        let y := y + 2 in
        cur_value <<- getitem2 result x y ;;
        if negb (cur_value =? 0) then
          Raises (AssertionError "Entity overlap was unexpected")
        else
          v <<- encode_entity
                  (mk_EntityNameAndDirection (EntityDescription.name entity)
                     (EntityDescription.direction entity)) ;;
          result <<- setitem2 result x y v ;;
          encode_entities entities' result
  end.

Definition encode_observation (dimension : Z) (entities : list EntityDescription.t)
    : Py.result ndarray :=
  result <<- zeros (dimension + 4) (dimension + 4) ;;
  encode_entities entities result.

(** The [for y, encoded_entity in enumerate(col)] loop of
    [decode_action]. *)
Fixpoint decode_col (x y : Z) (col : list Z)
    (entities_to_construct : list World.CreateEntityParams)
    : Py.result (list World.CreateEntityParams) :=
  match col with
  | [] => Return entities_to_construct
  | encoded_entity :: col' =>
      name_and_direction <<- decode_entity encoded_entity ;;
      let entities_to_construct :=
        match name_and_direction with
        | Some name_and_direction =>
            (* The only item we allow creation of atm *)
            if String.eqb (name name_and_direction) "fast-transport-belt" then
              entities_to_construct ++
              [World.mk_CreateEntityParams (name name_and_direction)
                 (Some (World.mk_Position x y)) (Some (direction name_and_direction))
                 (Some "player") "nauvis"]
            else entities_to_construct
        | None => entities_to_construct
        end in
      decode_col x (y + 1) col' entities_to_construct
  end.

(** The [for x, col in enumerate(matrix)] loop. *)
Fixpoint decode_rows (dimension x : Z) (matrix : ndarray)
    (entities_to_construct : list World.CreateEntityParams)
    : Py.result (list World.CreateEntityParams) :=
  match matrix with
  | [] => Return entities_to_construct
  | col :: matrix' =>
      if negb (Z.of_nat (length col) =? dimension) then Raises (AssertionError EmptyString)
      else
        entities_to_construct <<- decode_col x 0 col entities_to_construct ;;
        decode_rows dimension (x + 1) matrix' entities_to_construct
  end.

Definition decode_action (dimension : Z) (matrix : ndarray)
    : Py.result (list World.CreateEntityParams) :=
  if negb (Z.of_nat (length matrix) =? dimension) then Raises (AssertionError EmptyString)
  else decode_rows dimension 0 matrix [].

(** Sample data: the winning action of the static 3x3 problem, and its
    belts as the engine reports them, beside a tree. *)
Definition sample_action : ndarray := [[4; 0; 0]; [4; 0; 0]; [4; 0; 0]].

Definition sample_belts : list EntityDescription.t :=
  [EntityDescription.mk "nauvis" "fast-transport-belt"
     (EntityDescription.mk_Position (1 # 2) (1 # 2)) World.west "player" (Some 11);
   EntityDescription.mk "nauvis" "tree-01"
     (EntityDescription.mk_Position (5 # 2) (5 # 2)) World.north "neutral" None;
   EntityDescription.mk "nauvis" "fast-transport-belt"
     (EntityDescription.mk_Position (3 # 2) (1 # 2)) World.west "player" (Some 12);
   EntityDescription.mk "nauvis" "fast-transport-belt"
     (EntityDescription.mk_Position (5 # 2) (1 # 2)) World.west "player" (Some 13)].

End Encoding.

(** ** The belt problem: generation ([problems.py]) *)

Module Problems.
Import Py World.

Local Open Scope string_scope.
Local Open Scope Z_scope.
Local Open Scope list_scope.

Record Transform : Type := mk_Transform {
  position : Position;
  direction : World.direction
}.

Definition random_position (x_excl y_excl : Z) : Rand Position :=
  x <~~ randrange x_excl ;;
  y <~~ randrange y_excl ;;
  rand_ret (mk_Position x y).

(** 4 times the side length is a tour of the entire space *)
Definition _MAX_PATH_LENGTH_FACTOR : Z := 4.
Definition _MAX_ITEMS_PER_BELT_TILE : Z := 4.
(** tiles per-tick: [3.75 / 60] *)
Definition _FAST_TRANSPORT_BELT_TRAVEL_SPEED : Q := ((375 # 100) / inject_Z 60)%Q.
Definition _FAST_INSERTER_TICKS_PER_ROTATION : Z := 26.

Record Problem : Type := mk_Problem {
  dimension : Z;
  input_location : Transform;
  output_location : Transform;
  wall_obstacles : list Position;
  input_ore_quantity : Z;
  ticks_for_evaluation : Z
}.

Definition _default_input_ore_quantity (dimension : Z) : Z :=
  dimension * _MAX_PATH_LENGTH_FACTOR * _MAX_ITEMS_PER_BELT_TILE.

(** Enough time to unload all the ore and do one more
    [_MAX_PATH_LENGTH_FACTOR] of journey *)
Definition _default_ticks_for_evaluation (dimension input_ore_quantity : Z) : Z :=
  round (inject_Z (input_ore_quantity * _FAST_INSERTER_TICKS_PER_ROTATION)
         + inject_Z (dimension * _MAX_PATH_LENGTH_FACTOR)
           / _FAST_TRANSPORT_BELT_TRAVEL_SPEED)%Q.

(** [Problem(dimension, input_location, output_location, wall_obstacles)] *)
Definition Problem_init (dimension : Z) (input_location output_location : Transform)
    (wall_obstacles : list Position) : Problem :=
  let input_ore_quantity := _default_input_ore_quantity dimension in
  mk_Problem dimension input_location output_location wall_obstacles
    input_ore_quantity (_default_ticks_for_evaluation dimension input_ore_quantity).

Definition get_input_chest_pos (p : Problem) : Position :=
  offset_pos (position (input_location p)) (direction (input_location p)) 1.

Definition get_output_chest_pos (p : Problem) : Position :=
  offset_pos (position (output_location p)) (direction (output_location p)) (-1).

Definition linear_to_outer_edge_pos (dimension : Z) (for_input : bool) (i : Z)
    : Py.result Transform :=
  let edge := i mod 4 in
  let offset := i / 4 in
  x <<- getitem [-1; dimension; offset; offset] edge ;;
  y <<- getitem [offset; offset; -1; dimension] edge ;;
  (* inserter direction points towards the collection side *)
  direction <<- getitem [east; west; south; north] edge ;;
  let direction := if for_input then get_opposite_direction direction else direction in
  Return (mk_Transform (mk_Position x y) direction).

Definition random_outer_edge_pos (dimension : Z) (for_input : bool) : Rand Transform :=
  (* possible positions are four times the side-length *)
  linear_pos <~~ randrange (dimension * 4) ;;
  rand_lift (linear_to_outer_edge_pos dimension for_input linear_pos).

(** The [while manhattan_distance(...) < 3] loop; [fuel] bounds the
    number of turns observed. *)
Fixpoint redraw_output (fuel : nat) (dimension : Z)
    (input_location output_location : Transform) : Rand Transform :=
  if manhattan_distance (position input_location) (position output_location) <? 3 then
    match fuel with
    | O => fun _ => None
    | S fuel' =>
        output_location <~~ random_outer_edge_pos dimension false ;;
        redraw_output fuel' dimension input_location output_location
    end
  else rand_ret output_location.

(** The [for _ in range(1000)] loop with its [else]. *)
Fixpoint pick_wall (tries : nat) (dimension : Z)
    (input_drop_location output_grab_location : Position)
    (wall_obstacles : list Position) : Rand Position :=
  match tries with
  | O => rand_raise (Exception "Generation failed to add valid walls")
  | S tries' =>
      wall_pos <~~ random_position dimension dimension ;;
      if decide (wall_pos = input_drop_location) then
        pick_wall tries' dimension input_drop_location output_grab_location wall_obstacles
      else if decide (wall_pos = output_grab_location) then
        pick_wall tries' dimension input_drop_location output_grab_location wall_obstacles
      else if contains wall_pos wall_obstacles then
        pick_wall tries' dimension input_drop_location output_grab_location wall_obstacles
      else rand_ret wall_pos
  end.

(** The [for _ in range(dimension - 1)] loop. *)
Fixpoint add_walls (count : nat) (dimension : Z)
    (input_drop_location output_grab_location : Position)
    (wall_obstacles : list Position) : Rand (list Position) :=
  match count with
  | O => rand_ret wall_obstacles
  | S count' =>
      wall_pos <~~ pick_wall 1000 dimension input_drop_location output_grab_location
                     wall_obstacles ;;
      add_walls count' dimension input_drop_location output_grab_location
        (wall_obstacles ++ [wall_pos])
  end.

Definition generate_problem (fuel : nat) (dimension : Z) : Rand Problem :=
  input_location <~~ random_outer_edge_pos dimension true ;;
  output_location <~~ random_outer_edge_pos dimension false ;;
  (* we dont want a situation where the input already feeds the output *)
  output_location <~~ redraw_output fuel dimension input_location output_location ;;
  let input_drop_location :=
    offset_pos (position input_location) (direction input_location) (-1) in
  let output_grab_location :=
    offset_pos (position output_location) (direction output_location) 1 in
  (* dimension - 1 helps to avoid partitioning the space entirely *)
  wall_obstacles <~~ add_walls (Z.to_nat (dimension - 1)) dimension
                       input_drop_location output_grab_location [] ;;
  rand_ret (Problem_init dimension input_location output_location wall_obstacles).

(** Sample draws for a 3x3 problem. *)
Definition sample_draws : list Z := [4; 5; 7; 1; 1; 2; 2].

End Problems.

(** ** The belt problem: the world of a problem ([evaluator.py]) *)

Module Evaluator.
Import Py World Problems.

Local Open Scope string_scope.
Local Open Scope Z_scope.
Local Open Scope list_scope.

(** [world.CreateEntityParams(name, position, direction)], the other
    fields at their defaults. *)
Definition CreateEntityParams (name : string) (position : Position)
    (direction : World.direction) : World.CreateEntityParams :=
  mk_CreateEntityParams name (Some position) (Some direction) (Some "player") "nauvis".

(** The body of the double loop of [create_world]: what is asked for at
    tile [(x, y)]. *)
Definition border_entity (current_problem : Problem) (x y : Z)
    : list World.CreateEntityParams :=
  let pos := mk_Position x y in
  let input_chest_pos := get_input_chest_pos current_problem in
  let output_chest_pos := get_output_chest_pos current_problem in
  if decide (pos = position (input_location current_problem)) then
    [CreateEntityParams "fle-void-fast-inserter"
       (position (input_location current_problem))
       (direction (input_location current_problem))]
  else if decide (pos = position (output_location current_problem)) then
    [CreateEntityParams "fle-void-fast-inserter"
       (position (output_location current_problem))
       (direction (output_location current_problem))]
  else if decide (pos = input_chest_pos) then
    [CreateEntityParams "steel-chest" input_chest_pos north]
  else if decide (pos = output_chest_pos) then
    [CreateEntityParams "steel-chest" output_chest_pos north]
  else if (World.x pos <? 0) || (World.y pos <? 0)
          || (dimension current_problem <=? World.x pos)
          || (dimension current_problem <=? World.y pos) then
    [CreateEntityParams "stone-wall" pos north]
  else [].

(** [range(-2, dimension + 2)] *)
Definition border_range (dimension : Z) : list Z := seqZ (-2) (dimension + 4).

(** The [entities] that [create_world] asks the world to create. *)
Definition create_world_entities (current_problem : Problem)
    : list World.CreateEntityParams :=
  (x ← border_range (dimension current_problem);
   y ← border_range (dimension current_problem);
   border_entity current_problem x y)
  ++ ((fun wall_pos => CreateEntityParams "stone-wall" wall_pos north)
        <$> wall_obstacles current_problem).

(** *** Evaluating a solution *)

Import Text.

(** The evaluator; the chests as cattrs unstructures their
    descriptions, the server through the world it holds. *)
Record Evaluator : Type := mk_Evaluator {
  server : option World.World;
  current_problem : option Problem;
  current_input_chest : option json;
  current_output_chest : option json
}.

(** How [evaluate_fitness] ends: with a score, with an exception (of
    the decoding, or of the bridge), or still stepping when the
    observation stops. *)
Inductive fitness_outcome : Type :=
| Score (score : Z)
| Fails (e : Py.exception + exn)
| Stepping.

Section Fitness.
Context {S : Type} {rcon : Rcon S} {json_lib : JsonLib}.

(** [output_contents.get("iron-ore", 0)] on the structured reply, which
    is an object with integer values. *)
Definition _get_iron_ore_quantity (entity_description : json) (s : S) : res Z * S :=
  let '(r, s) := get_inventory_contents entity_description s in
  (output_contents <- r ;;;
   match output_contents with
   | Some (JObj fields) =>
       match get "iron-ore" fields with
       | Some (JInt n) => Ok n
       | Some _ => Raise StructureError
       | None => Ok 0
       end
   | _ => Raise StructureError
   end, s).

(** [evaluate_fitness]; [fuel] bounds the polls of [step] observed.  The
    world and the client are returned as the call leaves them. *)
Definition evaluate_fitness (fuel : nat) (ev : Evaluator) (solution_matrix : ndarray)
    (s : S) : fitness_outcome * option World.World * S :=
  match current_problem ev, server ev, current_input_chest ev, current_output_chest ev with
  | Some current_problem, Some w, Some current_input_chest, Some current_output_chest =>
      match Encoding.decode_action (dimension current_problem) solution_matrix with
      | Raises e => (Fails (inl e), Some w, s)
      | Return entities_to_create =>
          let '(r, s) := create_entities entities_to_create s in
          match r with
          | Raise e => (Fails (inr e), Some w, s)
          | Ok _ =>
              let stepped := step fuel (ticks_for_evaluation current_problem) w s in
              match ending stepped with
              | Polling => (Stepping, Some (final stepped), client stepped)
              | Raised e => (Fails (inr e), Some (final stepped), client stepped)
              | Returned =>
                  (* Could be expanded to account for construction costs *)
                  let '(input_left, s) :=
                    _get_iron_ore_quantity current_input_chest (client stepped) in
                  match input_left with
                  | Raise e => (Fails (inr e), Some (final stepped), s)
                  | Ok input_left =>
                      let '(output_got, s) :=
                        _get_iron_ore_quantity current_output_chest s in
                      match output_got with
                      | Raise e => (Fails (inr e), Some (final stepped), s)
                      | Ok output_got =>
                          (Score (input_ore_quantity current_problem - input_left
                                  + output_got * input_ore_quantity current_problem),
                           Some (final stepped), s)
                      end
                  end
              end
          end
      end
  | _, _, _, _ => (Fails (inl (AssertionError EmptyString)), server ev, s)
  end.

End Fitness.

(** Sample data: the static 3x3 problem solved, all 48 ore delivered. *)
Definition sample_chest (x y : Z) : json :=
  JObj [("surface", JStr "nauvis"); ("name", JStr "steel-chest");
        ("position", JObj [("x", JInt x); ("y", JInt y)]);
        ("direction", JStr "north"); ("force", JStr "player");
        ("unit_number", JInt 7)].

Definition sample_evaluator : Evaluator :=
  mk_Evaluator (Some (World_init 100))
    (Some (Problem_init 3 (mk_Transform (mk_Position 3 0) east)
             (mk_Transform (mk_Position (-1) 0) west) []))
    (Some (sample_chest 4 0)) (Some (sample_chest (-2) 0)).

Definition delivered_reply : string :=
  json_dumps (JObj [("result", JObj [("iron-ore", JInt 48)]); ("error", JNull)]).

Definition sample_evaluation_script : script :=
  mk_script [Ok null_reply; Ok null_reply; Ok entity_reply;
             Ok null_reply; Ok "1540";
             Ok empty_chest_reply; Ok delivered_reply] [].

End Evaluator.

(** * Properties *)

(** ** The wire format *)

Module WireFacts.
Import Wire.

Ltac bool_to_prop :=
  repeat match goal with
  | H : _ && _ = true |- _ => apply andb_prop in H; destruct H
  | H : negb _ = true |- _ => apply negb_true_iff in H
  | H : (_ <=? _) = true |- _ => apply Z.leb_le in H
  | H : (_ <? _) = true |- _ => apply Z.ltb_lt in H
  | H : (_ <=? _) = false |- _ => apply Z.leb_gt in H
  | H : (_ <? _) = false |- _ => apply Z.ltb_ge in H
  | H : _ && _ = false |- _ => apply andb_false_iff in H
  end.

Ltac prop_to_bool :=
  repeat match goal with
  | |- _ && _ = true => apply andb_true_intro; split
  | |- negb _ = true => apply negb_true_iff
  | |- (_ <=? _) = true => apply Z.leb_le
  | |- (_ <? _) = true => apply Z.ltb_lt
  | |- (_ <=? _) = false => apply Z.leb_gt
  | |- (_ <? _) = false => apply Z.ltb_ge
  end.

Lemma unpack_i_le_bytes4 (v : Z) :
  is_int32 v = true ->
  let u := v mod 4294967296 in
  unpack_i (u mod 256) ((u / 256) mod 256) ((u / 65536) mod 256)
           ((u / 16777216) mod 256) = v.
Proof.
  intros H u. unfold is_int32 in H. unfold unpack_i, unsigned_le4, to_signed32.
  bool_to_prop.
  assert (Hu : u mod 256 + 256 * ((u / 256) mod 256)
               + 65536 * ((u / 65536) mod 256)
               + 16777216 * ((u / 16777216) mod 256) = u).
  { assert (0 <= u < 4294967296) by (apply Z.mod_pos_bound; lia).
    Z.div_mod_to_equations. lia. }
  rewrite Hu. subst u.
  destruct (Z.ltb_spec (v mod 4294967296) 2147483648);
    Z.div_mod_to_equations; lia.
Qed.

Lemma pack_i_unpack_i (b0 b1 b2 b3 : Z) :
  is_byte b0 = true -> is_byte b1 = true ->
  is_byte b2 = true -> is_byte b3 = true ->
  pack_i (unpack_i b0 b1 b2 b3) = Ok [b0; b1; b2; b3].
Proof.
  unfold is_byte, pack_i, unpack_i, to_signed32, unsigned_le4, le_bytes4.
  intros H0 H1 H2 H3. bool_to_prop.
  set (u := b0 + 256 * b1 + 65536 * b2 + 16777216 * b3).
  assert (Hu : 0 <= u < 4294967296) by (subst u; lia).
  assert (Hm : (if u <? 2147483648 then u else u - 4294967296) mod 4294967296 = u).
  { destruct (Z.ltb_spec u 2147483648).
    - apply Z.mod_small; lia.
    - replace (u - 4294967296) with (u + (-1) * 4294967296) by lia.
      rewrite Z.mod_add by lia. apply Z.mod_small; lia. }
  assert (Hr : is_int32 (if u <? 2147483648 then u else u - 4294967296) = true).
  { unfold is_int32. destruct (Z.ltb_spec u 2147483648); prop_to_bool; lia. }
  rewrite Hr, Hm. f_equal. subst u.
  repeat f_equal; Z.div_mod_to_equations; lia.
Qed.

Ltac split_hyps :=
  repeat (bool_to_prop;
          match goal with
          | H : _ \/ _ |- _ => destruct H
          | H : _ /\ _ |- _ => destruct H
          end);
  bool_to_prop.

Ltac arith := Z.div_mod_to_equations; lia.

Ltac case_if :=
  match goal with
  | |- context [if ?b then _ else _] => destruct b eqn:?
  end; split_hyps; try (exfalso; arith).

Ltac unfold_utf8 :=
  unfold ok2, ok3, ok4, is_cont, is_surrogate, cp2, cp3, cp4 in *.

Lemma ocons_Some c r s : ocons c r = Some s -> exists s', r = Some s' /\ s = c :: s'.
Proof. destruct r; simpl; intros H; inversion H; eauto. Qed.

Lemma utf8_decode_encode_char (c : Z) (bs t : list Z) :
  utf8_encode_char c = Some bs ->
  utf8_decode_opt (bs ++ t) = ocons c (utf8_decode_opt t).
Proof.
  unfold utf8_encode_char. intros H.
  repeat match type of H with
         | (if ?b then _ else _) = _ => destruct b eqn:?
         end; inversion H; subst; clear H; split_hyps; unfold is_surrogate in *;
    split_hyps; cbn [app utf8_decode_opt]; unfold_utf8;
    repeat case_if; f_equal; arith.
Qed.

Lemma utf8_decode_encode (s bs : list Z) :
  utf8_encode s = Ok bs -> utf8_decode_opt bs = Some s.
Proof.
  revert bs. induction s as [|c s IH]; intros bs H; simpl in H.
  - inversion H. reflexivity.
  - destruct (utf8_encode_char c) as [cb|] eqn:Ec; [|discriminate].
    destruct (utf8_encode s) as [t|] eqn:Et; simpl in H; [|discriminate].
    inversion H; subst. rewrite (utf8_decode_encode_char _ _ _ Ec).
    rewrite (IH t eq_refl). reflexivity.
Qed.

Lemma utf8_encode_decode_bounded (n : nat) :
  forall l s, (length l <= n)%nat ->
  utf8_decode_opt l = Some s -> utf8_encode s = Ok l.
Proof.
  induction n as [|n IH]; intros l s Hn H.
  - destruct l; [|simpl in Hn; lia]. inversion H. reflexivity.
  - destruct l as [|b0 t0]; [inversion H; reflexivity|].
    cbn [utf8_decode_opt] in H. simpl in Hn.
    destruct ((0 <=? b0) && (b0 <? 128)) eqn:E0.
    { apply ocons_Some in H as (s' & Hs' & ->).
      apply IH in Hs'; [|lia]. simpl. unfold utf8_encode_char.
      split_hyps. repeat case_if. rewrite Hs'. reflexivity. }
    destruct t0 as [|b1 t1]; [discriminate|]. simpl in Hn.
    destruct (b0 <? 224) eqn:E1.
    { destruct (ok2 b0 b1) eqn:E2; [|discriminate].
      apply ocons_Some in H as (s' & Hs' & ->).
      apply IH in Hs'; [|lia]. simpl. unfold utf8_encode_char.
      unfold_utf8. split_hyps; repeat case_if; rewrite Hs'; simpl;
        repeat f_equal; arith. }
    destruct t1 as [|b2 t2]; [discriminate|]. simpl in Hn.
    destruct (b0 <? 240) eqn:E3.
    { destruct (ok3 b0 b1 b2) eqn:E2; [|discriminate].
      apply ocons_Some in H as (s' & Hs' & ->).
      apply IH in Hs'; [|lia]. simpl. unfold utf8_encode_char.
      unfold_utf8. split_hyps; repeat case_if; rewrite Hs'; simpl;
        repeat f_equal; arith. }
    destruct t2 as [|b3 t3]; [discriminate|]. simpl in Hn.
    destruct (ok4 b0 b1 b2 b3) eqn:E2; [|discriminate].
    apply ocons_Some in H as (s' & Hs' & ->).
    apply IH in Hs'; [|lia]. simpl. unfold utf8_encode_char.
    unfold_utf8. split_hyps; repeat case_if; rewrite Hs'; simpl;
      repeat f_equal; arith.
Qed.

Lemma utf8_encode_decode (l s : list Z) :
  utf8_decode_opt l = Some s -> utf8_encode s = Ok l.
Proof. apply (utf8_encode_decode_bounded (length l)). lia. Qed.

Lemma readexactly_app (n : Z) (l k : list Z) :
  n = Z.of_nat (length l) -> readexactly n (l ++ k) = Ok (l, k).
Proof.
  intros ->. unfold readexactly.
  destruct (Z.ltb_spec (Z.of_nat (length l)) 0); [lia|].
  rewrite length_app.
  destruct (Z.ltb_spec (Z.of_nat (length l + length k)) (Z.of_nat (length l))); [lia|].
  rewrite Nat2Z.id, take_app_length, drop_app_length. reflexivity.
Qed.

Lemma _read_packet_header (s0 s1 s2 s3 i0 i1 i2 i3 t0 t1 t2 t3 : Z) (rest : list Z) :
  _read_packet (s0 :: s1 :: s2 :: s3 :: i0 :: i1 :: i2 :: i3
                :: t0 :: t1 :: t2 :: t3 :: rest) =
  (rr <- readexactly (unpack_i s0 s1 s2 s3 - 8) rest ;;;
   s <- utf8_decode (drop_last2 (fst rr)) ;;;
   Ok (mk_Packet (unpack_i i0 i1 i2 i3) (unpack_i t0 t1 t2 t3) s, snd rr)).
Proof.
  unfold _read_packet.
  change (s0 :: s1 :: s2 :: s3 :: i0 :: i1 :: i2 :: i3 :: t0 :: t1 :: t2 :: t3 :: rest)
    with ([s0; s1; s2; s3; i0; i1; i2; i3; t0; t1; t2; t3] ++ rest).
  rewrite readexactly_app by reflexivity. reflexivity.
Qed.

Lemma drop_last2_snoc (l : list Z) : drop_last2 (l ++ [0; 0]) = l.
Proof.
  unfold drop_last2. rewrite length_app. simpl.
  replace (length l + 2 - 2)%nat with (length l) by lia.
  apply take_app_length.
Qed.

Lemma _write_packet_eq (pkt : _Packet) (b : list Z) :
  is_int32 (pkt_id pkt) = true -> is_int32 (type pkt) = true ->
  utf8_encode (body pkt) = Ok b ->
  Z.of_nat (length b) + 10 <= 2147483647 ->
  _write_packet pkt =
    Ok (le_bytes4 (Z.of_nat (length b) + 10)
        ++ (le_bytes4 (pkt_id pkt mod 4294967296)
            ++ le_bytes4 (type pkt mod 4294967296)) ++ b ++ [0; 0]).
Proof.
  intros Hi Ht Hb Hlen. unfold _write_packet, pack_i at 1 2.
  rewrite Hi, Ht, Hb. cbn [rbind].
  assert (Hl : Z.of_nat (length ((le_bytes4 (pkt_id pkt mod 4294967296)
            ++ le_bytes4 (type pkt mod 4294967296)) ++ b ++ [0; 0]))
          = Z.of_nat (length b) + 10).
  { rewrite !length_app. cbn [le_bytes4 length]. lia. }
  rewrite Hl. unfold pack_i.
  replace (is_int32 (Z.of_nat (length b) + 10)) with true
    by (symmetry; unfold is_int32; prop_to_bool; lia).
  cbn [rbind]. rewrite (Z.mod_small (Z.of_nat (length b) + 10)) by lia.
  reflexivity.
Qed.

Lemma encodable_inv (pkt : _Packet) :
  encodable pkt = true ->
  is_int32 (pkt_id pkt) = true /\ is_int32 (type pkt) = true /\
  exists b, utf8_encode (body pkt) = Ok b /\ Z.of_nat (length b) + 10 <= 2147483647.
Proof.
  unfold encodable. intros H.
  apply andb_prop in H as [H H3]. apply andb_prop in H as [H1 H2].
  destruct (utf8_encode (body pkt)) as [b|]; [|discriminate].
  apply Z.leb_le in H3. eauto.
Qed.

Lemma _read_packet_write_packet (pkt : _Packet) (frame rest : list Z) :
  encodable pkt = true ->
  _write_packet pkt = Ok frame ->
  _read_packet (frame ++ rest) = Ok (pkt, rest).
Proof.
  intros He Hw.
  destruct (encodable_inv _ He) as (Hi & Ht & b & Hb & Hlen).
  rewrite (_write_packet_eq _ _ Hi Ht Hb Hlen) in Hw. inversion Hw; subst frame.
  clear Hw. cbn [le_bytes4 app]. rewrite _read_packet_header.
  pose proof (unpack_i_le_bytes4 (Z.of_nat (length b) + 10)) as Hs.
  rewrite Z.mod_small in Hs by lia. cbv zeta in Hs.
  rewrite Hs by (unfold is_int32; prop_to_bool; lia).
  pose proof (unpack_i_le_bytes4 _ Hi) as Hid. cbv zeta in Hid. rewrite Hid.
  pose proof (unpack_i_le_bytes4 _ Ht) as Hty. cbv zeta in Hty. rewrite Hty.
  rewrite readexactly_app by (rewrite length_app; simpl; lia).
  cbn [rbind fst snd]. rewrite drop_last2_snoc.
  unfold utf8_decode. rewrite (utf8_decode_encode _ _ Hb). cbn [rbind].
  destruct pkt; reflexivity.
Qed.

Lemma Ok_inj {A} (a b : A) : Ok a = Ok b -> a = b.
Proof. congruence. Qed.

Lemma forallb_cons_inv (f : Z -> bool) (x : Z) (l : list Z) :
  forallb f (x :: l) = true -> f x = true /\ forallb f l = true.
Proof. simpl. intros H. apply andb_prop in H. exact H. Qed.

Lemma drop_last2_split (l : list Z) :
  drop (length l - 2) l = [0; 0] -> l = drop_last2 l ++ [0; 0].
Proof.
  intros H. unfold drop_last2. rewrite <- H. symmetry. apply take_drop.
Qed.

Lemma _write_packet_read_packet (b rest : list Z) :
  well_formed_frame b = true ->
  exists pkt, _read_packet (b ++ rest) = Ok (pkt, rest)
              /\ encodable pkt = true /\ _write_packet pkt = Ok b.
Proof.
  unfold well_formed_frame. intros H. apply andb_prop in H as [Hb H].
  destruct b as [|s0 [|s1 [|s2 [|s3 [|i0 [|i1 [|i2 [|i3 [|t0 [|t1 [|t2 [|t3 r]]]]]]]]]]]];
    try discriminate.
  apply andb_prop in H as [H Hu]. apply andb_prop in H as [Hsz Hz].
  apply Z.eqb_eq in Hsz. apply bool_decide_eq_true in Hz, Hu.
  destruct Hu as [s Hs].
  repeat match type of Hb with
         | forallb _ (_ :: _) = true =>
             apply forallb_cons_inv in Hb; destruct Hb as [? Hb]
         end.
  assert (Henc : utf8_encode s = Ok (drop_last2 r)) by (apply utf8_encode_decode, Hs).
  assert (Hr : r = drop_last2 r ++ [0; 0]) by (apply drop_last2_split, Hz).
  assert (Hlen : Z.of_nat (length (drop_last2 r)) + 10 = unpack_i s0 s1 s2 s3).
  { rewrite Hsz. rewrite Hr at 2. rewrite length_app. simpl. lia. }
  assert (Hrange : unpack_i s0 s1 s2 s3 <= 2147483647).
  { unfold unpack_i, to_signed32, unsigned_le4, is_byte in *. split_hyps.
    destruct (Z.ltb_spec (s0 + 256 * s1 + 65536 * s2 + 16777216 * s3) 2147483648); lia. }
  set (pkt := mk_Packet (unpack_i i0 i1 i2 i3) (unpack_i t0 t1 t2 t3) s).
  assert (Hi : is_int32 (pkt_id pkt) = true).
  { pose proof (pack_i_unpack_i i0 i1 i2 i3) as Hp. unfold pack_i in Hp. simpl.
    destruct (is_int32 (unpack_i i0 i1 i2 i3)); [reflexivity|].
    discriminate Hp; assumption. }
  assert (Ht : is_int32 (type pkt) = true).
  { pose proof (pack_i_unpack_i t0 t1 t2 t3) as Hp. unfold pack_i in Hp. simpl.
    destruct (is_int32 (unpack_i t0 t1 t2 t3)); [reflexivity|].
    discriminate Hp; assumption. }
  exists pkt. split; [|split].
  - cbn [app]. rewrite _read_packet_header.
    rewrite readexactly_app by lia. cbn [rbind fst snd].
    unfold utf8_decode. rewrite Hs. reflexivity.
  - unfold encodable. rewrite Hi, Ht. simpl. rewrite Henc.
    apply Z.leb_le. lia.
  - rewrite (_write_packet_eq pkt (drop_last2 r) Hi Ht Henc) by lia.
    f_equal. rewrite Hlen.
    pose proof (pack_i_unpack_i s0 s1 s2 s3) as Hp0.
    pose proof (pack_i_unpack_i i0 i1 i2 i3) as Hp1.
    pose proof (pack_i_unpack_i t0 t1 t2 t3) as Hp2.
    unfold pack_i in Hp0, Hp1, Hp2. simpl in Hi, Ht.
    rewrite Hi in Hp1. rewrite Ht in Hp2.
    assert (Hs32 : is_int32 (unpack_i s0 s1 s2 s3) = true)
      by (unfold is_int32; prop_to_bool; lia).
    rewrite Hs32 in Hp0. rewrite Z.mod_small in Hp0 by lia.
    specialize (Hp0 ltac:(assumption) ltac:(assumption) ltac:(assumption) ltac:(assumption)).
    specialize (Hp1 ltac:(assumption) ltac:(assumption) ltac:(assumption) ltac:(assumption)).
    specialize (Hp2 ltac:(assumption) ltac:(assumption) ltac:(assumption) ltac:(assumption)).
    assert (Hq0 := Ok_inj _ _ Hp0). assert (Hq1 := Ok_inj _ _ Hp1).
    assert (Hq2 := Ok_inj _ _ Hp2).
    simpl pkt_id. simpl type. rewrite Hq0, Hq1, Hq2. rewrite <- Hr. reflexivity.
Qed.

Lemma _write_packet_unfold (pkt : _Packet) :
  _write_packet pkt =
  if is_int32 (pkt_id pkt) then
    if is_int32 (type pkt) then
      match utf8_encode (body pkt) with
      | Ok b =>
          if is_int32 (Z.of_nat (length b) + 10) then
            Ok (le_bytes4 ((Z.of_nat (length b) + 10) mod 4294967296)
                ++ (le_bytes4 (pkt_id pkt mod 4294967296)
                    ++ le_bytes4 (type pkt mod 4294967296)) ++ b ++ [0; 0])
          else Raise StructError
      | Raise e => Raise e
      end
    else Raise StructError
  else Raise StructError.
Proof.
  unfold _write_packet, pack_i at 1 2.
  destruct (is_int32 (pkt_id pkt)); [|reflexivity].
  destruct (is_int32 (type pkt)); [|reflexivity]. cbn [rbind].
  destruct (utf8_encode (body pkt)) as [b|]; [|reflexivity]. cbn [rbind].
  assert (Hl : Z.of_nat (length ((le_bytes4 (pkt_id pkt mod 4294967296)
            ++ le_bytes4 (type pkt mod 4294967296)) ++ b ++ [0; 0]))
          = Z.of_nat (length b) + 10).
  { rewrite !length_app. cbn [le_bytes4 length]. lia. }
  rewrite Hl. unfold pack_i.
  destruct (is_int32 (Z.of_nat (length b) + 10)); reflexivity.
Qed.

Lemma _write_packet_encodable (pkt : _Packet) (frame : list Z) :
  _write_packet pkt = Ok frame -> encodable pkt = true.
Proof.
  rewrite _write_packet_unfold. unfold encodable.
  destruct (is_int32 (pkt_id pkt)); [|discriminate].
  destruct (is_int32 (type pkt)); [|discriminate].
  destruct (utf8_encode (body pkt)) as [b|]; [|discriminate].
  destruct (is_int32 (Z.of_nat (length b) + 10)) eqn:E; [|discriminate].
  intros _. unfold is_int32 in E. apply andb_prop in E as [_ E]. exact E.
Qed.

(** C3. Framing round trip.  A packet goes on the wire exactly when its
    id and type are int32, its body encodes to UTF-8 and the length
    fits an int32.  Then the frame is the little-endian int32 length of
    what follows, the int32 id, the int32 type, the UTF-8 body and two
    null bytes, and [_read_packet] reads the packet back from it; and a
    well-formed frame is read into a packet that [_write_packet] writes
    as the same bytes. *)
Theorem framing_round_trip :
  (forall pkt, encodable pkt = true <-> is_ok (_write_packet pkt) = true) /\
  (forall pkt frame rest,
     _write_packet pkt = Ok frame ->
     (exists b, utf8_encode (body pkt) = Ok b /\
        frame = le_bytes4 (Z.of_nat (length b) + 10)
                ++ (le_bytes4 (pkt_id pkt mod 4294967296)
                    ++ le_bytes4 (type pkt mod 4294967296)) ++ b ++ [0; 0]) /\
     _read_packet (frame ++ rest) = Ok (pkt, rest)) /\
  (forall b rest,
     well_formed_frame b = true ->
     exists pkt, _read_packet (b ++ rest) = Ok (pkt, rest) /\ _write_packet pkt = Ok b).
Proof.
  split; [|split].
  - intros pkt. split.
    + intros He. destruct (encodable_inv _ He) as (Hi & Ht & b & Hb & Hlen).
      rewrite (_write_packet_eq _ _ Hi Ht Hb Hlen). reflexivity.
    + intros Hok. destruct (_write_packet pkt) as [frame|] eqn:Hw; [|discriminate Hok].
      apply (_write_packet_encodable _ _ Hw).
  - intros pkt frame rest Hw.
    pose proof (_write_packet_encodable _ _ Hw) as He. split.
    + destruct (encodable_inv _ He) as (Hi & Ht & b & Hb & Hlen).
      exists b. split; [exact Hb|].
      rewrite (_write_packet_eq _ _ Hi Ht Hb Hlen) in Hw. congruence.
    + apply _read_packet_write_packet; assumption.
  - intros b rest Hwf.
    destruct (_write_packet_read_packet b rest Hwf) as (pkt & Hr & _ & Hw).
    exists pkt. split; assumption.
Qed.

Lemma framing_round_trip_witness :
  _read_packet ([16; 0; 0; 0; 7; 0; 0; 0; 2; 0; 0; 0; 104; 195; 169; 226; 130; 172; 0; 0]
                ++ [1; 2; 3]) = Ok (sample_packet, [1; 2; 3]) /\
  exists pkt, _read_packet (sample_frame ++ [1; 2; 3]) = Ok (pkt, [1; 2; 3])
              /\ _write_packet pkt = Ok sample_frame.
Proof.
  split.
  - refine (proj2 (proj1 (proj2 framing_round_trip) sample_packet _ [1; 2; 3] _)).
    vm_compute. reflexivity.
  - refine (proj2 (proj2 framing_round_trip) sample_frame [1; 2; 3] _).
    vm_compute. reflexivity.
Defined.

(** The reader does not look at the two bytes it discards, and it rejects
    a body that is not UTF-8: such frames are not well formed. *)
Example unchecked_terminator :
  _read_packet [10; 0; 0; 0; 1; 0; 0; 0; 0; 0; 0; 0; 65; 66]
  = Ok (mk_Packet 1 0 [], []).
Proof. vm_compute. reflexivity. Qed.

Example invalid_utf8_body :
  _read_packet [11; 0; 0; 0; 1; 0; 0; 0; 0; 0; 0; 0; 255; 0; 0]
  = Raise UnicodeDecodeError.
Proof. vm_compute. reflexivity. Qed.

End WireFacts.

(** ** The protocol client *)

Module RCONFacts.
Import Wire WireFacts RCON.

(** *** The reader and the authentication sentinel *)

Lemma auth_responses_spec (tbl : gmap Z _ExpectedResponse) (r : _ExpectedResponse) :
  In r (auth_responses tbl) <->
  (exists k, tbl !! k = Some r) /\ is_auth r = true.
Proof.
  unfold auth_responses, dict_values. rewrite filter_In, in_map_iff. split.
  - intros [[[k r'] [Hr Hin]] Ha]. simpl in Hr. subst r'. split; [|exact Ha].
    exists k. apply elem_of_map_to_list. apply list_elem_of_In. exact Hin.
  - intros [[k Hk] Ha]. split; [|exact Ha]. exists (k, r). split; [reflexivity|].
    apply list_elem_of_In, elem_of_map_to_list. exact Hk.
Qed.

Lemma dispatch_sentinel_one (pkt : _Packet) (tbl : gmap Z _ExpectedResponse)
    (fs : list fstate) (r : _ExpectedResponse) :
  type pkt = _SERVERDATA_AUTH_RESPONSE -> pkt_id pkt = -1 ->
  auth_responses tbl = [r] ->
  fs !! response_future r = Some Pending ->
  dispatch pkt tbl fs = Ok (<[response_future r := Failed RCONAuthFailure]> fs).
Proof.
  intros Ht Hi Ha Hp. unfold dispatch. rewrite Ht, Hi, Ha. simpl.
  unfold set_exception. rewrite Hp. reflexivity.
Qed.

Lemma dispatch_sentinel_defect (pkt : _Packet) (tbl : gmap Z _ExpectedResponse)
    (fs : list fstate) :
  type pkt = _SERVERDATA_AUTH_RESPONSE -> pkt_id pkt = -1 ->
  length (auth_responses tbl) <> 1%nat ->
  dispatch pkt tbl fs = Raise AssertionError.
Proof.
  intros Ht Hi Hn. unfold dispatch. rewrite Ht, Hi. simpl.
  destruct (Nat.eqb_spec (length (auth_responses tbl)) 1); [contradiction|].
  reflexivity.
Qed.

Lemma consume_crash (fuel : nat) (eof : bool) (stream stream' : list Z)
    (pkt : _Packet) (tbl : gmap Z _ExpectedResponse) (fs : list fstate) (e : exn) :
  _read_packet stream = Ok (pkt, stream') ->
  dispatch pkt tbl fs = Raise e ->
  consume (S fuel) eof stream tbl fs = (stream', fs, Crashed e).
Proof. intros Hr Hd. simpl. rewrite Hr, Hd. reflexivity. Qed.

(** *** Request ids *)

Lemma MAX_eq : _MAX_32_BIT_SIGNED_INT = 2147483647.
Proof. reflexivity. Qed.

Lemma _get_next_id_spec (c : RCONClient) :
  valid_next_id c ->
  fst (_get_next_id c) = _next_id c /\
  0 <= fst (_get_next_id c) <= _MAX_32_BIT_SIGNED_INT /\
  _next_id (snd (_get_next_id c)) =
    (if fst (_get_next_id c) =? _MAX_32_BIT_SIGNED_INT then 0
     else fst (_get_next_id c) + 1) /\
  valid_next_id (snd (_get_next_id c)).
Proof.
  unfold valid_next_id, _get_next_id. rewrite MAX_eq. simpl. intros H.
  destruct (Z.ltb_spec 2147483647 (_next_id c + 1));
    destruct (Z.eqb_spec (_next_id c) 2147483647); lia.
Qed.

Lemma _get_next_id_mod (c : RCONClient) :
  valid_next_id c ->
  _next_id (snd (_get_next_id c)) = (_next_id c + 1) mod 2147483648.
Proof.
  unfold valid_next_id, _get_next_id. rewrite MAX_eq. simpl. intros H.
  destruct (Z.ltb_spec 2147483647 (_next_id c + 1)).
  - replace (_next_id c + 1) with 2147483648 by lia. reflexivity.
  - symmetry. apply Z.mod_small. lia.
Qed.

Lemma allocate_next_id (k : nat) :
  forall c, valid_next_id c ->
  valid_next_id (snd (allocate k c)) /\
  _next_id (snd (allocate k c)) = (_next_id c + Z.of_nat k) mod 2147483648.
Proof.
  induction k as [|k IH]; intros c Hc.
  - simpl. split; [exact Hc|]. rewrite Z.add_0_r. symmetry. apply Z.mod_small.
    unfold valid_next_id in Hc. rewrite MAX_eq in Hc. lia.
  - cbn [allocate]. destruct (_get_next_id c) as [id c1] eqn:E.
    assert (Hc1 : valid_next_id c1).
    { pose proof (_get_next_id_spec c Hc) as H. rewrite E in H. apply H. }
    assert (Hn : _next_id c1 = (_next_id c + 1) mod 2147483648).
    { pose proof (_get_next_id_mod c Hc) as H. rewrite E in H. exact H. }
    destruct (IH c1 Hc1) as [Hv Hm].
    destruct (allocate k c1) as [ids c2]. simpl in *. split; [exact Hv|].
    rewrite Hm, Hn, Zplus_mod_idemp_l. f_equal. lia.
Qed.

Lemma allocate_lookup (k : nat) :
  forall c i, valid_next_id c -> (i < k)%nat ->
  fst (allocate k c) !! i = Some ((_next_id c + Z.of_nat i) mod 2147483648).
Proof.
  induction k as [|k IH]; intros c i Hc Hi; [lia|].
  cbn [allocate]. destruct (_get_next_id c) as [id c1] eqn:E.
  assert (Hc1 : valid_next_id c1).
  { pose proof (_get_next_id_spec c Hc) as H. rewrite E in H. apply H. }
  assert (Hn : _next_id c1 = (_next_id c + 1) mod 2147483648).
  { pose proof (_get_next_id_mod c Hc) as H. rewrite E in H. exact H. }
  assert (Hid : id = _next_id c).
  { pose proof (_get_next_id_spec c Hc) as H. rewrite E in H. apply H. }
  specialize (IH c1). destruct (allocate k c1) as [ids c2]. simpl in *.
  destruct i as [|i].
  - simpl. rewrite Z.add_0_r, Z.mod_small; [congruence|].
    unfold valid_next_id in Hc. rewrite MAX_eq in Hc. lia.
  - simpl. rewrite IH by (assumption || lia).
    rewrite Hn, Zplus_mod_idemp_l. do 2 f_equal. lia.
Qed.

Lemma allocate_length (k : nat) : forall c, length (fst (allocate k c)) = k.
Proof.
  induction k as [|k IH]; intros c; [reflexivity|].
  cbn [allocate]. destruct (_get_next_id c) as [id c1].
  specialize (IH c1). destruct (allocate k c1). simpl in *. congruence.
Qed.

Lemma mod_window_distinct (a i j : Z) :
  0 < j - i < 2147483648 -> (a + i) mod 2147483648 <> (a + j) mod 2147483648.
Proof. intros H E. Z.div_mod_to_equations. lia. Qed.

Lemma lingering_first : lingering 2.
Proof.
  assert (Hc : connect (fst sample_client) None auth_ok_frame (snd sample_client)
               = (Ok tt, fst sample_connected, snd sample_connected))
    by (vm_compute; reflexivity).
  pose proof (reachable_start _ _ [] (reachable_connected _ _ _ _ _ Hc)) as H.
  eexists _, _, (mk_ExpectedResponse false 1). split; [exact H|].
  repeat split; vm_compute; reflexivity.
Qed.

Lemma lingering_step (n : Z) :
  0 <= n <= _MAX_32_BIT_SIGNED_INT -> n <> 1 ->
  lingering n ->
  lingering (if n =? _MAX_32_BIT_SIGNED_INT then 0 else n + 1).
Proof.
  intros Hn Hn1 (c & h & er & Hr & Hnext & Hd & Hds & Hf).
  assert (Hv : valid_next_id c) by (unfold valid_next_id; lia).
  destruct (_get_next_id_spec c Hv) as (Hid & _ & Hnx & _).
  pose proof (reachable_start c h [] Hr) as Hs.
  assert (Hd' : _expected_responses_by_request_id (snd (_get_next_id c)) = 1%nat)
    by exact Hd.
  destruct (_get_next_id c) as [id c'] eqn:E. cbn [fst snd] in *. subst id.
  remember (mk_Packet (_next_id c) _SERVERDATA_EXECCOMMAND []) as pkt eqn:Hpkt.
  remember (snd (register c' pkt h)) as h1 eqn:Hh1.
  pose (er' := mk_ExpectedResponse (type pkt =? _SERVERDATA_AUTH) (length (futures h))).
  assert (Hds1 : dicts h1 = [ ∅; <[n := er']> {[ 1 := er ]} ]).
  { subst h1. unfold register. cbn [snd dicts set_dicts set_futures].
    rewrite Hd', Hds. subst pkt. cbn [pkt_id]. rewrite Hnext. reflexivity. }
  assert (Hf1 : futures h1 = futures h ++ [Pending]) by (subst h1; reflexivity).
  assert (He : deregister (_expected_responses_by_request_id c')
                 (mk_Packet n _SERVERDATA_EXECCOMMAND []) h1
               = Ok (set_dicts [ ∅; {[ 1 := er ]} ] h1)).
  { unfold deregister. rewrite Hd', Hds1. cbn [lookup list_lookup pkt_id].
    rewrite lookup_insert_eq. cbn [insert list_insert].
    rewrite delete_insert_eq. rewrite delete_singleton_ne by lia.
    reflexivity. }
  pose proof (reachable_end c' h1 n _ Hs He) as Hr'.
  exists c', (set_dicts [ ∅; {[ 1 := er ]} ] h1), er.
  split; [exact Hr'|]. split; [|split; [exact Hd'|split; [reflexivity|]]].
  - rewrite Hnx, Hnext. reflexivity.
  - cbn [futures set_dicts]. rewrite Hf1. apply lookup_app_l_Some. exact Hf.
Qed.

Lemma lingering_all (n : Z) : 2 <= n <= _MAX_32_BIT_SIGNED_INT -> lingering n.
Proof.
  intros Hn. replace n with (2 + (n - 2)) by lia.
  assert (H0 : 0 <= n - 2) by lia.
  assert (H1 : n - 2 < _MAX_32_BIT_SIGNED_INT - 1) by lia.
  revert H1. generalize (n - 2) H0. clear n Hn H0.
  apply (natlike_ind (fun x => x < _MAX_32_BIT_SIGNED_INT - 1 -> lingering (2 + x))).
  - intros _. exact lingering_first.
  - intros x Hx IH Hlt.
    assert (Hs := lingering_step (2 + x) ltac:(lia) ltac:(lia) (IH ltac:(lia))).
    destruct (Z.eqb_spec (2 + x) _MAX_32_BIT_SIGNED_INT) as [E|E]; [lia|].
    replace (2 + Z.succ x) with (2 + x + 1) by lia. exact Hs.
Qed.

(** After a full round the counter is back at the id of the request
    that is still in flight. *)
Lemma lingering_wrapped : lingering 1.
Proof.
  assert (Hm : 2 <= _MAX_32_BIT_SIGNED_INT <= _MAX_32_BIT_SIGNED_INT)
    by (rewrite MAX_eq; lia).
  assert (Hm0 : 0 <= _MAX_32_BIT_SIGNED_INT <= _MAX_32_BIT_SIGNED_INT) by lia.
  assert (Hm1 : _MAX_32_BIT_SIGNED_INT <> 1) by lia.
  assert (H := lingering_step _ Hm0 Hm1 (lingering_all _ Hm)).
  rewrite Z.eqb_refl in H.
  assert (Hz : 0 <= 0 <= _MAX_32_BIT_SIGNED_INT) by lia.
  assert (Hz1 : 0 <> 1) by lia.
  exact (lingering_step 0 Hz Hz1 H).
Qed.

(** *** Frame lemmas for the shared objects *)

Lemma run_reader_dicts (w : nat) (h : event_loop) : dicts (run_reader w h) = dicts h.
Proof.
  unfold run_reader. destruct (connections h !! w) as [cn|]; [|reflexivity].
  destruct (reader_task cn); [|reflexivity].
  destruct (_consume_reader _ _ _ _) as [[? ?] ?]. reflexivity.
Qed.

Lemma close_writer_dicts (w : nat) (h : event_loop) : dicts (close_writer w h) = dicts h.
Proof.
  unfold close_writer. destruct (connections h !! w); [|reflexivity].
  rewrite run_reader_dicts. reflexivity.
Qed.

Lemma write_dicts (w : nat) (b : list Z) (h : event_loop) : dicts (write w b h) = dicts h.
Proof. unfold write. destruct (connections h !! w); reflexivity. Qed.

Lemma write_futures (w : nat) (b : list Z) (h : event_loop) :
  futures (write w b h) = futures h.
Proof. unfold write. destruct (connections h !! w); reflexivity. Qed.

Lemma deliver_dicts (w : nat) (b : list Z) (h : event_loop) : dicts (deliver w b h) = dicts h.
Proof.
  unfold deliver. destruct (connections h !! w) as [cn|]; [|reflexivity].
  destruct (closed cn); [reflexivity|]. rewrite run_reader_dicts. reflexivity.
Qed.

Lemma run_reader_length (w : nat) (h : event_loop) :
  length (connections (run_reader w h)) = length (connections h).
Proof.
  unfold run_reader. destruct (connections h !! w) as [cn|]; [|reflexivity].
  destruct (reader_task cn); [|reflexivity].
  destruct (_consume_reader _ _ _ _) as [[? ?] ?]. simpl. apply length_insert.
Qed.

Lemma close_writer_length (w : nat) (h : event_loop) :
  length (connections (close_writer w h)) = length (connections h).
Proof.
  unfold close_writer. destruct (connections h !! w); [|reflexivity].
  rewrite run_reader_length. simpl. apply length_insert.
Qed.

(** Running the reader, writing and delivering never reopen or close a
    stream. *)
Lemma run_reader_closed (w w' : nat) (h : event_loop) :
  closed <$> (connections (run_reader w h) !! w') = closed <$> (connections h !! w').
Proof.
  unfold run_reader. destruct (connections h !! w) as [cn|] eqn:E; [|reflexivity].
  destruct (reader_task cn); [|reflexivity].
  destruct (_consume_reader _ _ _ _) as [[? ?] ?]. simpl.
  destruct (decide (w = w')) as [->|Hne].
  - rewrite list_lookup_insert_eq by (eapply lookup_lt_Some; exact E).
    rewrite E. reflexivity.
  - rewrite list_lookup_insert_ne by exact Hne. reflexivity.
Qed.

Lemma write_closed (w w' : nat) (b : list Z) (h : event_loop) :
  closed <$> (connections (write w b h) !! w') = closed <$> (connections h !! w').
Proof.
  unfold write. destruct (connections h !! w) as [cn|] eqn:E; [|reflexivity]. simpl.
  destruct (decide (w = w')) as [->|Hne].
  - rewrite list_lookup_insert_eq by (eapply lookup_lt_Some; exact E).
    rewrite E. reflexivity.
  - rewrite list_lookup_insert_ne by exact Hne. reflexivity.
Qed.

Lemma deliver_closed (w w' : nat) (b : list Z) (h : event_loop) :
  closed <$> (connections (deliver w b h) !! w') = closed <$> (connections h !! w').
Proof.
  unfold deliver. destruct (connections h !! w) as [cn|] eqn:E; [|reflexivity].
  destruct (closed cn) eqn:Ec; [reflexivity|]. rewrite run_reader_closed. simpl.
  destruct (decide (w = w')) as [->|Hne].
  - rewrite list_lookup_insert_eq by (eapply lookup_lt_Some; exact E).
    rewrite E. simpl. congruence.
  - rewrite list_lookup_insert_ne by exact Hne. reflexivity.
Qed.

(** Every packet read takes at least twelve bytes off the stream, so the
    reader never runs out of rounds. *)
Lemma _read_packet_shorter (stream stream' : list Z) (pkt : _Packet) :
  _read_packet stream = Ok (pkt, stream') ->
  (length stream' + 12 <= length stream)%nat.
Proof.
  intros H.
  destruct stream as [|s0 [|s1 [|s2 [|s3 [|i0 [|i1 [|i2 [|i3 [|t0 [|t1 [|t2 [|t3 r]]]]]]]]]]]];
    try discriminate H.
  rewrite _read_packet_header in H. unfold readexactly in H.
  destruct (unpack_i s0 s1 s2 s3 - 8 <? 0); [discriminate|].
  destruct (Z.of_nat (length r) <? unpack_i s0 s1 s2 s3 - 8); [discriminate|].
  cbn [rbind fst snd] in H.
  destruct (utf8_decode _); [|discriminate]. cbn [rbind] in H.
  inversion H; subst. rewrite length_drop. simpl. lia.
Qed.

Lemma consume_eof_ends (fuel : nat) :
  forall stream tbl fs, (length stream < fuel)%nat ->
  snd (consume fuel true stream tbl fs) <> Waiting.
Proof.
  induction fuel as [|fuel IH]; intros stream tbl fs Hlt; [lia|].
  cbn [consume]. destruct (_read_packet stream) as [[pkt stream']|e] eqn:E.
  - apply _read_packet_shorter in E.
    destruct (dispatch pkt tbl fs); [apply IH; lia|discriminate].
  - destruct e; discriminate.
Qed.

(** *** [aclose] *)

Lemma close_writer_conn (w : nat) (h : event_loop) (cn : connection) :
  connections h !! w = Some cn ->
  exists cn', connections (close_writer w h) !! w = Some cn'
              /\ closed cn' = true /\ reader_task cn' = None.
Proof.
  intros E. pose proof (lookup_lt_Some _ _ _ E) as Hlt.
  unfold close_writer. rewrite E. unfold run_reader.
  cbn [connections set_connections].
  rewrite list_lookup_insert_eq by exact Hlt. cbn [reader_task closed inbox outbox].
  destruct (reader_task cn) as [d|].
  - destruct (_consume_reader _ _ _ _) as [[rest fs] st] eqn:Ec.
    cbn [connections set_connections set_futures].
    rewrite list_lookup_insert_eq by (rewrite length_insert; exact Hlt).
    eexists. split; [reflexivity|]. split; [reflexivity|]. simpl.
    pose proof (consume_eof_ends (S (length (inbox cn))) (inbox cn)
                  (default ∅ (dicts (set_connections
                     (<[w:=mk_connection (inbox cn) (outbox cn) true (Some d)]> (connections h)) h) !! d))
                  (futures h) ltac:(lia)) as Hw.
    unfold _consume_reader in Ec. cbn [futures set_connections] in Ec.
    rewrite Ec in Hw. simpl in Hw. destruct st; [contradiction|reflexivity..].
  - cbn [connections set_connections].
    rewrite list_lookup_insert_eq by exact Hlt.
    eexists. split; [reflexivity|]. split; reflexivity.
Qed.

Lemma close_writer_futures (w : nat) (h : event_loop) :
  (forall cn, connections h !! w = Some cn -> inbox cn = []) ->
  futures (close_writer w h) = futures h.
Proof.
  intros Hin. unfold close_writer.
  destruct (connections h !! w) as [cn|] eqn:E; [|reflexivity].
  pose proof (lookup_lt_Some _ _ _ E) as Hlt. specialize (Hin cn eq_refl).
  unfold run_reader. cbn [connections set_connections].
  rewrite list_lookup_insert_eq by exact Hlt. cbn [reader_task closed inbox outbox].
  destruct (reader_task cn) as [d|]; [|reflexivity].
  rewrite Hin. reflexivity.
Qed.

Lemma aclose_dicts (c : RCONClient) (h : event_loop) :
  dicts (snd (aclose c h)) = dicts h ++ [∅].
Proof.
  unfold aclose, new_dict. destruct (_writer c) as [w|]; cbn [snd dicts set_dicts];
    [rewrite close_writer_dicts|]; reflexivity.
Qed.

Lemma aclose_client (c : RCONClient) (h : event_loop) :
  fst (aclose c h) =
  mk_RCONClient (hostname c) (port c) (password c) 0 None None (length (dicts h)).
Proof.
  unfold aclose, new_dict. destruct (_writer c) as [w|]; cbn [fst];
    [rewrite close_writer_dicts|]; reflexivity.
Qed.

Lemma aclose_connections_length (c : RCONClient) (h : event_loop) :
  length (connections (snd (aclose c h))) = length (connections h).
Proof.
  unfold aclose, new_dict. destruct (_writer c) as [w|]; cbn [snd connections set_dicts];
    [apply close_writer_length|reflexivity].
Qed.

Lemma aclose_is_closed (c : RCONClient) (h : event_loop) :
  is_closed (fst (aclose c h)) (snd (aclose c h)).
Proof.
  unfold is_closed. rewrite aclose_client, aclose_dicts. cbn.
  split; [reflexivity|]. split; [reflexivity|].
  apply list_lookup_middle. reflexivity.
Qed.

Lemma aclose_futures (c : RCONClient) (h : event_loop) :
  (forall w cn, _writer c = Some w -> connections h !! w = Some cn -> inbox cn = []) ->
  futures (snd (aclose c h)) = futures h.
Proof.
  intros Hin. unfold aclose, new_dict. destruct (_writer c) as [w|];
    cbn [snd futures set_dicts]; [|reflexivity].
  apply close_writer_futures. intros cn. apply Hin. reflexivity.
Qed.

Lemma aclose_stream (c : RCONClient) (h : event_loop) (w : nat) (cn : connection) :
  _writer c = Some w -> connections h !! w = Some cn ->
  exists cn', connections (snd (aclose c h)) !! w = Some cn'
              /\ closed cn' = true /\ reader_task cn' = None.
Proof.
  intros Hw E. unfold aclose, new_dict. rewrite Hw. cbn [snd connections set_dicts].
  apply (close_writer_conn w h cn E).
Qed.

(** *** [_send_packet] and [connect] *)

Lemma try_send_dicts (c : RCONClient) (pkt : _Packet) (incoming : list Z)
    (f : nat) (h : event_loop) :
  dicts (snd (try_send c pkt incoming f h)) = dicts h.
Proof.
  unfold try_send. destruct (_writer c) as [w|]; [|reflexivity].
  destruct (_write_packet pkt) as [bytes|]; [|reflexivity].
  destruct (futures _ !! f) as [[]|]; cbn [snd dicts set_futures];
    rewrite deliver_dicts, write_dicts; reflexivity.
Qed.

Lemma try_send_closed (c : RCONClient) (pkt : _Packet) (incoming : list Z)
    (f : nat) (h : event_loop) (w' : nat) :
  closed <$> (connections (snd (try_send c pkt incoming f h)) !! w')
  = closed <$> (connections h !! w').
Proof.
  unfold try_send. destruct (_writer c) as [w|]; [|reflexivity].
  destruct (_write_packet pkt) as [bytes|]; [|reflexivity].
  destruct (futures _ !! f) as [[]|]; cbn [snd connections set_futures];
    rewrite deliver_closed, write_closed; reflexivity.
Qed.

Lemma deregister_connections (d : nat) (pkt : _Packet) (h h' : event_loop) :
  deregister d pkt h = Ok h' -> connections h' = connections h.
Proof.
  unfold deregister. destruct (dicts h !! d) as [tbl|]; [|discriminate].
  destruct (tbl !! pkt_id pkt); [|discriminate]. intros H. inversion H. reflexivity.
Qed.

Lemma _send_packet_closed (c : RCONClient) (pkt : _Packet) (incoming : list Z)
    (h : event_loop) (w' : nat) :
  closed <$> (connections (snd (_send_packet c pkt incoming h)) !! w')
  = closed <$> (connections h !! w').
Proof.
  unfold _send_packet.
  destruct (register c pkt h) as [f h1] eqn:Er.
  assert (Hc1 : connections h1 = connections h).
  { unfold register in Er. inversion Er. reflexivity. }
  pose proof (try_send_closed c pkt incoming f h1 w') as Ht.
  destruct (try_send c pkt incoming f h1) as [r h2]. cbn [snd] in Ht.
  destruct (deregister _ pkt h2) as [h3|e] eqn:Ed; cbn [snd].
  - rewrite (deregister_connections _ _ _ _ Ed), Ht, Hc1. reflexivity.
  - rewrite Ht, Hc1. reflexivity.
Qed.

(** A request registers itself and deregisters itself: whatever
    happens in between, the dict ends as it started. *)
Lemma _send_packet_dicts (c : RCONClient) (pkt : _Packet) (incoming : list Z)
    (h : event_loop) (tbl : gmap Z _ExpectedResponse) :
  dicts h !! _expected_responses_by_request_id c = Some tbl ->
  tbl !! pkt_id pkt = None ->
  dicts (snd (_send_packet c pkt incoming h)) = dicts h.
Proof.
  intros Hd Hk. unfold _send_packet.
  destruct (register c pkt h) as [f h1] eqn:Er.
  set (d := _expected_responses_by_request_id c) in *.
  set (er := mk_ExpectedResponse (type pkt =? _SERVERDATA_AUTH) (length (futures h))).
  assert (Hd1 : dicts h1 = <[d := <[pkt_id pkt := er]> tbl]> (dicts h)).
  { unfold register in Er. inversion Er. cbn [dicts set_dicts set_futures].
    fold d. fold er. apply list_eq. intros i.
    rewrite list_lookup_alter. destruct (decide (d = i)) as [<-|Hne].
    - rewrite list_lookup_insert_eq by (eapply lookup_lt_Some; exact Hd).
      rewrite Hd. reflexivity.
    - rewrite list_lookup_insert_ne by exact Hne.
      reflexivity. }
  pose proof (try_send_dicts c pkt incoming f h1) as Ht.
  destruct (try_send c pkt incoming f h1) as [r h2]. cbn [snd] in Ht.
  unfold deregister. rewrite Ht, Hd1.
  rewrite list_lookup_insert_eq by (eapply lookup_lt_Some; exact Hd).
  rewrite lookup_insert_eq. cbn [snd dicts set_dicts].
  rewrite list_insert_insert_eq, delete_insert_eq, delete_id by exact Hk.
  apply list_insert_id. exact Hd.
Qed.

Lemma connect_refused (c : RCONClient) (e : exn) (incoming : list Z) (h : event_loop) :
  connect c (Some e) incoming h = (Raise e, fst (aclose c h), snd (aclose c h)).
Proof. unfold connect. destruct (aclose c h). reflexivity. Qed.

Lemma connect_accepted (c : RCONClient) (incoming : list Z) (h : event_loop) :
  connect c None incoming h =
  (match fst (_send_packet (connected_client c h) (login_pkt c) incoming (opened_loop c h)) with
   | Raise e => Raise e
   | Ok response => if 0 =? pkt_id response then Ok tt else Raise AssertionError
   end,
   connected_client c h,
   snd (_send_packet (connected_client c h) (login_pkt c) incoming (opened_loop c h))).
Proof.
  unfold connect, opened_loop, connected_client, login_pkt.
  pose proof (aclose_client c h) as Hc.
  pose proof (aclose_connections_length c h) as Hl.
  destruct (aclose c h) as [c1 h1]. cbn [fst snd] in *. subst c1.
  unfold _get_next_id. cbn [_next_id hostname port password _reader _writer
                            _expected_responses_by_request_id].
  change (_MAX_32_BIT_SIGNED_INT <? 0 + 1) with false. cbv iota.
  rewrite Hl.
  destruct (_send_packet _ _ incoming _) as [[response|e] h2]; [|reflexivity].
  cbn [fst snd pkt_id]. destruct (0 =? pkt_id response); reflexivity.
Qed.

Lemma consume_nothing (fuel : nat) (tbl : gmap Z _ExpectedResponse) (fs : list fstate) :
  consume fuel false [] tbl fs = ([], fs, Waiting).
Proof. destruct fuel; reflexivity. Qed.

Lemma register_eq (c : RCONClient) (pkt : _Packet) (h : event_loop)
    (tbl : gmap Z _ExpectedResponse) :
  dicts h !! _expected_responses_by_request_id c = Some tbl ->
  register c pkt h =
  (length (futures h),
   mk_event_loop (futures h ++ [Pending])
     (<[_expected_responses_by_request_id c :=
          <[pkt_id pkt := mk_ExpectedResponse (type pkt =? _SERVERDATA_AUTH)
                            (length (futures h))]> tbl]> (dicts h))
     (connections h)).
Proof.
  intros Hd. unfold register, set_dicts, set_futures. cbn. do 2 f_equal.
  apply list_eq. intros i. rewrite list_lookup_alter.
  destruct (decide (_expected_responses_by_request_id c = i)) as [<-|Hne].
  - rewrite list_lookup_insert_eq by (eapply lookup_lt_Some; exact Hd).
    rewrite Hd. reflexivity.
  - rewrite list_lookup_insert_ne by exact Hne. reflexivity.
Qed.

(** The server answers a request with the packet [response] bearing its
    id: the reader hands it to the sender. *)
Lemma _send_packet_answered (c : RCONClient) (pkt response : _Packet)
    (frame : list Z) (h : event_loop) (w : nat) (cn : connection)
    (tbl : gmap Z _ExpectedResponse) :
  _writer c = Some w ->
  connections h !! w = Some cn ->
  closed cn = false -> inbox cn = [] ->
  reader_task cn = Some (_expected_responses_by_request_id c) ->
  dicts h !! _expected_responses_by_request_id c = Some tbl ->
  encodable pkt = true ->
  encodable response = true -> _write_packet response = Ok frame ->
  pkt_id response = pkt_id pkt -> 0 <= pkt_id pkt ->
  (type response =? _SERVERDATA_RESPONSE_VALUE) && (type pkt =? _SERVERDATA_AUTH) = false ->
  fst (_send_packet c pkt frame h) = Ok response.
Proof.
  intros Hw Hcn Hcl Hin Hrt Hd Hep Her Hfr Hid Hpos Hty.
  pose proof (lookup_lt_Some _ _ _ Hcn) as Hlt.
  pose proof (lookup_lt_Some _ _ _ Hd) as Hdlt.
  unfold _send_packet. rewrite (register_eq c pkt h tbl Hd).
  set (d := _expected_responses_by_request_id c) in *.
  set (f := length (futures h)).
  set (er := mk_ExpectedResponse (type pkt =? _SERVERDATA_AUTH) f).
  unfold try_send. rewrite Hw.
  destruct (encodable_inv pkt Hep) as (Hi & Ht & b & Hb & Hlen).
  rewrite (_write_packet_eq pkt b Hi Ht Hb Hlen).
  match goal with |- context [write w ?bs _] => set (bytes := bs) end.
  unfold write. cbn [connections]. rewrite Hcn.
  unfold deliver. cbn [connections set_connections].
  rewrite list_lookup_insert_eq by exact Hlt. cbn [closed inbox outbox reader_task].
  rewrite Hcl, Hin, Hrt. cbn [app].
  unfold run_reader. cbn [connections set_connections].
  rewrite list_lookup_insert_eq by (rewrite length_insert; exact Hlt).
  cbn [closed inbox outbox reader_task dicts futures set_connections].
  rewrite list_lookup_insert_eq by exact Hdlt. cbn [default].
  unfold _consume_reader. cbn [consume].
  pose proof (_read_packet_write_packet response frame [] Her Hfr) as Hrd.
  rewrite app_nil_r in Hrd. rewrite Hrd.
  assert (Hdisp : dispatch response (<[pkt_id pkt := er]> tbl) (futures h ++ [Pending])
                  = Ok (<[f := Done response]> (futures h ++ [Pending]))).
  { unfold dispatch. rewrite Hid.
    replace (pkt_id pkt =? -1) with false by (symmetry; apply Z.eqb_neq; lia).
    rewrite andb_false_r. rewrite lookup_insert_eq. cbn [is_auth er].
    subst er. cbn [is_auth response_future]. rewrite Hty.
    unfold set_result. subst f. rewrite list_lookup_middle by reflexivity.
    reflexivity. }
  unfold id. rewrite Hdisp. rewrite consume_nothing.
  cbn [futures set_futures set_connections].
  rewrite list_lookup_insert_eq by (rewrite length_app; simpl; lia).
  unfold deregister. cbn [dicts set_futures set_connections].
  rewrite list_lookup_insert_eq by exact Hdlt. rewrite lookup_insert_eq.
  reflexivity.
Qed.

Lemma opened_loop_connection (c : RCONClient) (h : event_loop) :
  connections (opened_loop c h) !! length (connections h)
  = Some (mk_connection [] [] false (Some (length (dicts h)))).
Proof.
  unfold opened_loop. cbn [connections set_connections].
  apply list_lookup_middle. symmetry. apply aclose_connections_length.
Qed.

Lemma opened_loop_dict (c : RCONClient) (h : event_loop) :
  dicts (opened_loop c h) !! length (dicts h) = Some ∅.
Proof.
  unfold opened_loop. cbn [dicts set_connections]. rewrite aclose_dicts.
  apply list_lookup_middle. reflexivity.
Qed.

(** After the stream is open, [connect] returns with the stream still
    open and the reader attached, whatever the outcome of the login;
    only the login request itself is gone from the dict. *)
Lemma connect_leaves_stream_open (c : RCONClient) (incoming : list Z) (h : event_loop) :
  let c' := snd (fst (connect c None incoming h)) in
  let h' := snd (connect c None incoming h) in
  _writer c' = Some (length (connections h)) /\
  _reader c' = Some (length (connections h)) /\
  closed <$> (connections h' !! length (connections h)) = Some false /\
  in_flight c' h' = ∅.
Proof.
  intros c' h'. subst c' h'. rewrite connect_accepted. cbn [fst snd].
  split; [reflexivity|]. split; [reflexivity|]. split.
  - rewrite _send_packet_closed, opened_loop_connection. reflexivity.
  - unfold in_flight.
    rewrite (_send_packet_dicts _ _ _ _ ∅) by (apply opened_loop_dict || apply lookup_empty).
    cbn [connected_client _expected_responses_by_request_id].
    rewrite opened_loop_dict. reflexivity.
Qed.

(** When the server accepts the stream and answers the login with an
    auth response bearing its id, [connect] succeeds: from any state
    of the client. *)
Lemma connect_succeeds (c : RCONClient) (response : _Packet) (frame : list Z)
    (h : event_loop) :
  encodable (login_pkt c) = true ->
  encodable response = true -> _write_packet response = Ok frame ->
  pkt_id response = 0 -> type response = _SERVERDATA_AUTH_RESPONSE ->
  fst (connect c None frame h) = (Ok tt, connected_client c h).
Proof.
  intros Hl Hr Hf Hid Hty. rewrite connect_accepted. cbn [fst].
  rewrite (_send_packet_answered (connected_client c h) (login_pkt c) response frame
             (opened_loop c h) (length (connections h))
             (mk_connection [] [] false (Some (length (dicts h)))) ∅);
    try reflexivity; try assumption.
  - rewrite Hid. reflexivity.
  - apply opened_loop_connection.
  - apply opened_loop_dict.
  - rewrite Hty. reflexivity.
Qed.

(** *** The claims about the protocol client *)

(** C2. Authentication sentinel.  When the reader gets a packet of type
    auth response with id -1 and exactly one registered request is
    flagged [is_auth], it fails the future of that request with
    [RCONAuthFailure], leaves every other future as it was and goes on
    reading; when the number of [is_auth] requests is not one, the
    assertion fails, no future is changed, and the reader task dies of
    the [AssertionError].  (A request that is registered but whose
    future is no longer pending cannot be failed: the reader dies of
    [InvalidStateError].) *)
Theorem auth_sentinel_single_request (pkt : _Packet)
    (tbl : gmap Z _ExpectedResponse) (fs : list fstate) :
  type pkt = _SERVERDATA_AUTH_RESPONSE -> pkt_id pkt = -1 ->
  (forall r, auth_responses tbl = [r] ->
     (fs !! response_future r = Some Pending ->
      dispatch pkt tbl fs = Ok (<[response_future r := Failed RCONAuthFailure]> fs) /\
      (forall f, f <> response_future r ->
         <[response_future r := Failed RCONAuthFailure]> fs !! f = fs !! f)) /\
     (fs !! response_future r <> Some Pending ->
      dispatch pkt tbl fs = Raise InvalidStateError)) /\
  (length (auth_responses tbl) <> 1%nat ->
     dispatch pkt tbl fs = Raise AssertionError /\
     forall fuel eof stream stream',
       _read_packet stream = Ok (pkt, stream') ->
       consume (S fuel) eof stream tbl fs = (stream', fs, Crashed AssertionError)).
Proof.
  intros Ht Hi. split.
  - intros r Ha. split.
    + intros Hp. split.
      * apply dispatch_sentinel_one; assumption.
      * intros f Hne. apply list_lookup_insert_ne. congruence.
    + intros Hp. unfold dispatch. rewrite Ht, Hi, Ha. cbn.
      unfold set_exception. destruct (fs !! response_future r) as [[]|];
        try reflexivity. contradiction.
  - intros Hn.
    pose proof (dispatch_sentinel_defect pkt tbl fs Ht Hi Hn) as Hd.
    split; [exact Hd|]. intros fuel eof stream stream' Hr.
    apply (consume_crash fuel eof stream stream' pkt); assumption.
Qed.

Lemma auth_sentinel_single_request_witness :
  dispatch (mk_Packet (-1) 2 []) sample_table [Pending; Pending]
  = Ok [Failed RCONAuthFailure; Pending] /\
  dispatch (mk_Packet (-1) 2 []) ∅ [Pending] = Raise AssertionError.
Proof.
  split.
  - refine (proj1 (proj1 (proj1 (auth_sentinel_single_request (mk_Packet (-1) 2 [])
                     sample_table [Pending; Pending] eq_refl eq_refl)
                     (mk_ExpectedResponse true 0) _) _)).
    + vm_compute. reflexivity.
    + reflexivity.
  - refine (proj1 (proj2 (auth_sentinel_single_request (mk_Packet (-1) 2 []) ∅
                     [Pending] eq_refl eq_refl) _)).
    vm_compute. discriminate.
Defined.










(** *** The reader, packet by packet *)

Lemma consume_enough (fuel1 : nat) :
  forall fuel2 eof stream tbl fs,
  (length stream < fuel1)%nat -> (length stream < fuel2)%nat ->
  consume fuel1 eof stream tbl fs = consume fuel2 eof stream tbl fs.
Proof.
  induction fuel1 as [|fuel1 IH]; intros fuel2 eof stream tbl fs H1 H2; [lia|].
  destruct fuel2 as [|fuel2]; [lia|]. cbn [consume].
  destruct (_read_packet stream) as [[pkt stream']|e] eqn:E; [|reflexivity].
  apply _read_packet_shorter in E.
  destruct (dispatch pkt tbl fs); [|reflexivity]. apply IH; lia.
Qed.

Lemma _consume_reader_step (eof : bool) (stream stream' : list Z) (pkt : _Packet)
    (tbl : gmap Z _ExpectedResponse) (fs : list fstate) :
  _read_packet stream = Ok (pkt, stream') ->
  _consume_reader eof stream tbl fs =
  match dispatch pkt tbl fs with
  | Ok fs' => _consume_reader eof stream' tbl fs'
  | Raise e => (stream', fs, Crashed e)
  end.
Proof.
  intros E. unfold _consume_reader at 1. cbn [consume]. rewrite E.
  apply _read_packet_shorter in E.
  destruct (dispatch pkt tbl fs); [|reflexivity].
  unfold _consume_reader. apply consume_enough; lia.
Qed.

Lemma _consume_reader_stop (eof : bool) (stream : list Z) (e : exn)
    (tbl : gmap Z _ExpectedResponse) (fs : list fstate) :
  _read_packet stream = Raise e ->
  _consume_reader eof stream tbl fs =
  (stream, fs,
   match e with
   | IncompleteReadError => if eof then Finished else Waiting
   | _ => Crashed e
   end).
Proof.
  intros E. unfold _consume_reader. cbn [consume]. rewrite E. destruct e; reflexivity.
Qed.

Lemma _read_packet_frame (pkt : _Packet) (frame rest : list Z) :
  _write_packet pkt = Ok frame -> _read_packet (frame ++ rest) = Ok (pkt, rest).
Proof.
  intros Hw. apply _read_packet_write_packet; [|exact Hw].
  apply (_write_packet_encodable _ _ Hw).
Qed.

(** A reply to a tracked request that is not the login resolves the
    future of that request. *)
Lemma dispatch_reply (pkt : _Packet) (tbl : gmap Z _ExpectedResponse)
    (fs : list fstate) (er : _ExpectedResponse) :
  0 <= pkt_id pkt -> tbl !! pkt_id pkt = Some er ->
  (type pkt =? _SERVERDATA_RESPONSE_VALUE) && is_auth er = false ->
  dispatch pkt tbl fs = set_result (response_future er) pkt fs.
Proof.
  intros Hid Her Hty. unfold dispatch.
  replace (pkt_id pkt =? -1) with false by (symmetry; apply Z.eqb_neq; lia).
  rewrite andb_false_r, Her, Hty. reflexivity.
Qed.

Lemma dispatch_untracked (pkt : _Packet) (tbl : gmap Z _ExpectedResponse)
    (fs : list fstate) :
  0 <= pkt_id pkt -> tbl !! pkt_id pkt = None -> dispatch pkt tbl fs = Ok fs.
Proof.
  intros Hid Hno. unfold dispatch.
  replace (pkt_id pkt =? -1) with false by (symmetry; apply Z.eqb_neq; lia).
  rewrite andb_false_r, Hno. reflexivity.
Qed.

(** *** A request on a quiet connection *)

Lemma _send_packet_run (c : RCONClient) (pkt : _Packet) (bytes incoming : list Z)
    (h : event_loop) (w : nat) (cn : connection) (tbl : gmap Z _ExpectedResponse) :
  _writer c = Some w ->
  connections h !! w = Some cn ->
  closed cn = false -> inbox cn = [] ->
  reader_task cn = Some (_expected_responses_by_request_id c) ->
  dicts h !! _expected_responses_by_request_id c = Some tbl ->
  _write_packet pkt = Ok bytes ->
  _send_packet c pkt incoming h =
  let d := _expected_responses_by_request_id c in
  let f := length (futures h) in
  let er := mk_ExpectedResponse (type pkt =? _SERVERDATA_AUTH) f in
  let run := _consume_reader false incoming (<[pkt_id pkt := er]> tbl)
               (futures h ++ [Pending]) in
  let task := match snd run with Waiting => Some d | _ => None end in
  let cn' := mk_connection (fst (fst run)) (outbox cn ++ bytes) false task in
  (match snd (fst run) !! f with
   | Some (Done p) => Ok p
   | Some (Failed e) => Raise e
   | _ => Raise TimeoutError
   end,
   mk_event_loop
     (match snd (fst run) !! f with
      | Some (Done _) | Some (Failed _) => snd (fst run)
      | _ => cancel f (snd (fst run))
      end)
     (<[d := delete (pkt_id pkt) tbl]> (dicts h))
     (<[w := cn']> (connections h))).
Proof.
  intros Hw Hcn Hcl Hin Hrt Hd Hbytes. cbv zeta.
  pose proof (lookup_lt_Some _ _ _ Hcn) as Hlt.
  pose proof (lookup_lt_Some _ _ _ Hd) as Hdlt.
  unfold _send_packet. rewrite (register_eq c pkt h tbl Hd).
  set (d := _expected_responses_by_request_id c) in *.
  set (f := length (futures h)).
  set (er := mk_ExpectedResponse (type pkt =? _SERVERDATA_AUTH) f).
  unfold try_send. rewrite Hw, Hbytes.
  unfold write. cbn [connections]. rewrite Hcn.
  unfold deliver. cbn [connections set_connections].
  rewrite list_lookup_insert_eq by exact Hlt. cbn [closed inbox outbox reader_task].
  rewrite Hcl, Hin, Hrt. cbn [app].
  unfold run_reader. cbn [connections set_connections].
  rewrite list_lookup_insert_eq by (rewrite length_insert; exact Hlt).
  cbn [closed inbox outbox reader_task dicts futures set_connections].
  rewrite list_lookup_insert_eq by exact Hdlt. cbn [default]. unfold id.
  destruct (_consume_reader false incoming (<[pkt_id pkt := er]> tbl)
              (futures h ++ [Pending])) as [[rest fs'] st].
  cbn [fst snd futures set_futures set_connections connections dicts].
  rewrite list_insert_insert_eq.
  assert (Hdereg : forall fs'' cs,
    deregister d pkt (mk_event_loop fs'' (<[d := <[pkt_id pkt := er]> tbl]> (dicts h)) cs)
    = Ok (mk_event_loop fs'' (<[d := delete (pkt_id pkt) tbl]> (dicts h)) cs)).
  { intros fs'' cs. unfold deregister. cbn [dicts].
    rewrite list_lookup_insert_eq by exact Hdlt. rewrite lookup_insert_eq.
    unfold set_dicts. cbn [dicts futures connections].
    rewrite list_insert_insert_eq, delete_insert_eq. reflexivity. }
  destruct (fs' !! f) as [[ | p | e | ]|].
  all: unfold set_futures, set_connections; cbn [futures dicts connections].
  all: rewrite ?list_insert_insert_eq, Hdereg; reflexivity.
Qed.

Lemma _send_packet_dead (c : RCONClient) (pkt : _Packet) (bytes incoming : list Z)
    (h : event_loop) (w : nat) (cn : connection) (tbl : gmap Z _ExpectedResponse) :
  _writer c = Some w ->
  connections h !! w = Some cn ->
  closed cn = false ->
  reader_task cn = None ->
  dicts h !! _expected_responses_by_request_id c = Some tbl ->
  _write_packet pkt = Ok bytes ->
  _send_packet c pkt incoming h =
  (Raise TimeoutError,
   mk_event_loop (futures h ++ [Cancelled])
     (<[_expected_responses_by_request_id c := delete (pkt_id pkt) tbl]> (dicts h))
     (<[w := mk_connection (inbox cn ++ incoming) (outbox cn ++ bytes) false None]>
        (connections h))).
Proof.
  intros Hw Hcn Hcl Hrt Hd Hbytes.
  pose proof (lookup_lt_Some _ _ _ Hcn) as Hlt.
  pose proof (lookup_lt_Some _ _ _ Hd) as Hdlt.
  unfold _send_packet. rewrite (register_eq c pkt h tbl Hd).
  set (d := _expected_responses_by_request_id c) in *.
  set (f := length (futures h)).
  set (er := mk_ExpectedResponse (type pkt =? _SERVERDATA_AUTH) f).
  unfold try_send. rewrite Hw, Hbytes.
  unfold write. cbn [connections]. rewrite Hcn.
  unfold deliver. cbn [connections set_connections].
  rewrite list_lookup_insert_eq by exact Hlt. cbn [closed inbox outbox reader_task].
  rewrite Hcl, Hrt.
  unfold run_reader. cbn [connections set_connections].
  rewrite list_lookup_insert_eq by (rewrite length_insert; exact Hlt).
  cbn [closed inbox outbox reader_task dicts futures set_connections].
  assert (Hf : (futures h ++ [Pending]) !! f = Some Pending)
    by (apply list_lookup_middle; reflexivity).
  rewrite Hf. unfold set_futures, set_connections, cancel.
  cbn [futures dicts connections]. rewrite Hf.
  unfold deregister. cbn [dicts].
  rewrite list_lookup_insert_eq by exact Hdlt. rewrite lookup_insert_eq.
  unfold set_dicts. cbn [dicts futures connections].
  rewrite !list_insert_insert_eq, delete_insert_eq.
  do 2 f_equal. subst f. clear. induction (futures h) as [|x l IH]; [reflexivity|].
  cbn. f_equal. exact IH.
Qed.

Lemma insert_snoc {A} (l : list A) (x y : A) : <[length l := y]> (l ++ [x]) = l ++ [y].
Proof. induction l as [|a l IH]; [reflexivity|]. cbn. f_equal. exact IH. Qed.

Lemma _read_packet_nil : _read_packet [] = Raise IncompleteReadError.
Proof. reflexivity. Qed.

Lemma _consume_reader_nil (eof : bool) (tbl : gmap Z _ExpectedResponse)
    (fs : list fstate) :
  _consume_reader eof [] tbl fs = ([], fs, if eof then Finished else Waiting).
Proof. apply (_consume_reader_stop eof [] IncompleteReadError). reflexivity. Qed.

(** The reader hands a reply to the request that bears its id, and
    reads on. *)
Lemma _consume_reader_reply (eof : bool) (response : _Packet) (frame rest : list Z)
    (tbl : gmap Z _ExpectedResponse) (fs : list fstate) (er : _ExpectedResponse) :
  _write_packet response = Ok frame ->
  0 <= pkt_id response -> tbl !! pkt_id response = Some er ->
  (type response =? _SERVERDATA_RESPONSE_VALUE) && is_auth er = false ->
  fs !! response_future er = Some Pending ->
  _consume_reader eof (frame ++ rest) tbl fs =
  _consume_reader eof rest tbl (<[response_future er := Done response]> fs).
Proof.
  intros Hfr Hid Her Hty Hp.
  rewrite (_consume_reader_step eof _ rest response tbl fs (_read_packet_frame _ _ _ Hfr)).
  rewrite (dispatch_reply response tbl fs er Hid Her Hty).
  unfold set_result. rewrite Hp. reflexivity.
Qed.

Lemma _consume_reader_again (eof : bool) (response : _Packet) (frame rest : list Z)
    (tbl : gmap Z _ExpectedResponse) (fs : list fstate) (er : _ExpectedResponse)
    (p : _Packet) :
  _write_packet response = Ok frame ->
  0 <= pkt_id response -> tbl !! pkt_id response = Some er ->
  (type response =? _SERVERDATA_RESPONSE_VALUE) && is_auth er = false ->
  fs !! response_future er = Some (Done p) ->
  _consume_reader eof (frame ++ rest) tbl fs = (rest, fs, Crashed InvalidStateError).
Proof.
  intros Hfr Hid Her Hty Hp.
  rewrite (_consume_reader_step eof _ rest response tbl fs (_read_packet_frame _ _ _ Hfr)).
  rewrite (dispatch_reply response tbl fs er Hid Her Hty).
  unfold set_result. rewrite Hp. reflexivity.
Qed.

Lemma _consume_reader_untracked (eof : bool) (response : _Packet) (frame rest : list Z)
    (tbl : gmap Z _ExpectedResponse) (fs : list fstate) :
  _write_packet response = Ok frame ->
  0 <= pkt_id response -> tbl !! pkt_id response = None ->
  _consume_reader eof (frame ++ rest) tbl fs = _consume_reader eof rest tbl fs.
Proof.
  intros Hfr Hid Hno.
  rewrite (_consume_reader_step eof _ rest response tbl fs (_read_packet_frame _ _ _ Hfr)).
  rewrite (dispatch_untracked response tbl fs Hid Hno). reflexivity.
Qed.

Lemma _get_next_id_fields (c : RCONClient) :
  fst (_get_next_id c) = _next_id c /\
  _writer (snd (_get_next_id c)) = _writer c /\
  _expected_responses_by_request_id (snd (_get_next_id c))
  = _expected_responses_by_request_id c.
Proof. repeat split. Qed.

Lemma send_command_eq (c : RCONClient) (command incoming : list Z) (h : event_loop) :
  send_command c command incoming h =
  let pkt := mk_Packet (_next_id c) _SERVERDATA_EXECCOMMAND command in
  let sent := _send_packet (snd (_get_next_id c)) pkt incoming h in
  (match fst sent with Ok p => Ok (body p) | Raise e => Raise e end,
   snd (_get_next_id c), snd sent).
Proof.
  unfold send_command. cbn [_get_next_id]. cbv zeta.
  destruct (_send_packet _ _ incoming h) as [[p|e] h']; reflexivity.
Qed.

(** *** Commands on a connected client *)

(** X1. A command on a quiet connection whose reader is waiting, answered
    by a packet that bears its id, returns the body of that packet,
    whatever the type of the packet: the reply is matched by id alone.
    The bytes of the command are appended to what was written, the
    counter has moved on, the entry of the request is gone from the
    table and the reader is waiting for the next packet. *)
Theorem command_round_trip (c : RCONClient) (command : list Z) (response : _Packet)
    (bytes frame : list Z) (h : event_loop) (w : nat) (cn : connection)
    (tbl : gmap Z _ExpectedResponse) :
  _writer c = Some w ->
  connections h !! w = Some cn ->
  closed cn = false -> inbox cn = [] ->
  reader_task cn = Some (_expected_responses_by_request_id c) ->
  dicts h !! _expected_responses_by_request_id c = Some tbl ->
  0 <= _next_id c ->
  _write_packet (mk_Packet (_next_id c) _SERVERDATA_EXECCOMMAND command) = Ok bytes ->
  _write_packet response = Ok frame ->
  pkt_id response = _next_id c ->
  send_command c command frame h =
  (Ok (body response), snd (_get_next_id c),
   mk_event_loop (futures h ++ [Done response])
     (<[_expected_responses_by_request_id c := delete (_next_id c) tbl]> (dicts h))
     (<[w := mk_connection [] (outbox cn ++ bytes) false
               (Some (_expected_responses_by_request_id c))]> (connections h))).
Proof.
  intros Hw Hcn Hcl Hin Hrt Hd Hpos Hbytes Hfr Hid.
  rewrite send_command_eq. cbv zeta.
  rewrite (_send_packet_run (snd (_get_next_id c)) _ bytes frame h w cn tbl
             Hw Hcn Hcl Hin Hrt Hd Hbytes).
  cbv zeta. cbn [pkt_id type _get_next_id snd _expected_responses_by_request_id].
  set (d := _expected_responses_by_request_id c).
  set (f := length (futures h)).
  set (er := mk_ExpectedResponse (_SERVERDATA_EXECCOMMAND =? _SERVERDATA_AUTH) f).
  assert (Hf : (futures h ++ [Pending]) !! f = Some Pending)
    by (apply list_lookup_middle; reflexivity).
  assert (Her : <[_next_id c := er]> tbl !! pkt_id response = Some er)
    by (rewrite Hid; apply lookup_insert_eq).
  assert (Hty : (type response =? _SERVERDATA_RESPONSE_VALUE) && is_auth er = false)
    by apply andb_false_r.
  pose proof (_consume_reader_reply false response frame [] _ _ er Hfr
                ltac:(lia) Her Hty Hf) as Hc.
  rewrite app_nil_r, _consume_reader_nil in Hc. rewrite Hc.
  cbn [fst snd response_future er].
  subst f. rewrite insert_snoc.
  rewrite list_lookup_middle by reflexivity. reflexivity.
Qed.

(** X2. Whatever happens to a request (answered, failed, timed out, not
    even written because the client has no stream or the packet cannot
    be encoded), the table it registered in ends without an entry under
    its id, and is otherwise as before.  So a request that reuses the id
    of a request still in flight takes the entry of the older request
    away: when the older request ends, its own clean-up finds nothing
    under the id and raises [KeyError]. *)
Theorem request_always_deregisters (c : RCONClient) (pkt : _Packet)
    (incoming : list Z) (h : event_loop) (tbl : gmap Z _ExpectedResponse) :
  dicts h !! _expected_responses_by_request_id c = Some tbl ->
  let h' := snd (_send_packet c pkt incoming h) in
  dicts h' = <[_expected_responses_by_request_id c := delete (pkt_id pkt) tbl]> (dicts h) /\
  (forall older, pkt_id older = pkt_id pkt ->
     deregister (_expected_responses_by_request_id c) older h' = Raise KeyError).
Proof.
  intros Hd h'.
  assert (Hdicts : dicts h' = <[_expected_responses_by_request_id c
                                 := delete (pkt_id pkt) tbl]> (dicts h)).
  { subst h'. unfold _send_packet. rewrite (register_eq c pkt h tbl Hd).
    set (d := _expected_responses_by_request_id c) in *.
    set (er := mk_ExpectedResponse _ _).
    match goal with |- context [try_send c pkt incoming ?f ?h1] =>
      pose proof (try_send_dicts c pkt incoming f h1) as Ht;
      destruct (try_send c pkt incoming f h1) as [r h2] end.
    cbn [snd dicts] in Ht. unfold deregister. rewrite Ht.
    rewrite list_lookup_insert_eq by (eapply lookup_lt_Some; exact Hd).
    rewrite lookup_insert_eq. cbn [snd dicts set_dicts].
    rewrite list_insert_insert_eq, delete_insert_eq. reflexivity. }
  split; [exact Hdicts|]. intros older Hid.
  unfold deregister. rewrite Hdicts.
  rewrite list_lookup_insert_eq by (eapply lookup_lt_Some; exact Hd).
  rewrite Hid, lookup_delete_eq. reflexivity.
Qed.


(** X4. A reply that arrives twice in one delivery ends the reader.  The
    command gets the first copy; the second finds the request still
    registered with its future already resolved, [set_result] raises
    [InvalidStateError] and the reader task dies of it, leaving the
    connection open with no reader. *)
Theorem duplicate_reply_ends_reader (c : RCONClient) (command : list Z)
    (response : _Packet) (bytes frame : list Z) (h : event_loop) (w : nat)
    (cn : connection) (tbl : gmap Z _ExpectedResponse) :
  _writer c = Some w ->
  connections h !! w = Some cn ->
  closed cn = false -> inbox cn = [] ->
  reader_task cn = Some (_expected_responses_by_request_id c) ->
  dicts h !! _expected_responses_by_request_id c = Some tbl ->
  0 <= _next_id c ->
  _write_packet (mk_Packet (_next_id c) _SERVERDATA_EXECCOMMAND command) = Ok bytes ->
  _write_packet response = Ok frame ->
  pkt_id response = _next_id c ->
  send_command c command (frame ++ frame) h =
  (Ok (body response), snd (_get_next_id c),
   mk_event_loop (futures h ++ [Done response])
     (<[_expected_responses_by_request_id c := delete (_next_id c) tbl]> (dicts h))
     (<[w := mk_connection [] (outbox cn ++ bytes) false None]> (connections h))).
Proof.
  intros Hw Hcn Hcl Hin Hrt Hd Hpos Hbytes Hfr Hid.
  rewrite send_command_eq. cbv zeta.
  rewrite (_send_packet_run (snd (_get_next_id c)) _ bytes (frame ++ frame) h w cn tbl
             Hw Hcn Hcl Hin Hrt Hd Hbytes).
  cbv zeta. cbn [pkt_id type _get_next_id snd _expected_responses_by_request_id].
  set (d := _expected_responses_by_request_id c).
  set (f := length (futures h)).
  set (er := mk_ExpectedResponse (_SERVERDATA_EXECCOMMAND =? _SERVERDATA_AUTH) f).
  assert (Hf : (futures h ++ [Pending]) !! f = Some Pending)
    by (apply list_lookup_middle; reflexivity).
  assert (Her : <[_next_id c := er]> tbl !! pkt_id response = Some er)
    by (rewrite Hid; apply lookup_insert_eq).
  assert (Hty : (type response =? _SERVERDATA_RESPONSE_VALUE) && is_auth er = false)
    by apply andb_false_r.
  rewrite (_consume_reader_reply false response frame frame _ _ er Hfr
             ltac:(lia) Her Hty Hf).
  cbn [response_future er]. subst f. rewrite insert_snoc.
  pose proof (_consume_reader_again false response frame [] _
                (futures h ++ [Done response]) er response Hfr
                ltac:(lia) Her Hty ltac:(apply list_lookup_middle; reflexivity)) as Hc.
  rewrite app_nil_r in Hc. rewrite Hc.
  cbn [fst snd]. rewrite list_lookup_middle by reflexivity. reflexivity.
Qed.

(** X5. A command that gets no answer before its deadline raises
    [TimeoutError], with its future cancelled and its entry removed.
    The answer that arrives afterwards is read and dropped as a reply to
    an untracked request: no future changes and the reader goes on
    waiting, so the connection stays usable. *)
Theorem late_reply_is_dropped (c : RCONClient) (command : list Z)
    (response : _Packet) (bytes frame : list Z) (h : event_loop) (w : nat)
    (cn : connection) (tbl : gmap Z _ExpectedResponse) :
  _writer c = Some w ->
  connections h !! w = Some cn ->
  closed cn = false -> inbox cn = [] ->
  reader_task cn = Some (_expected_responses_by_request_id c) ->
  dicts h !! _expected_responses_by_request_id c = Some tbl ->
  0 <= _next_id c ->
  _write_packet (mk_Packet (_next_id c) _SERVERDATA_EXECCOMMAND command) = Ok bytes ->
  _write_packet response = Ok frame ->
  pkt_id response = _next_id c ->
  let timed_out :=
    mk_event_loop (futures h ++ [Cancelled])
      (<[_expected_responses_by_request_id c := delete (_next_id c) tbl]> (dicts h))
      (<[w := mk_connection [] (outbox cn ++ bytes) false
                (Some (_expected_responses_by_request_id c))]> (connections h)) in
  send_command c command [] h = (Raise TimeoutError, snd (_get_next_id c), timed_out) /\
  deliver w frame timed_out = timed_out.
Proof.
  intros Hw Hcn Hcl Hin Hrt Hd Hpos Hbytes Hfr Hid timed_out.
  pose proof (lookup_lt_Some _ _ _ Hcn) as Hlt.
  pose proof (lookup_lt_Some _ _ _ Hd) as Hdlt.
  split.
  - rewrite send_command_eq. cbv zeta.
    rewrite (_send_packet_run (snd (_get_next_id c)) _ bytes [] h w cn tbl
               Hw Hcn Hcl Hin Hrt Hd Hbytes).
    cbv zeta. rewrite _consume_reader_nil. cbn [fst snd pkt_id].
    rewrite list_lookup_middle by reflexivity.
    unfold cancel. rewrite list_lookup_middle by reflexivity.
    rewrite insert_snoc. reflexivity.
  - subst timed_out. unfold deliver. cbn [connections set_connections].
    rewrite list_lookup_insert_eq by exact Hlt.
    cbn [closed inbox outbox reader_task app].
    unfold run_reader. cbn [connections set_connections].
    rewrite list_lookup_insert_eq by (rewrite length_insert; exact Hlt).
    unfold set_connections.
    cbn [closed inbox outbox reader_task dicts futures connections].
    rewrite list_lookup_insert_eq by exact Hdlt. cbn [default]. unfold id.
    pose proof (_consume_reader_untracked false response frame []
                  (delete (_next_id c) tbl) (futures h ++ [Cancelled]) Hfr
                  ltac:(lia) ltac:(rewrite Hid; apply lookup_delete_eq)) as Hc.
    rewrite app_nil_r, _consume_reader_nil in Hc. rewrite Hc.
    unfold set_futures, set_connections.
    cbn [futures dicts connections]. rewrite !list_insert_insert_eq. reflexivity.
Qed.

(** *** Several requests in flight *)

(** X6. Replies are handed out by id, in whatever order they arrive.
    With several requests in flight, none of them a login, each with a
    pending future of its own, a delivery of replies that bear their ids
    resolves the future of each request with the reply bearing its id,
    changes no other future, and leaves the reader waiting for more (or
    finished, at end of file) with nothing unread. *)
Theorem replies_reach_their_requests (eof : bool) (tbl : gmap Z _ExpectedResponse)
    (rs : list _Packet) :
  forall (frames : list (list Z)) (ers : list _ExpectedResponse) (fs : list fstate),
  Forall2 (fun r frame => _write_packet r = Ok frame) rs frames ->
  Forall2 (fun r er => 0 <= pkt_id r /\ tbl !! pkt_id r = Some er /\
                       is_auth er = false) rs ers ->
  Forall (fun er => fs !! response_future er = Some Pending) ers ->
  NoDup (response_future <$> ers) ->
  exists fs',
    _consume_reader eof (concat frames) tbl fs
    = ([], fs', if eof then Finished else Waiting) /\
    Forall2 (fun r er => fs' !! response_future er = Some (Done r)) rs ers /\
    (forall f, f ∉ response_future <$> ers -> fs' !! f = fs !! f).
Proof.
  induction rs as [|r rs IH]; intros frames ers fs Hfr Her Hpend Hnd.
  - apply Forall2_nil_inv_l in Hfr. apply Forall2_nil_inv_l in Her. subst frames ers.
    exists fs. cbn [concat]. rewrite _consume_reader_nil.
    split; [reflexivity|]. split; [constructor|reflexivity].
  - apply Forall2_cons_inv_l in Hfr as (frame & frames' & Hw & Hfr & ->).
    apply Forall2_cons_inv_l in Her as (er & ers' & (Hid & Hk & Ha) & Her & ->).
    apply Forall_cons in Hpend as [Hp Hpend].
    rewrite fmap_cons in Hnd. apply NoDup_cons in Hnd as [Hnotin Hnd].
    cbn [concat].
    rewrite (_consume_reader_reply eof r frame (concat frames') tbl fs er Hw Hid Hk)
      by (exact Hp || (rewrite Ha; apply andb_false_r)).
    pose proof (lookup_lt_Some _ _ _ Hp) as Hlt.
    destruct (IH frames' ers' (<[response_future er := Done r]> fs) Hfr Her)
      as (fs' & Hrun & Hall & Hrest).
    + rewrite Forall_forall in Hpend. apply Forall_forall. intros er' Hin.
      rewrite list_lookup_insert_ne; [exact (Hpend er' Hin)|].
      intros Heq. apply Hnotin. rewrite Heq.
      apply list_elem_of_fmap_2. exact Hin.
    + exact Hnd.
    + exists fs'. split; [exact Hrun|]. split.
      * constructor; [|exact Hall].
        rewrite (Hrest _ Hnotin). apply list_lookup_insert_eq. exact Hlt.
      * intros f Hf. rewrite fmap_cons in Hf. apply not_elem_of_cons in Hf as [Hne Hf].
        rewrite (Hrest f Hf). apply list_lookup_insert_ne. congruence.
Qed.

(** *** The login *)

Lemma auth_responses_login (f : nat) :
  auth_responses (<[0 := mk_ExpectedResponse true f]> ∅) = [mk_ExpectedResponse true f].
Proof.
  unfold auth_responses, dict_values. rewrite insert_empty, map_to_list_singleton.
  reflexivity.
Qed.

Lemma dispatch_login_value (value : _Packet) (f : nat) (fs : list fstate) :
  pkt_id value = 0 -> type value = _SERVERDATA_RESPONSE_VALUE ->
  dispatch value (<[0 := mk_ExpectedResponse true f]> ∅) fs = Ok fs.
Proof.
  intros Hid Hty. unfold dispatch. rewrite Hid, Hty, lookup_insert_eq. reflexivity.
Qed.

Lemma dispatch_login_granted (granted : _Packet) (f : nat) (fs : list fstate) :
  pkt_id granted = 0 -> type granted = _SERVERDATA_AUTH_RESPONSE ->
  dispatch granted (<[0 := mk_ExpectedResponse true f]> ∅) fs = set_result f granted fs.
Proof.
  intros Hid Hty. unfold dispatch. rewrite Hid, Hty, lookup_insert_eq. reflexivity.
Qed.

Lemma login_run (c : RCONClient) (bytes incoming : list Z) (h : event_loop) :
  _write_packet (login_pkt c) = Ok bytes ->
  fst (fst (connect c None incoming h)) =
  let f := length (futures (opened_loop c h)) in
  let run := _consume_reader false incoming (<[0 := mk_ExpectedResponse true f]> ∅)
               (futures (opened_loop c h) ++ [Pending]) in
  match snd (fst run) !! f with
  | Some (Done response) => if 0 =? pkt_id response then Ok tt else Raise AssertionError
  | Some (Failed e) => Raise e
  | _ => Raise TimeoutError
  end.
Proof.
  intros Hbytes. rewrite connect_accepted. cbn [fst].
  rewrite (_send_packet_run (connected_client c h) (login_pkt c) bytes incoming
             (opened_loop c h) (length (connections h))
             (mk_connection [] [] false (Some (length (dicts h)))) ∅
             eq_refl (opened_loop_connection c h) eq_refl eq_refl eq_refl
             (opened_loop_dict c h) Hbytes).
  cbv zeta. cbn [fst login_pkt pkt_id type].
  change (_SERVERDATA_AUTH =? _SERVERDATA_AUTH) with true.
  destruct (_ !! length (futures (opened_loop c h))) as [[ | p | e | ]|]; reflexivity.
Qed.

(** X7. The login exchange of the game server.  The server answers a
    login with an empty value packet bearing the id of the login,
    followed by the auth response.  The reader skips the value packet;
    [connect] succeeds when the auth response bears the id of the login,
    raises [RCONAuthFailure] when it bears the id -1, and times out when
    the value packet is all that arrives. *)
Theorem login_exchange (c : RCONClient) (h : event_loop)
    (value granted denied : _Packet) (bytes fv fg fd : list Z) :
  _write_packet (login_pkt c) = Ok bytes ->
  pkt_id value = 0 -> type value = _SERVERDATA_RESPONSE_VALUE ->
  _write_packet value = Ok fv ->
  pkt_id granted = 0 -> type granted = _SERVERDATA_AUTH_RESPONSE ->
  _write_packet granted = Ok fg ->
  pkt_id denied = -1 -> type denied = _SERVERDATA_AUTH_RESPONSE ->
  _write_packet denied = Ok fd ->
  fst (fst (connect c None (fv ++ fg) h)) = Ok tt /\
  fst (fst (connect c None (fv ++ fd) h)) = Raise RCONAuthFailure /\
  fst (fst (connect c None fv h)) = Raise TimeoutError.
Proof.
  intros Hbytes Hvi Hvt Hfv Hgi Hgt Hfg Hdi Hdt Hfd.
  rewrite !(login_run c bytes _ h Hbytes). cbv zeta.
  set (fs := futures (opened_loop c h)).
  set (f := length fs).
  set (tbl := <[0 := mk_ExpectedResponse true f]> ∅).
  assert (Hf : (fs ++ [Pending]) !! f = Some Pending)
    by (apply list_lookup_middle; reflexivity).
  assert (Hskip : forall rest,
            _consume_reader false (fv ++ rest) tbl (fs ++ [Pending])
            = _consume_reader false rest tbl (fs ++ [Pending])).
  { intros rest.
    rewrite (_consume_reader_step false _ rest value tbl _ (_read_packet_frame _ _ _ Hfv)).
    unfold tbl. rewrite (dispatch_login_value value f _ Hvi Hvt). reflexivity. }
  split; [|split].
  - rewrite Hskip. rewrite <- (app_nil_r fg).
    rewrite (_consume_reader_step false _ [] granted tbl _ (_read_packet_frame _ _ _ Hfg)).
    unfold tbl. rewrite (dispatch_login_granted granted f _ Hgi Hgt).
    unfold set_result. rewrite Hf, _consume_reader_nil. cbn [fst snd].
    unfold f. rewrite insert_snoc, list_lookup_middle by reflexivity.
    rewrite Hgi. reflexivity.
  - rewrite Hskip. rewrite <- (app_nil_r fd).
    rewrite (_consume_reader_step false _ [] denied tbl _ (_read_packet_frame _ _ _ Hfd)).
    unfold tbl.
    rewrite (dispatch_sentinel_one denied _ _ (mk_ExpectedResponse true f) Hdt Hdi
               (auth_responses_login f) Hf).
    rewrite _consume_reader_nil. cbn [fst snd response_future].
    unfold f. rewrite insert_snoc, list_lookup_middle by reflexivity. reflexivity.
  - rewrite <- (app_nil_r fv), Hskip, _consume_reader_nil. cbn [fst snd].
    rewrite Hf. reflexivity.
Qed.

(** *** Damaged input *)

(** X8. What the reader does with input that is not a whole, well-formed
    frame.  Fewer than twelve bytes, or a header followed by fewer bytes
    than its length field announces, never fail it: the reader waits for
    more, or ends quietly at end of file.  A length field below eight
    kills the reader with [ValueError], and a complete frame whose body
    is not UTF-8 kills it with [UnicodeDecodeError]; in no case is a
    future touched. *)
Theorem reader_on_damaged_input (eof : bool) (stream : list Z)
    (tbl : gmap Z _ExpectedResponse) (fs : list fstate) :
  let quiet := (stream, fs, if eof then Finished else Waiting) in
  ((length stream < 12)%nat -> _consume_reader eof stream tbl fs = quiet) /\
  (forall s0 s1 s2 s3 i0 i1 i2 i3 t0 t1 t2 t3 rest,
     stream = s0 :: s1 :: s2 :: s3 :: i0 :: i1 :: i2 :: i3
              :: t0 :: t1 :: t2 :: t3 :: rest ->
     let pkt_size := unpack_i s0 s1 s2 s3 in
     (pkt_size < 8 ->
      _consume_reader eof stream tbl fs = (stream, fs, Crashed ValueError)) /\
     (8 <= pkt_size -> Z.of_nat (length rest) < pkt_size - 8 ->
      _consume_reader eof stream tbl fs = quiet) /\
     (8 <= pkt_size <= Z.of_nat (length rest) + 8 ->
      utf8_decode_opt (drop_last2 (take (Z.to_nat (pkt_size - 8)) rest)) = None ->
      _consume_reader eof stream tbl fs = (stream, fs, Crashed UnicodeDecodeError))).
Proof.
  intros quiet. split.
  - intros Hlen.
    apply (_consume_reader_stop eof stream IncompleteReadError).
    unfold _read_packet, readexactly.
    change (3 * 4 <? 0) with false. cbv iota.
    destruct (Z.ltb_spec (Z.of_nat (length stream)) (3 * 4)) as [_|Hge]; [reflexivity|lia].
  - intros s0 s1 s2 s3 i0 i1 i2 i3 t0 t1 t2 t3 rest -> pkt_size.
    split; [|split].
    + intros Hsz.
      apply (_consume_reader_stop eof _ ValueError).
      rewrite _read_packet_header. fold pkt_size. unfold readexactly.
      destruct (Z.ltb_spec (pkt_size - 8) 0) as [_|Hge]; [reflexivity|lia].
    + intros Hsz Hshort.
      apply (_consume_reader_stop eof _ IncompleteReadError).
      rewrite _read_packet_header. fold pkt_size. unfold readexactly.
      destruct (Z.ltb_spec (pkt_size - 8) 0) as [Hlt|_]; [lia|].
      destruct (Z.ltb_spec (Z.of_nat (length rest)) (pkt_size - 8)) as [_|Hge];
        [reflexivity|lia].
    + intros Hsz Hbad.
      apply (_consume_reader_stop eof _ UnicodeDecodeError).
      rewrite _read_packet_header. fold pkt_size. unfold readexactly.
      destruct (Z.ltb_spec (pkt_size - 8) 0) as [Hlt|_]; [lia|].
      destruct (Z.ltb_spec (Z.of_nat (length rest)) (pkt_size - 8)) as [Hlt|_]; [lia|].
      cbn [rbind fst snd]. unfold utf8_decode. rewrite Hbad. reflexivity.
Qed.

(** *** Instances on the sample client *)

Lemma command_round_trip_witness :
  fst (fst (send_command (fst sample_connected) [47; 104]
              [12; 0; 0; 0; 1; 0; 0; 0; 0; 0; 0; 0; 111; 107; 0; 0]
              (snd sample_connected)))
  = Ok [111; 107].
Proof.
  exact (f_equal (fun x => fst (fst x))
           (command_round_trip (fst sample_connected) [47; 104]
              (mk_Packet 1 _SERVERDATA_RESPONSE_VALUE [111; 107])
              [12; 0; 0; 0; 1; 0; 0; 0; 2; 0; 0; 0; 47; 104; 0; 0]
              [12; 0; 0; 0; 1; 0; 0; 0; 0; 0; 0; 0; 111; 107; 0; 0]
              (snd sample_connected) 0%nat
              (mk_connection [] [12; 0; 0; 0; 0; 0; 0; 0; 3; 0; 0; 0; 112; 119; 0; 0]
                 false (Some 1%nat)) ∅
              eq_refl eq_refl eq_refl eq_refl eq_refl eq_refl
              ltac:(vm_compute; discriminate) eq_refl eq_refl eq_refl)).
Defined.

Lemma request_always_deregisters_witness :
  deregister 1%nat (mk_Packet 1 _SERVERDATA_EXECCOMMAND [47; 104])
    (snd (_send_packet (fst sample_awaiting)
            (mk_Packet 1 _SERVERDATA_EXECCOMMAND [47; 105]) []
            (snd sample_awaiting)))
  = Raise KeyError.
Proof.
  exact (proj2 (request_always_deregisters (fst sample_awaiting)
                  (mk_Packet 1 _SERVERDATA_EXECCOMMAND [47; 105]) []
                  (snd sample_awaiting)
                  {[ 1 := mk_ExpectedResponse false 1 ]} eq_refl)
           (mk_Packet 1 _SERVERDATA_EXECCOMMAND [47; 104]) eq_refl).
Defined.


Lemma duplicate_reply_ends_reader_witness :
  reader_task <$>
    connections
      (snd (send_command (fst sample_connected) [47; 104]
              ([12; 0; 0; 0; 1; 0; 0; 0; 0; 0; 0; 0; 111; 107; 0; 0]
               ++ [12; 0; 0; 0; 1; 0; 0; 0; 0; 0; 0; 0; 111; 107; 0; 0])
              (snd sample_connected))) !! 0%nat
  = Some None.
Proof.
  exact (f_equal (fun x => reader_task <$> connections (snd x) !! 0%nat)
           (duplicate_reply_ends_reader (fst sample_connected) [47; 104]
              (mk_Packet 1 _SERVERDATA_RESPONSE_VALUE [111; 107])
              [12; 0; 0; 0; 1; 0; 0; 0; 2; 0; 0; 0; 47; 104; 0; 0]
              [12; 0; 0; 0; 1; 0; 0; 0; 0; 0; 0; 0; 111; 107; 0; 0]
              (snd sample_connected) 0%nat
              (mk_connection [] [12; 0; 0; 0; 0; 0; 0; 0; 3; 0; 0; 0; 112; 119; 0; 0]
                 false (Some 1%nat)) ∅
              eq_refl eq_refl eq_refl eq_refl eq_refl eq_refl
              ltac:(vm_compute; discriminate) eq_refl eq_refl eq_refl)).
Defined.

Lemma late_reply_is_dropped_witness :
  fst (fst (send_command (fst sample_connected) [47; 104] [] (snd sample_connected)))
  = Raise TimeoutError.
Proof.
  exact (f_equal (fun x => fst (fst x))
           (proj1 (late_reply_is_dropped (fst sample_connected) [47; 104]
              (mk_Packet 1 _SERVERDATA_RESPONSE_VALUE [111; 107])
              [12; 0; 0; 0; 1; 0; 0; 0; 2; 0; 0; 0; 47; 104; 0; 0]
              [12; 0; 0; 0; 1; 0; 0; 0; 0; 0; 0; 0; 111; 107; 0; 0]
              (snd sample_connected) 0%nat
              (mk_connection [] [12; 0; 0; 0; 0; 0; 0; 0; 3; 0; 0; 0; 112; 119; 0; 0]
                 false (Some 1%nat)) ∅
              eq_refl eq_refl eq_refl eq_refl eq_refl eq_refl
              ltac:(vm_compute; discriminate) eq_refl eq_refl eq_refl))).
Defined.

Lemma replies_reach_their_requests_witness :
  exists fs',
    _consume_reader false
      (concat [[11; 0; 0; 0; 5; 0; 0; 0; 0; 0; 0; 0; 98; 0; 0];
               [11; 0; 0; 0; 3; 0; 0; 0; 0; 0; 0; 0; 97; 0; 0]])
      {[ 3 := mk_ExpectedResponse false 0; 5 := mk_ExpectedResponse false 1 ]}
      [Pending; Pending; Pending]
    = ([], fs', Waiting) /\
    Forall2 (fun r er => fs' !! response_future er = Some (Done r))
      [mk_Packet 5 0 [98]; mk_Packet 3 0 [97]]
      [mk_ExpectedResponse false 1; mk_ExpectedResponse false 0] /\
    (forall f, f ∉ response_future <$> [mk_ExpectedResponse false 1;
                                        mk_ExpectedResponse false 0] ->
               fs' !! f = [Pending; Pending; Pending] !! f).
Proof.
  apply (replies_reach_their_requests false
           {[ 3 := mk_ExpectedResponse false 0; 5 := mk_ExpectedResponse false 1 ]}
           [mk_Packet 5 0 [98]; mk_Packet 3 0 [97]]).
  - repeat constructor.
  - repeat constructor; vm_compute; discriminate.
  - repeat constructor.
  - apply (bool_decide_unpack _). vm_compute. reflexivity.
Defined.

Lemma login_exchange_witness :
  fst (fst (connect (fst sample_client) None
              ([10; 0; 0; 0; 0; 0; 0; 0; 0; 0; 0; 0; 0; 0] ++ auth_ok_frame)
              (snd sample_client))) = Ok tt /\
  fst (fst (connect (fst sample_client) None
              ([10; 0; 0; 0; 0; 0; 0; 0; 0; 0; 0; 0; 0; 0] ++ auth_failed_frame)
              (snd sample_client))) = Raise RCONAuthFailure /\
  fst (fst (connect (fst sample_client) None
              [10; 0; 0; 0; 0; 0; 0; 0; 0; 0; 0; 0; 0; 0]
              (snd sample_client))) = Raise TimeoutError.
Proof.
  exact (login_exchange (fst sample_client) (snd sample_client)
           (mk_Packet 0 _SERVERDATA_RESPONSE_VALUE [])
           (mk_Packet 0 _SERVERDATA_AUTH_RESPONSE [])
           (mk_Packet (-1) _SERVERDATA_AUTH_RESPONSE [])
           [12; 0; 0; 0; 0; 0; 0; 0; 3; 0; 0; 0; 112; 119; 0; 0]
           [10; 0; 0; 0; 0; 0; 0; 0; 0; 0; 0; 0; 0; 0]
           auth_ok_frame auth_failed_frame
           eq_refl eq_refl eq_refl eq_refl eq_refl eq_refl eq_refl
           eq_refl eq_refl eq_refl).
Defined.

Lemma reader_on_damaged_input_witness :
  _consume_reader false [4; 0; 0; 0; 1; 0; 0; 0; 0; 0; 0; 0; 65; 66] sample_table [Pending]
  = ([4; 0; 0; 0; 1; 0; 0; 0; 0; 0; 0; 0; 65; 66], [Pending], Crashed ValueError).
Proof.
  refine (proj1 (proj2 (reader_on_damaged_input false
                          [4; 0; 0; 0; 1; 0; 0; 0; 0; 0; 0; 0; 65; 66]
                          sample_table [Pending])
                   4 0 0 0 1 0 0 0 0 0 0 0 [65; 66] eq_refl) _).
  vm_compute. reflexivity.
Defined.

End RCONFacts.

(** ** Text *)

Module TextFacts.
Import Text.

Local Open Scope string_scope.

Lemma append_cons (a : ascii) (s t : string) : String a s +:+ t = String a (s +:+ t).
Proof. reflexivity. Qed.

Lemma append_nil_l (t : string) : EmptyString +:+ t = t.
Proof. reflexivity. Qed.

Lemma append_nil_r (s : string) : s +:+ EmptyString = s.
Proof. induction s as [|a s IH]; [reflexivity|]. rewrite append_cons, IH. reflexivity. Qed.

Lemma append_assoc (s t u : string) : (s +:+ t) +:+ u = s +:+ (t +:+ u).
Proof.
  induction s as [|a s IH]; [reflexivity|]. rewrite !append_cons, IH. reflexivity.
Qed.

Lemma chars_append (s t : string) :
  list_ascii_of_string (s +:+ t) = (list_ascii_of_string s ++ list_ascii_of_string t)%list.
Proof.
  induction s as [|a s IH]; [reflexivity|]. rewrite append_cons. cbn. rewrite IH.
  reflexivity.
Qed.

Lemma string_of_app (l k : list ascii) :
  string_of_list_ascii (l ++ k) = string_of_list_ascii l +:+ string_of_list_ascii k.
Proof.
  induction l as [|a l IH]; [reflexivity|]. cbn. rewrite IH, append_cons. reflexivity.
Qed.

Lemma chars_length (s : string) : length (list_ascii_of_string s) = String.length s.
Proof. induction s as [|a s IH]; [reflexivity|]. cbn. rewrite IH. reflexivity. Qed.

Lemma prefix_append (n h q : string) :
  String.prefix n h = true -> String.prefix n (h +:+ q) = true.
Proof.
  revert h. induction n as [|a n IH]; intros h H;
    [destruct (h +:+ q); reflexivity|].
  destruct h as [|b h]; [discriminate H|]. rewrite append_cons. cbn in *.
  destruct (ascii_dec a b); [apply IH; exact H|discriminate H].
Qed.

Lemma str_in_cons (n : string) (a : ascii) (h : string) :
  str_in n h = true -> str_in n (String a h) = true.
Proof. intros H. cbn [str_in]. rewrite H. apply orb_true_r. Qed.

Lemma str_in_append_l (n p h : string) :
  str_in n h = true -> str_in n (p +:+ h) = true.
Proof.
  intros H. induction p as [|a p IH]; [exact H|].
  rewrite append_cons. apply str_in_cons. exact IH.
Qed.

Lemma str_in_append_r (n h q : string) :
  str_in n h = true -> str_in n (h +:+ q) = true.
Proof.
  induction h as [|a h IH]; intros H.
  - cbn [str_in] in H. rewrite orb_false_r in H. rewrite append_nil_l.
    destruct q as [|b q]; cbn [str_in]; [rewrite H; reflexivity|].
    pose proof (prefix_append n EmptyString (String b q) H) as Hp.
    rewrite append_nil_l in Hp. rewrite Hp. reflexivity.
  - rewrite append_cons. cbn [str_in] in *.
    apply orb_true_iff in H as [H|H].
    + pose proof (prefix_append n (String a h) q H) as Hp.
      rewrite append_cons in Hp. rewrite Hp. reflexivity.
    + rewrite (IH H). apply orb_true_r.
Qed.

(** A needle found in a part is found in the whole. *)
Lemma str_in_part (n p h q : string) :
  str_in n h = true -> str_in n (p +:+ h +:+ q) = true.
Proof. intros H. apply str_in_append_l, str_in_append_r, H. Qed.

(** *** Where a single quote can be *)

Lemma prefix_quote_cons (a : ascii) (s : string) :
  String.prefix "'" (String a s) = Ascii.eqb a "'".
Proof.
  change (String.prefix "'" (String a s))
    with (if ascii_dec "'" a then String.prefix EmptyString s else false).
  destruct (ascii_dec "'" a) as [<-|Hne].
  - destruct s; reflexivity.
  - symmetry. apply Ascii.eqb_neq. congruence.
Qed.

Lemma has_quote_cons (a : ascii) (s : string) :
  str_in "'" (String a s) = Ascii.eqb a "'" || str_in "'" s.
Proof. cbn [str_in]. rewrite prefix_quote_cons. reflexivity. Qed.

Lemma has_quote_append (s t : string) :
  str_in "'" (s +:+ t) = str_in "'" s || str_in "'" t.
Proof.
  induction s as [|a s IH].
  - rewrite append_nil_l. reflexivity.
  - rewrite append_cons, !has_quote_cons, IH, orb_assoc. reflexivity.
Qed.

Lemma has_quote_escape_char (a : ascii) :
  str_in "'" (escape_char a) = Ascii.eqb a "'".
Proof. destruct a as [[|] [|] [|] [|] [|] [|] [|] [|]]; reflexivity. Qed.

Lemma has_quote_escape (s : string) : str_in "'" (escape s) = str_in "'" s.
Proof.
  induction s as [|a s IH]; [reflexivity|].
  cbn [escape]. rewrite has_quote_append, has_quote_escape_char, IH, has_quote_cons.
  reflexivity.
Qed.

Lemma has_quote_json_string (s : string) :
  str_in "'" (json_string s) = str_in "'" s.
Proof.
  unfold json_string. rewrite !has_quote_append, has_quote_escape.
  change (str_in "'" dq) with false. rewrite orb_false_r. reflexivity.
Qed.

Lemma pretty_N_char_no_quote (x : N) : Ascii.eqb (pretty_N_char x) "'" = false.
Proof.
  unfold pretty_N_char.
  repeat match goal with
         | |- context [match ?p with _ => _ end] => destruct p
         end; reflexivity.
Qed.

Lemma has_quote_pretty_N_go (x : N) :
  forall s, str_in "'" (pretty_N_go x s) = str_in "'" s.
Proof.
  induction (N.lt_wf_0 x) as [x _ IH]. intros s.
  destruct (decide (x = 0%N)) as [->|Hx].
  - rewrite pretty_N_go_0. reflexivity.
  - rewrite pretty_N_go_step by lia.
    rewrite IH by (apply N.div_lt; lia).
    rewrite has_quote_cons, pretty_N_char_no_quote. reflexivity.
Qed.

Lemma has_quote_pretty_N (x : N) : str_in "'" (pretty x) = false.
Proof.
  unfold pretty, pretty_N. destruct (decide (x = 0%N)); [reflexivity|].
  apply has_quote_pretty_N_go.
Qed.

Lemma has_quote_pretty_Z (z : Z) : str_in "'" (pretty z) = false.
Proof.
  destruct z as [|p|p]; unfold pretty, pretty_Z; [reflexivity| |].
  - apply (has_quote_pretty_N (Npos p)).
  - rewrite has_quote_append. apply (has_quote_pretty_N (Npos p)).
Qed.

(** A single quote is in the text of a value exactly when it is in
    one of its strings. *)
Lemma has_quote_json_dumps :
  forall j, str_in "'" (json_dumps j) = existsb (str_in "'") (json_strings j).
Proof.
  fix IH 1. intros j. destruct j as [|[|]|z|s|l|fields]; try reflexivity.
  - apply has_quote_pretty_Z.
  - cbn [json_dumps json_strings existsb]. rewrite has_quote_json_string, orb_false_r.
    reflexivity.
  - cbn [json_dumps json_strings]. rewrite !has_quote_append.
    change (str_in "'" "[") with false. change (str_in "'" "]") with false.
    rewrite orb_false_r. cbn [orb].
    induction l as [|x l IHl]; [reflexivity|].
    rewrite existsb_app, <- IHl, <- (IH x).
    destruct l as [|x' l]; [cbn; rewrite orb_false_r; reflexivity|].
    rewrite !has_quote_append. change (str_in "'" ", ") with false. reflexivity.
  - cbn [json_dumps json_strings]. rewrite !has_quote_append.
    change (str_in "'" "{") with false. change (str_in "'" "}") with false.
    rewrite orb_false_r. cbn [orb].
    induction fields as [|[k v] fields IHf]; [reflexivity|].
    cbn [existsb]. rewrite existsb_app, <- IHf, <- (IH v).
    destruct fields as [|kv fields].
    + rewrite !has_quote_append, has_quote_json_string.
      change (str_in "'" ": ") with false. cbn. rewrite orb_false_r. reflexivity.
    + rewrite !has_quote_append, has_quote_json_string.
      change (str_in "'" ": ") with false. change (str_in "'" ", ") with false.
      reflexivity.
Qed.

End TextFacts.

(** ** The RPC bridge *)

Module WorldFacts.
Import Text TextFacts World.

Local Open Scope string_scope.
Local Open Scope Z_scope.
Local Open Scope list_scope.

Section BridgeFacts.
Context {S : Type} {rcon : Rcon S} {json_lib : JsonLib}.

(** *** [step] *)

Lemma poll_overshoot (fuel : nat) (w : World) (s : S) (hist : list World) :
  _cur_target_tick w < _cur_tick w ->
  poll fuel w s hist = mk_run w s hist (Raised AssertionError).
Proof.
  intros H. destruct fuel; cbn [poll];
    destruct (Z.ltb_spec (_cur_tick w) (_cur_target_tick w)); try lia;
    destruct (Z.eqb_spec (_cur_tick w) (_cur_target_tick w)); try lia; reflexivity.
Qed.

Lemma poll_at_target (fuel : nat) (w : World) (s : S) (hist : list World) :
  _cur_tick w = _cur_target_tick w ->
  poll fuel w s hist = mk_run w s hist Returned.
Proof.
  intros H. destruct fuel; cbn [poll];
    destruct (Z.ltb_spec (_cur_tick w) (_cur_target_tick w)); try lia;
    destruct (Z.eqb_spec (_cur_tick w) (_cur_target_tick w)); try lia; reflexivity.
Qed.

Ltac no_new_state :=
  exists []; cbn [history final ending]; rewrite app_nil_r;
  refine (conj eq_refl (conj eq_refl (conj eq_refl (conj _ (conj _ _)))));
  [ let Hret := fresh in
    intros Hret; first [discriminate Hret | split; [lia | constructor]]
  | intros ? []
  | intros; first [reflexivity | lia] ].

(** What the polling loop guarantees, whatever the engine answers. *)
Lemma poll_spec (fuel : nat) :
  forall (w : World) (s : S) (hist : list World),
  exists hist',
    history (poll fuel w s hist) = hist ++ hist' /\
    _cur_target_tick (final (poll fuel w s hist)) = _cur_target_tick w /\
    _initial_tick (final (poll fuel w s hist)) = _initial_tick w /\
    (ending (poll fuel w s hist) = Returned ->
     _cur_tick (final (poll fuel w s hist)) = _cur_target_tick w /\
     Forall (fun w' => _cur_tick w' <= _cur_target_tick w') hist') /\
    (forall w', In w' hist' -> _cur_target_tick w' < _cur_tick w' ->
       w' = final (poll fuel w s hist) /\
       ending (poll fuel w s hist) = Raised AssertionError) /\
    (_cur_target_tick w < _cur_tick (final (poll fuel w s hist)) ->
     ending (poll fuel w s hist) = Raised AssertionError).
Proof.
  induction fuel as [|fuel IH]; intros w s hist.
  - cbn [poll].
    destruct (Z.ltb_spec (_cur_tick w) (_cur_target_tick w));
      [|destruct (Z.eqb_spec (_cur_tick w) (_cur_target_tick w))]; no_new_state.
  - cbn [poll].
    destruct (Z.ltb_spec (_cur_tick w) (_cur_target_tick w)) as [Hlt|Hge].
    + destruct (send_command _ s) as [r s1].
      destruct (rbind r (fun cur_tick_str => int cur_tick_str)) as [t|e].
      * destruct (IH (set_cur_tick t w) s1 (hist ++ [set_cur_tick t w]))
          as (h' & Hh & Ht & Hi & Hr & Hv & Ho).
        exists (set_cur_tick t w :: h').
        cbn [set_cur_tick _cur_target_tick _initial_tick _cur_tick] in *.
        split; [rewrite Hh, <- app_assoc; reflexivity|].
        split; [exact Ht|]. split; [exact Hi|]. split; [|split].
        -- intros Hret. destruct (Hr Hret) as [Hc Hf]. split; [exact Hc|].
           constructor; [|exact Hf]. cbn.
           destruct (Z.le_gt_cases t (_cur_target_tick w)) as [Hle|Hgt]; [exact Hle|].
           rewrite poll_overshoot in Hret by (cbn; lia). discriminate Hret.
        -- intros w' [<-|Hin] Hw'.
           ++ cbn in Hw'. rewrite poll_overshoot by (cbn; lia).
              split; reflexivity.
           ++ apply Hv; assumption.
        -- exact Ho.
      * no_new_state.
    + destruct (Z.eqb_spec (_cur_tick w) (_cur_target_tick w)); no_new_state.
Qed.

Lemma step_spec (fuel : nat) (n : Z) (w : World) (s : S) :
  _cur_target_tick (final (step fuel n w s)) = _cur_target_tick w + n /\
  _initial_tick (final (step fuel n w s)) = _initial_tick w /\
  (ending (step fuel n w s) = Returned ->
   _cur_tick (final (step fuel n w s)) = _cur_target_tick w + n /\
   Forall (fun w' => _cur_tick w' <= _cur_target_tick w') (history (step fuel n w s))) /\
  (forall w', In w' (history (step fuel n w s)) ->
     _cur_target_tick w' < _cur_tick w' ->
     (exists e, ending (step fuel n w s) = Raised e) /\
     (is_ok (fst (call_mod Returns_None "step" (Some [JInt n]) s)) = true ->
      w' = final (step fuel n w s) /\
      ending (step fuel n w s) = Raised AssertionError)).
Proof.
  unfold step.
  destruct (call_mod Returns_None "step" (Some [JInt n]) s) as [[v|e] s1].
  - set (w1 := set_cur_target_tick (_cur_target_tick w + n) w).
    destruct (poll_spec fuel w1 s1 [w1]) as (h' & Hh & Ht & Hi & Hr & Hv & Ho).
    cbn [fst is_ok]. rewrite Hh, Ht, Hi. cbn [app].
    split; [reflexivity|]. split; [reflexivity|]. split.
    + intros Hret. destruct (Hr Hret) as [Hc Hf]. split; [exact Hc|].
      constructor; [|exact Hf].
      destruct (Z.le_gt_cases (_cur_tick w1) (_cur_target_tick w1)) as [Hle|Hgt];
        [exact Hle|].
      rewrite poll_overshoot in Hret by lia. discriminate Hret.
    + intros w' [<-|Hin] Hw'.
      * rewrite poll_overshoot by exact Hw'. cbn [final ending].
        split; [eexists; reflexivity|]. intros _. split; reflexivity.
      * destruct (Hv w' Hin Hw') as [Hf He]. rewrite He.
        split; [eexists; reflexivity|]. intros _. split; [exact Hf|reflexivity].
  - cbn [final history ending fst is_ok set_cur_target_tick _cur_target_tick
         _initial_tick].
    split; [reflexivity|]. split; [reflexivity|]. split; [discriminate|].
    intros w' _ _. split; [eexists; reflexivity|discriminate].
Qed.

Lemma steps_spec (fuel : nat) (ns : list Z) :
  forall (w : World) (s : S),
  ending (steps fuel ns w s) = Returned ->
  _cur_tick w = _cur_target_tick w ->
  _cur_tick (final (steps fuel ns w s)) = _cur_target_tick w + foldr Z.add 0 ns /\
  _cur_target_tick (final (steps fuel ns w s)) = _cur_target_tick w + foldr Z.add 0 ns /\
  _initial_tick (final (steps fuel ns w s)) = _initial_tick w /\
  Forall (fun w' => _cur_tick w' <= _cur_target_tick w') (history (steps fuel ns w s)).
Proof.
  induction ns as [|n ns IH]; intros w s Hret Hw.
  - cbn. repeat split; try lia. constructor.
  - cbn [steps] in *.
    destruct (step_spec fuel n w s) as (Ht & Hi & Hr & _).
    destruct (ending (step fuel n w s)) eqn:E; try (rewrite E in Hret; discriminate Hret).
    cbn [final history ending] in *.
    destruct (Hr eq_refl) as [Hc Hf].
    destruct (IH (final (step fuel n w s)) (client (step fuel n w s)) Hret
                ltac:(lia)) as (Hc' & Ht' & Hi' & Hf').
    cbn [foldr]. repeat split; try lia.
    apply Forall_app. split; assumption.
Qed.

(** The loop ends as soon as the engine reports the target tick. *)
Lemma poll_reaches_target (fuel : nat) (w : World) (s s1 : S) (hist : list World)
    (reply : string) :
  _cur_tick w < _cur_target_tick w ->
  send_command "/silent-command rcon.print(game.tick)" s = (Ok reply, s1) ->
  int reply = Ok (_cur_target_tick w) ->
  poll (Datatypes.S fuel) w s hist
  = mk_run (set_cur_tick (_cur_target_tick w) w) s1
           (hist ++ [set_cur_tick (_cur_target_tick w) w]) Returned.
Proof.
  intros Hlt Hs Hi. cbn [poll].
  destruct (Z.ltb_spec (_cur_tick w) (_cur_target_tick w)); [|lia].
  rewrite Hs. cbn [rbind]. rewrite Hi.
  apply poll_at_target. reflexivity.
Qed.



(** *** [call_mod] and the single quote *)

Lemma call_mod_quote (return_type : ReturnType) (method : string)
    (params : option (list json)) (s : S) :
  str_in "'" (serialize_request method params) = true ->
  call_mod return_type method params s = (Raise NotImplementedError, s).
Proof. intros H. unfold call_mod. rewrite H. reflexivity. Qed.

Lemma call_mod_sent (return_type : ReturnType) (method : string)
    (params : option (list json)) (s : S) :
  str_in "'" (serialize_request method params) = false ->
  call_mod return_type method params s =
  (serialized_response <- fst (send_command (rpc_command (serialize_request method params)) s) ;;;
   read_response return_type serialized_response,
   snd (send_command (rpc_command (serialize_request method params)) s)).
Proof.
  intros H. unfold call_mod. rewrite H.
  destruct (send_command _ s). reflexivity.
Qed.

Lemma escape_keeps_quote (s : string) :
  str_in "'" s = true -> str_in "'" (escape s) = true.
Proof.
  induction s as [|a s IH]; intros H; [cbn in H; discriminate H|].
  cbn [str_in] in H. cbn [escape].
  destruct (String.prefix "'" (String a s)) eqn:Ep.
  - change (String.prefix "'" (String a s))
      with (if ascii_dec "'" a then String.prefix EmptyString s else false) in Ep.
    destruct (ascii_dec "'" a) as [<-|]; [|discriminate Ep].
    apply str_in_append_r. reflexivity.
  - apply str_in_append_l, IH. exact H.
Qed.

Lemma serialize_request_eq (method : string) (params : option (list json)) :
  serialize_request method params =
  "{" +:+ (json_string "method" +:+ ": " +:+ (dq +:+ escape method +:+ dq) +:+ ", "
           +:+ json_string "params" +:+ ": "
           +:+ json_dumps (JList (match params with None => [] | Some p => p end)))
  +:+ "}".
Proof. destruct params; reflexivity. Qed.

(** A single quote in the method name is a single quote in the request. *)
Lemma quote_in_method (method : string) (params : option (list json)) :
  str_in "'" method = true -> str_in "'" (serialize_request method params) = true.
Proof.
  intros H. rewrite serialize_request_eq.
  apply str_in_append_l, str_in_append_r.
  apply str_in_append_l, str_in_append_l, str_in_append_r.
  apply str_in_append_l, str_in_append_r.
  apply escape_keeps_quote, H.
Qed.

(** C10. The single quote.  When the serialized request contains a
    single quote, [call_mod] raises [NotImplementedError] and the
    protocol client is as it was: nothing was sent.  When it contains
    none, the command that embeds the request is sent, and the outcome
    is what the client and the reply make it.  A method name with a
    single quote in it is such a request. *)
Theorem single_quote_rejected_before_sending (return_type : ReturnType)
    (method : string) (params : option (list json)) (s : S) :
  (str_in "'" (serialize_request method params) = true ->
   call_mod return_type method params s = (Raise NotImplementedError, s)) /\
  (str_in "'" (serialize_request method params) = false ->
   call_mod return_type method params s =
   (serialized_response <-
      fst (send_command (rpc_command (serialize_request method params)) s) ;;;
    read_response return_type serialized_response,
    snd (send_command (rpc_command (serialize_request method params)) s))) /\
  (str_in "'" method = true ->
   call_mod return_type method params s = (Raise NotImplementedError, s)).
Proof.
  split; [apply call_mod_quote|]. split; [apply call_mod_sent|].
  intros H. apply call_mod_quote, quote_in_method, H.
Qed.

(** *** [create_entities] *)

Lemma gather_length {A} (calls : list (S -> res A * S)) :
  forall s, length (fst (gather calls s)) = length calls.
Proof.
  induction calls as [|call calls IH]; intros s; [reflexivity|].
  cbn [gather]. destruct (call s) as [r s1]. specialize (IH s1).
  destruct (gather calls s1) as [rs s2]. cbn in *. congruence.
Qed.

Lemma sort_results_spec {A} (rpc_results : list (res A)) :
  forall results errors,
  exists values excs,
    sort_results rpc_results results errors = (results ++ values, errors ++ excs) /\
    (Forall (fun r => is_ok r = true) rpc_results ->
     excs = [] /\ rpc_results = map Ok values) /\
    (Exists (fun r => is_ok r = false) rpc_results -> excs <> []).
Proof.
  induction rpc_results as [|r rest IH]; intros results errors.
  - exists [], []. rewrite !app_nil_r. split; [reflexivity|]. split.
    + intros _. split; reflexivity.
    + intros H. inversion H.
  - destruct r as [v|e]; cbn [sort_results].
    + destruct (IH (results ++ [v]) errors) as (vs & es & Heq & Hall & Hex).
      exists (v :: vs), es. rewrite Heq, <- app_assoc. split; [reflexivity|]. split.
      * intros H. inversion H as [|? ? _ Hrest]; subst.
        destruct (Hall Hrest) as [-> ->]. split; reflexivity.
      * intros H. inversion H as [? ? Hh|? ? Hrest]; subst; [discriminate Hh|].
        apply Hex. exact Hrest.
    + destruct (IH results (errors ++ [e])) as (vs & es & Heq & _ & _).
      exists vs, (e :: es). rewrite Heq, <- app_assoc. split; [reflexivity|]. split.
      * intros H. inversion H as [|? ? Hh _]; subst. discriminate Hh.
      * intros _. discriminate.
Qed.


Lemma call_mod_null_result (return_type : ReturnType) (method : string)
    (params : option (list json)) (s s1 : S) (reply : string)
    (fields : list (string * json)) :
  _is_optional return_type = true ->
  str_in "'" (serialize_request method params) = false ->
  send_command (rpc_command (serialize_request method params)) s = (Ok reply, s1) ->
  loads reply = Ok (JObj fields) ->
  get "result" fields = Some JNull -> get "error" fields = Some JNull ->
  call_mod return_type method params s = (Ok None, s1).
Proof.
  intros Ho Hq Hs Hl Hr He. rewrite call_mod_sent by exact Hq. rewrite Hs.
  cbn [fst snd rbind]. unfold read_response. rewrite Hl. cbn [rbind].
  unfold structure_RpcResponse. rewrite Hr, He. cbn [rbind error result].
  rewrite Ho, !andb_false_r. reflexivity.
Qed.


End BridgeFacts.



Lemma single_quote_witness :
  call_mod Returns_None "it's" None sample_step_script
  = (Raise NotImplementedError, sample_step_script).
Proof.
  refine (proj1 (single_quote_rejected_before_sending Returns_None "it's" None
                   sample_step_script) _).
  vm_compute. reflexivity.
Defined.


(** The second entity collides: its entry is [None]; an error of the
    mod for any entity fails the batch. *)
Example create_entities_collision :
  exists e, fst (create_entities sample_entities sample_batch_script) = Ok [Some e; None].
Proof. eexists. vm_compute. reflexivity. Qed.

Example create_entities_error :
  fst (create_entities sample_entities sample_failing_script)
  = Raise (PlainException "Errors encountered during create_entities, see logs").
Proof. vm_compute. reflexivity. Qed.

(** An overshoot: the engine reports tick 800 while the target is 700. *)
Example step_overshoot :
  ending (step 10 600 (World_init 100)
            (mk_script [Ok null_reply; Ok "300"; Ok "800"] []))
  = Raised AssertionError.
Proof. vm_compute. reflexivity. Qed.

(** *** Geometry *)

(** X9. Opposite directions.  [get_opposite_direction] is an involution
    without fixed point; the vector of the opposite direction is the
    opposite vector, so that moving against a direction is moving
    along its opposite, and moving there and back by the same amount
    returns to the starting position. *)
Theorem opposite_direction_undoes_offset (d : direction) (pos : Position) (k : Z) :
  get_opposite_direction (get_opposite_direction d) = d /\
  get_opposite_direction d <> d /\
  get_direction_vector (get_opposite_direction d)
  = mk_Position (- x (get_direction_vector d)) (- y (get_direction_vector d)) /\
  offset_pos pos (get_opposite_direction d) k = offset_pos pos d (- k) /\
  offset_pos (offset_pos pos d k) (get_opposite_direction d) k = pos.
Proof.
  destruct pos as [px py].
  split; [destruct d; reflexivity|]. split; [destruct d; discriminate|].
  split; [destruct d; reflexivity|].
  split; destruct d; unfold offset_pos; cbn; f_equal; lia.
Qed.

(** X10. [manhattan_distance] on integer positions is a metric, and an
    offset by [k] along a direction moves a position by [|k|] for the
    four cardinal directions and by [2 |k|] for the diagonals. *)
Theorem manhattan_distance_is_a_metric (a b c : Position) (d : direction) (k : Z) :
  0 <= manhattan_distance a b /\
  (manhattan_distance a b = 0 <-> a = b) /\
  manhattan_distance a b = manhattan_distance b a /\
  manhattan_distance a c <= manhattan_distance a b + manhattan_distance b c /\
  manhattan_distance a (offset_pos a d k)
  = Z.abs k * (Z.abs (x (get_direction_vector d)) + Z.abs (y (get_direction_vector d))) /\
  1 <= Z.abs (x (get_direction_vector d)) + Z.abs (y (get_direction_vector d)) <= 2.
Proof.
  destruct a as [ax ay], b as [bx by_], c as [cx cy]. unfold manhattan_distance. cbn.
  split; [lia|]. split.
  - split; [intros H; f_equal; lia|]. intros H. injection H as -> ->. lia.
  - split; [lia|]. split; [lia|]. split; destruct d; cbn; lia.
Qed.

Section BridgeFacts2.
Context {S : Type} {rcon : Rcon S} {json_lib : JsonLib}.

(** *** What [call_mod] refuses, and what it returns *)

Lemma serialize_request_quote (method : string) (params : option (list json)) :
  str_in "'" (serialize_request method params)
  = str_in "'" method
    || existsb (str_in "'")
         (json_strings (JList (match params with None => [] | Some p => p end))).
Proof.
  unfold serialize_request, unstructure_RpcRequest. rewrite has_quote_json_dumps.
  cbn [json_strings World.method World.params existsb app].
  change (str_in "'" "method") with false. change (str_in "'" "params") with false.
  cbn [orb]. rewrite existsb_app. cbn [existsb]. rewrite !orb_false_r. reflexivity.
Qed.

(** X11. The refusal is exact.  [call_mod] raises [NotImplementedError],
    sending nothing, exactly when the method name or one of the strings
    inside the parameters (a string value or an object key, at any
    depth) contains a single quote; [json.dumps] neither adds a single
    quote nor hides one.  Every other request is sent. *)
Theorem single_quote_refusal_is_exact (return_type : ReturnType) (method : string)
    (params : option (list json)) (s : S) :
  (str_in "'" method
   || existsb (str_in "'")
        (json_strings (JList (match params with None => [] | Some p => p end))) = true ->
   call_mod return_type method params s = (Raise NotImplementedError, s)) /\
  (str_in "'" method
   || existsb (str_in "'")
        (json_strings (JList (match params with None => [] | Some p => p end))) = false ->
   call_mod return_type method params s =
   (serialized_response <-
      fst (send_command (rpc_command (serialize_request method params)) s) ;;;
    read_response return_type serialized_response,
    snd (send_command (rpc_command (serialize_request method params)) s))).
Proof.
  rewrite <- serialize_request_quote. split; [apply call_mod_quote|apply call_mod_sent].
Qed.

Lemma read_response_not_None (return_type : ReturnType) (serialized_response : string) :
  is_None return_type = false -> is_NoneType return_type = false ->
  _is_optional return_type = false ->
  read_response return_type serialized_response <> Ok None.
Proof.
  intros H1 H2 H3. unfold read_response.
  destruct (loads serialized_response) as [j|]; [|discriminate]. cbn [rbind].
  destruct (structure_RpcResponse return_type j) as [response|]; [|discriminate].
  cbn [rbind]. destruct (error response); [discriminate|].
  destruct (result response); [discriminate|]. rewrite H1, H2, H3. discriminate.
Qed.

Lemma read_response_null (return_type : ReturnType) (reply : string)
    (fields : list (string * json)) :
  loads reply = Ok (JObj fields) ->
  get "result" fields = None \/ get "result" fields = Some JNull ->
  get "error" fields = None \/ get "error" fields = Some JNull ->
  read_response return_type reply =
  if negb (is_None return_type) && negb (is_NoneType return_type)
     && negb (_is_optional return_type)
  then Raise (RpcException "Unexpected None result") else Ok None.
Proof.
  intros Hl Hr He. unfold read_response. rewrite Hl. cbn [rbind].
  unfold structure_RpcResponse.
  destruct Hr as [-> | ->]; destruct He as [-> | ->]; reflexivity.
Qed.


(** *** [step] when the call fails *)

(** X13. A failed [step] still moves the target.  When the call to the
    mod raises, [step n] raises the same exception without polling; the
    observed tick is unchanged but the target has been advanced by
    [n], so the world is left out of step: a later [step m] that
    returns has waited for the old target plus [n + m]. *)
Theorem failed_step_moves_target (fuel : nat) (n : Z) (w : World) (s : S) (e : exn) :
  fst (call_mod Returns_None "step" (Some [JInt n]) s) = Raise e ->
  ending (step fuel n w s) = Raised e /\
  client (step fuel n w s) = snd (call_mod Returns_None "step" (Some [JInt n]) s) /\
  _cur_tick (final (step fuel n w s)) = _cur_tick w /\
  get_current_tick (final (step fuel n w s)) = get_current_tick w /\
  _cur_target_tick (final (step fuel n w s)) = _cur_target_tick w + n /\
  (forall fuel' m s',
     ending (step fuel' m (final (step fuel n w s)) s') = Returned ->
     _cur_tick (final (step fuel' m (final (step fuel n w s)) s'))
     = _cur_target_tick w + n + m).
Proof.
  intros He.
  assert (Hstep : step fuel n w s
                  = mk_run (set_cur_target_tick (_cur_target_tick w + n) w)
                      (snd (call_mod Returns_None "step" (Some [JInt n]) s))
                      [set_cur_target_tick (_cur_target_tick w + n) w] (Raised e)).
  { unfold step. destruct (call_mod Returns_None "step" (Some [JInt n]) s) as [r s1].
    cbn [fst snd] in *. subst r. reflexivity. }
  rewrite Hstep. cbn [ending client final set_cur_target_tick _cur_tick _cur_target_tick].
  split; [reflexivity|]. split; [reflexivity|]. split; [reflexivity|].
  split; [reflexivity|]. split; [reflexivity|].
  intros fuel' m s' Hret.
  destruct (step_spec fuel' m (set_cur_target_tick (_cur_target_tick w + n) w) s')
    as (_ & _ & Hr & _).
  destruct (Hr Hret) as [Hc _]. exact Hc.
Qed.

End BridgeFacts2.

(** *** What goes over the wire *)

Section Traffic.
Context {json_lib : JsonLib}.

Lemma scripted_sent (command : string) (s : script) :
  sent (snd (send_command command s)) = sent s ++ [command].
Proof.
  unfold send_command, scripted_rcon. destruct (replies s); reflexivity.
Qed.

Lemma call_mod_traffic (return_type : ReturnType) (method : string)
    (params : option (list json)) (s : script) :
  sent (snd (call_mod return_type method params s))
  = sent s ++
    if str_in "'" (serialize_request method params) then []
    else [rpc_command (serialize_request method params)].
Proof.
  unfold call_mod. destruct (str_in "'" (serialize_request method params)).
  - cbn [snd]. rewrite app_nil_r. reflexivity.
  - pose proof (scripted_sent (rpc_command (serialize_request method params)) s) as H.
    destruct (send_command _ s) as [r s1]. exact H.
Qed.

Lemma poll_traffic (fuel : nat) :
  forall (w : World) (s : script) (hist : list World),
  exists k, (k <= fuel)%nat /\
    (_cur_target_tick w <= _cur_tick w -> k = 0%nat) /\
    sent (client (poll fuel w s hist))
    = sent s ++ repeat "/silent-command rcon.print(game.tick)" k.
Proof.
  induction fuel as [|fuel IH]; intros w s hist; cbn [poll].
  - exists 0%nat. split; [lia|]. split; [reflexivity|].
    destruct (_cur_tick w <? _cur_target_tick w);
      [|destruct (_cur_tick w =? _cur_target_tick w)];
      cbn [client repeat]; rewrite app_nil_r; reflexivity.
  - destruct (Z.ltb_spec (_cur_tick w) (_cur_target_tick w)) as [Hlt|Hge].
    + pose proof (scripted_sent "/silent-command rcon.print(game.tick)" s) as Hs.
      destruct (send_command _ s) as [r s1]. cbn [snd] in Hs.
      destruct (rbind r (fun cur_tick_str => int cur_tick_str)) as [t|e].
      * destruct (IH (set_cur_tick t w) s1 (hist ++ [set_cur_tick t w]))
          as (k & Hk & _ & Hsent).
        exists (Datatypes.S k). split; [lia|]. split; [lia|].
        rewrite Hsent, Hs, <- app_assoc. reflexivity.
      * exists 1%nat. split; [lia|]. split; [lia|]. cbn [client]. exact Hs.
    + exists 0%nat. split; [lia|]. split; [reflexivity|].
      destruct (_cur_tick w =? _cur_target_tick w); cbn [client repeat];
        rewrite app_nil_r; reflexivity.
Qed.

(** X14. The traffic of [step].  Through a protocol client that records
    what it is asked to send, [step n] sends the "step" call once and
    then nothing but tick queries, one per turn of its loop; it polls
    not at all when the call to the mod fails, nor when the target is
    not ahead of the observed tick ([step(0)] on a world in step, or a
    negative [n]). *)
Theorem step_traffic (fuel : nat) (n : Z) (w : World) (s : script) :
  exists k, (k <= fuel)%nat /\
    sent (client (step fuel n w s))
    = sent s ++ rpc_command (serialize_request "step" (Some [JInt n]))
             :: repeat "/silent-command rcon.print(game.tick)" k /\
    (is_ok (fst (call_mod Returns_None "step" (Some [JInt n]) s)) = false -> k = 0%nat) /\
    (_cur_target_tick w + n <= _cur_tick w -> k = 0%nat).
Proof.
  assert (Hq : str_in "'" (serialize_request "step" (Some [JInt n])) = false).
  { rewrite serialize_request_quote. reflexivity. }
  pose proof (call_mod_traffic Returns_None "step" (Some [JInt n]) s) as Hsent.
  rewrite Hq in Hsent. unfold step.
  destruct (call_mod Returns_None "step" (Some [JInt n]) s) as [[v|e] s1];
    cbn [fst snd is_ok] in *.
  - destruct (poll_traffic fuel (set_cur_target_tick (_cur_target_tick w + n) w) s1
                [set_cur_target_tick (_cur_target_tick w + n) w])
      as (k & Hk & Hzero & Hpoll).
    exists k. split; [exact Hk|]. split.
    + rewrite Hpoll, Hsent, <- app_assoc. reflexivity.
    + split; [discriminate|]. intros H. apply Hzero. exact H.
  - exists 0%nat. split; [lia|]. cbn [client repeat]. split; [exact Hsent|].
    split; reflexivity.
Qed.

Lemma gather_traffic (calls : list (script -> res (option json) * script))
    (cmds : list (list string)) :
  Forall2 (fun call cmd => forall s, sent (snd (call s)) = sent s ++ cmd) calls cmds ->
  forall s, sent (snd (gather calls s)) = sent s ++ concat cmds.
Proof.
  induction 1 as [|call cmd calls cmds Hc _ IH]; intros s; cbn [gather concat].
  - rewrite app_nil_r. reflexivity.
  - specialize (Hc s). destruct (call s) as [r s1]. cbn [snd] in Hc.
    specialize (IH s1). destruct (gather calls s1) as [rs s2]. cbn [snd] in *.
    rewrite IH, Hc, <- app_assoc. reflexivity.
Qed.

Lemma direction_value_no_quote (d : direction) : str_in "'" (direction_value d) = false.
Proof. destruct d; reflexivity. Qed.

Lemma create_entity_quote (e : CreateEntityParams) :
  str_in "'" (serialize_request "create_entity" (Some [unstructure_CreateEntityParams e]))
  = str_in "'" (name e)
    || match force e with Some f => str_in "'" f | None => false end
    || str_in "'" (surface e).
Proof.
  rewrite serialize_request_quote.
  destruct e as [nm pos dir frc srf]. cbn [name force surface].
  unfold unstructure_CreateEntityParams. cbn [name position direction_ force surface].
  assert (Hpos : existsb (str_in "'") (json_strings (opt_json unstructure_Position pos))
                 = false) by (destruct pos; reflexivity).
  assert (Hdir : existsb (str_in "'")
                   (json_strings (opt_json (fun d => JStr (direction_value d)) dir))
                 = false).
  { destruct dir as [d|]; [|reflexivity]. cbn. rewrite direction_value_no_quote.
    reflexivity. }
  assert (Hfrc : existsb (str_in "'") (json_strings (opt_json JStr frc))
                 = match frc with Some f => str_in "'" f | None => false end).
  { destruct frc; cbn; rewrite ?orb_false_r; reflexivity. }
  cbn [json_strings app].
  repeat first [rewrite existsb_app | progress cbn [existsb app]].
  rewrite Hpos, Hdir, Hfrc.
  change (str_in "'" "create_entity") with false.
  change (str_in "'" "name") with false. change (str_in "'" "position") with false.
  change (str_in "'" "direction") with false. change (str_in "'" "force") with false.
  change (str_in "'" "surface") with false.
  destruct (str_in "'" nm), (str_in "'" srf),
    (match frc with Some f => str_in "'" f | None => false end); reflexivity.
Qed.

(** X15. The traffic of [create_entities].  Through a protocol client
    that records what it is asked to send: one "create_entity" call
    goes out for every entity whose name, force and surface are free
    of single quotes, in the order of the list, whether the batch then
    returns or raises.  A batch that raises has still asked the world
    to create every other entity. *)
Theorem create_entities_traffic (entities : list CreateEntityParams) (s : script) :
  sent (snd (create_entities entities s))
  = sent s ++
    map (fun e => rpc_command (serialize_request "create_entity"
                                 (Some [unstructure_CreateEntityParams e])))
        (List.filter
           (fun e => negb (str_in "'" (name e)
                           || match force e with Some f => str_in "'" f | None => false end
                           || str_in "'" (surface e)))
           entities).
Proof.
  unfold create_entities.
  pose proof (gather_traffic (create_entity_calls entities)
                (map (fun e =>
                        if str_in "'" (serialize_request "create_entity"
                                         (Some [unstructure_CreateEntityParams e]))
                        then []
                        else [rpc_command (serialize_request "create_entity"
                                             (Some [unstructure_CreateEntityParams e]))])
                     entities)) as Hg.
  assert (Hall : Forall2 (fun call cmd => forall s, sent (snd (call s)) = sent s ++ cmd)
                   (create_entity_calls entities)
                   (map (fun e =>
                           if str_in "'" (serialize_request "create_entity"
                                            (Some [unstructure_CreateEntityParams e]))
                           then []
                           else [rpc_command (serialize_request "create_entity"
                                                (Some [unstructure_CreateEntityParams e]))])
                        entities)).
  { clear Hg. unfold create_entity_calls.
    induction entities as [|e entities IH]; cbn [map]; [constructor|].
    constructor; [|exact IH]. intros s0. apply call_mod_traffic. }
  specialize (Hg Hall s).
  destruct (gather (create_entity_calls entities) s) as [rpc_results s1].
  cbn [snd] in Hg.
  destruct (sort_results rpc_results [] []) as [results errors].
  assert (Hs : sent (snd (match errors with
                          | [] => (Ok results, s1)
                          | _ :: _ =>
                              (Raise (PlainException
                                        "Errors encountered during create_entities, see logs"),
                               s1)
                          end)) = sent s1) by (destruct errors; reflexivity).
  rewrite Hs, Hg. f_equal. clear.
  induction entities as [|e entities IH]; [reflexivity|].
  cbn [map concat List.filter]. rewrite create_entity_quote.
  destruct (str_in "'" (name e)
            || match force e with Some f => str_in "'" f | None => false end
            || str_in "'" (surface e)); cbn [negb app map]; rewrite IH; reflexivity.
Qed.

End Traffic.

Lemma opposite_direction_undoes_offset_witness :
  offset_pos (offset_pos (mk_Position 3 (-1)) northeast 2) southwest 2 = mk_Position 3 (-1).
Proof.
  apply (proj2 (proj2 (proj2 (proj2
           (opposite_direction_undoes_offset northeast (mk_Position 3 (-1)) 2))))).
Defined.

Lemma manhattan_distance_is_a_metric_witness :
  manhattan_distance (mk_Position (-1) 0) (mk_Position 3 1)
  <= manhattan_distance (mk_Position (-1) 0) (mk_Position 0 0)
     + manhattan_distance (mk_Position 0 0) (mk_Position 3 1).
Proof.
  apply (proj1 (proj2 (proj2 (proj2
           (manhattan_distance_is_a_metric (mk_Position (-1) 0) (mk_Position 0 0)
              (mk_Position 3 1) north 1))))).
Defined.

Lemma single_quote_refusal_is_exact_witness :
  call_mod Returns_None "destroy_all_entities" (Some [JStr "nauvis's"]) sample_step_script
  = (Raise NotImplementedError, sample_step_script).
Proof.
  refine (proj1 (single_quote_refusal_is_exact Returns_None "destroy_all_entities"
                   (Some [JStr "nauvis's"]) sample_step_script) _).
  vm_compute. reflexivity.
Defined.


Lemma failed_step_moves_target_witness :
  _cur_target_tick (final (step 10 600 (World_init 100) (mk_script [] []))) = 700 /\
  get_current_tick (final (step 10 600 (World_init 100) (mk_script [] []))) = 0.
Proof.
  destruct (failed_step_moves_target 10 600 (World_init 100) (mk_script [] [])
              TimeoutError) as (_ & _ & _ & Hc & Ht & _).
  - vm_compute. reflexivity.
  - split; [exact Ht|exact Hc].
Defined.

Lemma step_traffic_witness :
  exists k, (k <= 10)%nat /\
    sent (client (step 10 600 (World_init 100) sample_step_script))
    = rpc_command (serialize_request "step" (Some [JInt 600]))
      :: repeat "/silent-command rcon.print(game.tick)" k.
Proof.
  destruct (step_traffic 10 600 (World_init 100) sample_step_script)
    as (k & Hk & Hs & _).
  exists k. split; [exact Hk|exact Hs].
Defined.

Lemma create_entities_traffic_witness :
  length (sent (snd (create_entities sample_entities sample_failing_script))) = 2%nat.
Proof.
  rewrite (create_entities_traffic sample_entities sample_failing_script).
  reflexivity.
Defined.

End WorldFacts.

(** ** The process supervisor *)

Module ServerFacts.
Import Text TextFacts World Server.

Local Open Scope string_scope.
Local Open Scope Z_scope.
Local Open Scope list_scope.

(** *** Directories are only removed by [rmtree] *)

Create HintDb keeps discriminated.

Lemma keeps_ret {A} (a : A) : keeps_dirs (ret a).
Proof. intros sys. reflexivity. Qed.

Lemma keeps_raise {A} (e : exn) : keeps_dirs (@raise A e).
Proof. intros sys. reflexivity. Qed.

Lemma keeps_lift_res {A} (r : res A) : keeps_dirs (lift_res r).
Proof. intros sys. reflexivity. Qed.

Lemma keeps_emit (ev : event) : keeps_dirs (emit ev).
Proof. intros sys. reflexivity. Qed.

Lemma keeps_mkdir (d : string) : keeps_dirs (mkdir d).
Proof. intros sys. cbn. set_solver. Qed.

Lemma keeps_write_file (p c : string) : keeps_dirs (write_file p c).
Proof. intros sys. reflexivity. Qed.

Lemma keeps_mbind {A B} (m : M A) (k : A -> M B) :
  keeps_dirs m -> (forall a, keeps_dirs (k a)) -> keeps_dirs (mbind m k).
Proof.
  intros Hm Hk sys. unfold mbind. specialize (Hm sys).
  destruct (m sys) as [[a|e] sys1]; cbn [snd] in *; [|exact Hm].
  etransitivity; [exact Hm|apply Hk].
Qed.

Lemma keeps_try_except {A} (m : M A) (h : exn -> M A) :
  keeps_dirs m -> (forall e, keeps_dirs (h e)) -> keeps_dirs (try_except m h).
Proof.
  intros Hm Hh sys. unfold try_except. specialize (Hm sys).
  destruct (m sys) as [[a|e] sys1]; cbn [snd] in *; [exact Hm|].
  etransitivity; [exact Hm|apply Hh].
Qed.

Lemma keeps_finally_reraise {A B C} (e : exn) (m : M A) (c : M B) :
  keeps_dirs m -> keeps_dirs c -> keeps_dirs (@finally_reraise A B C e m c).
Proof.
  intros Hm Hc sys. unfold finally_reraise. specialize (Hm sys).
  destruct (m sys) as [r sys1]. specialize (Hc sys1).
  destruct (c sys1) as [[b|e'] sys2]; cbn [snd] in *; set_solver.
Qed.

Lemma keeps_attempt {A} (env : launch_env) (op : operation) (m : M A) :
  keeps_dirs m -> keeps_dirs (attempt env op m).
Proof. intros Hm. unfold attempt. destruct (fails env op); [apply keeps_raise|exact Hm]. Qed.

Lemma keeps_write_files (d : string) (l : list (string * string)) :
  keeps_dirs (write_files d l).
Proof.
  induction l as [|[f c] l IH]; cbn [write_files]; [apply keeps_ret|].
  apply keeps_mbind; [apply keeps_write_file|intros _; exact IH].
Qed.

#[local] Hint Resolve keeps_ret keeps_raise keeps_lift_res keeps_emit keeps_mkdir
  keeps_write_file keeps_mbind keeps_try_except keeps_finally_reraise
  keeps_attempt keeps_write_files : keeps.

Lemma keeps_launch (env : launch_env) (tmpdir : string) : keeps_dirs (launch env tmpdir).
Proof.
  unfold launch, install_mod.
  repeat first
    [ apply keeps_mbind; [|intros ?]
    | apply keeps_try_except; [|intros ?]
    | apply keeps_finally_reraise
    | apply keeps_attempt
    | match goal with |- keeps_dirs (match ?x with _ => _ end) => destruct x end
    | solve [auto with keeps] ].
Qed.


(** *** The cleanup of a failed launch *)

Lemma rmtree_absent (d : string) (sys : system) :
  d ∈ dirs (fs sys) ->
  fst (rmtree d sys) = Ok tt /\
  absent d (fs (snd (rmtree d sys))) /\
  events (snd (rmtree d sys)) = events sys ++ [Removed d].
Proof.
  intros Hd. unfold rmtree. rewrite bool_decide_eq_true_2 by exact Hd.
  cbn [fst snd fs events files dirs]. split; [reflexivity|]. split; [|reflexivity].
  split.
  - intros p Hp. apply elem_of_filter in Hp. apply Hp.
  - intros p [c Hp]. apply map_lookup_filter_Some in Hp. apply Hp.
Qed.

Lemma cleanup_spec (env : launch_env) (tmpdir : string) (e : exn) (sys : system) :
  tmpdir ∈ dirs (fs sys) ->
  absent tmpdir (fs (snd (cleanup env tmpdir e sys))) /\
  (PYTEST_CURRENT_TEST env = false ->
   fst (cleanup env tmpdir e sys) = Raise e /\
   events (snd (cleanup env tmpdir e sys)) = events sys ++ [Removed tmpdir]) /\
  (PYTEST_CURRENT_TEST env = true ->
   is_Some (files (fs sys) !! get_server_log_path tmpdir) ->
   fst (cleanup env tmpdir e sys) = Raise e /\
   events (snd (cleanup env tmpdir e sys))
   = events sys ++ [LogDumped tmpdir; Removed tmpdir]) /\
  (PYTEST_CURRENT_TEST env = true ->
   files (fs sys) !! get_server_log_path tmpdir = None ->
   fst (cleanup env tmpdir e sys) = Raise FileNotFoundError /\
   events (snd (cleanup env tmpdir e sys)) = events sys ++ [Removed tmpdir]).
Proof.
  intros Hd. unfold cleanup, finally_reraise.
  destruct (PYTEST_CURRENT_TEST env).
  - unfold debug_print_server_log, mbind, read_file.
    destruct (files (fs sys) !! get_server_log_path tmpdir) as [c|] eqn:El.
    + cbn [emit].
      set (sys1 := mk_system (fs sys) (events sys ++ [LogDumped tmpdir])).
      destruct (rmtree_absent tmpdir sys1 Hd) as (Hr & Ha & He).
      destruct (rmtree tmpdir sys1) as [[[]|e'] sys2]; cbn [fst snd] in *;
        [|discriminate Hr].
      split; [exact Ha|]. split; [discriminate|]. split.
      * intros _ _. split; [reflexivity|]. rewrite He. subst sys1. cbn.
        rewrite <- app_assoc. reflexivity.
      * intros _ Hn. discriminate Hn.
    + destruct (rmtree_absent tmpdir sys Hd) as (Hr & Ha & He).
      destruct (rmtree tmpdir sys) as [[[]|e'] sys2]; cbn [fst snd] in *;
        [|discriminate Hr].
      split; [exact Ha|]. split; [discriminate|]. split.
      * intros _ [c Hc]. discriminate Hc.
      * intros _ _. split; [reflexivity|exact He].
  - cbn [ret].
    destruct (rmtree_absent tmpdir sys Hd) as (Hr & Ha & He).
    destruct (rmtree tmpdir sys) as [[[]|e'] sys2]; cbn [fst snd] in *;
      [|discriminate Hr].
    split; [exact Ha|]. split; [|split; discriminate].
    intros _. split; [reflexivity|exact He].
Qed.

Lemma cleanup_raises (env : launch_env) (tmpdir : string) (e : exn) (sys : system) :
  exists e', fst (cleanup env tmpdir e sys) = Raise e'.
Proof.
  unfold cleanup, finally_reraise.
  destruct (_ sys) as [r sys1]. destruct (rmtree tmpdir sys1) as [[[]|e'] sys2];
    eexists; reflexivity.
Qed.

Lemma _try_create_server_eq (env : launch_env) (sys : system) :
  _try_create_server env sys =
  match fails env MakeTmpdir with
  | Some e => (Raise e, sys)
  | None =>
      match launch env (mkdtemp env) (made_tmpdir env sys) with
      | (Ok srv, sys1) => (Ok srv, sys1)
      | (Raise e, sys1) => cleanup env (mkdtemp env) e sys1
      end
  end.
Proof.
  unfold _try_create_server, mbind, attempt, try_except.
  destruct (fails env MakeTmpdir); reflexivity.
Qed.

(** *** A launch stays inside its working directory *)

Lemma prefix_self_append (s t : string) : String.prefix s (s +:+ t) = true.
Proof.
  induction s as [|a s IH]; [destruct (EmptyString +:+ t); reflexivity|].
  rewrite append_cons. cbn. destruct (ascii_dec a a); [exact IH|contradiction].
Qed.

Lemma under_self (d : string) : under d d = true.
Proof. unfold under. rewrite String.eqb_refl. reflexivity. Qed.

Lemma under_join (d p x : string) : under d p = true -> under d (path_join p x) = true.
Proof.
  unfold under, path_join. intros H. apply orb_true_iff in H as [H|H];
    apply orb_true_iff; right.
  - apply String.eqb_eq in H. subst p. rewrite <- append_assoc.
    apply prefix_self_append.
  - apply prefix_append. exact H.
Qed.

Lemma confined_ret {A} (d : string) (a : A) : confined d (ret a).
Proof. intros sys p. cbn. tauto. Qed.

Lemma confined_raise {A} (d : string) (e : exn) : confined d (@raise A e).
Proof. intros sys p. cbn. tauto. Qed.

Lemma confined_lift_res {A} (d : string) (r : res A) : confined d (lift_res r).
Proof. intros sys p. cbn. tauto. Qed.

Lemma confined_emit (d : string) (ev : event) : confined d (emit ev).
Proof. intros sys p. cbn. tauto. Qed.

Lemma confined_read_file (d p0 : string) : confined d (read_file p0).
Proof.
  intros sys p. unfold read_file. destruct (files (fs sys) !! p0); cbn; tauto.
Qed.

Lemma confined_mkdir (d p0 : string) : under d p0 = true -> confined d (mkdir p0).
Proof.
  intros Hu sys p. cbn. split; [|tauto].
  intros Hp. apply elem_of_union in Hp as [Hp|Hp]; [|left; exact Hp].
  apply elem_of_singleton in Hp. subst p. right. exact Hu.
Qed.

Lemma confined_write_file (d p0 c : string) : under d p0 = true -> confined d (write_file p0 c).
Proof.
  intros Hu sys p. cbn. split; [tauto|].
  intros Hp. destruct (decide (p0 = p)) as [<-|Hne]; [right; exact Hu|].
  rewrite lookup_insert_ne in Hp by exact Hne. left. exact Hp.
Qed.

Lemma confined_rmtree (d d0 : string) : confined d (rmtree d0).
Proof.
  intros sys p. unfold rmtree. destruct (bool_decide _); cbn [snd fs dirs files];
    [|tauto].
  split.
  - intros Hp. apply elem_of_filter in Hp. left. apply Hp.
  - intros [c Hp]. apply map_lookup_filter_Some in Hp. left. exists c. apply Hp.
Qed.

Lemma confined_mbind {A B} (d : string) (m : M A) (k : A -> M B) :
  confined d m -> (forall a, confined d (k a)) -> confined d (mbind m k).
Proof.
  intros Hm Hk sys p. unfold mbind. specialize (Hm sys p).
  destruct (m sys) as [[a|e] sys1]; cbn [snd] in *; [|exact Hm].
  specialize (Hk a sys1 p). tauto.
Qed.

Lemma confined_try_except {A} (d : string) (m : M A) (h : exn -> M A) :
  confined d m -> (forall e, confined d (h e)) -> confined d (try_except m h).
Proof.
  intros Hm Hh sys p. unfold try_except. specialize (Hm sys p).
  destruct (m sys) as [[a|e] sys1]; cbn [snd] in *; [exact Hm|].
  specialize (Hh e sys1 p). tauto.
Qed.

Lemma confined_finally_reraise {A B C} (d : string) (e : exn) (m : M A) (c : M B) :
  confined d m -> confined d c -> confined d (@finally_reraise A B C e m c).
Proof.
  intros Hm Hc sys p. unfold finally_reraise. specialize (Hm sys p).
  destruct (m sys) as [r sys1]. specialize (Hc sys1 p).
  destruct (c sys1) as [[b|e'] sys2]; cbn [snd] in *; tauto.
Qed.

Lemma confined_attempt {A} (d : string) (env : launch_env) (op : operation) (m : M A) :
  confined d m -> confined d (attempt env op m).
Proof.
  intros Hm. unfold attempt. destruct (fails env op); [apply confined_raise|exact Hm].
Qed.

Lemma confined_write_files (d d0 : string) (l : list (string * string)) :
  under d d0 = true -> confined d (write_files d0 l).
Proof.
  intros Hu. induction l as [|[f c] l IH]; cbn [write_files]; [apply confined_ret|].
  apply confined_mbind; [|intros _; exact IH].
  apply confined_write_file, under_join, Hu.
Qed.

Ltac confine :=
  repeat first
    [ apply confined_mbind; [|intros ?]
    | apply confined_try_except; [|intros ?]
    | apply confined_finally_reraise
    | apply confined_attempt
    | apply confined_ret | apply confined_raise | apply confined_lift_res
    | apply confined_emit | apply confined_read_file | apply confined_rmtree
    | apply confined_mkdir | apply confined_write_file | apply confined_write_files
    | apply under_join | apply under_self
    | match goal with |- confined _ (match ?x with _ => _ end) => destruct x end ].

Lemma confined_launch (env : launch_env) (tmpdir : string) :
  confined tmpdir (launch env tmpdir).
Proof. unfold launch, install_mod, get_server_log_path. confine. Qed.

Lemma confined_cleanup (env : launch_env) (tmpdir : string) (e : exn) :
  confined tmpdir (cleanup env tmpdir e).
Proof. unfold cleanup, debug_print_server_log. confine. Qed.

(** A failed launch leaves nothing behind: the files and directories
    after it are among those before it. *)
Lemma failed_launch_nothing_new (env : launch_env) (sys : system) (e : exn) :
  fst (_try_create_server env sys) = Raise e ->
  nothing_new sys (snd (_try_create_server env sys)).
Proof.
  rewrite _try_create_server_eq.
  destruct (fails env MakeTmpdir) as [e0|] eqn:Ef.
  - intros _ p. cbn [snd]. tauto.
  - pose proof (keeps_launch env (mkdtemp env) (made_tmpdir env sys)) as Hk.
    pose proof (confined_launch env (mkdtemp env) (made_tmpdir env sys)) as Hl.
    destruct (launch env (mkdtemp env) (made_tmpdir env sys)) as [[srv|e1] sys1];
      cbn [fst snd] in *; [discriminate|].
    intros _ p.
    assert (Hd : mkdtemp env ∈ dirs (fs sys1)).
    { apply Hk. cbn. apply elem_of_union_l, elem_of_singleton. reflexivity. }
    destruct (cleanup_spec env (mkdtemp env) e1 sys1 Hd) as ([Had Haf] & _).
    destruct (confined_cleanup env (mkdtemp env) e1 sys1 p) as [Hcd Hcf].
    destruct (Hl p) as [Hld Hlf]. split.
    + intros Hp. specialize (Had p Hp).
      destruct (Hcd Hp) as [Hp1|Hu]; [|congruence].
      destruct (Hld Hp1) as [Hp0|Hu]; [|congruence].
      cbn in Hp0. apply elem_of_union in Hp0 as [Hp0|Hp0]; [|exact Hp0].
      apply elem_of_singleton in Hp0. subst p. rewrite under_self in Had. discriminate.
    + intros Hp. specialize (Haf p Hp).
      destruct (Hcf Hp) as [Hp1|Hu]; [|congruence].
      destruct (Hlf Hp1) as [Hp0|Hu]; [|congruence]. exact Hp0.
Qed.

Lemma create_server_eq (env1 env2 : launch_env) (sys : system) :
  create_server env1 env2 sys =
  match _try_create_server env1 sys with
  | (Ok srv, sys1) => (Ok srv, sys1)
  | (Raise RCONAuthFailure, sys1) =>
      match _try_create_server env2 sys1 with
      | (Ok srv, sys2) => (Ok srv, sys2)
      | (Raise RCONAuthFailure, sys2) =>
          (Raise (PlainException
                    "Ran out of server launch attemps, this is bizarrely unlikely"), sys2)
      | (Raise e, sys2) => (Raise e, sys2)
      end
  | (Raise e, sys1) => (Raise e, sys1)
  end.
Proof.
  unfold create_server, try_except.
  destruct (_try_create_server env1 sys) as [[srv|e1] sys1]; [reflexivity|].
  destruct e1; try reflexivity.
  destruct (_try_create_server env2 sys1) as [[srv|e2] sys2]; [reflexivity|].
  destruct e2; reflexivity.
Qed.

Lemma failed_create_nothing_new (env1 env2 : launch_env) (sys : system) (e : exn) :
  fst (create_server env1 env2 sys) = Raise e ->
  nothing_new sys (snd (create_server env1 env2 sys)).
Proof.
  rewrite create_server_eq.
  pose proof (failed_launch_nothing_new env1 sys) as H1.
  destruct (_try_create_server env1 sys) as [[srv|e1] sys1]; cbn [fst snd] in *;
    [discriminate|].
  specialize (H1 e1 eq_refl).
  assert (Hsecond :
    forall e2, fst (_try_create_server env2 sys1) = Raise e2 ->
    nothing_new sys (snd (_try_create_server env2 sys1))).
  { intros e2 H2 p. pose proof (failed_launch_nothing_new env2 sys1 e2 H2 p) as Hp.
    specialize (H1 p). tauto. }
  destruct e1; try (intros _; exact H1).
  destruct (_try_create_server env2 sys1) as [[srv|e2] sys2]; cbn [fst snd] in *;
    [discriminate|].
  specialize (Hsecond e2 eq_refl).
  destruct e2; intros _; exact Hsecond.
Qed.

Lemma failed_launch_spec (env : launch_env) (sys : system) (e : exn) :
  fst (_try_create_server env sys) = Raise e ->
  (fails env MakeTmpdir = Some e /\ snd (_try_create_server env sys) = sys) \/
  (absent (mkdtemp env) (fs (snd (_try_create_server env sys))) /\
   exists evs,
     events (snd (_try_create_server env sys)) = evs ++ [Removed (mkdtemp env)] /\
     (PYTEST_CURRENT_TEST env = true ->
      fst (_try_create_server env sys) <> Raise FileNotFoundError ->
      exists evs', evs = evs' ++ [LogDumped (mkdtemp env)])).
Proof.
  rewrite _try_create_server_eq.
  destruct (fails env MakeTmpdir) as [e0|] eqn:Ef.
  - cbn [fst snd]. intros H. left. injection H as ->. split; reflexivity.
  - pose proof (keeps_launch env (mkdtemp env) (made_tmpdir env sys)) as Hk.
    destruct (launch env (mkdtemp env) (made_tmpdir env sys)) as [[srv|e1] sys1];
      cbn [fst snd] in *.
    + discriminate.
    + intros Hr. right.
      assert (Hd : mkdtemp env ∈ dirs (fs sys1)).
      { apply Hk. cbn. set_solver. }
      destruct (cleanup_spec env (mkdtemp env) e1 sys1 Hd) as (Ha & Hoff & Hlog & Hnolog).
      split; [exact Ha|].
      destruct (PYTEST_CURRENT_TEST env) eqn:Ep.
      * destruct (files (fs sys1) !! get_server_log_path (mkdtemp env)) as [c|] eqn:El.
        -- destruct (Hlog eq_refl ltac:(eauto)) as [_ He].
           exists (events sys1 ++ [LogDumped (mkdtemp env)]).
           rewrite He, <- app_assoc. split; [reflexivity|]. intros _ _. eauto.
        -- destruct (Hnolog eq_refl eq_refl) as [Hf He].
           exists (events sys1). split; [exact He|]. intros _ Hne. contradiction.
      * destruct (Hoff eq_refl) as [_ He]. exists (events sys1).
        split; [exact He|]. discriminate.
Qed.



(** *** Waiting for the save *)

Lemma readline_chars_prefix (l : list ascii) : exists r, l = readline_chars l ++ r.
Proof.
  induction l as [|a l [r IH]]; [exists []; reflexivity|].
  cbn [readline_chars]. destruct (nat_of_ascii a =? 10)%nat.
  - exists l. reflexivity.
  - exists r. cbn. rewrite <- IH. reflexivity.
Qed.

(** A line read at or after the end of [log0] is a part of what was
    added after [log0]. *)
Lemma readline_part (pos : nat) (log0 added : string) :
  (String.length log0 <= pos)%nat ->
  exists p q, added = p +:+ readline pos (log0 +:+ added) +:+ q.
Proof.
  intros Hpos. unfold readline. rewrite chars_append.
  rewrite drop_app_ge by (rewrite chars_length; exact Hpos).
  rewrite chars_length.
  set (m := (pos - String.length log0)%nat).
  destruct (readline_chars_prefix (drop m (list_ascii_of_string added))) as [r Hr].
  exists (string_of_list_ascii (take m (list_ascii_of_string added))),
         (string_of_list_ascii r).
  rewrite <- !string_of_app, <- Hr, take_drop.
  symmetry. apply string_of_list_ascii_of_string.
Qed.

Lemma wait_never_found (obs : list observation) (deadline : Z) (log0 : string) :
  forall (added : string) (pos : nat),
  (String.length log0 <= pos)%nat ->
  str_in "Saving finished" (added +:+ all_appended obs) = false ->
  wait_for_save obs deadline (log0 +:+ added) pos <> Found.
Proof.
  induction obs as [|o obs IH]; intros added pos Hpos Hno; [discriminate|].
  cbn [wait_for_save all_appended fold_right] in *.
  fold (all_appended obs) in Hno.
  destruct (now o <? deadline); [|discriminate].
  rewrite append_assoc. rewrite <- append_assoc in Hno.
  destruct ((String.length (readline pos (log0 +:+ added +:+ appended o)) =? 0)%nat
            || negb (endswith (readline pos (log0 +:+ added +:+ appended o)) newline)).
  - apply IH; assumption.
  - destruct (str_in "Saving finished" (readline pos (log0 +:+ added +:+ appended o)))
      eqn:Em.
    + exfalso.
      destruct (readline_part pos log0 (added +:+ appended o) Hpos) as (p & q & Hpq).
      pose proof (str_in_part _ p _ q Em) as Hin. rewrite <- Hpq in Hin.
      pose proof (str_in_append_r _ _ (all_appended obs) Hin) as Hall.
      rewrite Hall in Hno. discriminate Hno.
    + apply IH; [lia|assumption].
Qed.

Lemma wait_clock_ends (obs : list observation) (deadline : Z) :
  forall (log : string) (pos : nat),
  Exists (fun o => deadline <= now o) obs ->
  wait_for_save obs deadline log pos <> Unfinished.
Proof.
  induction obs as [|o obs IH]; intros log pos Hex; [inversion Hex|].
  cbn [wait_for_save].
  destruct (Z.ltb_spec (now o) deadline) as [Hlt|Hge]; [|discriminate].
  assert (Hex' : Exists (fun o => deadline <= now o) obs).
  { inversion Hex as [? ? Hh|? ? Ht]; subst; [lia|exact Ht]. }
  destruct (_ || _); [apply IH; exact Hex'|].
  destruct (str_in _ _); [discriminate|apply IH; exact Hex'].
Qed.


(** *** [save_world] *)

Section SavingFacts.
Context {S : Type} {rcon : Rcon S}.

Lemma save_world_eq (server : FactorioServer) (target_file : string) (env : save_env)
    (s s1 : S) (sys : system) (log reply : string) :
  files (fs sys) !! get_server_log_path (tmpdir server) = Some log ->
  send_command (save_command env) s = (Ok reply, s1) ->
  save_world server target_file env s sys =
  match wait_for_save (observations env) (time env + 10 * 1000) log (String.length log) with
  | Unfinished =>
      (Polling, s1, snd (engine_saves env (expected_out_path server env) sys))
  | TimedOut =>
      (Raised (PlainException
                 ("Timed out waiting for confirmation of saving finished for: "
                  +:+ expected_out_path server env)), s1,
       snd (engine_saves env (expected_out_path server env) sys))
  | Found =>
      match (copy_file_async (expected_out_path server env) target_file ;;>
             unlink (expected_out_path server env))
              (snd (engine_saves env (expected_out_path server env) sys)) with
      | (Ok _, sys') => (Returned, s1, sys')
      | (Raise e, sys') => (Raised e, s1, sys')
      end
  end.
Proof. intros Hl Hs. unfold save_world. rewrite Hl, Hs. reflexivity. Qed.

Lemma move_spec (src dst : string) (sys : system) (content : string) :
  files (fs sys) !! src = Some content -> src <> dst ->
  exists sys',
    (copy_file_async src dst ;;> unlink src) sys = (Ok tt, sys') /\
    files (fs sys') !! dst = Some content /\
    files (fs sys') !! src = None.
Proof.
  intros Hsrc Hne. unfold copy_file_async, mbind, mkdir, read_file.
  cbn [fs files]. rewrite Hsrc.
  destruct (String.eqb_spec src dst) as [E|_]; [contradiction|].
  unfold write_file, unlink. cbn [fs files].
  rewrite lookup_insert_ne by congruence. rewrite Hsrc.
  eexists. split; [reflexivity|]. cbn [fs files]. split.
  - rewrite lookup_delete_ne by exact Hne. apply lookup_insert_eq.
  - apply lookup_delete_eq.
Qed.

Lemma move_inv (src dst : string) (sys sys' : system) :
  (copy_file_async src dst ;;> unlink src) sys = (Ok tt, sys') ->
  src <> dst /\
  exists content,
    files (fs sys) !! src = Some content /\
    files (fs sys') !! dst = Some content /\
    files (fs sys') !! src = None.
Proof.
  unfold copy_file_async, mbind, mkdir, read_file. cbn [fs files].
  destruct (files (fs sys) !! src) as [content|] eqn:Hsrc; [|discriminate].
  destruct (String.eqb_spec src dst) as [E|Hne]; [discriminate|].
  intros H. split; [exact Hne|]. exists content. split; [reflexivity|].
  revert H. unfold write_file, unlink. cbn [fs files].
  rewrite lookup_insert_ne by congruence. rewrite Hsrc.
  intros H. injection H as <-. cbn [fs files]. split.
  - rewrite lookup_delete_ne by exact Hne. apply lookup_insert_eq.
  - apply lookup_delete_eq.
Qed.


End SavingFacts.



(** The marker that was in the log before the command is not taken for
    the answer; the save is found once the engine has written the whole
    line, and moved; a marker that comes after the deadline is late. *)
Example save_world_moves :
  fst (fst (save_world sample_server "/home/u/out.zip" sample_save
              (mk_script [Ok "ok"] []) sample_running)) = Returned /\
  files (fs (snd (save_world sample_server "/home/u/out.zip" sample_save
                    (mk_script [Ok "ok"] []) sample_running)))
    !! "/home/u/out.zip" = Some "PKsave" /\
  files (fs (snd (save_world sample_server "/home/u/out.zip" sample_save
                    (mk_script [Ok "ok"] []) sample_running)))
    !! expected_out_path sample_server sample_save = None.
Proof. vm_compute. repeat split. Qed.

Example save_world_late :
  exists msg,
    fst (fst (save_world sample_server "/home/u/out.zip" sample_stuck_save
                (mk_script [Ok "ok"] []) sample_running))
    = Raised (PlainException msg).
Proof. eexists. vm_compute. reflexivity. Qed.

(** *** Shutting down *)

(** X16. [FactorioServer.aclose].  The engine is killed whether or not
    closing the protocol client failed.  When the engine has already
    gone ([ProcessLookupError]) the error goes out, [delete_tmpdir] is
    cleared and nothing is removed.  When closing the protocol client
    fails, the engine is killed but not waited for, and the working
    directory stays although [delete_tmpdir] is still set.  In general
    the files are left as they were unless [aclose] returns and
    [delete_tmpdir] was set, in which case nothing of the working
    directory is left; under pytest a missing engine log makes [aclose]
    raise [FileNotFoundError] before it removes anything. *)
Theorem shutdown_outcomes (env : shutdown_env) (server : FactorioServer) (sys : system) :
  let r := fst (fst (aclose env server sys)) in
  let server' := snd (fst (aclose env server sys)) in
  let sys' := snd (aclose env server sys) in
  (kill_raises env = Some ProcessLookupError ->
   r = Raise ProcessLookupError /\ delete_tmpdir server' = false /\ sys' = sys) /\
  (kill_raises env = None ->
   exists evs, events sys' = events sys ++ Killed :: evs) /\
  (forall e, rcon_aclose_raises env = Some e -> kill_raises env = None ->
   r = Raise e /\ server' = server /\
   sys' = mk_system (fs sys) (events sys ++ [Killed])) /\
  (fs sys' = fs sys \/
   (r = Ok tt /\ delete_tmpdir server = true /\ absent (tmpdir server) (fs sys'))) /\
  (rcon_aclose_raises env = None -> kill_raises env = None -> wait_raises env = None ->
   delete_tmpdir server = true -> tmpdir server ∈ dirs (fs sys) ->
   (under_pytest env = false ->
    r = Ok tt /\ absent (tmpdir server) (fs sys') /\
    events sys' = events sys ++ [Killed; Waited; Removed (tmpdir server)]) /\
   (under_pytest env = true ->
    is_Some (files (fs sys) !! get_server_log_path (tmpdir server)) ->
    r = Ok tt /\ absent (tmpdir server) (fs sys') /\
    events sys' = events sys ++ [Killed; Waited; LogDumped (tmpdir server);
                                 Removed (tmpdir server)]) /\
   (under_pytest env = true ->
    files (fs sys) !! get_server_log_path (tmpdir server) = None ->
    r = Raise FileNotFoundError /\ fs sys' = fs sys /\
    events sys' = events sys ++ [Killed; Waited])).
Proof.
  cbv zeta. unfold aclose, try_finally, raise_if, mbind.
  split; [|split; [|split; [|split]]].
  - intros ->. destruct (rcon_aclose_raises env); cbn; repeat split.
  - intros ->. destruct (rcon_aclose_raises env) as [e|].
    + cbn. exists []. reflexivity.
    + cbn [ret raise emit fst snd].
      destruct (wait_raises env) as [e|]; cbn [raise emit fst snd].
      { exists []. reflexivity. }
      destruct (under_pytest env).
      * unfold debug_print_server_log, mbind, read_file. cbn [fs events].
        destruct (files (fs sys) !! get_server_log_path (tmpdir server)).
        -- cbn [emit fs events].
           destruct (delete_tmpdir server).
           ++ unfold rmtree. cbn [fs events]. destruct (bool_decide _); cbn [snd events].
              ** eexists. rewrite <- !app_assoc. reflexivity.
              ** eexists. rewrite <- !app_assoc. reflexivity.
           ++ cbn. eexists. rewrite <- !app_assoc. reflexivity.
        -- cbn. eexists. rewrite <- !app_assoc. reflexivity.
      * cbn [ret]. destruct (delete_tmpdir server).
        -- unfold rmtree. cbn [fs events]. destruct (bool_decide _); cbn [snd events].
           ++ eexists. rewrite <- !app_assoc. reflexivity.
           ++ eexists. rewrite <- !app_assoc. reflexivity.
        -- cbn. eexists. rewrite <- !app_assoc. reflexivity.
  - intros e -> ->. cbn. repeat split.
  - destruct (rcon_aclose_raises env) as [e0|].
    { destruct (kill_raises env) as [e1|]; cbn; [|left; reflexivity].
      destruct e1; left; reflexivity. }
    destruct (kill_raises env) as [e1|]; cbn [ret raise emit fst snd].
    { destruct e1; left; reflexivity. }
    destruct (wait_raises env) as [e2|]; cbn [raise emit fst snd]; [left; reflexivity|].
    assert (Hrm : forall sys2, fs sys2 = fs sys ->
              let out := (if delete_tmpdir server then rmtree (tmpdir server) else ret tt) sys2 in
              fs (snd out) = fs sys \/
              (fst out = Ok tt /\ delete_tmpdir server = true /\
               absent (tmpdir server) (fs (snd out)))).
    { intros sys2 Hfs. cbv zeta. destruct (delete_tmpdir server); [|left; exact Hfs].
      destruct (decide (tmpdir server ∈ dirs (fs sys2))) as [Hin|Hout].
      - right. destruct (rmtree_absent (tmpdir server) sys2 Hin) as (Hr & Ha & _).
        split; [exact Hr|]. split; [reflexivity|exact Ha].
      - left. unfold rmtree. rewrite bool_decide_eq_false_2 by exact Hout. exact Hfs. }
    destruct (under_pytest env).
    + unfold debug_print_server_log, mbind, read_file. cbn [fs].
      destruct (files (fs sys) !! get_server_log_path (tmpdir server)).
      * cbn [emit fs events].
        match goal with |- context [(if delete_tmpdir server then _ else _) ?s] =>
          specialize (Hrm s eq_refl); cbv zeta in Hrm;
          destruct ((if delete_tmpdir server then rmtree (tmpdir server) else ret tt) s)
            as [r2 sys3] end.
        exact Hrm.
      * left. reflexivity.
    + cbn [ret].
      match goal with |- context [(if delete_tmpdir server then _ else _) ?s] =>
        specialize (Hrm s eq_refl); cbv zeta in Hrm;
        destruct ((if delete_tmpdir server then rmtree (tmpdir server) else ret tt) s)
          as [r2 sys3] end.
      exact Hrm.
  - intros -> -> -> Hdel Hdir. cbn [ret raise emit fst snd]. rewrite Hdel.
    split; [|split].
    + intros ->. cbn [ret].
      match goal with |- context [rmtree _ ?s] =>
        destruct (rmtree_absent (tmpdir server) s Hdir) as (Hr & Ha & He);
        destruct (rmtree (tmpdir server) s) as [r2 sys3] end.
      cbn [fst snd] in *. split; [exact Hr|]. split; [exact Ha|].
      rewrite He. cbn [events]. rewrite <- !app_assoc. reflexivity.
    + intros -> [c Hc]. unfold debug_print_server_log, mbind, read_file. cbn [fs].
      rewrite Hc. cbn [emit fs events].
      match goal with |- context [rmtree _ ?s] =>
        destruct (rmtree_absent (tmpdir server) s Hdir) as (Hr & Ha & He);
        destruct (rmtree (tmpdir server) s) as [r2 sys3] end.
      cbn [fst snd] in *. split; [exact Hr|]. split; [exact Ha|].
      rewrite He. cbn [events]. rewrite <- !app_assoc. reflexivity.
    + intros -> Hno. unfold debug_print_server_log, mbind, read_file. cbn [fs].
      rewrite Hno. cbn [fst snd fs events]. rewrite <- !app_assoc. repeat split.
Qed.

Lemma shutdown_outcomes_witness :
  fst (fst (aclose sample_gone sample_server sample_running)) = Raise ProcessLookupError /\
  delete_tmpdir (snd (fst (aclose sample_gone sample_server sample_running))) = false /\
  snd (aclose sample_gone sample_server sample_running) = sample_running.
Proof.
  exact (proj1 (shutdown_outcomes sample_gone sample_server sample_running) eq_refl).
Defined.

(** *** Opening the protocol client *)

Lemma open_rcon_loop_returns (turns : list connect_turn) (deadline : Z) :
  forall (last_exception : option exn) (client : RCON.RCONClient) (h : RCON.event_loop)
         (c : RCON.RCONClient) (h' : RCON.event_loop),
  open_rcon_loop turns deadline last_exception client h = Some (Ok c, h') ->
  (last_exception = None /\ c = client /\ h' = h /\
   exists t turns', turns = t :: turns' /\ deadline <= clock t) \/
  (exists w, RCON._writer c = Some w /\ RCON._reader c = Some w /\
             RCON.closed <$> (RCON.connections h' !! w) = Some false /\
             RCON.in_flight c h' = ∅).
Proof.
  induction turns as [|t turns IH]; intros last client h c h' Hrun; [discriminate|].
  cbn [open_rcon_loop] in Hrun.
  destruct (Z.ltb_spec (clock t) deadline) as [Hlt|Hge].
  - destruct (refused t) as [e|] eqn:Eref.
    + rewrite RCONFacts.connect_refused in Hrun.
      destruct e; try discriminate Hrun.
      * destruct (IH _ _ _ _ _ Hrun) as [(Hl & _)|Hc]; [discriminate|right; exact Hc].
      * destruct (IH _ _ _ _ _ Hrun) as [(Hl & _)|Hc]; [discriminate|right; exact Hc].
    + pose proof (RCONFacts.connect_leaves_stream_open client (answer t) h) as Hopen.
      cbv zeta in Hopen.
      destruct (RCON.connect client None (answer t) h) as [[r c1] h1].
      cbn [fst snd] in Hopen.
      destruct r as [[]|e].
      * injection Hrun as <- <-. right. eexists. exact Hopen.
      * destruct e; try discriminate Hrun.
        -- destruct (IH _ _ _ _ _ Hrun) as [(Hl & _)|Hc]; [discriminate|right; exact Hc].
        -- destruct (IH _ _ _ _ _ Hrun) as [(Hl & _)|Hc]; [discriminate|right; exact Hc].
  - destruct last as [e|]; [discriminate|]. injection Hrun as <- <-.
    left. repeat split. exists t, turns. split; [reflexivity|exact Hge].
Qed.


Lemma open_rcon_loop_refused (failed : list connect_turn) (deadline : Z) :
  forall (last_exception : option exn) (client : RCON.RCONClient) (h : RCON.event_loop),
  Forall (fun t => clock t < deadline /\ refused t = Some ConnectionRefusedError) failed ->
  exists client' h',
    RCON.password client' = RCON.password client /\
    forall rest,
      open_rcon_loop (failed ++ rest) deadline last_exception client h =
      open_rcon_loop rest deadline
        (match failed with [] => last_exception | _ => Some ConnectionRefusedError end)
        client' h'.
Proof.
  induction failed as [|t failed IH]; intros last client h Hall.
  - exists client, h. split; reflexivity.
  - apply Forall_cons in Hall as [[Hlt Href] Hall].
    destruct (IH (Some ConnectionRefusedError) (fst (RCON.aclose client h))
                (snd (RCON.aclose client h)) Hall) as (c' & h' & Hpw & Hloop).
    exists c', h'. split.
    + rewrite Hpw, RCONFacts.aclose_client. reflexivity.
    + intros rest. cbn [app open_rcon_loop].
      destruct (Z.ltb_spec (clock t) deadline) as [_|Hge]; [|lia].
      rewrite Href, RCONFacts.connect_refused, Hloop.
      destruct failed; reflexivity.
Qed.




(** *** A launch leaves the rest of the file system alone *)

Lemma untouched_ret {A} (d : string) (a : A) : untouched_outside d (ret a).
Proof. intros sys p _. split; reflexivity. Qed.

Lemma untouched_raise {A} (d : string) (e : exn) : untouched_outside d (@raise A e).
Proof. intros sys p _. split; reflexivity. Qed.

Lemma untouched_lift_res {A} (d : string) (r : res A) : untouched_outside d (lift_res r).
Proof. intros sys p _. split; reflexivity. Qed.

Lemma untouched_emit (d : string) (ev : event) : untouched_outside d (emit ev).
Proof. intros sys p _. split; reflexivity. Qed.

Lemma untouched_read_file (d p0 : string) : untouched_outside d (read_file p0).
Proof.
  intros sys p _. unfold read_file. destruct (files (fs sys) !! p0); split; reflexivity.
Qed.

Lemma untouched_mkdir (d p0 : string) :
  under d p0 = true -> untouched_outside d (mkdir p0).
Proof.
  intros Hu sys p Hp. cbn. split; [|reflexivity].
  rewrite elem_of_union, elem_of_singleton. split; [|tauto].
  intros [->|H]; [congruence|exact H].
Qed.

Lemma untouched_write_file (d p0 c : string) :
  under d p0 = true -> untouched_outside d (write_file p0 c).
Proof.
  intros Hu sys p Hp. cbn. split; [reflexivity|].
  apply lookup_insert_ne. intros ->. congruence.
Qed.

Lemma untouched_rmtree (d : string) : untouched_outside d (rmtree d).
Proof.
  intros sys p Hp. unfold rmtree. destruct (bool_decide _); cbn [snd fs dirs files];
    [|split; reflexivity].
  split.
  - rewrite elem_of_filter. split; [intros [_ H]; exact H|]. intros H. split; assumption.
  - destruct (files (fs sys) !! p) as [c|] eqn:E.
    + apply map_lookup_filter_Some. split; assumption.
    + apply map_lookup_filter_None. left. exact E.
Qed.

Lemma untouched_mbind {A B} (d : string) (m : M A) (k : A -> M B) :
  untouched_outside d m -> (forall a, untouched_outside d (k a)) ->
  untouched_outside d (mbind m k).
Proof.
  intros Hm Hk sys p Hp. unfold mbind. specialize (Hm sys p Hp).
  destruct (m sys) as [[a|e] sys1]; cbn [snd] in *; [|exact Hm].
  destruct (Hk a sys1 p Hp) as [Hd Hf]. destruct Hm as [Hd0 Hf0].
  split; [rewrite Hd; exact Hd0|rewrite Hf; exact Hf0].
Qed.

Lemma untouched_try_except {A} (d : string) (m : M A) (h : exn -> M A) :
  untouched_outside d m -> (forall e, untouched_outside d (h e)) ->
  untouched_outside d (try_except m h).
Proof.
  intros Hm Hh sys p Hp. unfold try_except. specialize (Hm sys p Hp).
  destruct (m sys) as [[a|e] sys1]; cbn [snd] in *; [exact Hm|].
  destruct (Hh e sys1 p Hp) as [Hd Hf]. destruct Hm as [Hd0 Hf0].
  split; [rewrite Hd; exact Hd0|rewrite Hf; exact Hf0].
Qed.

Lemma untouched_finally_reraise {A B C} (d : string) (e : exn) (m : M A) (c : M B) :
  untouched_outside d m -> untouched_outside d c ->
  untouched_outside d (@finally_reraise A B C e m c).
Proof.
  intros Hm Hc sys p Hp. unfold finally_reraise. specialize (Hm sys p Hp).
  destruct (m sys) as [r sys1]. specialize (Hc sys1 p Hp).
  destruct (c sys1) as [[b|e'] sys2]; cbn [snd] in *;
    destruct Hm as [Hd0 Hf0]; destruct Hc as [Hd Hf];
    (split; [rewrite Hd; exact Hd0|rewrite Hf; exact Hf0]).
Qed.

Lemma untouched_attempt {A} (d : string) (env : launch_env) (op : operation) (m : M A) :
  untouched_outside d m -> untouched_outside d (attempt env op m).
Proof.
  intros Hm. unfold attempt. destruct (fails env op); [apply untouched_raise|exact Hm].
Qed.

Lemma untouched_write_files (d d0 : string) (l : list (string * string)) :
  under d d0 = true -> untouched_outside d (write_files d0 l).
Proof.
  intros Hu. induction l as [|[f c] l IH]; cbn [write_files]; [apply untouched_ret|].
  apply untouched_mbind; [|intros _; exact IH].
  apply untouched_write_file, under_join, Hu.
Qed.

Ltac untouch :=
  repeat first
    [ apply untouched_mbind; [|intros ?]
    | apply untouched_try_except; [|intros ?]
    | apply untouched_finally_reraise
    | apply untouched_attempt
    | apply untouched_ret | apply untouched_raise | apply untouched_lift_res
    | apply untouched_emit | apply untouched_read_file | apply untouched_rmtree
    | apply untouched_mkdir | apply untouched_write_file | apply untouched_write_files
    | apply under_join | apply under_self
    | match goal with |- untouched_outside _ (match ?x with _ => _ end) => destruct x end ].

Lemma untouched_launch (env : launch_env) (tmpdir : string) :
  untouched_outside tmpdir (launch env tmpdir).
Proof. unfold launch, install_mod, get_server_log_path. untouch. Qed.

Lemma untouched_cleanup (env : launch_env) (tmpdir : string) (e : exn) :
  untouched_outside tmpdir (cleanup env tmpdir e).
Proof. unfold cleanup, debug_print_server_log. untouch. Qed.

Lemma untouched_try_create_server (env : launch_env) :
  untouched_outside (mkdtemp env) (_try_create_server env).
Proof.
  intros sys p Hp. rewrite _try_create_server_eq.
  destruct (fails env MakeTmpdir) as [e0|]; [split; reflexivity|].
  assert (H0 : (p ∈ dirs (fs (made_tmpdir env sys)) <-> p ∈ dirs (fs sys)) /\
               files (fs (made_tmpdir env sys)) !! p = files (fs sys) !! p).
  { exact (untouched_mkdir (mkdtemp env) (mkdtemp env) (under_self _) sys p Hp). }
  pose proof (untouched_launch env (mkdtemp env) (made_tmpdir env sys) p Hp) as H1.
  destruct (launch env (mkdtemp env) (made_tmpdir env sys)) as [[srv|e1] sys1];
    cbn [snd] in *.
  - destruct H0 as [Hd0 Hf0]. destruct H1 as [Hd1 Hf1].
    split; [rewrite Hd1; exact Hd0|rewrite Hf1; exact Hf0].
  - destruct (untouched_cleanup env (mkdtemp env) e1 sys1 p Hp) as [Hd2 Hf2].
    destruct H0 as [Hd0 Hf0]. destruct H1 as [Hd1 Hf1].
    split; [rewrite Hd2, Hd1; exact Hd0|rewrite Hf2, Hf1; exact Hf0].
Qed.

(** X19. A launch leaves the rest of the file system alone.  Whether it
    succeeds or fails, [_try_create_server] neither makes, removes nor
    rewrites any file or directory outside the working directory that
    [mkdtemp] gave it; [create_server] with its two attempts leaves
    alone all that lies outside both working directories. *)
Theorem launch_leaves_the_rest_alone (env : launch_env) (sys : system) (p : string) :
  under (mkdtemp env) p = false ->
  ((p ∈ dirs (fs (snd (_try_create_server env sys))) <-> p ∈ dirs (fs sys)) /\
   files (fs (snd (_try_create_server env sys))) !! p = files (fs sys) !! p) /\
  (forall env2, under (mkdtemp env2) p = false ->
     (p ∈ dirs (fs (snd (create_server env env2 sys))) <-> p ∈ dirs (fs sys)) /\
     files (fs (snd (create_server env env2 sys))) !! p = files (fs sys) !! p).
Proof.
  intros Hp. pose proof (untouched_try_create_server env sys p Hp) as H1.
  split; [exact H1|]. intros env2 Hp2. rewrite create_server_eq.
  destruct (_try_create_server env sys) as [[srv|e1] sys1]; cbn [snd] in *;
    [exact H1|].
  pose proof (untouched_try_create_server env2 sys1 p Hp2) as H2.
  assert (Hboth :
    (p ∈ dirs (fs (snd (_try_create_server env2 sys1))) <-> p ∈ dirs (fs sys)) /\
    files (fs (snd (_try_create_server env2 sys1))) !! p = files (fs sys) !! p).
  { destruct H1 as [Hd1 Hf1]. destruct H2 as [Hd2 Hf2].
    split; [rewrite Hd2; exact Hd1|rewrite Hf2; exact Hf1]. }
  destruct e1; try exact H1.
  destruct (_try_create_server env2 sys1) as [[srv|e2] sys2]; cbn [snd] in *;
    [exact Hboth|].
  destruct e2; exact Hboth.
Qed.

Lemma launch_leaves_the_rest_alone_witness :
  files (fs (snd (_try_create_server sample_launch
                    (mk_system (mk_filesystem {[ "/etc/passwd" := "root" ]} ∅) []))))
    !! "/etc/passwd"
  = Some "root".
Proof.
  exact (proj2 (proj1 (launch_leaves_the_rest_alone sample_launch
                         (mk_system (mk_filesystem {[ "/etc/passwd" := "root" ]} ∅) [])
                         "/etc/passwd" eq_refl))).
Defined.

(** *** The engine process of a launch *)

Lemma write_files_spec (d : string) (l : list (string * string)) :
  forall sys, exists fm,
    write_files d l sys = (Ok tt, mk_system (mk_filesystem fm (dirs (fs sys))) (events sys)) /\
    (forall p, under d p = false -> fm !! p = files (fs sys) !! p) /\
    (forall p, is_Some (files (fs sys) !! p) -> is_Some (fm !! p)) /\
    (forall n c, (n, c) ∈ l -> is_Some (fm !! path_join d n)).
Proof.
  induction l as [|[n c] l IH]; intros sys.
  - exists (files (fs sys)). cbn [write_files ret]. destruct sys as [[f ds] evs].
    split; [reflexivity|]. split; [reflexivity|]. split; [tauto|].
    intros n c H. apply elem_of_nil in H. contradiction.
  - cbn [write_files]. unfold mbind. cbn [write_file].
    destruct (IH (mk_system (mk_filesystem (<[path_join d n := c]> (files (fs sys)))
                               (dirs (fs sys))) (events sys)))
      as (fm & Hrun & Hout & Hkeep & Hin).
    exists fm. cbn [fs files dirs events] in *. split; [exact Hrun|]. split; [|split].
    + intros p Hp. rewrite (Hout p Hp). apply lookup_insert_ne.
      intros <-. rewrite (under_join d d n (under_self d)) in Hp. discriminate.
    + intros p Hp. apply Hkeep. destruct (decide (path_join d n = p)) as [<-|Hne].
      * rewrite lookup_insert_eq. eauto.
      * rewrite lookup_insert_ne by exact Hne. exact Hp.
    + intros n' c' H. apply elem_of_cons in H as [H|H].
      * injection H as -> ->. apply Hkeep. rewrite lookup_insert_eq. eauto.
      * apply (Hin n' c' H).
Qed.

Lemma append_inj_l (t a b : string) : t +:+ a = t +:+ b -> a = b.
Proof.
  induction t as [|x t IH]; [rewrite !append_nil_l; tauto|].
  rewrite !append_cons. intros H. injection H as H. exact (IH H).
Qed.

Lemma eqb_append_l (t a b : string) : String.eqb (t +:+ a) (t +:+ b) = String.eqb a b.
Proof.
  induction t as [|x t IH]; [rewrite !append_nil_l; reflexivity|].
  rewrite !append_cons. cbn [String.eqb]. rewrite Ascii.eqb_refl. exact IH.
Qed.

Lemma prefix_append_l (t a b : string) :
  String.prefix (t +:+ a) (t +:+ b) = String.prefix a b.
Proof.
  induction t as [|x t IH]; [rewrite !append_nil_l; reflexivity|].
  rewrite !append_cons. cbn [String.prefix].
  destruct (ascii_dec x x); [exact IH|contradiction].
Qed.

Lemma under_append_l (t a b : string) : under (t +:+ a) (t +:+ b) = under a b.
Proof.
  unfold under. rewrite eqb_append_l, append_assoc, prefix_append_l. reflexivity.
Qed.

(** Paths below a common directory are told apart by what follows it. *)
Ltac paths :=
  unfold get_server_log_path, path_join; rewrite ?append_assoc;
  first
    [ rewrite under_append_l; reflexivity
    | let H := fresh in intros H; apply append_inj_l in H; discriminate H ].

(** The part of [launch] that follows the start of the engine. *)
Lemma launch_started (env : launch_env) (tmpdir : string) (sys : system) :
  fails env MakeSavesDir = None -> fails env WriteSave = None ->
  fails env WriteConfigIni = None -> fails env WriteServerSettings = None ->
  fails env InstallMod = None -> fails env UdpPort = None ->
  fails env TcpPort = None -> fails env OpenProcess = None ->
  exists fm,
    let started :=
      mk_system
        (mk_filesystem fm
           ({[ path_join (path_join tmpdir "mods") MOD_NAME ]}
            ∪ ({[ path_join tmpdir "mods" ]}
               ∪ ({[ path_join tmpdir "saves" ]} ∪ dirs (fs sys)))))
        (events sys ++ [Spawned (factorio_cmd env tmpdir) tmpdir]) in
    launch env tmpdir sys =
    try_except
      (attempt env OpenRcon (ret tt) ;;>
       cur_tick_str <~ attempt env QueryTick (ret (cur_tick_str env)) ;;
       initial_tick <~ lift_res (int cur_tick_str) ;;
       ret (mk_FactorioServer tmpdir (udp_port env) (tcp_port env)
              (World_init initial_tick) true))
      (fun e =>
         finally_reraise e
           (try_except
              (attempt env KillProcess (emit Killed) ;;>
               attempt env WaitProcess (emit Waited))
              (fun e' =>
                 match e' with
                 | ProcessLookupError => ret tt
                 | _ => raise e'
                 end))
           (ret tt)) started /\
    fm !! path_join (path_join tmpdir "saves") "save.zip" = Some (save_file_to_load env) /\
    fm !! path_join tmpdir "config.ini"
      = Some ("[path]" +:+ newline +:+ "read-data=__PATH__executable__/../../data"
              +:+ newline +:+ "write-data=" +:+ tmpdir +:+ newline) /\
    fm !! path_join tmpdir "server-settings.json" = Some (SERVER_SETTINGS_JSON env) /\
    (forall n c, (n, c) ∈ mod_files env ->
       is_Some (fm !! path_join (path_join (path_join tmpdir "mods") MOD_NAME) n)) /\
    (forall l, engine_log env = Some l -> fm !! get_server_log_path tmpdir = Some l).
Proof.
  intros H1 H2 H3 H4 H5 H6 H7 H8.
  unfold launch, install_mod, attempt.
  rewrite H1, H2, H3, H4, H5, H6, H7, H8.
  unfold mbind at 1. cbn [mkdir].
  unfold mbind at 1. cbn [write_file fs files dirs events].
  unfold mbind at 1. cbn [write_file fs files dirs events].
  unfold mbind at 1. cbn [write_file fs files dirs events].
  unfold mbind at 1. unfold mbind at 1. cbn [mkdir fs files dirs events].
  unfold mbind at 1. cbn [mkdir fs files dirs events].
  match goal with |- context [write_files ?d ?l ?s] =>
    destruct (write_files_spec d l s) as (fm & Hrun & Hout & Hkeep & Hin);
    rewrite Hrun end.
  cbn [fs files dirs events] in *.
  unfold mbind at 1. cbn [ret]. unfold mbind at 1. cbn [ret].
  unfold mbind at 1. unfold mbind at 1. cbn [emit fs events].
  fold (factorio_cmd env tmpdir).
  assert (Hsave : fm !! path_join (path_join tmpdir "saves") "save.zip"
                  = Some (save_file_to_load env)).
  { rewrite Hout by paths.
    rewrite !lookup_insert_ne by paths. apply lookup_insert_eq. }
  assert (Hini : fm !! path_join tmpdir "config.ini"
                 = Some ("[path]" +:+ newline +:+ "read-data=__PATH__executable__/../../data"
                         +:+ newline +:+ "write-data=" +:+ tmpdir +:+ newline)).
  { rewrite Hout by paths.
    rewrite lookup_insert_ne by paths. apply lookup_insert_eq. }
  assert (Hset : fm !! path_join tmpdir "server-settings.json"
                 = Some (SERVER_SETTINGS_JSON env)).
  { rewrite Hout by paths. apply lookup_insert_eq. }
  destruct (engine_log env) as [l|].
  - exists (<[get_server_log_path tmpdir := l]> fm). cbn [write_file fs files dirs events].
    split; [reflexivity|].
    rewrite !lookup_insert_ne by paths.
    split; [exact Hsave|]. split; [exact Hini|]. split; [exact Hset|]. split.
    + intros n c Hn. destruct (Hin n c Hn) as [c' Hc'].
      destruct (decide (get_server_log_path tmpdir
                        = path_join (path_join (path_join tmpdir "mods") MOD_NAME) n))
        as [<-|Hne].
      * rewrite lookup_insert_eq. eauto.
      * rewrite lookup_insert_ne by exact Hne. eauto.
    + intros l' Hl. injection Hl as <-. apply lookup_insert_eq.
  - exists fm. cbn [ret]. split; [reflexivity|].
    split; [exact Hsave|]. split; [exact Hini|]. split; [exact Hset|]. split.
    + exact Hin.
    + discriminate.
Qed.

Lemma launch_fails_early (env : launch_env) (tmpdir : string) (sys : system) :
  is_Some (fails env MakeSavesDir) \/ is_Some (fails env WriteSave) \/
  is_Some (fails env WriteConfigIni) \/ is_Some (fails env WriteServerSettings) \/
  is_Some (fails env InstallMod) \/ is_Some (fails env UdpPort) \/
  is_Some (fails env TcpPort) \/ is_Some (fails env OpenProcess) ->
  exists e sys1, launch env tmpdir sys = (Raise e, sys1) /\ events sys1 = events sys.
Proof.
  intros Hearly. unfold launch, install_mod, attempt.
  destruct (fails env MakeSavesDir) as [e|] eqn:E1; [eexists _, _; split; reflexivity|].
  unfold mbind at 1. cbn [mkdir].
  destruct (fails env WriteSave) as [e|] eqn:E2; [eexists _, _; split; reflexivity|].
  unfold mbind at 1. cbn [write_file fs files dirs events].
  destruct (fails env WriteConfigIni) as [e|] eqn:E3; [eexists _, _; split; reflexivity|].
  unfold mbind at 1. cbn [write_file fs files dirs events].
  destruct (fails env WriteServerSettings) as [e|] eqn:E4;
    [eexists _, _; split; reflexivity|].
  unfold mbind at 1. cbn [write_file fs files dirs events].
  destruct (fails env InstallMod) as [e|] eqn:E5; [eexists _, _; split; reflexivity|].
  unfold mbind at 1. unfold mbind at 1. cbn [mkdir fs files dirs events].
  unfold mbind at 1. cbn [mkdir fs files dirs events].
  match goal with |- context [write_files ?d ?l ?s] =>
    destruct (write_files_spec d l s) as (fm & Hrun & _); rewrite Hrun end.
  cbn [fs files dirs events].
  destruct (fails env UdpPort) as [e|] eqn:E6; [eexists _, _; split; reflexivity|].
  unfold mbind at 1. cbn [ret].
  destruct (fails env TcpPort) as [e|] eqn:E7; [eexists _, _; split; reflexivity|].
  unfold mbind at 1. cbn [ret].
  destruct (fails env OpenProcess) as [e|] eqn:E8; [eexists _, _; split; reflexivity|].
  exfalso.
  repeat match goal with
         | H : _ \/ _ |- _ => destruct H as [H|H]
         | H : is_Some None |- _ => destruct H as [? H]; discriminate H
         end.
Qed.

(** After the engine has started, [launch] either returns the server or
    kills the engine and raises. *)
Lemma launch_after_start (env : launch_env) (tmpdir : string) (sys : system) :
  fails env MakeSavesDir = None -> fails env WriteSave = None ->
  fails env WriteConfigIni = None -> fails env WriteServerSettings = None ->
  fails env InstallMod = None -> fails env UdpPort = None ->
  fails env TcpPort = None -> fails env OpenProcess = None ->
  exists fm,
    let started_dirs :=
      {[ path_join (path_join tmpdir "mods") MOD_NAME ]}
      ∪ ({[ path_join tmpdir "mods" ]}
         ∪ ({[ path_join tmpdir "saves" ]} ∪ dirs (fs sys))) in
    let started_events := events sys ++ [Spawned (factorio_cmd env tmpdir) tmpdir] in
    (fm !! path_join (path_join tmpdir "saves") "save.zip" = Some (save_file_to_load env) /\
     fm !! path_join tmpdir "config.ini"
       = Some ("[path]" +:+ newline +:+ "read-data=__PATH__executable__/../../data"
               +:+ newline +:+ "write-data=" +:+ tmpdir +:+ newline) /\
     fm !! path_join tmpdir "server-settings.json" = Some (SERVER_SETTINGS_JSON env) /\
     (forall n c, (n, c) ∈ mod_files env ->
        is_Some (fm !! path_join (path_join (path_join tmpdir "mods") MOD_NAME) n)) /\
     (forall l, engine_log env = Some l -> fm !! get_server_log_path tmpdir = Some l)) /\
    ((exists tick,
        fails env OpenRcon = None /\ fails env QueryTick = None /\
        int (cur_tick_str env) = Ok tick /\
        launch env tmpdir sys =
        (Ok (mk_FactorioServer tmpdir (udp_port env) (tcp_port env) (World_init tick) true),
         mk_system (mk_filesystem fm started_dirs) started_events)) \/
     (exists e,
        launch env tmpdir sys =
        (Raise e,
         mk_system (mk_filesystem fm started_dirs) (started_events ++ kill_events env)))).
Proof.
  intros H1 H2 H3 H4 H5 H6 H7 H8.
  destruct (launch_started env tmpdir sys H1 H2 H3 H4 H5 H6 H7 H8)
    as (fm & Hl & Hfiles).
  exists fm. cbv zeta in *. split; [exact Hfiles|]. rewrite Hl. clear Hl Hfiles.
  unfold try_except, attempt, mbind, finally_reraise, kill_events.
  destruct (fails env OpenRcon) as [e|].
  { right. cbn [raise].
    destruct (fails env KillProcess) as [[]|]; cbn [raise ret emit fs events];
      try (eexists; rewrite app_nil_r; reflexivity).
    destruct (fails env WaitProcess) as [[]|]; cbn [raise ret emit fs events];
      eexists; rewrite <- ?app_assoc; reflexivity. }
  cbn [ret].
  destruct (fails env QueryTick) as [e|].
  { right. cbn [raise].
    destruct (fails env KillProcess) as [[]|]; cbn [raise ret emit fs events];
      try (eexists; rewrite app_nil_r; reflexivity).
    destruct (fails env WaitProcess) as [[]|]; cbn [raise ret emit fs events];
      eexists; rewrite <- ?app_assoc; reflexivity. }
  cbn [ret]. unfold lift_res.
  destruct (int (cur_tick_str env)) as [tick|e].
  { left. exists tick. repeat split. }
  right.
  destruct (fails env KillProcess) as [[]|]; cbn [raise ret emit fs events];
    try (eexists; rewrite app_nil_r; reflexivity).
  destruct (fails env WaitProcess) as [[]|]; cbn [raise ret emit fs events];
    eexists; rewrite <- ?app_assoc; reflexivity.
Qed.



(** X21. The engine of a failed launch.  When [_try_create_server] raises,
    either a step before the start of the engine failed, and then no
    process was started and none is killed; or the engine was started,
    and then it is killed and waited for before the working directory
    is removed, the kill being left out only if [kill()] itself raises
    and the wait only if [wait()] does.  The events end with the removal
    of the working directory, preceded under pytest by the print of the
    log when there is one; if making the working directory failed there
    is no event at all. *)
Theorem failed_launch_kills_the_engine (env : launch_env) (sys : system) (e : exn) :
  fst (_try_create_server env sys) = Raise e ->
  let d := mkdtemp env in
  let before_start :=
    [MakeTmpdir; MakeSavesDir; WriteSave; WriteConfigIni; WriteServerSettings;
     InstallMod; UdpPort; TcpPort; OpenProcess] in
  let after := events (snd (_try_create_server env sys)) in
  exists tail,
    (tail = [] /\ is_Some (fails env MakeTmpdir) \/
     tail = [Removed d] /\ fails env MakeTmpdir = None \/
     tail = [LogDumped d; Removed d] /\ fails env MakeTmpdir = None /\
       PYTEST_CURRENT_TEST env = true) /\
    ((exists op, op ∈ before_start /\ is_Some (fails env op)) /\
     after = events sys ++ tail \/
     (forall op, op ∈ before_start -> fails env op = None) /\
     after = events sys ++ Spawned (factorio_cmd env d) d :: kill_events env ++ tail).
Proof.
  rewrite _try_create_server_eq. intros Hrun. cbv zeta.
  destruct (fails env MakeTmpdir) as [e0|] eqn:E0.
  { exists []. split; [left; split; [reflexivity|eauto]|]. left. split.
    - exists MakeTmpdir. split; [apply list_elem_of_here|]. rewrite E0. eauto.
    - cbn [snd]. symmetry. apply app_nil_r. }
  assert (Htail : forall e1 sys1,
            mkdtemp env ∈ dirs (fs sys1) ->
            exists tail,
              (tail = [Removed (mkdtemp env)] \/
               tail = [LogDumped (mkdtemp env); Removed (mkdtemp env)] /\
               PYTEST_CURRENT_TEST env = true) /\
              events (snd (cleanup env (mkdtemp env) e1 sys1)) = events sys1 ++ tail).
  { intros e1 sys1 Hd.
    destruct (cleanup_spec env (mkdtemp env) e1 sys1 Hd) as (_ & Hoff & Hlog & Hnolog).
    destruct (PYTEST_CURRENT_TEST env) eqn:Ep.
    - destruct (files (fs sys1) !! get_server_log_path (mkdtemp env)) as [c|] eqn:El.
      + destruct (Hlog eq_refl ltac:(eauto)) as [_ He].
        eexists. split; [right; split; reflexivity|exact He].
      + destruct (Hnolog eq_refl eq_refl) as [_ He].
        eexists. split; [left; reflexivity|exact He].
    - destruct (Hoff eq_refl) as [_ He].
      eexists. split; [left; reflexivity|exact He]. }
  pose proof (keeps_launch env (mkdtemp env) (made_tmpdir env sys)) as Hk.
  assert (Hd0 : mkdtemp env ∈ dirs (fs (made_tmpdir env sys)))
    by (cbn; apply elem_of_union_l, elem_of_singleton; reflexivity).
  destruct (decide (is_Some (fails env MakeSavesDir) \/ is_Some (fails env WriteSave) \/
                    is_Some (fails env WriteConfigIni) \/
                    is_Some (fails env WriteServerSettings) \/
                    is_Some (fails env InstallMod) \/ is_Some (fails env UdpPort) \/
                    is_Some (fails env TcpPort) \/ is_Some (fails env OpenProcess)))
    as [Hearly|Hnone].
  - destruct (launch_fails_early env (mkdtemp env) (made_tmpdir env sys) Hearly)
      as (e1 & sys1 & Hl & Hev).
    rewrite Hl in Hk, Hrun |- *. cbn [snd] in Hk.
    destruct (Htail e1 sys1 (Hk _ Hd0)) as (tail & Ht & He).
    exists tail. split.
    { destruct Ht as [->|[-> Hp]]; [right; left; split; reflexivity|].
      right; right. repeat split. exact Hp. }
    left. split.
    + destruct Hearly as [H|[H|[H|[H|[H|[H|[H|H]]]]]]];
        eexists; (split; [|exact H]);
        repeat first [apply list_elem_of_here | apply list_elem_of_further].
    + rewrite He, Hev. reflexivity.
  - assert (H1 : fails env MakeSavesDir = None)
      by (destruct (fails env MakeSavesDir); [exfalso; apply Hnone; eauto 10|reflexivity]).
    assert (H2 : fails env WriteSave = None)
      by (destruct (fails env WriteSave); [exfalso; apply Hnone; eauto 10|reflexivity]).
    assert (H3 : fails env WriteConfigIni = None)
      by (destruct (fails env WriteConfigIni); [exfalso; apply Hnone; eauto 10|reflexivity]).
    assert (H4 : fails env WriteServerSettings = None)
      by (destruct (fails env WriteServerSettings);
          [exfalso; apply Hnone; eauto 10|reflexivity]).
    assert (H5 : fails env InstallMod = None)
      by (destruct (fails env InstallMod); [exfalso; apply Hnone; eauto 10|reflexivity]).
    assert (H6 : fails env UdpPort = None)
      by (destruct (fails env UdpPort); [exfalso; apply Hnone; eauto 10|reflexivity]).
    assert (H7 : fails env TcpPort = None)
      by (destruct (fails env TcpPort); [exfalso; apply Hnone; eauto 10|reflexivity]).
    assert (H8 : fails env OpenProcess = None)
      by (destruct (fails env OpenProcess); [exfalso; apply Hnone; eauto 20|reflexivity]).
    destruct (launch_after_start env (mkdtemp env) (made_tmpdir env sys)
                H1 H2 H3 H4 H5 H6 H7 H8)
      as (fm & _ & [(tick & _ & _ & _ & Hl)|(e1 & Hl)]).
    { rewrite Hl in Hrun. discriminate Hrun. }
    cbv zeta in Hl. rewrite Hl in Hk, Hrun |- *. cbn [snd] in Hk.
    destruct (Htail e1 _ (Hk _ Hd0)) as (tail & Ht & He).
    exists tail. split.
    { destruct Ht as [->|[-> Hp]]; [right; left; split; reflexivity|].
      right; right. repeat split. exact Hp. }
    right. split.
    + intros op Hop. repeat (apply elem_of_cons in Hop as [->|Hop]; [assumption|]).
      apply elem_of_nil in Hop. contradiction.
    + rewrite He. cbn [events made_tmpdir]. rewrite <- !app_assoc. reflexivity.
Qed.

Lemma failed_launch_kills_the_engine_witness :
  let d := mkdtemp sample_launch in
  let before_start :=
    [MakeTmpdir; MakeSavesDir; WriteSave; WriteConfigIni; WriteServerSettings;
     InstallMod; UdpPort; TcpPort; OpenProcess] in
  let after := events (snd (_try_create_server sample_launch empty_system)) in
  exists tail,
    (tail = [] /\ is_Some (fails sample_launch MakeTmpdir) \/
     tail = [Removed d] /\ fails sample_launch MakeTmpdir = None \/
     tail = [LogDumped d; Removed d] /\ fails sample_launch MakeTmpdir = None /\
       PYTEST_CURRENT_TEST sample_launch = true) /\
    ((exists op, op ∈ before_start /\ is_Some (fails sample_launch op)) /\
     after = events empty_system ++ tail \/
     (forall op, op ∈ before_start -> fails sample_launch op = None) /\
     after = events empty_system
             ++ Spawned (factorio_cmd sample_launch d) d :: kill_events sample_launch ++ tail).
Proof.
  exact (failed_launch_kills_the_engine sample_launch empty_system RCONAuthFailure
           ltac:(vm_compute; reflexivity)).
Defined.

End ServerFacts.

(** ** The belt problem: encoding *)

Module EncodingFacts.
Import Py Encoding.

Local Open Scope string_scope.
Local Open Scope Z_scope.
Local Open Scope list_scope.

(** *** Entity codes *)

Lemma contains_spec {A} `{EqDecision A} (v : A) (l : list A) :
  contains v l = true <-> v ∈ l.
Proof. unfold contains. apply bool_decide_eq_true. Qed.

Lemma ENTITY_TYPES_inv (n : string) :
  n ∈ ENTITY_TYPES ->
  n = "fast-transport-belt" \/ n = "stone-wall" \/ n = "fle-void-fast-inserter"
  \/ n = "steel-chest".
Proof.
  unfold ENTITY_TYPES. intros H.
  repeat (apply elem_of_cons in H as [H|H]; [tauto|]).
  apply elem_of_nil in H. contradiction.
Qed.

Lemma DIRECTIONS_inv (d : World.direction) :
  d ∈ DIRECTIONS ->
  d = World.north \/ d = World.east \/ d = World.south \/ d = World.west.
Proof.
  unfold DIRECTIONS. intros H.
  repeat (apply elem_of_cons in H as [H|H]; [tauto|]).
  apply elem_of_nil in H. contradiction.
Qed.

Lemma encode_entity_inv (e : EntityNameAndDirection) (n : Z) :
  encode_entity e = Return n ->
  name e ∈ ENTITY_TYPES /\ direction e ∈ DIRECTIONS /\ 1 <= n <= 16 /\
  decode_entity n = Return (Some e).
Proof.
  destruct e as [nm d]. unfold encode_entity. cbn [name direction].
  destruct (contains nm ENTITY_TYPES) eqn:En; [|discriminate].
  destruct (contains d DIRECTIONS) eqn:Ed; [|discriminate].
  apply contains_spec in En. apply contains_spec in Ed.
  intros H. split; [exact En|]. split; [exact Ed|].
  destruct (ENTITY_TYPES_inv nm En) as [-> | [-> | [-> | ->]]];
    destruct (DIRECTIONS_inv d Ed) as [-> | [-> | [-> | ->]]];
    vm_compute in H; injection H as <-; (split; [lia|reflexivity]).
Qed.

Lemma encode_entity_ok (e : EntityNameAndDirection) :
  name e ∈ ENTITY_TYPES -> direction e ∈ DIRECTIONS ->
  exists n, encode_entity e = Return n.
Proof.
  destruct e as [nm d]. cbn [name direction]. intros En Ed.
  destruct (ENTITY_TYPES_inv nm En) as [-> | [-> | [-> | ->]]];
    destruct (DIRECTIONS_inv d Ed) as [-> | [-> | [-> | ->]]];
    eexists; vm_compute; reflexivity.
Qed.

Lemma decode_entity_code (n : Z) :
  1 <= n <= 16 ->
  exists e, decode_entity n = Return (Some e) /\ encode_entity e = Return n.
Proof.
  intros H.
  assert (Hn : n = 1 \/ n = 2 \/ n = 3 \/ n = 4 \/ n = 5 \/ n = 6 \/ n = 7 \/ n = 8 \/
               n = 9 \/ n = 10 \/ n = 11 \/ n = 12 \/ n = 13 \/ n = 14 \/ n = 15 \/
               n = 16) by lia.
  repeat (destruct Hn as [-> | Hn]; [eexists; split; reflexivity|]).
  subst n. eexists; split; reflexivity.
Qed.

(** X22. Entity codes.  [encode_entity] accepts exactly the four entity
    types in the four cardinal directions, and refuses anything else
    with an [AssertionError]; its codes are the integers from 1 to 16,
    each the code of one entity, and [decode_entity] gives back the
    entity encoded.  The bound that
    [get_max_encoded_observation_value_exclusive] returns is 16, the
    largest code itself. *)
Theorem entity_codes_round_trip :
  (forall e n,
     encode_entity e = Return n -> 1 <= n <= 16 /\ decode_entity n = Return (Some e)) /\
  (forall n,
     1 <= n <= 16 ->
     exists e, decode_entity n = Return (Some e) /\ encode_entity e = Return n) /\
  (forall e,
     (exists n, encode_entity e = Return n) <->
     name e ∈ ENTITY_TYPES /\ direction e ∈ DIRECTIONS) /\
  (forall e,
     ~ (name e ∈ ENTITY_TYPES /\ direction e ∈ DIRECTIONS) ->
     exists message, encode_entity e = Raises (AssertionError message)) /\
  get_max_encoded_observation_value_exclusive = Return 16.
Proof.
  split; [|split; [|split; [|split]]].
  - intros e n H. apply encode_entity_inv in H. tauto.
  - apply decode_entity_code.
  - intros e. split.
    + intros [n H]. apply encode_entity_inv in H. tauto.
    + intros [Hn Hd]. apply encode_entity_ok; assumption.
  - intros e Hno. unfold encode_entity.
    destruct (contains (name e) ENTITY_TYPES) eqn:En; [|eexists; reflexivity].
    destruct (contains (direction e) DIRECTIONS) eqn:Ed; [|eexists; reflexivity].
    apply contains_spec in En. apply contains_spec in Ed. tauto.
  - reflexivity.
Qed.

Lemma entity_codes_witness :
  decode_entity 13
  = Return (Some (mk_EntityNameAndDirection "steel-chest" World.north)).
Proof.
  refine (proj2 (proj1 entity_codes_round_trip
                   (mk_EntityNameAndDirection "steel-chest" World.north) 13 _)).
  reflexivity.
Defined.

Lemma decode_entity_eq (num : Z) :
  decode_entity num =
  if (num - 1) / 4 <? 4 then
    n <<- getitem ENTITY_TYPES ((num - 1) / 4) ;;
    d <<- getitem DIRECTIONS ((num - 1) mod 4) ;;
    Return (Some (mk_EntityNameAndDirection n d))
  else Return None.
Proof. reflexivity. Qed.

Lemma decode_entity_large (num : Z) : 17 <= num -> decode_entity num = Return None.
Proof.
  intros H. rewrite decode_entity_eq.
  replace ((num - 1) / 4 <? 4) with false; [reflexivity|].
  symmetry. apply Z.ltb_ge. Z.div_mod_to_equations. lia.
Qed.

(** X23. Numbers that are no codes.  [decode_entity] returns [None] from
    17 on.  Below 1 the indices go negative and count from the end of
    the lists: from -15 to 0 the number decodes as the code sixteen
    above it (0, the empty tile, as a steel chest facing west); below -15
    the lookup raises [IndexError]. *)
Theorem decode_entity_outside_codes (num : Z) :
  (17 <= num -> decode_entity num = Return None) /\
  (-15 <= num <= 0 ->
   decode_entity num = decode_entity (num + 16) /\
   exists e, decode_entity num = Return (Some e) /\ encode_entity e = Return (num + 16)) /\
  (num < -15 -> decode_entity num = Raises IndexError).
Proof.
  split; [|split].
  - apply decode_entity_large.
  - intros H.
    assert (Hn : num = -15 \/ num = -14 \/ num = -13 \/ num = -12 \/ num = -11 \/
                 num = -10 \/ num = -9 \/ num = -8 \/ num = -7 \/ num = -6 \/
                 num = -5 \/ num = -4 \/ num = -3 \/ num = -2 \/ num = -1 \/ num = 0)
      by lia.
    repeat (destruct Hn as [-> | Hn];
            [split; [reflexivity|eexists; split; reflexivity]|]).
    subst num. split; [reflexivity|eexists; split; reflexivity].
  - intros H. rewrite decode_entity_eq.
    assert (Hq : (num - 1) / 4 <= -5) by (Z.div_mod_to_equations; lia).
    replace ((num - 1) / 4 <? 4) with true by (symmetry; apply Z.ltb_lt; lia).
    unfold getitem at 1. change (Z.of_nat (length ENTITY_TYPES)) with 4.
    replace ((num - 1) / 4 <? 0) with true by (symmetry; apply Z.ltb_lt; lia).
    replace ((num - 1) / 4 + 4 <? 0) with true by (symmetry; apply Z.ltb_lt; lia).
    reflexivity.
Qed.

Lemma decode_entity_outside_codes_witness :
  decode_entity 0 = decode_entity 16 /\ decode_entity (-16) = Raises IndexError.
Proof.
  split.
  - apply (proj1 (proj1 (proj2 (decode_entity_outside_codes 0)) ltac:(lia))).
  - apply (proj2 (proj2 (decode_entity_outside_codes (-16)))). lia.
Defined.

(** *** [decode_action] *)

Lemma decode_entity_action (v : Z) :
  0 <= v ->
  (1 <= v <= 4 /\
   exists d, DIRECTIONS !! Z.to_nat (v - 1) = Some d /\
     decode_entity v = Return (Some (mk_EntityNameAndDirection "fast-transport-belt" d))) \/
  (~ 1 <= v <= 4 /\
   (decode_entity v = Return None \/
    exists nd, decode_entity v = Return (Some nd) /\
      String.eqb (name nd) "fast-transport-belt" = false)).
Proof.
  intros H. destruct (Z.le_gt_cases 17 v) as [Hbig|Hsmall].
  - right. split; [lia|]. left. apply decode_entity_large. exact Hbig.
  - assert (Hn : v = 0 \/ v = 1 \/ v = 2 \/ v = 3 \/ v = 4 \/ v = 5 \/ v = 6 \/ v = 7 \/
                 v = 8 \/ v = 9 \/ v = 10 \/ v = 11 \/ v = 12 \/ v = 13 \/ v = 14 \/
                 v = 15 \/ v = 16) by lia.
    destruct Hn as [-> | Hn];
      [right; split; [lia|]; right; eexists; split; reflexivity|].
    do 4 (destruct Hn as [-> | Hn];
          [left; split; [lia|]; eexists; split; reflexivity|]).
    repeat (destruct Hn as [-> | Hn];
            [right; split; [lia|]; right; eexists; split; reflexivity|]).
    subst v. right; split; [lia|]; right; eexists; split; reflexivity.
Qed.

Lemma decode_col_spec (x : Z) (col : list Z) :
  forall (y : Z) (acc : list World.CreateEntityParams),
  Forall (fun v => 0 <= v) col ->
  exists l,
    decode_col x y col acc = Return (acc ++ l) /\
    (forall p, p ∈ l <->
       exists (j : nat) v d,
         col !! j = Some v /\ 1 <= v <= 4 /\ DIRECTIONS !! Z.to_nat (v - 1) = Some d /\
         p = World.mk_CreateEntityParams "fast-transport-belt"
               (Some (World.mk_Position x (y + Z.of_nat j))) (Some d)
               (Some "player") "nauvis") /\
    NoDup (map World.position l).
Proof.
  induction col as [|v col IH]; intros y acc Hall.
  - exists []. cbn [decode_col]. rewrite app_nil_r. split; [reflexivity|]. split.
    + intros p. split; [intros Hp; apply elem_of_nil in Hp; contradiction|].
      intros (j & v & d & Hj & _). discriminate Hj.
    + constructor.
  - apply Forall_cons in Hall as [Hv Hall]. cbn [decode_col].
    assert (Hcell : exists c,
      (bind (decode_entity v) (fun name_and_direction =>
         decode_col x (y + 1) col
           match name_and_direction with
           | Some nd =>
               if String.eqb (name nd) "fast-transport-belt" then
                 acc ++ [World.mk_CreateEntityParams (name nd)
                           (Some (World.mk_Position x y)) (Some (direction nd))
                           (Some "player") "nauvis"]
               else acc
           | None => acc
           end) = decode_col x (y + 1) col (acc ++ c)) /\
      ((1 <= v <= 4 /\ exists d, DIRECTIONS !! Z.to_nat (v - 1) = Some d /\
          c = [World.mk_CreateEntityParams "fast-transport-belt"
                 (Some (World.mk_Position x y)) (Some d) (Some "player") "nauvis"]) \/
       (~ 1 <= v <= 4 /\ c = []))).
    { destruct (decode_entity_action v Hv) as [(Hr & d & Hd & He)|(Hr & [He|(nd & He & Hn)])].
      - eexists. split; [rewrite He; cbn [bind name direction]; reflexivity|].
        left. split; [exact Hr|]. exists d. split; [exact Hd|reflexivity].
      - exists []. rewrite app_nil_r. split; [rewrite He; reflexivity|].
        right. split; [exact Hr|reflexivity].
      - exists []. rewrite app_nil_r. split; [rewrite He; cbn [bind]; rewrite Hn; reflexivity|].
        right. split; [exact Hr|reflexivity]. }
    destruct Hcell as (c & Hstep & Hc). rewrite Hstep.
    destruct (IH (y + 1) (acc ++ c) Hall) as (l & Hl & Hmem & Hnd).
    exists (c ++ l). rewrite Hl, <- app_assoc. split; [reflexivity|]. split.
    + intros p. rewrite elem_of_app, Hmem. split.
      * intros [Hp|(j & v' & d & Hj & Hr & Hd & ->)].
        -- destruct Hc as [(Hr & d & Hd & ->)|(_ & ->)];
             [|apply elem_of_nil in Hp; contradiction].
           apply list_elem_of_singleton in Hp. subst p.
           exists 0%nat, v, d. rewrite Z.add_0_r. tauto.
        -- exists (S j), v', d. split; [exact Hj|]. split; [exact Hr|].
           split; [exact Hd|]. do 3 f_equal. lia.
      * intros (j & v' & d & Hj & Hr & Hd & ->). destruct j as [|j].
        -- left. cbn in Hj. injection Hj as ->.
           destruct Hc as [(_ & d' & Hd' & ->)|(Hno & _)]; [|contradiction].
           rewrite Hd in Hd'. injection Hd' as ->. rewrite Z.add_0_r.
           apply list_elem_of_singleton. reflexivity.
        -- right. exists j, v', d. split; [exact Hj|]. split; [exact Hr|].
           split; [exact Hd|]. do 3 f_equal. lia.
    + rewrite map_app. apply NoDup_app. split; [|split; [|exact Hnd]].
      * destruct Hc as [(_ & d & _ & ->)|(_ & ->)]; [apply NoDup_singleton|constructor].
      * intros pos Hpos Hin.
        destruct Hc as [(_ & d & _ & ->)|(_ & ->)];
          [|apply elem_of_nil in Hpos; contradiction].
        apply list_elem_of_singleton in Hpos. subst pos.
        apply list_elem_of_fmap in Hin as (p & Hp & Hin).
        apply Hmem in Hin as (j & v' & d' & _ & _ & _ & ->).
        cbn in Hp. injection Hp as Hp. lia.
Qed.

Lemma decode_rows_spec (dimension : Z) (matrix : ndarray) :
  forall (x : Z) (acc : list World.CreateEntityParams),
  Forall (Forall (fun v => 0 <= v)) matrix ->
  Forall (fun col => Z.of_nat (length col) = dimension) matrix ->
  exists l,
    decode_rows dimension x matrix acc = Return (acc ++ l) /\
    (forall p, p ∈ l <->
       exists (i j : nat) col v d,
         matrix !! i = Some col /\ col !! j = Some v /\ 1 <= v <= 4 /\
         DIRECTIONS !! Z.to_nat (v - 1) = Some d /\
         p = World.mk_CreateEntityParams "fast-transport-belt"
               (Some (World.mk_Position (x + Z.of_nat i) (Z.of_nat j))) (Some d)
               (Some "player") "nauvis") /\
    NoDup (map World.position l).
Proof.
  induction matrix as [|col matrix IH]; intros x acc Hall Hsq.
  - exists []. cbn [decode_rows]. rewrite app_nil_r. split; [reflexivity|]. split.
    + intros p. split; [intros Hp; apply elem_of_nil in Hp; contradiction|].
      intros (i & j & c & v & d & Hi & _). discriminate Hi.
    + constructor.
  - apply Forall_cons in Hall as [Hcol Hall]. apply Forall_cons in Hsq as [Hlen Hsq].
    cbn [decode_rows]. rewrite Hlen, Z.eqb_refl. cbn [negb].
    destruct (decode_col_spec x col 0 acc Hcol) as (c & Hc & Hcm & Hcn).
    rewrite Hc. cbn [bind].
    destruct (IH (x + 1) (acc ++ c) Hall Hsq) as (l & Hl & Hmem & Hnd).
    exists (c ++ l). rewrite Hl, <- app_assoc. split; [reflexivity|]. split.
    + intros p. rewrite elem_of_app, Hcm, Hmem. split.
      * intros [(j & v & d & Hj & Hr & Hd & ->)|(i & j & c' & v & d & Hi & Hj & Hr & Hd & ->)].
        -- exists 0%nat, j, col, v, d. rewrite Z.add_0_r. cbn. tauto.
        -- exists (S i), j, c', v, d. split; [exact Hi|]. split; [exact Hj|].
           split; [exact Hr|]. split; [exact Hd|]. do 3 f_equal. lia.
      * intros (i & j & c' & v & d & Hi & Hj & Hr & Hd & ->). destruct i as [|i].
        -- left. cbn in Hi. injection Hi as <-. exists j, v, d. rewrite Z.add_0_r. cbn. tauto.
        -- right. exists i, j, c', v, d. split; [exact Hi|]. split; [exact Hj|].
           split; [exact Hr|]. split; [exact Hd|]. do 3 f_equal. lia.
    + rewrite map_app. apply NoDup_app. split; [exact Hcn|]. split; [|exact Hnd].
      intros pos Hpos Hin.
      apply list_elem_of_fmap in Hpos as (p & Hp & Hpin).
      apply Hcm in Hpin as (j & v & d & _ & _ & _ & ->).
      apply list_elem_of_fmap in Hin as (p' & Hp' & Hin).
      apply Hmem in Hin as (i' & j' & c' & v' & d' & _ & _ & _ & _ & ->).
      cbn in Hp, Hp'. rewrite Hp in Hp'. injection Hp' as Hx _. lia.
Qed.

Lemma decode_action_spec (dimension : Z) (matrix : ndarray) :
  Forall (Forall (fun v => 0 <= v)) matrix ->
  (Z.of_nat (length matrix) = dimension /\
   Forall (fun col => Z.of_nat (length col) = dimension) matrix ->
   exists l,
     decode_action dimension matrix = Return l /\
     (forall p, p ∈ l <->
        exists (i j : nat) col v d,
          matrix !! i = Some col /\ col !! j = Some v /\ 1 <= v <= 4 /\
          DIRECTIONS !! Z.to_nat (v - 1) = Some d /\
          p = World.mk_CreateEntityParams "fast-transport-belt"
                (Some (World.mk_Position (Z.of_nat i) (Z.of_nat j))) (Some d)
                (Some "player") "nauvis") /\
     NoDup (map World.position l)) /\
  (~ (Z.of_nat (length matrix) = dimension /\
      Forall (fun col => Z.of_nat (length col) = dimension) matrix) ->
   decode_action dimension matrix = Raises (AssertionError EmptyString)).
Proof.
  intros Hall. split.
  - intros [Hlen Hsq]. unfold decode_action. rewrite Hlen, Z.eqb_refl. cbn [negb].
    destruct (decode_rows_spec dimension matrix 0 [] Hall Hsq) as (l & Hl & Hmem & Hnd).
    exists l. split; [exact Hl|]. split; [exact Hmem|exact Hnd].
  - intros Hno. unfold decode_action.
    destruct (Z.eqb_spec (Z.of_nat (length matrix)) dimension) as [Hlen|Hne];
      [|reflexivity].
    cbn [negb].
    assert (Hbad : ~ Forall (fun col => Z.of_nat (length col) = dimension) matrix) by tauto.
    clear Hno Hlen. generalize 0 at 1. generalize (@nil World.CreateEntityParams).
    induction matrix as [|col matrix IH]; intros acc x.
    + exfalso. apply Hbad. constructor.
    + apply Forall_cons in Hall as [Hcol Hall]. cbn [decode_rows].
      destruct (Z.eqb_spec (Z.of_nat (length col)) dimension) as [Hlen|Hne];
        [|reflexivity].
      cbn [negb]. destruct (decode_col_spec x col 0 acc Hcol) as (c & Hc & _).
      rewrite Hc. cbn [bind]. apply IH; [exact Hall|].
      intros Hf. apply Hbad. constructor; assumption.
Qed.

(** X24. [decode_action].  For a matrix of non-negative entries:
    the call succeeds exactly when the matrix is [dimension] by
    [dimension], and raises [AssertionError] otherwise; the entities
    returned are fast transport belts only, one for each entry from 1 to
    4, at the position given by the indices of the entry (row index as
    x), facing north, east, south or west in that order of the codes;
    every other entry asks for nothing, and no two of the entities
    share a position. *)
Theorem decode_action_belts (dimension : Z) (matrix : ndarray) :
  Forall (Forall (fun v => 0 <= v)) matrix ->
  (Z.of_nat (length matrix) = dimension /\
   Forall (fun col => Z.of_nat (length col) = dimension) matrix ->
   exists l,
     decode_action dimension matrix = Return l /\
     (forall p, p ∈ l <->
        exists (i j : nat) col v d,
          matrix !! i = Some col /\ col !! j = Some v /\ 1 <= v <= 4 /\
          DIRECTIONS !! Z.to_nat (v - 1) = Some d /\
          p = World.mk_CreateEntityParams "fast-transport-belt"
                (Some (World.mk_Position (Z.of_nat i) (Z.of_nat j))) (Some d)
                (Some "player") "nauvis") /\
     NoDup (map World.position l)) /\
  (~ (Z.of_nat (length matrix) = dimension /\
      Forall (fun col => Z.of_nat (length col) = dimension) matrix) ->
   decode_action dimension matrix = Raises (AssertionError EmptyString)).
Proof. exact (decode_action_spec dimension matrix). Qed.

Lemma decode_action_belts_witness :
  exists l,
    decode_action 3 sample_action = Return l /\ NoDup (map World.position l).
Proof.
  assert (Hall : Forall (Forall (fun v => 0 <= v)) sample_action).
  { unfold sample_action. repeat constructor; lia. }
  destruct (proj1 (decode_action_belts 3 sample_action Hall)) as (l & Hl & _ & Hnd).
  { split; [reflexivity|]. unfold sample_action. repeat constructor. }
  exists l. split; [exact Hl|exact Hnd].
Defined.

(** *** [encode_observation] *)

Lemma axis_index_inv (len : nat) (i : Z) (k : nat) :
  axis_index len i = Return k ->
  (k < len)%nat /\ Z.of_nat k = (if i <? 0 then i + Z.of_nat len else i).
Proof.
  unfold axis_index.
  set (j := if i <? 0 then i + Z.of_nat len else i).
  destruct (Z.leb_spec 0 j); destruct (Z.ltb_spec j (Z.of_nat len)); cbn [andb];
    try discriminate.
  intros Hk. injection Hk as <-. lia.
Qed.

Lemma lookup2_set (a : list (list Z)) (i j i' j' : nat) (row : list Z) (v : Z) :
  a !! i = Some row -> (j < length row)%nat ->
  (<[i := <[j := v]> row]> a) !! i' ≫= (.!! j')
  = if decide (i' = i /\ j' = j) then Some v else a !! i' ≫= (.!! j').
Proof.
  unfold ndarray in *.
  intros Hi Hj. pose proof (lookup_lt_Some _ _ _ Hi) as Hlt.
  destruct (decide (i' = i)) as [->|Hne].
  - rewrite list_lookup_insert_eq by exact Hlt. cbn [mbind option_bind]. rewrite Hi.
    cbn [mbind option_bind].
    destruct (decide (j' = j)) as [->|Hnj].
    + rewrite list_lookup_insert_eq by exact Hj.
      destruct (decide (i = i /\ j = j)); tauto.
    + rewrite list_lookup_insert_ne by congruence.
      destruct (decide (i = i /\ j' = j)); tauto.
  - rewrite list_lookup_insert_ne by congruence.
    destruct (decide (i' = i /\ j' = j)); tauto.
Qed.

Lemma setitem_shape (a : list (list Z)) (n m i j : nat) (row : list Z) (v : Z) :
  length a = n -> Forall (fun r => length r = m) a ->
  a !! i = Some row ->
  length (<[i := <[j := v]> row]> a) = n /\
  Forall (fun r => length r = m) (<[i := <[j := v]> row]> a).
Proof.
  unfold ndarray in *.
  intros Hn Hm Hi. split; [rewrite length_insert; exact Hn|].
  apply Forall_insert; [exact Hm|]. rewrite length_insert.
  rewrite Forall_forall in Hm. apply Hm.
  eapply list_elem_of_lookup_2. exact Hi.
Qed.

(** One turn of the loop on an entity of an encoded type. *)
Lemma encode_entities_step (entity : EntityDescription.t)
    (entities : list EntityDescription.t) (acc grid : list (list Z)) (n m : nat) :
  length acc = n -> Forall (fun r => length r = m) acc ->
  EntityDescription.name entity ∈ ENTITY_TYPES ->
  encode_entities (entity :: entities) acc = Return grid ->
  exists i j v row,
    axis_index n (floor (EntityDescription.x (EntityDescription.position entity)) + 2)
      = Return i /\
    axis_index m (floor (EntityDescription.y (EntityDescription.position entity)) + 2)
      = Return j /\
    encode_entity (mk_EntityNameAndDirection (EntityDescription.name entity)
                     (EntityDescription.direction entity)) = Return v /\
    acc !! i = Some row /\ row !! j = Some 0 /\
    encode_entities entities (<[i := <[j := v]> row]> acc) = Return grid.
Proof.
  intros Hn Hm Hname. cbn [encode_entities].
  apply contains_spec in Hname. rewrite Hname. cbn [negb].
  unfold getitem2, setitem2, ndarray. rewrite Hn.
  destruct (axis_index n _) as [i|] eqn:Ei; [|discriminate]. cbn [bind].
  destruct (acc !! i) as [row|] eqn:Er; [|discriminate].
  assert (Hrow : length row = m).
  { rewrite Forall_forall in Hm. apply Hm.
    eapply list_elem_of_lookup_2. exact Er. }
  rewrite Hrow.
  destruct (axis_index m _) as [j|] eqn:Ej; [|discriminate]. cbn [bind].
  destruct (row !! j) as [cur|] eqn:Ec; [|discriminate]. cbn [bind].
  destruct (Z.eqb_spec cur 0) as [->|]; cbn [negb]; [|discriminate].
  destruct (encode_entity _) as [v|] eqn:Ev; [|discriminate]. cbn [bind].
  intros H. exists i, j, v, row. tauto.
Qed.

Lemma encode_entities_spec (entities : list EntityDescription.t) :
  forall (acc grid : list (list Z)) (n m : nat),
  length acc = n -> Forall (fun r => length r = m) acc ->
  encode_entities entities acc = Return grid ->
  (length grid = n /\ Forall (fun r => length r = m) grid) /\
  (forall e, e ∈ entities -> EntityDescription.name e ∈ ENTITY_TYPES ->
     exists i j v,
       axis_index n (floor (EntityDescription.x (EntityDescription.position e)) + 2)
         = Return i /\
       axis_index m (floor (EntityDescription.y (EntityDescription.position e)) + 2)
         = Return j /\
       encode_entity (mk_EntityNameAndDirection (EntityDescription.name e)
                        (EntityDescription.direction e)) = Return v /\
       acc !! i ≫= (.!! j) = Some 0 /\
       grid !! i ≫= (.!! j) = Some v) /\
  (forall (k1 k2 : nat) e1 e2 i j,
     k1 <> k2 -> entities !! k1 = Some e1 -> entities !! k2 = Some e2 ->
     EntityDescription.name e1 ∈ ENTITY_TYPES -> EntityDescription.name e2 ∈ ENTITY_TYPES ->
     axis_index n (floor (EntityDescription.x (EntityDescription.position e1)) + 2)
       = Return i ->
     axis_index m (floor (EntityDescription.y (EntityDescription.position e1)) + 2)
       = Return j ->
     axis_index n (floor (EntityDescription.x (EntityDescription.position e2)) + 2)
       = Return i ->
     axis_index m (floor (EntityDescription.y (EntityDescription.position e2)) + 2)
       = Return j ->
     False) /\
  (forall i j v,
     grid !! i ≫= (.!! j) = Some v ->
     acc !! i ≫= (.!! j) = Some v \/
     exists e, e ∈ entities /\ EntityDescription.name e ∈ ENTITY_TYPES /\
       axis_index n (floor (EntityDescription.x (EntityDescription.position e)) + 2)
         = Return i /\
       axis_index m (floor (EntityDescription.y (EntityDescription.position e)) + 2)
         = Return j /\
       encode_entity (mk_EntityNameAndDirection (EntityDescription.name e)
                        (EntityDescription.direction e)) = Return v).
Proof.
  unfold ndarray.
  induction entities as [|entity entities IH]; intros acc grid n m Hn Hm Hrun.
  - cbn [encode_entities] in Hrun. injection Hrun as <-.
    split; [tauto|]. split; [|split].
    + intros e He. apply elem_of_nil in He. contradiction.
    + intros k1 k2 e1 e2 i j _ H1. discriminate H1.
    + intros i j v Hv. left. exact Hv.
  - destruct (decide (EntityDescription.name entity ∈ ENTITY_TYPES)) as [Hname|Hname].
    + destruct (encode_entities_step entity entities acc grid n m Hn Hm Hname Hrun)
        as (i0 & j0 & v0 & row & Hi0 & Hj0 & Hv0 & Hrow & Hcur & Hrest).
      assert (Hj0lt : (j0 < length row)%nat) by (eapply lookup_lt_Some; exact Hcur).
      destruct (setitem_shape acc n m i0 j0 row v0 Hn Hm Hrow) as [Hn' Hm'].
      destruct (IH _ grid n m Hn' Hm' Hrest) as (Hshape & Hent & Huniq & Horig).
      assert (Hv0pos : v0 <> 0) by (apply encode_entity_inv in Hv0; lia).
      assert (Hfree : forall e, e ∈ entities -> EntityDescription.name e ∈ ENTITY_TYPES ->
                axis_index n (floor (EntityDescription.x (EntityDescription.position e)) + 2)
                  = Return i0 ->
                axis_index m (floor (EntityDescription.y (EntityDescription.position e)) + 2)
                  = Return j0 -> False).
      { intros e He Hne Hi Hj.
        destruct (Hent e He Hne) as (i & j & v & Hi' & Hj' & _ & Hzero & _).
        rewrite Hi in Hi'. rewrite Hj in Hj'. injection Hi' as <-. injection Hj' as <-.
        rewrite (lookup2_set acc i0 j0 i0 j0 row v0 Hrow Hj0lt) in Hzero.
        destruct (decide (i0 = i0 /\ j0 = j0)); [congruence|tauto]. }
      assert (Hhead : grid !! i0 ≫= (.!! j0) = Some v0).
      { assert (Hlt : (i0 < length grid)%nat).
        { destruct Hshape as [-> _]. apply axis_index_inv in Hi0. lia. }
        destruct (lookup_lt_is_Some_2 grid i0 Hlt) as [r Hr].
        assert (Hrl : length r = m).
        { destruct Hshape as [_ Hf]. rewrite Forall_forall in Hf. apply Hf.
          eapply list_elem_of_lookup_2. exact Hr. }
        assert (Hjl : (j0 < length r)%nat).
        { rewrite Hrl. apply axis_index_inv in Hj0. lia. }
        destruct (lookup_lt_is_Some_2 r j0 Hjl) as [v Hv].
        assert (Hg : grid !! i0 ≫= (.!! j0) = Some v).
        { rewrite Hr. cbn. exact Hv. }
        destruct (Horig i0 j0 v Hg) as [Hacc|(e & He & Hne & Hi & Hj & _)].
        - rewrite (lookup2_set acc i0 j0 i0 j0 row v0 Hrow Hj0lt) in Hacc.
          destruct (decide (i0 = i0 /\ j0 = j0)); [congruence|tauto].
        - exfalso. apply (Hfree e He Hne Hi Hj). }
      split; [exact Hshape|]. split; [|split].
      * intros e He Hne. apply elem_of_cons in He as [->|He].
        -- exists i0, j0, v0. split; [exact Hi0|]. split; [exact Hj0|].
           split; [exact Hv0|]. split; [|exact Hhead]. rewrite Hrow. cbn. exact Hcur.
        -- destruct (Hent e He Hne) as (i & j & v & Hi & Hj & Hv & Hzero & Hg).
           exists i, j, v. split; [exact Hi|]. split; [exact Hj|]. split; [exact Hv|].
           split; [|exact Hg].
           rewrite (lookup2_set acc i0 j0 i j row v0 Hrow Hj0lt) in Hzero.
           destruct (decide (i = i0 /\ j = j0)); [congruence|exact Hzero].
      * intros k1 k2 e1 e2 i j Hk H1 H2 Hn1 Hn2 Hi1 Hj1 Hi2 Hj2.
        destruct k1 as [|k1]; destruct k2 as [|k2]; [congruence| | |].
        -- cbn in H1, H2. injection H1 as <-.
           rewrite Hi0 in Hi1. rewrite Hj0 in Hj1. injection Hi1 as <-. injection Hj1 as <-.
           apply (Hfree e2); [eapply list_elem_of_lookup_2; exact H2|assumption..].
        -- cbn in H1, H2. injection H2 as <-.
           rewrite Hi0 in Hi2. rewrite Hj0 in Hj2. injection Hi2 as <-. injection Hj2 as <-.
           apply (Hfree e1); [eapply list_elem_of_lookup_2; exact H1|assumption..].
        -- cbn in H1, H2. apply (Huniq k1 k2 e1 e2 i j); try assumption. congruence.
      * intros i j v Hv. destruct (Horig i j v Hv) as [Hacc|(e & He & Hrest')].
        -- rewrite (lookup2_set acc i0 j0 i j row v0 Hrow Hj0lt) in Hacc.
           destruct (decide (i = i0 /\ j = j0)) as [[-> ->]|_]; [|left; exact Hacc].
           injection Hacc as <-. right. exists entity.
           split; [apply list_elem_of_here|]. tauto.
        -- right. exists e. split; [apply list_elem_of_further; exact He|exact Hrest'].
    + assert (Hskip : encode_entities entities acc = Return grid).
      { cbn [encode_entities] in Hrun.
        destruct (contains (EntityDescription.name entity) ENTITY_TYPES) eqn:Ec;
          [apply contains_spec in Ec; contradiction|exact Hrun]. }
      destruct (IH acc grid n m Hn Hm Hskip) as (Hshape & Hent & Huniq & Horig).
      split; [exact Hshape|]. split; [|split].
      * intros e He Hne. apply elem_of_cons in He as [->|He]; [contradiction|].
        apply Hent; assumption.
      * intros k1 k2 e1 e2 i j Hk H1 H2 Hn1 Hn2.
        destruct k1 as [|k1]; [cbn in H1; injection H1 as <-; contradiction|].
        destruct k2 as [|k2]; [cbn in H2; injection H2 as <-; contradiction|].
        cbn in H1, H2. apply (Huniq k1 k2 e1 e2 i j); try assumption. congruence.
      * intros i j v Hv. destruct (Horig i j v Hv) as [Hacc|(e & He & Hrest')];
          [left; exact Hacc|].
        right. exists e. split; [apply list_elem_of_further; exact He|exact Hrest'].
Qed.

Lemma zeros_spec (n m : Z) (a : list (list Z)) :
  zeros n m = Return a ->
  0 <= n /\ 0 <= m /\ length a = Z.to_nat n /\
  Forall (fun r => length r = Z.to_nat m) a /\
  forall i j v, a !! i ≫= (.!! j) = Some v -> v = 0.
Proof.
  unfold zeros, ndarray in *. destruct (Z.ltb_spec n 0); [discriminate|].
  destruct (Z.ltb_spec m 0); [discriminate|]. cbn [orb]. intros Hz. injection Hz as <-.
  split; [lia|]. split; [lia|]. split; [apply length_replicate|]. split.
  - apply Forall_replicate. apply length_replicate.
  - intros i j v Hv. destruct (replicate (Z.to_nat n) _ !! i) as [r|] eqn:Er;
      [|discriminate Hv].
    apply lookup_replicate in Er as [-> _]. cbn in Hv.
    apply lookup_replicate in Hv as [-> _]. reflexivity.
Qed.

Lemma encode_observation_spec (dimension : Z)
    (entities : list EntityDescription.t) (grid : ndarray) :
  encode_observation dimension entities = Return grid ->
  let n := Z.to_nat (dimension + 4) in
  0 <= dimension + 4 /\
  length grid = n /\ Forall (fun r => length r = n) grid /\
  (forall e, e ∈ entities -> EntityDescription.name e ∈ ENTITY_TYPES ->
     exists i j v,
       axis_index n (floor (EntityDescription.x (EntityDescription.position e)) + 2)
         = Return i /\
       axis_index n (floor (EntityDescription.y (EntityDescription.position e)) + 2)
         = Return j /\
       encode_entity (mk_EntityNameAndDirection (EntityDescription.name e)
                        (EntityDescription.direction e)) = Return v /\
       grid !! i ≫= (.!! j) = Some v) /\
  (forall (k1 k2 : nat) e1 e2 i j,
     k1 <> k2 -> entities !! k1 = Some e1 -> entities !! k2 = Some e2 ->
     EntityDescription.name e1 ∈ ENTITY_TYPES -> EntityDescription.name e2 ∈ ENTITY_TYPES ->
     axis_index n (floor (EntityDescription.x (EntityDescription.position e1)) + 2)
       = Return i ->
     axis_index n (floor (EntityDescription.y (EntityDescription.position e1)) + 2)
       = Return j ->
     ~ (axis_index n (floor (EntityDescription.x (EntityDescription.position e2)) + 2)
          = Return i /\
        axis_index n (floor (EntityDescription.y (EntityDescription.position e2)) + 2)
          = Return j)) /\
  (forall i j v,
     grid !! i ≫= (.!! j) = Some v -> v <> 0 ->
     exists e, e ∈ entities /\ EntityDescription.name e ∈ ENTITY_TYPES /\
       axis_index n (floor (EntityDescription.x (EntityDescription.position e)) + 2)
         = Return i /\
       axis_index n (floor (EntityDescription.y (EntityDescription.position e)) + 2)
         = Return j /\
       encode_entity (mk_EntityNameAndDirection (EntityDescription.name e)
                        (EntityDescription.direction e)) = Return v).
Proof.
  intros H n. unfold encode_observation, ndarray in *.
  destruct (zeros (dimension + 4) (dimension + 4)) as [a|] eqn:Ez; [|discriminate H].
  cbn [bind] in H.
  destruct (zeros_spec _ _ _ Ez) as (Hpos & _ & Hlen & Hrows & Hzero).
  destruct (encode_entities_spec entities a grid n n Hlen Hrows H)
    as ((Hgl & Hgr) & Hent & Huniq & Horig).
  split; [exact Hpos|]. split; [exact Hgl|]. split; [exact Hgr|].
  split; [|split].
  - intros e He Hne. destruct (Hent e He Hne) as (i & j & v & Hi & Hj & Hv & _ & Hg).
    exists i, j, v. tauto.
  - intros k1 k2 e1 e2 i j Hk H1 H2 Hn1 Hn2 Hi1 Hj1 [Hi2 Hj2].
    apply (Huniq k1 k2 e1 e2 i j); assumption.
  - intros i j v Hv Hnz. destruct (Horig i j v Hv) as [Ha|He]; [|exact He].
    apply Hzero in Ha. contradiction.
Qed.

(** X25. [encode_observation].  When the call returns a grid: the grid
    is [dimension + 4] by [dimension + 4]; every entity of an encoded
    type stands in it with its code, at the cell that the floor of its
    position, moved by 2, indexes; two such entities never share a
    cell; and a cell that is not 0 holds the code of an entity of the
    list that sits there.  Entities of other types leave no trace. *)
Theorem encode_observation_cells (dimension : Z)
    (entities : list EntityDescription.t) (grid : ndarray) :
  encode_observation dimension entities = Return grid ->
  let n := Z.to_nat (dimension + 4) in
  0 <= dimension + 4 /\
  length grid = n /\ Forall (fun r => length r = n) grid /\
  (forall e, e ∈ entities -> EntityDescription.name e ∈ ENTITY_TYPES ->
     exists i j v,
       axis_index n (floor (EntityDescription.x (EntityDescription.position e)) + 2)
         = Return i /\
       axis_index n (floor (EntityDescription.y (EntityDescription.position e)) + 2)
         = Return j /\
       encode_entity (mk_EntityNameAndDirection (EntityDescription.name e)
                        (EntityDescription.direction e)) = Return v /\
       grid !! i ≫= (.!! j) = Some v) /\
  (forall (k1 k2 : nat) e1 e2 i j,
     k1 <> k2 -> entities !! k1 = Some e1 -> entities !! k2 = Some e2 ->
     EntityDescription.name e1 ∈ ENTITY_TYPES -> EntityDescription.name e2 ∈ ENTITY_TYPES ->
     axis_index n (floor (EntityDescription.x (EntityDescription.position e1)) + 2)
       = Return i ->
     axis_index n (floor (EntityDescription.y (EntityDescription.position e1)) + 2)
       = Return j ->
     ~ (axis_index n (floor (EntityDescription.x (EntityDescription.position e2)) + 2)
          = Return i /\
        axis_index n (floor (EntityDescription.y (EntityDescription.position e2)) + 2)
          = Return j)) /\
  (forall i j v,
     grid !! i ≫= (.!! j) = Some v -> v <> 0 ->
     exists e, e ∈ entities /\ EntityDescription.name e ∈ ENTITY_TYPES /\
       axis_index n (floor (EntityDescription.x (EntityDescription.position e)) + 2)
         = Return i /\
       axis_index n (floor (EntityDescription.y (EntityDescription.position e)) + 2)
         = Return j /\
       encode_entity (mk_EntityNameAndDirection (EntityDescription.name e)
                        (EntityDescription.direction e)) = Return v).
Proof. exact (encode_observation_spec dimension entities grid). Qed.

Lemma encode_observation_cells_witness :
  exists grid, encode_observation 3 sample_belts = Return grid /\ length grid = 7%nat.
Proof.
  eexists. split; [reflexivity|].
  apply (proj1 (proj2 (encode_observation_cells 3 sample_belts _ eq_refl))).
Defined.

(** *** An action and its observation *)

Lemma belt_code (v : Z) (d : World.direction) :
  1 <= v <= 4 -> DIRECTIONS !! Z.to_nat (v - 1) = Some d ->
  encode_entity (mk_EntityNameAndDirection "fast-transport-belt" d) = Return v.
Proof.
  intros Hv Hd.
  assert (Hn : v = 1 \/ v = 2 \/ v = 3 \/ v = 4) by lia.
  destruct Hn as [-> | [-> | [-> | ->]]]; cbn in Hd; injection Hd as <-; reflexivity.
Qed.

(** X26. An action seen again in the observation.  When the world holds
    the belts that [decode_action] asks for (each reported somewhere
    inside its tile), the observation shows at cell [(i + 2, j + 2)] the
    entry [(i, j)] of the action matrix, for every entry from 1 to 4: the
    two encodings agree, the observation being the action framed by
    two tiles on each side. *)
Theorem observation_shows_action (dimension : Z) (matrix : ndarray)
    (params : list World.CreateEntityParams) (entities : list EntityDescription.t)
    (grid : ndarray) :
  Forall (Forall (fun v => 0 <= v)) matrix ->
  decode_action dimension matrix = Return params ->
  encode_observation dimension entities = Return grid ->
  (forall p, p ∈ params ->
     exists e, e ∈ entities /\
       EntityDescription.name e = World.name p /\
       Some (EntityDescription.direction e) = World.direction_ p /\
       Some (World.mk_Position
               (floor (EntityDescription.x (EntityDescription.position e)))
               (floor (EntityDescription.y (EntityDescription.position e))))
       = World.position p) ->
  forall (i j : nat) col v,
    matrix !! i = Some col -> col !! j = Some v -> 1 <= v <= 4 ->
    grid !! (i + 2)%nat ≫= (.!! (j + 2)%nat) = Some v.
Proof.
  intros Hall Hdec Henc Hworld i j col v Hi Hj Hv.
  pose proof (decode_action_spec dimension matrix Hall) as [Hok Hbad].
  destruct (decide (Z.of_nat (length matrix) = dimension /\
                    Forall (fun col => Z.of_nat (length col) = dimension) matrix))
    as [Hsq|Hnsq]; [|rewrite (Hbad Hnsq) in Hdec; discriminate Hdec].
  destruct (Hok Hsq) as (l & Hl & Hmem & _). rewrite Hl in Hdec. injection Hdec as ->.
  assert (Hd : exists d, DIRECTIONS !! Z.to_nat (v - 1) = Some d).
  { apply lookup_lt_is_Some_2. cbn. lia. }
  destruct Hd as [d Hd].
  destruct (Hworld (World.mk_CreateEntityParams "fast-transport-belt"
                      (Some (World.mk_Position (Z.of_nat i) (Z.of_nat j))) (Some d)
                      (Some "player") "nauvis"))
    as (e & He & Hname & Hdir & Hpos).
  { apply Hmem. exists i, j, col, v, d. tauto. }
  cbn in Hname, Hdir, Hpos. injection Hdir as Hdir. injection Hpos as Hx Hy.
  destruct (encode_observation_spec dimension entities grid Henc)
    as (_ & _ & _ & Hent & _).
  destruct (Hent e He) as (i' & j' & v' & Hi' & Hj' & Hv' & Hg).
  { rewrite Hname. unfold ENTITY_TYPES. apply list_elem_of_here. }
  rewrite Hname, Hdir, (belt_code v d Hv Hd) in Hv'. injection Hv' as <-.
  rewrite Hx in Hi'. rewrite Hy in Hj'.
  apply axis_index_inv in Hi' as [_ Hi']. apply axis_index_inv in Hj' as [_ Hj'].
  destruct (Z.ltb_spec (Z.of_nat i + 2) 0); [lia|].
  destruct (Z.ltb_spec (Z.of_nat j + 2) 0); [lia|].
  replace (i + 2)%nat with i' by lia. replace (j + 2)%nat with j' by lia. exact Hg.
Qed.

Lemma observation_shows_action_witness :
  exists grid,
    encode_observation 3 sample_belts = Return grid /\
    grid !! 2%nat ≫= (.!! 2%nat) = Some 4.
Proof.
  eexists. split; [reflexivity|].
  assert (Hall : Forall (Forall (fun v => 0 <= v)) sample_action).
  { unfold sample_action. repeat constructor; lia. }
  refine (observation_shows_action 3 sample_action _ sample_belts _ Hall eq_refl eq_refl
            _ 0%nat 0%nat [4; 0; 0] 4 eq_refl eq_refl ltac:(lia)).
  intros p Hp. cbn in Hp.
  repeat (apply elem_of_cons in Hp as [-> | Hp];
          [first
             [solve [eexists; split;
                     [apply list_elem_of_here|vm_compute; repeat split]]
             |solve [eexists; split;
                     [apply list_elem_of_further, list_elem_of_further, list_elem_of_here
                     |vm_compute; repeat split]]
             |solve [eexists; split;
                     [apply list_elem_of_further, list_elem_of_further,
                            list_elem_of_further, list_elem_of_here
                     |vm_compute; repeat split]]]|]).
  apply elem_of_nil in Hp. contradiction.
Defined.

End EncodingFacts.

(** ** The belt problem: generation *)

Module ProblemsFacts.
Import Py World Problems.

Local Open Scope string_scope.
Local Open Scope Z_scope.
Local Open Scope list_scope.

(** *** The outer edge *)

Lemma linear_to_outer_edge_pos_spec (dimension i : Z) (for_input : bool) :
  0 <= i < dimension * 4 ->
  exists o, 0 <= o < dimension /\
    (linear_to_outer_edge_pos dimension for_input i
     = Return (mk_Transform (mk_Position (-1) o) (if for_input then west else east)) \/
     linear_to_outer_edge_pos dimension for_input i
     = Return (mk_Transform (mk_Position dimension o) (if for_input then east else west)) \/
     linear_to_outer_edge_pos dimension for_input i
     = Return (mk_Transform (mk_Position o (-1)) (if for_input then north else south)) \/
     linear_to_outer_edge_pos dimension for_input i
     = Return (mk_Transform (mk_Position o dimension) (if for_input then south else north))).
Proof.
  intros Hi. exists (i / 4). split; [Z.div_mod_to_equations; lia|].
  unfold linear_to_outer_edge_pos.
  assert (He : i mod 4 = 0 \/ i mod 4 = 1 \/ i mod 4 = 2 \/ i mod 4 = 3)
    by (Z.div_mod_to_equations; lia).
  destruct He as [-> | [-> | [-> | ->]]]; destruct for_input; cbn; tauto.
Qed.

(** X27. Inserters, chests and mouths.  For every index that
    [randrange(dimension * 4)] can return, the inserter stands on the
    ring of tiles just outside the grid, not on a corner; its chest, as
    [get_input_chest_pos] and [get_output_chest_pos] compute it, stands
    one tile further out at the same offset, inside the two-tile border
    that [create_world] builds; and the tile on its other side, which
    [generate_problem] keeps free of walls, is inside the grid. *)
Theorem inserters_chests_and_mouths (dimension i k : Z) (walls : list Position) :
  0 <= i < dimension * 4 -> 0 <= k < dimension * 4 ->
  exists tin tout,
    linear_to_outer_edge_pos dimension true i = Return tin /\
    linear_to_outer_edge_pos dimension false k = Return tout /\
    (exists o, 0 <= o < dimension /\
       let chest := get_input_chest_pos (Problem_init dimension tin tout walls) in
       let mouth := offset_pos (position tin) (direction tin) (-1) in
       (position tin = mk_Position (-1) o /\ chest = mk_Position (-2) o /\
        mouth = mk_Position 0 o) \/
       (position tin = mk_Position dimension o /\ chest = mk_Position (dimension + 1) o /\
        mouth = mk_Position (dimension - 1) o) \/
       (position tin = mk_Position o (-1) /\ chest = mk_Position o (-2) /\
        mouth = mk_Position o 0) \/
       (position tin = mk_Position o dimension /\ chest = mk_Position o (dimension + 1) /\
        mouth = mk_Position o (dimension - 1))) /\
    (exists o, 0 <= o < dimension /\
       let chest := get_output_chest_pos (Problem_init dimension tin tout walls) in
       let mouth := offset_pos (position tout) (direction tout) 1 in
       (position tout = mk_Position (-1) o /\ chest = mk_Position (-2) o /\
        mouth = mk_Position 0 o) \/
       (position tout = mk_Position dimension o /\ chest = mk_Position (dimension + 1) o /\
        mouth = mk_Position (dimension - 1) o) \/
       (position tout = mk_Position o (-1) /\ chest = mk_Position o (-2) /\
        mouth = mk_Position o 0) \/
       (position tout = mk_Position o dimension /\ chest = mk_Position o (dimension + 1) /\
        mouth = mk_Position o (dimension - 1))).
Proof.
  intros Hi Hk.
  destruct (linear_to_outer_edge_pos_spec dimension i true Hi) as (o & Ho & Hin).
  destruct (linear_to_outer_edge_pos_spec dimension k false Hk) as (o' & Ho' & Hout).
  assert (Htin : exists tin, linear_to_outer_edge_pos dimension true i = Return tin)
    by (destruct Hin as [H|[H|[H|H]]]; eexists; exact H).
  assert (Htout : exists tout, linear_to_outer_edge_pos dimension false k = Return tout)
    by (destruct Hout as [H|[H|[H|H]]]; eexists; exact H).
  destruct Htin as [tin Htin]. destruct Htout as [tout Htout].
  exists tin, tout. split; [exact Htin|]. split; [exact Htout|]. split.
  - exists o. split; [exact Ho|].
    unfold get_input_chest_pos, Problem_init, offset_pos. cbn [input_location].
    rewrite Htin in Hin.
    destruct Hin as [H|[H|[H|H]]]; injection H as ->; cbn;
      [left|right; left|right; right; left|right; right; right];
      repeat split; f_equal; lia.
  - exists o'. split; [exact Ho'|].
    unfold get_output_chest_pos, Problem_init, offset_pos. cbn [output_location].
    rewrite Htout in Hout.
    destruct Hout as [H|[H|[H|H]]]; injection H as ->; cbn;
      [left|right; left|right; right; left|right; right; right];
      repeat split; f_equal; lia.
Qed.

Lemma inserters_chests_and_mouths_witness :
  exists tin tout,
    linear_to_outer_edge_pos 3 true 4 = Return tin /\
    linear_to_outer_edge_pos 3 false 5 = Return tout.
Proof.
  destruct (inserters_chests_and_mouths 3 4 5 [] ltac:(lia) ltac:(lia))
    as (tin & tout & Hin & Hout & _).
  exists tin, tout. split; [exact Hin|exact Hout].
Defined.

(** *** [generate_problem] *)

Lemma randrange_inv (n v : Z) (draws rest : list Z) :
  randrange n draws = Some (Return v, rest) ->
  0 < n /\ 0 <= v < n /\ (length rest < length draws)%nat.
Proof.
  unfold randrange. destruct (Z.leb_spec n 0) as [|Hn]; [discriminate|].
  destruct draws as [|d draws]; [discriminate|]. intros H. injection H as <- <-.
  split; [exact Hn|]. split; [apply Z.mod_pos_bound; exact Hn|]. cbn. lia.
Qed.

Lemma rand_bind_inv {A B} (m : Rand A) (k : A -> Rand B) (draws rest : list Z) (b : B) :
  rand_bind m k draws = Some (Return b, rest) ->
  exists a mid, m draws = Some (Return a, mid) /\ k a mid = Some (Return b, rest).
Proof.
  unfold rand_bind. destruct (m draws) as [[[a|e] mid]|]; try discriminate.
  intros H. exists a, mid. split; [reflexivity|exact H].
Qed.

Lemma random_outer_edge_pos_inv (dimension : Z) (for_input : bool)
    (draws rest : list Z) (t : Transform) :
  random_outer_edge_pos dimension for_input draws = Some (Return t, rest) ->
  exists i, 0 <= i < dimension * 4 /\
    linear_to_outer_edge_pos dimension for_input i = Return t.
Proof.
  unfold random_outer_edge_pos. intros H.
  apply rand_bind_inv in H as (i & mid & Hr & Hl).
  apply randrange_inv in Hr as (_ & Hi & _).
  unfold rand_lift in Hl. injection Hl as Hl _. exists i. split; [exact Hi|exact Hl].
Qed.

Lemma redraw_output_inv (fuel : nat) (dimension : Z) (input_location : Transform) :
  forall (output_location t : Transform) (draws rest : list Z),
  redraw_output fuel dimension input_location output_location draws = Some (Return t, rest) ->
  3 <= manhattan_distance (position input_location) (position t) /\
  (t = output_location \/
   exists i, 0 <= i < dimension * 4 /\
     linear_to_outer_edge_pos dimension false i = Return t).
Proof.
  induction fuel as [|fuel IH]; intros output_location t draws rest; cbn [redraw_output];
    destruct (Z.ltb_spec (manhattan_distance (position input_location)
                            (position output_location)) 3) as [Hlt|Hge].
  - discriminate.
  - unfold rand_ret. intros H. injection H as <- _. split; [exact Hge|left; reflexivity].
  - intros H. apply rand_bind_inv in H as (t' & mid & Hd & Hr).
    apply random_outer_edge_pos_inv in Hd.
    destruct (IH t' t mid rest Hr) as [Hdist [->|Hi]].
    + split; [exact Hdist|right; exact Hd].
    + split; [exact Hdist|right; exact Hi].
  - unfold rand_ret. intros H. injection H as <- _. split; [exact Hge|left; reflexivity].
Qed.

Lemma random_position_inv (x_excl y_excl : Z) (draws rest : list Z) (p : Position) :
  random_position x_excl y_excl draws = Some (Return p, rest) ->
  0 <= x p < x_excl /\ 0 <= y p < y_excl.
Proof.
  unfold random_position. intros H.
  apply rand_bind_inv in H as (vx & mid & Hx & H).
  apply rand_bind_inv in H as (vy & mid' & Hy & H).
  apply randrange_inv in Hx as (_ & Hx & _). apply randrange_inv in Hy as (_ & Hy & _).
  unfold rand_ret in H. injection H as <- _. cbn. tauto.
Qed.

Lemma pick_wall_inv (tries : nat) (dimension : Z)
    (input_drop_location output_grab_location : Position)
    (wall_obstacles : list Position) :
  forall (draws rest : list Z) (wall_pos : Position),
  pick_wall tries dimension input_drop_location output_grab_location wall_obstacles draws
  = Some (Return wall_pos, rest) ->
  (0 <= x wall_pos < dimension /\ 0 <= y wall_pos < dimension) /\
  wall_pos <> input_drop_location /\ wall_pos <> output_grab_location /\
  wall_pos ∉ wall_obstacles.
Proof.
  induction tries as [|tries IH]; intros draws rest wall_pos; cbn [pick_wall];
    [discriminate|].
  intros H. apply rand_bind_inv in H as (w & mid & Hw & H).
  apply random_position_inv in Hw.
  destruct (decide (w = input_drop_location)) as [|Hd]; [apply (IH _ _ _ H)|].
  destruct (decide (w = output_grab_location)) as [|Hg]; [apply (IH _ _ _ H)|].
  destruct (contains w wall_obstacles) eqn:Hc; [apply (IH _ _ _ H)|].
  unfold rand_ret in H. injection H as <- _.
  split; [exact Hw|]. split; [exact Hd|]. split; [exact Hg|].
  unfold contains in Hc. apply bool_decide_eq_false in Hc. exact Hc.
Qed.

Lemma add_walls_inv (count : nat) (dimension : Z)
    (input_drop_location output_grab_location : Position) :
  forall (wall_obstacles walls : list Position) (draws rest : list Z),
  add_walls count dimension input_drop_location output_grab_location wall_obstacles draws
  = Some (Return walls, rest) ->
  exists new,
    walls = wall_obstacles ++ new /\ length new = count /\
    (NoDup wall_obstacles -> NoDup walls) /\
    Forall (fun w => (0 <= x w < dimension /\ 0 <= y w < dimension) /\
                     w <> input_drop_location /\ w <> output_grab_location) new.
Proof.
  induction count as [|count IH]; intros wall_obstacles walls draws rest; cbn [add_walls].
  - unfold rand_ret. intros H. injection H as <- _. exists []. rewrite app_nil_r.
    split; [reflexivity|]. split; [reflexivity|]. split; [tauto|constructor].
  - intros H. apply rand_bind_inv in H as (w & mid & Hw & H).
    apply pick_wall_inv in Hw as (Hin & Hd & Hg & Hfresh).
    destruct (IH _ _ _ _ H) as (new & -> & Hlen & Hnd & Hall).
    exists (w :: new). rewrite <- app_assoc. split; [reflexivity|].
    split; [cbn; lia|]. split.
    + intros Hw. rewrite app_assoc. apply Hnd. apply NoDup_app. split; [exact Hw|].
      split; [|apply NoDup_singleton].
      intros p Hp Hp'. apply list_elem_of_singleton in Hp'. subst p. contradiction.
    + constructor; [tauto|exact Hall].
Qed.

Lemma round_Z (q : Q) (z : Z) : (q == inject_Z z)%Q -> round q = z.
Proof.
  intros H. unfold round. rewrite (Qfloor_comp _ _ H), Qfloor_Z.
  assert (Hc : ((q - inject_Z z) ?= (1 # 2))%Q = Lt).
  { rewrite H. apply Qlt_alt. unfold Qminus. rewrite Qplus_opp_r. reflexivity. }
  rewrite Hc. reflexivity.
Qed.

Lemma _default_ticks_for_evaluation_eq (dimension : Z) :
  _default_ticks_for_evaluation dimension (_default_input_ore_quantity dimension)
  = 480 * dimension.
Proof.
  unfold _default_ticks_for_evaluation, _default_input_ore_quantity.
  apply round_Z.
  unfold _MAX_PATH_LENGTH_FACTOR, _MAX_ITEMS_PER_BELT_TILE, _FAST_INSERTER_TICKS_PER_ROTATION,
    _FAST_TRANSPORT_BELT_TRAVEL_SPEED.
  rewrite !inject_Z_mult. field.
Qed.

(** The tiles just outside the grid of side 1 are all within distance
    2 of each other. *)
Lemma ring_distance (dimension i k : Z) (tin tout : Transform) :
  0 <= i < dimension * 4 -> 0 <= k < dimension * 4 ->
  linear_to_outer_edge_pos dimension true i = Return tin ->
  linear_to_outer_edge_pos dimension false k = Return tout ->
  3 <= manhattan_distance (position tin) (position tout) ->
  2 <= dimension.
Proof.
  intros Hi Hk Hin Hout Hd.
  destruct (linear_to_outer_edge_pos_spec dimension i true Hi) as (o & Ho & Hi').
  destruct (linear_to_outer_edge_pos_spec dimension k false Hk) as (o' & Ho' & Hk').
  rewrite Hin in Hi'. rewrite Hout in Hk'. unfold manhattan_distance in Hd.
  destruct Hi' as [H|[H|[H|H]]]; injection H as ->;
    destruct Hk' as [H|[H|[H|H]]]; injection H as ->; cbn in Hd; lia.
Qed.

Lemma generate_problem_inv (fuel : nat) (dimension : Z) (draws rest : list Z)
    (p : Problem) :
  generate_problem fuel dimension draws = Some (Return p, rest) ->
  2 <= dimension /\ Problems.dimension p = dimension /\
  (exists i k,
     (0 <= i < dimension * 4 /\ 0 <= k < dimension * 4) /\
     linear_to_outer_edge_pos dimension true i = Return (input_location p) /\
     linear_to_outer_edge_pos dimension false k = Return (output_location p)) /\
  3 <= manhattan_distance (position (input_location p)) (position (output_location p)) /\
  length (wall_obstacles p) = Z.to_nat (dimension - 1) /\
  NoDup (wall_obstacles p) /\
  Forall (fun w =>
            (0 <= x w < dimension /\ 0 <= y w < dimension) /\
            w <> offset_pos (position (input_location p))
                   (direction (input_location p)) (-1) /\
            w <> offset_pos (position (output_location p))
                   (direction (output_location p)) 1)
         (wall_obstacles p) /\
  input_ore_quantity p = 16 * dimension /\
  ticks_for_evaluation p = 480 * dimension.
Proof.
  intros H. unfold generate_problem in H.
  apply rand_bind_inv in H as (tin & d1 & Hin & H).
  apply rand_bind_inv in H as (tout0 & d2 & Hout0 & H).
  apply rand_bind_inv in H as (tout & d3 & Hre & H).
  apply rand_bind_inv in H as (walls & d4 & Hw & H).
  unfold rand_ret in H. injection H as <- _.
  apply random_outer_edge_pos_inv in Hin as (i & Hi & Hin).
  apply random_outer_edge_pos_inv in Hout0 as (k0 & Hk0 & Hout0).
  apply redraw_output_inv in Hre as [Hdist Hout].
  assert (Hk : exists k, 0 <= k < dimension * 4 /\
                 linear_to_outer_edge_pos dimension false k = Return tout).
  { destruct Hout as [->|Hout]; [exists k0; tauto|exact Hout]. }
  destruct Hk as (k & Hk & Hout').
  apply add_walls_inv in Hw as (new & -> & Hlen & Hnd & Hall).
  cbn [Problem_init Problems.dimension input_location output_location wall_obstacles
       input_ore_quantity ticks_for_evaluation app].
  split; [apply (ring_distance dimension i k tin tout); assumption|].
  split; [reflexivity|].
  split; [exists i, k; tauto|]. split; [exact Hdist|]. split; [exact Hlen|].
  split; [apply Hnd; constructor|]. split; [exact Hall|].
  split; [unfold _default_input_ore_quantity, _MAX_PATH_LENGTH_FACTOR,
            _MAX_ITEMS_PER_BELT_TILE; lia|].
  apply _default_ticks_for_evaluation_eq.
Qed.

(** X28. Generated problems.  When [generate_problem] returns a problem:
    the side is at least 2; input and output inserter stand on the
    outer edge, at Manhattan distance 3 or more from each other; there
    are [dimension - 1] wall obstacles, all different, all inside the
    grid, none on the tile in front of the input inserter nor on the tile
    the output inserter takes from; the ore is [16 * dimension] and the
    evaluation lasts [480 * dimension] ticks.  With a side of 0 or less
    the call raises [ValueError] before it draws anything. *)
Theorem generated_problems (fuel : nat) (dimension : Z) (draws : list Z) :
  (forall p rest,
     generate_problem fuel dimension draws = Some (Return p, rest) ->
     2 <= dimension /\ Problems.dimension p = dimension /\
     (exists i k,
        (0 <= i < dimension * 4 /\ 0 <= k < dimension * 4) /\
        linear_to_outer_edge_pos dimension true i = Return (input_location p) /\
        linear_to_outer_edge_pos dimension false k = Return (output_location p)) /\
     3 <= manhattan_distance (position (input_location p)) (position (output_location p)) /\
     length (wall_obstacles p) = Z.to_nat (dimension - 1) /\
     NoDup (wall_obstacles p) /\
     Forall (fun w =>
               (0 <= x w < dimension /\ 0 <= y w < dimension) /\
               w <> offset_pos (position (input_location p))
                      (direction (input_location p)) (-1) /\
               w <> offset_pos (position (output_location p))
                      (direction (output_location p)) 1)
            (wall_obstacles p) /\
     input_ore_quantity p = 16 * dimension /\
     ticks_for_evaluation p = 480 * dimension) /\
  (dimension <= 0 -> generate_problem fuel dimension draws = Some (Raises ValueError, draws)).
Proof.
  split.
  - intros p rest. apply generate_problem_inv.
  - intros Hd. unfold generate_problem, rand_bind, random_outer_edge_pos, rand_bind, randrange.
    destruct (Z.leb_spec (dimension * 4) 0); [reflexivity|lia].
Qed.

Lemma generated_problems_witness :
  exists p rest,
    generate_problem 5 3 sample_draws = Some (Return p, rest) /\
    NoDup (wall_obstacles p) /\
    generate_problem 5 0 sample_draws = Some (Raises ValueError, sample_draws).
Proof.
  eexists _, _. split; [vm_compute; reflexivity|]. split.
  - refine (proj1 (proj2 (proj2 (proj2 (proj2 (proj2
              (proj1 (generated_problems 5 3 sample_draws) _ _ _))))))).
    vm_compute. reflexivity.
  - apply (proj2 (generated_problems 5 0 sample_draws)). lia.
Defined.

End ProblemsFacts.

(** ** The belt problem: the world of a problem *)

Module EvaluatorFacts.
Import Py World Problems ProblemsFacts Evaluator.

Local Open Scope string_scope.
Local Open Scope Z_scope.
Local Open Scope list_scope.

Ltac coords E :=
  let Hx := fresh "Hx" in
  let Hy := fresh "Hy" in
  pose proof (f_equal World.x E) as Hx; pose proof (f_equal World.y E) as Hy;
  cbn [World.x World.y] in Hx, Hy.

Lemma border_entity_pos (p : Problem) (x y : Z) (e : World.CreateEntityParams) :
  e ∈ border_entity p x y -> World.position e = Some (mk_Position x y).
Proof.
  unfold border_entity.
  repeat (destruct (decide _) as [Heq|_];
          [intros H; apply list_elem_of_singleton in H; subst e; cbn;
           rewrite <- Heq; reflexivity|]).
  destruct (_ || _); intros H; [|apply elem_of_nil in H; contradiction].
  apply list_elem_of_singleton in H. subst e. reflexivity.
Qed.

Lemma border_entity_one (p : Problem) (x y : Z) (e1 e2 : World.CreateEntityParams) :
  e1 ∈ border_entity p x y -> e2 ∈ border_entity p x y -> e1 = e2.
Proof.
  unfold border_entity.
  repeat (destruct (decide _);
          [intros H1 H2; apply list_elem_of_singleton in H1, H2; congruence|]).
  destruct (_ || _); intros H1 H2; [|apply elem_of_nil in H1; contradiction].
  apply list_elem_of_singleton in H1, H2. congruence.
Qed.

Lemma border_entity_NoDup (p : Problem) (x y : Z) : NoDup (border_entity p x y).
Proof.
  unfold border_entity.
  repeat (destruct (decide _); [apply NoDup_singleton|]).
  destruct (_ || _); [apply NoDup_singleton|constructor].
Qed.

(** Outside the grid every tile gets an entity. *)
Lemma border_entity_outside (p : Problem) (x y : Z) :
  ~ (0 <= x < dimension p /\ 0 <= y < dimension p) ->
  exists e, border_entity p x y = [e].
Proof.
  intros Hout. unfold border_entity.
  repeat (destruct (decide _); [eexists; reflexivity|]). cbn [World.x World.y].
  destruct (Z.ltb_spec x 0); [eexists; reflexivity|].
  destruct (Z.ltb_spec y 0); [eexists; reflexivity|].
  destruct (Z.leb_spec (dimension p) x); [eexists; reflexivity|].
  destruct (Z.leb_spec (dimension p) y); [eexists; reflexivity|]. lia.
Qed.

(** Inside the grid a tile gets one only if an inserter or a chest is
    there. *)
Lemma border_entity_inside (p : Problem) (x y : Z) (e : World.CreateEntityParams) :
  0 <= x < dimension p /\ 0 <= y < dimension p ->
  e ∈ border_entity p x y ->
  mk_Position x y = position (input_location p) \/
  mk_Position x y = position (output_location p) \/
  mk_Position x y = get_input_chest_pos p \/
  mk_Position x y = get_output_chest_pos p.
Proof.
  intros Hin. unfold border_entity.
  repeat (destruct (decide _) as [Heq|_]; [tauto|]). cbn [World.x World.y].
  destruct (Z.ltb_spec x 0); [lia|]. destruct (Z.ltb_spec y 0); [lia|].
  destruct (Z.leb_spec (dimension p) x); [lia|].
  destruct (Z.leb_spec (dimension p) y); [lia|].
  cbn. intros Hnil. apply elem_of_nil in Hnil. contradiction.
Qed.

Lemma border_entity_kind (p : Problem) (x y : Z) (e : World.CreateEntityParams) :
  e ∈ border_entity p x y ->
  (mk_Position x y = position (input_location p) ->
   e = CreateEntityParams "fle-void-fast-inserter" (position (input_location p))
         (direction (input_location p))) /\
  (mk_Position x y <> position (input_location p) ->
   mk_Position x y = position (output_location p) ->
   e = CreateEntityParams "fle-void-fast-inserter" (position (output_location p))
         (direction (output_location p))) /\
  (mk_Position x y <> position (input_location p) ->
   mk_Position x y <> position (output_location p) ->
   mk_Position x y = get_input_chest_pos p \/ mk_Position x y = get_output_chest_pos p ->
   e = CreateEntityParams "steel-chest" (mk_Position x y) north) /\
  (mk_Position x y <> position (input_location p) ->
   mk_Position x y <> position (output_location p) ->
   mk_Position x y <> get_input_chest_pos p ->
   mk_Position x y <> get_output_chest_pos p ->
   e = CreateEntityParams "stone-wall" (mk_Position x y) north).
Proof.
  unfold border_entity.
  destruct (decide (mk_Position x y = position (input_location p))) as [E1|N1].
  { intros H. apply list_elem_of_singleton in H. subst e. repeat split; tauto. }
  destruct (decide (mk_Position x y = position (output_location p))) as [E2|N2].
  { intros H. apply list_elem_of_singleton in H. subst e. repeat split; tauto. }
  destruct (decide (mk_Position x y = get_input_chest_pos p)) as [E3|N3].
  { intros H. apply list_elem_of_singleton in H. subst e. rewrite <- E3.
    repeat split; tauto. }
  destruct (decide (mk_Position x y = get_output_chest_pos p)) as [E4|N4].
  { intros H. apply list_elem_of_singleton in H. subst e. rewrite <- E4.
    repeat split; tauto. }
  destruct (_ || _); intros H; [|apply elem_of_nil in H; contradiction].
  apply list_elem_of_singleton in H. subst e. repeat split; tauto.
Qed.

Lemma elem_of_border_range (dimension v : Z) :
  v ∈ border_range dimension <-> -2 <= v < dimension + 2.
Proof. unfold border_range. rewrite elem_of_seqZ. lia. Qed.

Lemma elem_of_create_world_entities (p : Problem) (e : World.CreateEntityParams) :
  e ∈ create_world_entities p <->
  (exists x y, (-2 <= x < dimension p + 2 /\ -2 <= y < dimension p + 2) /\
               e ∈ border_entity p x y) \/
  (exists w, w ∈ wall_obstacles p /\ e = CreateEntityParams "stone-wall" w north).
Proof.
  unfold create_world_entities. rewrite elem_of_app. split.
  - intros [H|H].
    + apply list_elem_of_bind in H as (x & H & Hx).
      apply list_elem_of_bind in H as (y & H & Hy).
      apply elem_of_border_range in Hx, Hy. left. exists x, y. tauto.
    + apply list_elem_of_fmap in H as (w & -> & Hw). right. exists w. tauto.
  - intros [(x & y & [Hx Hy] & H)|(w & Hw & ->)].
    + left. apply list_elem_of_bind. exists x. split; [|apply elem_of_border_range; exact Hx].
      apply list_elem_of_bind. exists y. split; [exact H|apply elem_of_border_range; exact Hy].
    + right. apply list_elem_of_fmap. exists w. tauto.
Qed.

(** Where the inserter and its chest are, for an index of the outer
    edge. *)
Lemma edge_tiles (dimension i : Z) (for_input : bool) (t : Transform) :
  0 <= i < dimension * 4 ->
  linear_to_outer_edge_pos dimension for_input i = Return t ->
  let pos := position t in
  let chest := offset_pos pos (direction t) (if for_input then 1 else -1) in
  ((x pos = -1 \/ x pos = dimension) /\ 0 <= y pos < dimension /\
   (x chest = -2 \/ x chest = dimension + 1) /\ y chest = y pos) \/
  ((y pos = -1 \/ y pos = dimension) /\ 0 <= x pos < dimension /\
   (y chest = -2 \/ y chest = dimension + 1) /\ x chest = x pos).
Proof.
  intros Hi Ht.
  destruct (linear_to_outer_edge_pos_spec dimension i for_input Hi) as (o & Ho & H).
  rewrite Ht in H. unfold offset_pos.
  destruct H as [H|[H|[H|H]]]; injection H as ->; destruct for_input; cbn; lia.
Qed.

Lemma create_world_entities_spec (p : Problem) (i k : Z) :
  0 <= i < dimension p * 4 -> 0 <= k < dimension p * 4 ->
  linear_to_outer_edge_pos (dimension p) true i = Return (input_location p) ->
  linear_to_outer_edge_pos (dimension p) false k = Return (output_location p) ->
  position (input_location p) <> position (output_location p) ->
  NoDup (wall_obstacles p) ->
  Forall (fun w => 0 <= x w < dimension p /\ 0 <= y w < dimension p) (wall_obstacles p) ->
  NoDup (World.position <$> create_world_entities p) /\
  (forall x y,
     -2 <= x < dimension p + 2 -> -2 <= y < dimension p + 2 ->
     ~ (0 <= x < dimension p /\ 0 <= y < dimension p) ->
     exists e, e ∈ create_world_entities p /\ World.position e = Some (mk_Position x y)) /\
  (forall e, e ∈ create_world_entities p ->
     exists x y,
       World.position e = Some (mk_Position x y) /\
       (-2 <= x < dimension p + 2 /\ -2 <= y < dimension p + 2) /\
       (0 <= x < dimension p /\ 0 <= y < dimension p ->
        mk_Position x y ∈ wall_obstacles p /\
        e = CreateEntityParams "stone-wall" (mk_Position x y) north)) /\
  (forall e, e ∈ create_world_entities p ->
     (World.position e = Some (position (input_location p)) ->
      e = CreateEntityParams "fle-void-fast-inserter" (position (input_location p))
            (direction (input_location p))) /\
     (World.position e = Some (position (output_location p)) ->
      e = CreateEntityParams "fle-void-fast-inserter" (position (output_location p))
            (direction (output_location p))) /\
     (World.position e = Some (get_input_chest_pos p) \/
      World.position e = Some (get_output_chest_pos p) ->
      World.name e = "steel-chest") /\
     (World.position e <> Some (position (input_location p)) ->
      World.position e <> Some (position (output_location p)) ->
      World.position e <> Some (get_input_chest_pos p) ->
      World.position e <> Some (get_output_chest_pos p) ->
      World.name e = "stone-wall")).
Proof.
  intros Hi Hk Hin Hout Hne Hnd Hwalls.
  pose proof (edge_tiles (dimension p) i true (input_location p) Hi Hin) as Gin.
  pose proof (edge_tiles (dimension p) k false (output_location p) Hk Hout) as Gout.
  cbv beta zeta iota in Gin, Gout.
  change (offset_pos (position (input_location p)) (direction (input_location p)) 1)
    with (get_input_chest_pos p) in Gin.
  change (offset_pos (position (output_location p)) (direction (output_location p)) (-1))
    with (get_output_chest_pos p) in Gout.
  remember (position (input_location p)) as pin eqn:Epin.
  remember (position (output_location p)) as pout eqn:Epout.
  remember (get_input_chest_pos p) as cin eqn:Ecin.
  remember (get_output_chest_pos p) as cout eqn:Ecout.
  remember (dimension p) as d eqn:Ed.
  assert (Hspecial : forall x y e, e ∈ border_entity p x y ->
            ~ (0 <= x < d /\ 0 <= y < d)).
  { intros x y e He Hgrid. rewrite Ed in Hgrid.
    destruct (border_entity_inside p x y e Hgrid He) as [E|[E|[E|E]]];
      rewrite <- ?Epin, <- ?Epout, <- ?Ecin, <- ?Ecout, <- ?Ed in *; coords E; lia. }
  rewrite Forall_forall in Hwalls.
  split; [|split; [|split]].
  - unfold create_world_entities. rewrite fmap_app. apply NoDup_app. split; [|split].
    + apply NoDup_fmap_2_strong.
      * intros e1 e2 H1 H2 Hpos.
        apply list_elem_of_bind in H1 as (x1 & H1 & _).
        apply list_elem_of_bind in H1 as (y1 & H1 & _).
        apply list_elem_of_bind in H2 as (x2 & H2 & _).
        apply list_elem_of_bind in H2 as (y2 & H2 & _).
        pose proof (border_entity_pos _ _ _ _ H1) as P1.
        pose proof (border_entity_pos _ _ _ _ H2) as P2.
        rewrite P1, P2 in Hpos. injection Hpos as <- <-.
        apply (border_entity_one p x1 y1); assumption.
      * apply NoDup_bind; [| |apply NoDup_seqZ].
        -- intros x1 x2 e _ _ H1 H2.
           apply list_elem_of_bind in H1 as (y1 & H1 & _).
           apply list_elem_of_bind in H2 as (y2 & H2 & _).
           pose proof (border_entity_pos _ _ _ _ H1) as P1.
           pose proof (border_entity_pos _ _ _ _ H2) as P2.
           rewrite P1 in P2. injection P2 as <- _. reflexivity.
        -- intros x _. apply NoDup_bind; [| |apply NoDup_seqZ].
           ++ intros y1 y2 e _ _ H1 H2.
              pose proof (border_entity_pos _ _ _ _ H1) as P1.
              pose proof (border_entity_pos _ _ _ _ H2) as P2.
              rewrite P1 in P2. injection P2 as <-. reflexivity.
           ++ intros y _. apply border_entity_NoDup.
    + intros pos H1 H2.
      apply list_elem_of_fmap in H1 as (e1 & -> & H1).
      apply list_elem_of_bind in H1 as (x1 & H1 & _).
      apply list_elem_of_bind in H1 as (y1 & H1 & _).
      apply list_elem_of_fmap in H2 as (e2 & Hpos & H2).
      apply list_elem_of_fmap in H2 as (w & -> & Hw).
      rewrite (border_entity_pos _ _ _ _ H1) in Hpos. cbn in Hpos. injection Hpos as <-.
      apply (Hspecial x1 y1 e1 H1). apply (Hwalls _ Hw).
    + rewrite <- list_fmap_compose.
      apply (NoDup_fmap_2 (fun w => Some w)). exact Hnd.
  - intros x y Hx Hy Hgrid.
    assert (Hgrid' : ~ (0 <= x < dimension p /\ 0 <= y < dimension p))
      by (rewrite <- Ed; exact Hgrid).
    destruct (border_entity_outside p x y Hgrid') as [e He].
    exists e. split.
    + apply elem_of_create_world_entities. left. exists x, y. rewrite <- Ed.
      split; [split; assumption|]. rewrite He. apply list_elem_of_here.
    + apply (border_entity_pos p x y). rewrite He. apply list_elem_of_here.
  - intros e He. apply elem_of_create_world_entities in He
      as [(x & y & Hband & He)|(w & Hw & ->)].
    + exists x, y. split; [apply (border_entity_pos p x y e He)|].
      rewrite <- Ed in Hband. split; [exact Hband|].
      intros Hgrid. exfalso. apply (Hspecial x y e He Hgrid).
    + exists (x w), (y w). destruct w as [wx wy]. cbn.
      split; [reflexivity|]. specialize (Hwalls _ Hw). cbn in Hwalls.
      split; [lia|]. intros _. split; [exact Hw|reflexivity].
  - intros e He. apply elem_of_create_world_entities in He
      as [(x & y & Hband & He)|(w & Hw & ->)].
    + pose proof (border_entity_pos p x y e He) as Hpos.
      destruct (border_entity_kind p x y e He) as (K1 & K2 & K3 & K4).
      rewrite <- ?Epin, <- ?Epout, <- ?Ecin, <- ?Ecout in *.
      rewrite Hpos. split; [|split; [|split]].
      * intros E. injection E as E. apply K1. exact E.
      * intros E. injection E as E. apply K2; [|exact E]. rewrite E. congruence.
      * intros E.
        assert (E' : mk_Position x y = cin \/ mk_Position x y = cout)
          by (destruct E as [E|E]; injection E as E; [left|right]; exact E).
        rewrite K3; [reflexivity| | |exact E'];
          intros Eq; coords Eq; destruct E' as [E'|E']; coords E'; lia.
      * intros N1 N2 N3 N4. rewrite K4; [reflexivity|congruence..].
    + specialize (Hwalls _ Hw). cbn.
      split; [|split; [|split]].
      * intros E. injection E as ->. lia.
      * intros E. injection E as ->. lia.
      * intros [E|E]; injection E as ->; lia.
      * reflexivity.
Qed.

(** X29. The world of a generated problem.  The entities that
    [create_world] asks for, for a problem that [generate_problem]
    returned: no two of them share a tile; every tile of the two-tile
    border around the grid gets one, so the grid is closed; inside the
    grid there are only the wall obstacles of the problem, as stone
    walls; the entity on the tile of an inserter is that inserter with
    its direction, the one on a chest tile is a steel chest, and all
    the others are stone walls. *)
Theorem generated_world_is_closed (fuel : nat) (dimension : Z) (draws rest : list Z)
    (p : Problem) :
  generate_problem fuel dimension draws = Some (Return p, rest) ->
  NoDup (World.position <$> create_world_entities p) /\
  (forall x y,
     -2 <= x < dimension + 2 -> -2 <= y < dimension + 2 ->
     ~ (0 <= x < dimension /\ 0 <= y < dimension) ->
     exists e, e ∈ create_world_entities p /\ World.position e = Some (mk_Position x y)) /\
  (forall e, e ∈ create_world_entities p ->
     exists x y,
       World.position e = Some (mk_Position x y) /\
       (-2 <= x < dimension + 2 /\ -2 <= y < dimension + 2) /\
       (0 <= x < dimension /\ 0 <= y < dimension ->
        mk_Position x y ∈ wall_obstacles p /\
        e = CreateEntityParams "stone-wall" (mk_Position x y) north)) /\
  (forall e, e ∈ create_world_entities p ->
     (World.position e = Some (position (input_location p)) ->
      e = CreateEntityParams "fle-void-fast-inserter" (position (input_location p))
            (direction (input_location p))) /\
     (World.position e = Some (position (output_location p)) ->
      e = CreateEntityParams "fle-void-fast-inserter" (position (output_location p))
            (direction (output_location p))) /\
     (World.position e = Some (get_input_chest_pos p) \/
      World.position e = Some (get_output_chest_pos p) ->
      World.name e = "steel-chest") /\
     (World.position e <> Some (position (input_location p)) ->
      World.position e <> Some (position (output_location p)) ->
      World.position e <> Some (get_input_chest_pos p) ->
      World.position e <> Some (get_output_chest_pos p) ->
      World.name e = "stone-wall")).
Proof.
  intros H.
  destruct (generate_problem_inv fuel dimension draws rest p H)
    as (_ & Hd & (i & k & [Hi Hk] & Hin & Hout) & Hdist & _ & Hnd & Hwalls & _).
  subst dimension.
  apply (create_world_entities_spec p i k Hi Hk Hin Hout); [|exact Hnd|].
  - intros E. rewrite E in Hdist. unfold manhattan_distance in Hdist. lia.
  - eapply Forall_impl; [exact Hwalls|]. cbn. tauto.
Qed.

Lemma generated_world_is_closed_witness :
  exists p, NoDup (World.position <$> create_world_entities p) /\ dimension p = 3.
Proof.
  destruct (generate_problem 5 3 sample_draws) as [[[p|e] rest]|] eqn:E;
    try (vm_compute in E; discriminate E).
  exists p. split.
  - apply (proj1 (generated_world_is_closed 5 3 sample_draws rest p E)).
  - vm_compute in E. injection E as <- _. reflexivity.
Defined.

Import Text WorldFacts.

(** *** Evaluating a solution *)

Lemma decode_col_belts (x : Z) (col : list Z) :
  forall (y : Z) (acc l : list World.CreateEntityParams),
  Forall (fun e => World.name e = "fast-transport-belt" /\
                   World.force e = Some "player" /\ World.surface e = "nauvis") acc ->
  Encoding.decode_col x y col acc = Return l ->
  Forall (fun e => World.name e = "fast-transport-belt" /\
                   World.force e = Some "player" /\ World.surface e = "nauvis") l.
Proof.
  induction col as [|v col IH]; intros y acc l Hacc Hrun.
  - cbn in Hrun. injection Hrun as <-. exact Hacc.
  - cbn [Encoding.decode_col] in Hrun.
    destruct (Encoding.decode_entity v) as [[nd|]|ex]; cbn [bind] in Hrun;
      [|exact (IH _ _ _ Hacc Hrun)|discriminate Hrun].
    destruct (String.eqb_spec (Encoding.name nd) "fast-transport-belt") as [Hn|_];
      [|exact (IH _ _ _ Hacc Hrun)].
    refine (IH _ _ _ _ Hrun). apply Forall_app. split; [exact Hacc|].
    constructor; [|constructor]. cbn. split; [exact Hn|split; reflexivity].
Qed.

Lemma decode_rows_belts (dimension : Z) (matrix : ndarray) :
  forall (x : Z) (acc l : list World.CreateEntityParams),
  Forall (fun e => World.name e = "fast-transport-belt" /\
                   World.force e = Some "player" /\ World.surface e = "nauvis") acc ->
  Encoding.decode_rows dimension x matrix acc = Return l ->
  Forall (fun e => World.name e = "fast-transport-belt" /\
                   World.force e = Some "player" /\ World.surface e = "nauvis") l.
Proof.
  induction matrix as [|col matrix IH]; intros x acc l Hacc Hrun.
  - cbn in Hrun. injection Hrun as <-. exact Hacc.
  - cbn [Encoding.decode_rows] in Hrun.
    destruct (negb _); [discriminate Hrun|].
    destruct (Encoding.decode_col x 0 col acc) as [acc'|ex] eqn:Ec; cbn [bind] in Hrun;
      [|discriminate Hrun].
    exact (IH _ _ _ (decode_col_belts _ _ _ _ _ Hacc Ec) Hrun).
Qed.

Lemma decode_action_belts_only (dimension : Z) (matrix : ndarray)
    (l : list World.CreateEntityParams) :
  Encoding.decode_action dimension matrix = Return l ->
  Forall (fun e => World.name e = "fast-transport-belt" /\
                   World.force e = Some "player" /\ World.surface e = "nauvis") l.
Proof.
  unfold Encoding.decode_action. destruct (negb _); [discriminate|].
  apply decode_rows_belts. constructor.
Qed.

Section FitnessFacts.
Context {json_lib : JsonLib}.

Lemma call_mod_script (return_type : ReturnType) (method : string)
    (params : option (list json)) (reply : res string) (replies : list (res string))
    (sent0 : list string) :
  str_in "'" (serialize_request method params) = false ->
  call_mod return_type method params (mk_script (reply :: replies) sent0) =
  (serialized_response <- reply ;;; read_response return_type serialized_response,
   mk_script replies (sent0 ++ [rpc_command (serialize_request method params)])).
Proof. intros Hq. unfold call_mod. rewrite Hq. reflexivity. Qed.

(** The requests that ask the world for the entities of an action. *)
Lemma gather_script (belts : list World.CreateEntityParams) :
  forall (answers : list string) (rest : list (res string)) (sent0 : list string),
  Forall (fun e => World.name e = "fast-transport-belt" /\
                   World.force e = Some "player" /\ World.surface e = "nauvis") belts ->
  length answers = length belts ->
  gather (create_entity_calls belts) (mk_script (map Ok answers ++ rest) sent0) =
  (map (read_response Returns_Optional_EntityDescription) answers,
   mk_script rest
     (sent0 ++ map (fun e => rpc_command (serialize_request "create_entity"
                                            (Some [unstructure_CreateEntityParams e])))
                   belts)).
Proof.
  induction belts as [|e belts IH]; intros answers rest sent0 Hb Hlen.
  - destruct answers; [|discriminate Hlen]. cbn. rewrite app_nil_r. reflexivity.
  - destruct answers as [|a answers]; [discriminate Hlen|].
    apply Forall_cons in Hb as [(Hn & Hf & Hs) Hb].
    cbn [create_entity_calls map gather app].
    rewrite call_mod_script.
    + cbn [rbind]. fold (create_entity_calls belts).
      rewrite (IH answers rest _ Hb ltac:(cbn in Hlen; lia)).
      rewrite <- app_assoc. reflexivity.
    + rewrite create_entity_quote, Hn, Hf, Hs. reflexivity.
Qed.

Lemma structure_items_ints (fields : list (string * json)) :
  forall fields', structure_items fields = Ok fields' ->
  Forall (fun kv => exists n, snd kv = JInt n) fields'.
Proof.
  induction fields as [|[k v] fields IH]; intros fields' H.
  - injection H as <-. constructor.
  - cbn [structure_items] in H.
    destruct (structure_int v) as [v'|e] eqn:Ev; cbn [rbind] in H; [|discriminate H].
    destruct (structure_items fields) as [rest|e]; cbn [rbind] in H; [|discriminate H].
    injection H as <-. constructor; [|apply IH; reflexivity].
    cbn [snd]. destruct v; cbn in Ev; try discriminate Ev.
    + injection Ev as <-. eauto.
    + injection Ev as <-. eauto.
    + destruct (int s); [injection Ev as <-; eauto|discriminate Ev].
Qed.

(** What [call_mod] returns for an inventory is an object whose values
    are integers. *)
Lemma read_response_inventory (reply : string) (v : option json) :
  read_response Returns_Dict_str_int reply = Ok v ->
  exists fields, v = Some (JObj fields) /\
                 Forall (fun kv => exists n, snd kv = JInt n) fields.
Proof.
  unfold read_response. destruct (loads reply) as [j|e]; cbn [rbind]; [|discriminate].
  unfold structure_RpcResponse. destruct j; try discriminate.
  destruct (get "result" fields) as [r|] eqn:Er.
  - destruct (match r with JNull => Ok None | _ => _ end) as [r'|e] eqn:Es;
      cbn [rbind]; [|destruct r; cbn [rbind] in *; discriminate].
    assert (Hr' : r' = None \/ exists f, r' = Some (JObj f) /\
                    Forall (fun kv => exists n, snd kv = JInt n) f).
    { destruct r; try (cbn in Es; discriminate Es).
      - injection Es as <-. left. reflexivity.
      - cbn [structure Returns_Dict_str_int structure_Dict_str_int] in Es.
        destruct (structure_items fields0) as [f|e] eqn:Ef; cbn [rbind] in Es;
          [|discriminate Es].
        injection Es as <-. right. exists f. split; [reflexivity|].
        apply (structure_items_ints _ _ Ef). }
    destruct (match get "error" fields with Some JNull | None => Ok None | _ => _ end)
      as [err|e]; cbn [rbind error result]; [|discriminate].
    destruct err; [discriminate|].
    destruct Hr' as [->|(f & -> & Hf)]; cbn; [discriminate|].
    intros H. injection H as <-. eauto.
  - cbn [rbind].
    destruct (match get "error" fields with Some JNull | None => Ok None | _ => _ end)
      as [err|e]; cbn [rbind error result]; [|discriminate].
    destruct err; discriminate.
Qed.

Lemma _get_iron_ore_quantity_script (chest : json) (reply : string)
    (replies : list (res string)) (sent0 : list string) (fields : list (string * json)) :
  str_in "'" (serialize_request "get_inventory_contents" (Some [chest])) = false ->
  read_response Returns_Dict_str_int reply = Ok (Some (JObj fields)) ->
  _get_iron_ore_quantity chest (mk_script (Ok reply :: replies) sent0) =
  (Ok (match get "iron-ore" fields with Some (JInt n) => n | _ => 0 end),
   mk_script replies
     (sent0 ++ [rpc_command (serialize_request "get_inventory_contents" (Some [chest]))])).
Proof.
  intros Hq Hr. unfold _get_iron_ore_quantity, get_inventory_contents.
  rewrite call_mod_script by exact Hq. cbn [rbind]. rewrite Hr. cbn [rbind].
  destruct (read_response_inventory reply _ Hr) as (f & Hf & Hints).
  injection Hf as <-.
  destruct (get "iron-ore" fields) as [v|] eqn:Eg; [|reflexivity].
  assert (Hv : exists n, v = JInt n).
  { clear -Eg Hints. induction fields as [|[k x] fields IH]; [discriminate Eg|].
    apply Forall_cons in Hints as [Hx Hints]. cbn [get] in Eg.
    destruct (String.eqb k "iron-ore").
    - injection Eg as <-. exact Hx.
    - exact (IH Hints Eg). }
  destruct Hv as [n ->]. reflexivity.
Qed.

End FitnessFacts.


End EvaluatorFacts.
